(* ===== verification/_CoqProject ===== *)
-Q . S2P
Prelude.v
Dll.v
CursorList.v
NbuList.v
NbuListSpec.v
NbuListRefine.v
NbuListAlg.v
CString.v
NbuString.v
NbuNet.v
EwfHdf.v
EwfSession.v
EwfSessionProofs.v
EwfSmith.v
EwfSmithProofs.v
EwfDispatch.v
EwfDispatchProofs.v
EtkFifo.v
EtkFifoProofs.v
EtkList.v
EtkListProofs.v
EtkDict.v
EtkDictProofs.v
EtkString.v
EtkStringProofs.v
EtkSeq.v
EtkSeqProofs.v
EtkXdev.v
EtkXdevProofs.v
NbdCore.v
NbdQueries.v
NbdServices.v
NbdVoip.v
NbdVoipProofs.v
NbdProofs.v
ApiSession.v
Api.v
ApiProofs.v
ApiLink.v
ApiCtl.v
ApiCtlProofs.v
LanTopology.v
LanTopologyProofs.v
Www.v
WwwPages.v
WwwStorage.v
WwwProofs.v
