(* ===== verification/Prelude.v ===== *)
(** * A verification library of the Neufbox firmware's own programs

    The firmware of the box is an OpenWrt tree; the programs its makers wrote are under
    [src/efixo].  This library models the part of them that carries the logic: the base
    libraries libnbu and libetk, the web framework libewf with its access control, the
    client library libnbd of the configuration daemon, the REST API daemon with its
    methods, the daemon that keeps the topology of the LAN, and the web site of the box.
    The definitions are executable translations of the C functions and keep their names.

    ** The machine

    The boxes are 32-bit big-endian MIPS machines.  An [int] or a [size_t] is a [Z] with
    its wrap-around written out ([s32], [u32], [u8]).  A C function is a value of
    [outcome] or, when it has a state, a command [cmd S A = S → outcome (A * S)] of this
    file: [Ret] is a return, [Undef] is what the C standard leaves undefined (a NULL or
    freed pointer, an access outside an object), [Abort] is a failed [assert], [NoFuel] is
    a loop that runs out of fuel.  Memory allocation takes from a budget ([h_avail] of
    the heap) so that every [malloc] may fail.  A buffer is a list of bytes of the size
    of the object; [CString] gives the reads and writes with their bounds and what the
    standard library does on texts.  What a command may do to its store is a relation
    [R], and [within R m] says that [m] never does more; it is closed under the
    combinators, so that a long program is bounded by walking over its text.

    ** Files, and the source each one models

    - [Prelude]: outcomes, commands, machine integers, loops over a cursor, [within],
      tactics.
    - [Dll], [CursorList]: doubly linked cells on a heap; the class [CursorList] is what
      a list promises to a loop over it, with one rule for loops that stop early and
      delete on the way.
    - [NbuList] ([efixo-libnbu/src/src/list.c] and the macro of [list.h]): cells, headers,
      cursor, terminators.  [NbuListSpec] has the symbolic execution of each operation,
      [NbuListRefine] an abstract sequence with a cursor and the simulation,
      [NbuListAlg] sorting, search, destruction, and the instance of [CursorList].
    - [CString], [NbuString] ([string.c], [file.c]), [NbuNet] ([net.c]): texts in
      buffers, printing, splitting, addresses and masks.
    - [EwfHdf] ([efixo-libewf/src/src/ewf_hdf.c], [core/ewf_secure.c],
      [core/ewf_config.c], [ewf_utils.c]): values of a request and of a page.  The class
      [Hdf] is what ClearSilver's data set promises.
    - [EwfSession], [EwfSessionProofs] ([core/ewf_session.c]): the session list, over the
      list of [NbuList] and a store of the sessions it points to.
    - [EwfSmith], [EwfSmithProofs] ([core/ewf_smith.c], [ewf_crypto.c], the challenge
      handler of [efixo-www/src/src/wui/login.c]): access control, login, logout.
    - [EwfDispatch], [EwfDispatchProofs] ([core/ewf_request.c], [core/ewf_dispatcher.c],
      [core/ewf_controller.c], [core/ewf_renderer.c], [ewf_page.c], [ewf_utils.c]): from a
      request to its page, the handlers run and what is sent.
    - [EtkFifo], [EtkFifoProofs] ([efixo-libetk/src/src/fifo.c], [include/etk/fifo.h],
      [include/etk/math.h]): the ring buffer, bytes and records.
    - [EtkList], [EtkListProofs] ([include/etk/list.h]): the circular list, as links on a
      heap, with its iterators.
    - [EtkDict], [EtkDictProofs] ([dict.c], [include/etk/dict.h]): the dictionary, over
      those links, on a store of the entries and of the strings that are allocated, each
      under its address.
    - [EtkString], [EtkStringProofs] ([strlcpy.c], [strlcat.c], [safe_strtoul.c],
      [pack.c], [http.c], [net_sprint.c] and the like): strings, numbers, addresses.
    - [EtkSeq], [EtkSeqProofs] ([seq_file.c]): text buffers that never overflow.
    - [EtkXdev], [EtkXdevProofs] ([xdev.c]): the block devices, their slices and the file
      systems recognised on them.
    - [NbdCore], [NbdProofs] ([efixo-libnbd/src/lib/core.c]): frames and answers on a
      stream socket, signals, short writes, reconnection.
    - [NbdQueries] ([nvram.c], [status.c], [autoconf.c], [nbctl.c]) and [NbdServices] (the
      queries to the services: [lan.c], [firewall.c], [nat.c], [wlan.c] and the rest of
      the directory): the queries, against the class [NbdOps]; the link of [NbdCore] is
      an instance.
    - [NbdVoip], [NbdVoipProofs] ([voip.c]): the call in progress, the call log and the
      upgrade permission that hangs on it.
    - [ApiSession], [Api], [ApiProofs] ([efixo-api/src/src/ewf_session.c],
      [api_common.c], [ewf_http.c], [ewf_fastcgi.c], [ewf_hashtable.c], [ewf_crypto.c],
      [ctl/auth.c]): the daemon's sessions, method table, dispatch, access check, and the
      two methods that make and activate a token.
    - [ApiLink]: the API over the socket, from the link's theorems and the API's.
    - [ApiCtl], [ApiCtlProofs] ([ctl/*.c], [cfg.c], [nbl_trash.c]): the fifty methods of
      the services and the table they are registered in.
    - [LanTopology], [LanTopologyProofs] ([efixo-lan-topology/src]): the loop of the
      daemon, its timer, its plugins (neighbours, power line, SSDP) and its host list.
    - [Www] ([efixo-www/src/src]: [dbl.h], [dbl.c], [nbl_*.c], [main.c], [kit/*.c] and the
      macros of [ewf_hdf.h]): the transactions on the configuration, the helpers of the
      pages, the installation kit.  [WwwPages] ([wui/*.c], [stb/stb_info.c]): the display,
      form and ajax handlers of the pages, and the tables they are registered in.
      [WwwStorage] (more of [wui/*.c]): the shares, the disks, the profile of the line, the
      language.  [WwwProofs]: their transactions, and who may change what through them.

    ** How the parts interact

    A request of the web server or of the API is a data set ([Hdf]).  The handler looks
    its session up in the session list, which is a list of libnbu; the lists' loops are
    the cursor loops of [CursorList], so that the theorems on sessions use the promise
    and not the cells.  The API asks the configuration daemon through libnbd; its
    theorems are proved for every [NbdOps], which the socket link implements:
    [checkToken_over_the_link] puts the two together.  The methods of the API run behind
    its dispatch, so that [api_outsider_harmless] speaks of a whole request: of the table
    that [register_methods] fills, the access check, and the method's text.  The LAN
    topology daemon uses the lists of libetk and asks through libnbd as well.  A page of the
    web site reads its request through [EwfHdf], checks it with [NbuString] and [NbuNet],
    and asks through libnbd; its theorems are about the history of the queries asked, for
    every daemon that answers them ([every_daemon]).

    ** What the theorems show

    - Refinement: any sequence of operations on a list behaves as on an abstract sequence
      with a cursor, undefined behaviour and failed allocations included
      ([nbu_list_refines_sequence]); links behave as circular sequences
      ([etk_list_refines_sequences]), a dictionary as an association list, its entries and
      strings never used after they are freed, freed once and none lost
      ([dict_refines_alist]), a text buffer as a bounded text
      ([seq_printf_refines_bounded_text]); the ring buffer behaves as a bounded queue of
      bytes, or of records, across the wrap-around of its indices
      ([fifo_refines_byte_queue], [fifo_rec_refines_record_queue]).
    - Access: who is let in by the web server ([ewf_smith_access_control_spec],
      [ewf_smith_login_passwd_challenge], [ewf_smith_logout_ends_session]), that a page's
      handlers run for them only, and which of them, the login page sending them home
      ([ewf_dispatcher_guards_pages]), and the same of the API
      ([api_private_method_guarded], [checkToken_passwd], [checkToken_button],
      [getToken_bounded]: one session more than the documented 64); sessions end in time
      ([ewf_session_list_cleaner_spec]).
    - The methods of the API: all are in the table ([api_methods_registered]); but for
      auth.checkToken, which compares with the stored login and password and releases the
      button, those that write are posted and private and those that are public ask for no
      secret ([ctl_methods_rights]), and a caller who is not let in makes the daemon change
      nothing and tell no secret ([api_outsider_harmless]); [setWlanMode_spec] gives a
      method that writes in full, with its errors.
    - The web site: a change of the administrator's account is confirmed by the old
      password or the button, but on a CIBOX without password, where nothing is asked
      ([admin_form_confirmed]); the kit, which is public, gives no
      wireless setting away and takes none before the button is pressed
      ([kit_needs_button]); the DHCP page stores a proper range, both its ends
      in one transaction that is given query by query, or none
      ([dhcp_range_leasable]); the pages leave no cursor of the configuration open and
      commit only what was accepted ([pages_run_transactions]).
    - The link: the daemon finds the arguments of a query in its frame
      ([nbd_query_frame_roundtrip]) and each query gets its own answer, or -1 when the
      answer does not fit its buffer, however the stream is cut, as long as such answers
      have less than 512 bytes ([nbd_queries_get_their_answers]).
    - Calls: the upgrade permission is refused exactly while a call is on, unless
      nbd_voip_register_call is called from outside on NB5
      ([voip_upgrade_tracks_calls], [register_ring_stop_forgets]) and, where a history is
      kept, a call that is reported in the usual order ends up in it
      ([voip_call_recorded]).
    - The LAN: a device that keeps silent is probed in the end
      ([silent_device_probed]); a box that announces itself is in the list
      ([ssdp_box_added]); the stations of a power line answer are read within the packet
      up to a number of them, and past it beyond ([mme_discover_stations]).
    - Data: a request value with a pattern reaches a page only when it matches
      ([ewf_hdf_sget_validates]); an escaped text has no quotes and no control characters
      ([ewf_secure_escape_input_safe]); copies stay in their buffer
      ([strlcpy_strlcat_bounded], [seq_file_within_bounds]); devices are listed with the
      fields of their kind ([xdev_list_block_typed]); splitting and joining, printing and
      reading are inverse ([nbu_string_split_join], [seq_print_hex_pack_roundtrip]); masks
      and addresses mean what they should ([nbu_net_validate_netmask_contiguous],
      [nbu_net_validate_full_ip_spec]).
    - Algorithms of the lists: [nbu_list_sort_sorts], [nbu_list_destroy_complete],
      [list_for_each_safe_deletes].
    - Where the code goes wrong: a session that was never activated opens private pages
      ([challenge_grants_private_page]).  Beside the properties there are lemmas that show
      the other faults on the definitions: overflows
      ([nbd_query_long_arguments_overflow], [fifo_out_peek_overflows],
      [ssdp_long_value_overflows]); reads outside a text ([nbu_string_trim_blank_undef],
      [decode_method_spec]); a loop that never ends
      ([nbu_string_split_empty_separator_loops]); a stream left out of step
      ([nbd_query_long_answer]); wrong rounding ([fifo_alloc_rounds_wrong]); a lost
      terminator ([nbu_list_sort_drops_terminator]); a referer check that looks at the
      scheme only ([ewf_utils_check_referer_scheme_only]); an upgrade that does not stop
      requests ([api_upgrading_still_runs]); polls starved by signals
      ([signals_starve_polls]); a status that is never known ([hook_status_unknown]); a form
      that leaves its cursor open ([wan_form_leaks_cursor]).

    ** Loops and fuel

    A loop over a list has one unit of fuel per cell of the heap and one more
    ([cells]); a loop over a text one per byte and one more; the loop that reads a stream
    one per byte or event of the stream and one more ([ev_size]); the loop of the LAN
    daemon one per wake-up that is given to it.  The theorems are about
    results that are [Ret], so the fuel is proved to be enough; the one loop that
    does not end is proved to run out of any fuel.

    ** What stands for code that is not in the repository

    ClearSilver's data set ([Hdf]), [cgi_parse] and [hdf_read_file], PCRE ([pcre_match]),
    the XML reader ([Ezxml]), SHA-256 and its HMAC, the web application's callbacks, the
    pages' handlers, the clock, the random device, the configuration daemon behind the
    socket (a stream of events) or behind [NbdOps], [hcreate_r]'s table size, what
    [pselect] delivers, the result of [fork], the children of a data set's node, the name
    resolver, what the box is built for, sysfs and the disks.  The theorems that need
    a law of one of them state it, and have a witness with a concrete one.

    ** Not modelled

    Input and output proper: logging, processes, sockets, files, the FastCGI loops, signal
    handlers, page rendering, the character devices of [leds.c] and [gpio.c], the wrappers
    of system calls in libetk.  The threads of a program that shares the link:
    every query of libnbd holds the mutex, so that one query is one step.  The state
    pages of the web site, its diagnostics and tests, the displays of [network.c],
    [state_voip.c], [service_samba.c], [service_upnpav.c] and [maintenance_webui.c], the
    readers of the ARP table and of the leases, and the server's rendering and theme hooks;
    libewf's themes; the printers of [xdev.c];
    [nbu_list_serialize] and [nbu_list_unserialize]; a write that fails on an open
    descriptor in [plc.c], a [vsnprintf] that fails in [seq_file.c] and a [calloc] that
    fails in [xdev.c]; the main functions of the daemons; the
    switch driver and the command line tools.  The rest of the tree is OpenWrt and vendored
    packages. *)

From Stdlib Require Import ZArith Lia Ascii String.
From stdpp Require Import base tactics list gmap strings.

#[global] Open Scope Z_scope.

(** ** Outcomes of C code

    [Ret a] is a normal return.  [Undef] is behaviour the C standard leaves
    undefined (NULL or freed pointer dereferenced, access outside an object).
    [Abort] is a failed [assert] or a call to [exit].  [NoFuel] is only produced
    by a loop whose fuel ran out. *)
Inductive outcome (A : Type) : Type :=
| Ret (a : A)
| Undef
| Abort
| NoFuel.

Arguments Ret {A} a.
Arguments Undef {A}.
Arguments Abort {A}.
Arguments NoFuel {A}.

#[export] Instance outcome_ret : MRet outcome := λ A a, Ret a.

#[export] Instance outcome_bind : MBind outcome := λ A B f m,
  match m with
  | Ret a => f a
  | Undef => Undef
  | Abort => Abort
  | NoFuel => NoFuel
  end.

#[export] Instance outcome_fmap : FMap outcome := λ A B f m,
  match m with
  | Ret a => Ret (f a)
  | Undef => Undef
  | Abort => Abort
  | NoFuel => NoFuel
  end.

(** Reading a location that may not be there: absent means undefined. *)
Definition must {A : Type} (o : option A) : outcome A :=
  match o with Some a => Ret a | None => Undef end.

(** [assert(b)]. *)
Definition c_assert (b : bool) : outcome unit :=
  if b then Ret tt else Abort.

(** ** Commands: functions that read and write a store [S]. *)
Definition cmd (S A : Type) : Type := S → outcome (A * S).

#[export] Instance cmd_ret {S} : MRet (cmd S) := λ A a s, Ret (a, s).

#[export] Instance cmd_bind {S} : MBind (cmd S) := λ A B f m s,
  match m s with
  | Ret (a, s') => f a s'
  | Undef => Undef
  | Abort => Abort
  | NoFuel => NoFuel
  end.

Definition lift {S A} (o : outcome A) : cmd S A := λ s,
  match o with
  | Ret a => Ret (a, s)
  | Undef => Undef
  | Abort => Abort
  | NoFuel => NoFuel
  end.

Definition get_st {S} : cmd S S := λ s, Ret (s, s).
Definition put_st {S} (s' : S) : cmd S unit := λ _, Ret (tt, s').
Definition mod_st {S} (f : S → S) : cmd S unit := λ s, Ret (tt, f s).

(** Run a command of a part of the store. *)
Definition zoom {S T A} (get : S → T) (set : T → S → S) (m : cmd T A) : cmd S A := λ s,
  match m (get s) with
  | Ret (a, t) => Ret (a, set t s)
  | Undef => Undef
  | Abort => Abort
  | NoFuel => NoFuel
  end.

(** [assert(b)] in a command. *)
Definition assert_c {S} (b : bool) : cmd S unit := lift (c_assert b).

(** A C [for] loop over a cursor: while [valid], read the element, run the body,
    advance.  The body answers [inl acc] to go on ([continue] included) and
    [inr acc] to leave the loop ([break] or [return]) without advancing. *)
Fixpoint for_each {S X A : Type} (fuel : nat) (valid : cmd S bool) (get : cmd S X)
    (next : cmd S unit) (body : X → A → cmd S (A + A)) (acc : A) : cmd S A :=
  match fuel with
  | O => λ _, NoFuel
  | S f =>
      v ← valid;
      if v : bool then
        x ← get;
        r ← body x acc;
        match r with
        | inr a => mret a
        | inl a => next;; for_each f valid get next body a
        end
      else mret acc
  end.

(** ** Machine integers

    The boxes are 32-bit machines: [int], [long] and [size_t] have 32 bits. *)
Definition u8 (z : Z) : Z := z mod 2 ^ 8.
Definition u16 (z : Z) : Z := z mod 2 ^ 16.
Definition u32 (z : Z) : Z := z mod 2 ^ 32.
Definition s32 (z : Z) : Z := (z + 2 ^ 31) mod 2 ^ 32 - 2 ^ 31.
Definition schar (z : Z) : Z := (z + 2 ^ 7) mod 2 ^ 8 - 2 ^ 7.

Definition INT_MAX : Z := 2 ^ 31 - 1.
Definition INT_MIN : Z := - 2 ^ 31.
Definition LONG_MAX : Z := INT_MAX.
Definition LONG_MIN : Z := INT_MIN.

(** ** Bytes and text

    A byte is a [Z] in [0..255].  The contents of a C string are the bytes before
    the terminating 0. *)
Definition byte_ok (b : Z) : Prop := 0 <= b < 256.
Definition char_ok (b : Z) : Prop := 0 < b < 256.

Definition lit (s : string) : list Z :=
  (λ c, Z.of_N (N_of_ascii c)) <$> String.list_ascii_of_string s.

#[export] Instance lit_inj : Inj (=) (=) lit.
Proof.
  intros s t E. apply (list_fmap_eq_inj _) in E.
  - by rewrite <- (string_of_list_ascii_of_string s), E, string_of_list_ascii_of_string.
  - intros c d Hc. by rewrite <- (ascii_N_embedding c), <- (ascii_N_embedding d), (N2Z.inj _ _ Hc).
Qed.

(** Boolean equality of byte strings. *)
Fixpoint bytes_eqb (s t : list Z) : bool :=
  match s, t with
  | [], [] => true
  | a :: s', b :: t' => (a =? b) && bytes_eqb s' t'
  | _, _ => false
  end.

(** ** Tactics *)

(** Split hypotheses that are conjunctions or existentials. *)
Ltac destruct_all :=
  repeat match goal with
  | H : _ ∧ _ |- _ => destruct H
  | H : ∃ _, _ |- _ => destruct H
  end.

(** Case analysis on the scrutinee of a [match] in the goal or a hypothesis. *)
Ltac case_m :=
  match goal with
  | |- context [match ?x with _ => _ end] => destruct x eqn:?
  | H : context [match ?x with _ => _ end] |- _ => destruct x eqn:?
  end.

(** Boolean comparisons of [Z] in hypotheses become propositions. *)
Ltac zbool :=
  repeat match goal with
  | H : (_ =? _) = true |- _ => apply Z.eqb_eq in H
  | H : (_ =? _) = false |- _ => apply Z.eqb_neq in H
  | H : (_ <? _) = true |- _ => apply Z.ltb_lt in H
  | H : (_ <? _) = false |- _ => apply Z.ltb_ge in H
  | H : (_ <=? _) = true |- _ => apply Z.leb_le in H
  | H : (_ <=? _) = false |- _ => apply Z.leb_gt in H
  | H : (_ && _) = true |- _ => apply andb_true_iff in H; destruct H
  | H : (_ || _) = false |- _ => apply orb_false_iff in H; destruct H
  | H : negb _ = true |- _ => apply negb_true_iff in H
  | H : negb _ = false |- _ => apply negb_false_iff in H
  end.

Create HintDb nbox discriminated.

(** ** Lemmas on outcomes and commands *)
Section outcome_lemmas.
Context {A B : Type}.

Lemma bind_Ret_inv (m : outcome A) (f : A → outcome B) b :
  (m ≫= f) = Ret b → ∃ a, m = Ret a ∧ f a = Ret b.
Proof. destruct m; [eauto | discriminate ..]. Qed.

Lemma must_Ret_inv (o : option A) a : must o = Ret a → o = Some a.
Proof. destruct o; by intros [= ->]. Qed.

Lemma c_assert_Ret_inv b : c_assert b = Ret tt → b = true.
Proof. by destruct b. Qed.

Lemma cmd_bind_Ret {S} (m : cmd S A) (f : A → cmd S B) s a s' :
  m s = Ret (a, s') → (m ≫= f) s = f a s'.
Proof. intros E. unfold mbind, cmd_bind. by rewrite E. Qed.

Lemma cmd_bind_Ret_inv {S} (m : cmd S A) (f : A → cmd S B) s r :
  (m ≫= f) s = Ret r → ∃ a s', m s = Ret (a, s') ∧ f a s' = Ret r.
Proof.
  unfold mbind, cmd_bind. destruct (m s) as [[a s']| | |]; [eauto | discriminate ..].
Qed.

Lemma cmd_bind_assoc {S C} (m : cmd S A) (f : A → cmd S B) (g : B → cmd S C) s :
  ((m ≫= f) ≫= g) s = (m ≫= λ a, f a ≫= g) s.
Proof. unfold mbind, cmd_bind. by destruct (m s) as [[a s']| | |]. Qed.

Lemma cmd_bind_ext {S} (m : cmd S A) (f g : A → cmd S B) s :
  (∀ a s', f a s' = g a s') → (m ≫= f) s = (m ≫= g) s.
Proof. intros E. unfold mbind, cmd_bind. by destruct (m s) as [[a s']| | |]. Qed.

Lemma cmd_bind_Undef {S} (m : cmd S A) (f : A → cmd S B) s :
  m s = Undef → (m ≫= f) s = Undef.
Proof. intros E. unfold mbind, cmd_bind. by rewrite E. Qed.

Lemma cmd_bind_Abort {S} (m : cmd S A) (f : A → cmd S B) s :
  m s = Abort → (m ≫= f) s = Abort.
Proof. intros E. unfold mbind, cmd_bind. by rewrite E. Qed.

End outcome_lemmas.

(** ** What a command may do to the store

    [within R m]: whenever [m] returns, the store it leaves is related by [R] to the one
    it found.  For a preorder [R] this follows the structure of the command. *)
Definition within {S A} (R : relation S) (m : cmd S A) : Prop :=
  ∀ s a s', m s = Ret (a, s') → R s s'.

Section within_lemmas.
Context {S : Type} (R : relation S) `{!PreOrder R}.

Lemma within_ret {A} (a : A) : within R (mret a).
Proof. by intros s a' s' [= _ <-]. Qed.

Lemma within_lift {A} (o : outcome A) : within R (lift o).
Proof. intros s a s'. unfold lift. by destruct o; intros [= _ <-]. Qed.

Lemma within_get : within R get_st.
Proof. by intros s a s' [= _ <-]. Qed.

Lemma within_stuck {A} (o : outcome (A * S)) : match o with Ret _ => False | _ => True end → within R (λ _, o).
Proof. intros Ho s a s' E. by rewrite E in Ho. Qed.

Lemma within_mod (f : S → S) : (∀ s, R s (f s)) → within R (mod_st f).
Proof. by intros Hf s a s' [= _ <-]. Qed.

Lemma within_bind {A B} (m : cmd S A) (f : A → cmd S B) :
  within R m → (∀ a, within R (f a)) → within R (m ≫= f).
Proof.
  intros Hm Hf s b s' E. apply cmd_bind_Ret_inv in E as (a & s1 & E1 & E2).
  etrans; [by eapply Hm | by eapply Hf].
Qed.

Lemma within_lift_bind {A B} (o : outcome A) (f : A → cmd S B) :
  (∀ a, o = Ret a → within R (f a)) → within R (lift o ≫= f).
Proof.
  intros Hf s b s' E. apply cmd_bind_Ret_inv in E as (a & s1 & E1 & E2). unfold lift in E1.
  destruct o as [a'| | |]; try done. injection E1 as <- <-. by eapply Hf.
Qed.

Lemma within_zoom {T A} (get : S → T) (set : T → S → S) (Q : relation T) (m : cmd T A) :
  (∀ s t, Q (get s) t → R s (set t s)) → within Q m → within R (zoom get set m).
Proof.
  intros Hset Hm s a s' E. unfold zoom in E. destruct (m (get s)) as [[a1 t]| | |] eqn:Em; try done.
  injection E as <- <-. by eapply Hset, Hm.
Qed.

Lemma within_for_each {X A} fuel (valid : cmd S bool) (get : cmd S X) (next : cmd S unit)
    (body : X → A → cmd S (A + A)) acc :
  within R valid → within R get → within R next → (∀ x a, within R (body x a)) →
  within R (for_each fuel valid get next body acc).
Proof.
  intros Hv Hg Hn Hb. revert acc. induction fuel as [|fuel IH]; intros acc; [by apply within_stuck|].
  cbn [for_each]. apply within_bind; [done|]. intros v. destruct v; [|apply within_ret].
  apply within_bind; [done|]. intros x. apply within_bind; [done|]. intros [a|a]; [|apply within_ret].
  by apply within_bind.
Qed.

End within_lemmas.

(** The structural steps of such a proof. *)
Ltac within_ret := apply within_ret; apply _.
Ltac within_bind := apply within_bind; [apply _| |].
Ltac within_step :=
  first [within_ret | apply within_lift; apply _ | apply within_get; apply _ | apply within_stuck; exact I
        | within_bind; [|intros ?]].

(** One step of a command: the first one returns by computation, or as [E] says. *)
Ltac run := erewrite cmd_bind_Ret; [|reflexivity].
Tactic Notation "run_with" uconstr(E) := erewrite cmd_bind_Ret; [|exact E].

(** ** Lemmas on machine integers *)
Lemma u32_small z : 0 <= z < 2 ^ 32 → u32 z = z.
Proof. apply Z.mod_small. Qed.

Lemma u32_range z : 0 <= u32 z < 2 ^ 32.
Proof. apply Z.mod_pos_bound. lia. Qed.

Lemma u32_mod z : u32 (u32 z) = u32 z.
Proof. apply Zmod_mod. Qed.

Lemma s32_small z : INT_MIN <= z <= INT_MAX → s32 z = z.
Proof.
  unfold s32, INT_MIN, INT_MAX. intros H.
  rewrite Z.mod_small by lia. lia.
Qed.

Lemma u8_small z : 0 <= z < 256 → u8 z = z.
Proof. apply Z.mod_small. Qed.

Lemma u8_range z : 0 <= u8 z < 256.
Proof. apply Z.mod_pos_bound. lia. Qed.

#[export] Hint Resolve u32_range u8_range : nbox.

(** ** Lemmas on bytes *)
Lemma bytes_eqb_eq s t : bytes_eqb s t = true ↔ s = t.
Proof.
  revert t; induction s as [|a s IH]; intros [|b t]; simpl; try naive_solver.
  rewrite andb_true_iff, Z.eqb_eq, IH. naive_solver.
Qed.

Lemma bytes_eqb_refl s : bytes_eqb s s = true.
Proof. by apply bytes_eqb_eq. Qed.

Lemma bytes_eqb_neq s t : bytes_eqb s t = false ↔ s ≠ t.
Proof. rewrite <- bytes_eqb_eq. destruct (bytes_eqb s t); naive_solver. Qed.

Lemma bytes_eqb_len s t : length s ≠ length t → bytes_eqb s t = false.
Proof. intros Hl. apply bytes_eqb_neq. by intros ->. Qed.

#[export] Instance byte_ok_dec b : Decision (byte_ok b).
Proof. unfold byte_ok. apply _. Defined.

#[export] Instance char_ok_dec b : Decision (char_ok b).
Proof. unfold char_ok. apply _. Defined.

Lemma char_byte_ok b : char_ok b → byte_ok b.
Proof. unfold char_ok, byte_ok. lia. Qed.

#[export] Hint Resolve char_byte_ok : nbox.
