(* ===== verification/Dll.v ===== *)
(** Cyclic doubly linked chains in a heap with one map per pointer field.

    Both linked lists of the repository, libnbu's [nbu_list_t] and libetk's
    [struct list_head], are cycles of cells through a distinguished root cell.
    This file holds what they share: pointers, the chain predicate over the
    [next] and [prev] maps, and the two surgeries (splice a cell in, take a cell
    out) that every operation of both lists performs. *)

From stdpp Require Import base tactics list gmap.
From S2P Require Import Prelude.

Abbreviation loc := positive (only parsing).

(** A pointer: NULL, the address of a cell, or one of the two poison values
    that libetk's [list_del] stores in a removed entry. *)
Inductive ptr :=
| Null
| Ptr (l : loc)
| Poison1
| Poison2.

#[export] Instance ptr_eq_dec : EqDecision ptr.
Proof. solve_decision. Defined.

(** Dereference: only the address of a cell can be followed. *)
Definition deref (p : ptr) : outcome loc :=
  match p with Ptr l => Ret l | _ => Undef end.

Definition linked (nx pv : gmap loc ptr) (a b : loc) : Prop :=
  nx !! a = Some (Ptr b) ∧ pv !! b = Some (Ptr a).

(** [chain nx pv path]: consecutive cells of [path] point at each other. *)
Fixpoint chain (nx pv : gmap loc ptr) (path : list loc) : Prop :=
  match path with
  | a :: ((b :: _) as tl) => linked nx pv a b ∧ chain nx pv tl
  | _ => True
  end.

(** [is_dll nx pv root ns]: the cells [ns], in order, form the cycle through
    [root]. *)
Definition is_dll (nx pv : gmap loc ptr) (root : loc) (ns : list loc) : Prop :=
  NoDup (root :: ns) ∧ chain nx pv (root :: ns ++ [root]).

(** Every cell of the path but the last, and every cell but the first. *)
Definition sources (path : list loc) : list loc := removelast path.
Definition targets (path : list loc) : list loc := tail path.

Section chain_lemmas.
Implicit Types nx pv : gmap loc ptr.

Lemma chain_cons2 nx pv a b l :
  chain nx pv (a :: b :: l) ↔ linked nx pv a b ∧ chain nx pv (b :: l).
Proof. done. Qed.

Lemma chain_app nx pv l1 x l2 :
  chain nx pv (l1 ++ x :: l2) ↔ chain nx pv (l1 ++ [x]) ∧ chain nx pv (x :: l2).
Proof.
  induction l1 as [|a l1 IH]; simpl; [tauto|].
  destruct l1 as [|b l1]; simpl in *; [tauto|]. rewrite IH. tauto.
Qed.

Lemma chain_mid nx pv l1 a b l2 :
  chain nx pv (l1 ++ a :: b :: l2) ↔
  chain nx pv (l1 ++ [a]) ∧ linked nx pv a b ∧ chain nx pv (b :: l2).
Proof. rewrite chain_app. done. Qed.

(** The chain only reads [next] at sources and [prev] at targets. *)
Lemma chain_ext nx pv nx' pv' l :
  (∀ x, x ∈ sources l → nx' !! x = nx !! x) →
  (∀ x, x ∈ targets l → pv' !! x = pv !! x) →
  chain nx pv l → chain nx' pv' l.
Proof.
  induction l as [|a [|b l] IH]; [done..|]. intros Hn Hp [[Ha Hb] Hc]. split.
  - split.
    + rewrite Hn; [done|]. unfold sources. set_solver.
    + rewrite Hp; [done|]. unfold targets. set_solver.
  - apply IH; [| |done].
    + intros x Hx. apply Hn. unfold sources in *. set_solver.
    + intros x Hx. apply Hp. unfold targets in *. set_solver.
Qed.

Lemma sources_snoc l (x : loc) : sources (l ++ [x]) = l.
Proof. unfold sources. induction l as [|a [|b l] IH]; [done..|]. simpl in *. by rewrite IH. Qed.

Lemma is_dll_next nx pv root ns P a b Q :
  is_dll nx pv root ns → root :: ns ++ [root] = P ++ a :: b :: Q →
  nx !! a = Some (Ptr b) ∧ pv !! b = Some (Ptr a).
Proof. intros [_ Hc] E. rewrite E in Hc. apply chain_mid in Hc as (_ & Hl & _). exact Hl. Qed.

Lemma path_nodup root ns P a b Q :
  NoDup (root :: ns) → root :: ns ++ [root] = P ++ a :: b :: Q →
  a ∉ P ∧ a ∉ sources (b :: Q) ∧ b ∉ targets (P ++ [a]) ∧ b ∉ Q.
Proof.
  intros Hnd E.
  assert (sources (root :: ns ++ [root]) = root :: ns) as Es.
  { change (root :: ns ++ [root]) with ((root :: ns) ++ [root]). apply sources_snoc. }
  assert (sources (P ++ a :: b :: Q) = P ++ a :: sources (b :: Q)) as Es'.
  { clear. unfold sources. rewrite removelast_app by done. done. }
  assert (NoDup (P ++ a :: sources (b :: Q))) as Hs by (rewrite <- Es', <- E, Es; done).
  assert (NoDup (targets (root :: ns ++ [root]))) as Ht.
  { unfold targets; simpl. apply NoDup_cons in Hnd as [Hr Hn].
    apply NoDup_app. split_and!; [done| |apply NoDup_singleton]. set_solver. }
  rewrite E in Ht.
  assert (targets (P ++ a :: b :: Q) = targets (P ++ [a]) ++ b :: Q) as Et.
  { clear. unfold targets. by destruct P as [|p P]; simpl; rewrite <- ?app_assoc. }
  rewrite Et in Ht.
  apply NoDup_app in Hs as (_ & Hs1 & Hs2). apply NoDup_cons in Hs2 as [Hs2 _].
  apply NoDup_app in Ht as (_ & Ht1 & Ht2). apply NoDup_cons in Ht2 as [Ht2 _].
  split_and!; [|done| |done].
  - intros Ha. apply (Hs1 _ Ha). set_solver.
  - intros Hb. apply (Ht1 _ Hb). set_solver.
Qed.

(** Splicing a fresh cell [n] between consecutive cells [a] and [b]. *)
Lemma chain_insert nx pv root ns P a b Q n :
  NoDup (root :: ns) → root :: ns ++ [root] = P ++ a :: b :: Q →
  n ∉ root :: ns → chain nx pv (P ++ a :: b :: Q) →
  chain (<[a := Ptr n]> (<[n := Ptr b]> nx)) (<[b := Ptr n]> (<[n := Ptr a]> pv))
        (P ++ a :: n :: b :: Q).
Proof.
  intros Hnd E Hn Hc.
  destruct (path_nodup _ _ _ _ _ _ Hnd E) as (H1 & H2 & H3 & H4).
  assert (∀ x, x ∈ P ++ a :: b :: Q → x ≠ n) as Hfresh.
  { intros x Hx. rewrite <- E in Hx. set_solver. }
  assert (∀ l x, x ∈ sources l → x ∈ l) as Hsrc.
  { intros l x. unfold sources. induction l as [|y [|z l] IH]; set_solver. }
  assert (a ≠ n) by (apply Hfresh; set_solver).
  assert (b ≠ n) by (apply Hfresh; set_solver).
  apply chain_mid in Hc as (Hc1 & Hc2 & Hc3).
  rewrite chain_mid. split_and!.
  - eapply chain_ext; [| |exact Hc1].
    + intros x Hx. rewrite sources_snoc in Hx.
      rewrite !lookup_insert_ne; [done|..]; [|by intros ->].
      intros ->. apply (Hfresh x); set_solver.
    + intros x Hx. rewrite !lookup_insert_ne; [done|..]; [|intros ->; done].
      intros ->. apply (Hfresh x); [|done].
      assert (x ∈ P ++ [a]) by (unfold targets in Hx; destruct P; set_solver). set_solver.
  - split.
    + by rewrite lookup_insert_eq.
    + rewrite lookup_insert_ne, lookup_insert_eq by done. done.
  - rewrite chain_cons2. split.
    + split.
      * rewrite lookup_insert_ne, lookup_insert_eq by done. done.
      * by rewrite lookup_insert_eq.
    + eapply chain_ext; [| |exact Hc3].
      * intros x Hx. rewrite !lookup_insert_ne; [done|..]; [|intros ->; done].
        intros ->. apply (Hfresh x); [|done]. apply Hsrc in Hx. set_solver.
      * intros x Hx. unfold targets in Hx; simpl in Hx.
        rewrite !lookup_insert_ne; [done|..]; [|by intros ->].
        intros ->. apply (Hfresh x); set_solver.
Qed.

(** Taking the cell [n] out from between [a] and [b]. *)
Lemma chain_remove nx pv root ns P a n b Q :
  NoDup (root :: ns) → root :: ns ++ [root] = P ++ a :: n :: b :: Q →
  chain nx pv (P ++ a :: n :: b :: Q) →
  chain (<[a := Ptr b]> nx) (<[b := Ptr a]> pv) (P ++ a :: b :: Q).
Proof.
  intros Hnd E Hc.
  destruct (path_nodup _ _ _ _ _ _ Hnd E) as (H1 & H2 & _ & _).
  assert (root :: ns ++ [root] = (P ++ [a]) ++ n :: b :: Q) as E'
    by (rewrite <- app_assoc; exact E).
  destruct (path_nodup _ _ _ _ _ _ Hnd E') as (_ & _ & H3 & H4).
  apply chain_mid in Hc as (Hc1 & _ & Hc3). apply chain_cons2 in Hc3 as [_ Hc3].
  rewrite chain_mid. split_and!.
  - eapply chain_ext; [| |exact Hc1].
    + intros x Hx. rewrite sources_snoc in Hx. rewrite lookup_insert_ne; [done|by intros ->].
    + intros x Hx. rewrite lookup_insert_ne; [done|]. intros ->. apply H3.
      unfold targets in *. destruct P; set_solver.
  - split; by rewrite lookup_insert_eq.
  - eapply chain_ext; [| |exact Hc3].
    + intros x Hx. rewrite lookup_insert_ne; [done|]. intros ->. apply H2.
      unfold sources in *. destruct Q; set_solver.
    + intros x Hx. unfold targets in Hx; simpl in Hx. rewrite lookup_insert_ne; [done|by intros ->].
Qed.

(** *** Rings

    [is_dll] says the cells form a ring; any of them can be taken for the root. *)
Lemma is_dll_rotate nx pv r P x Q :
  is_dll nx pv r (P ++ x :: Q) → is_dll nx pv x (Q ++ r :: P).
Proof.
  intros [Hnd Hc]. split.
  - assert (x :: Q ++ r :: P ≡ₚ r :: P ++ x :: Q) as ->; [|done]. solve_Permutation.
  - rewrite <- app_assoc in Hc. cbn [app] in Hc.
    change (r :: P ++ x :: Q ++ [r]) with ((r :: P) ++ x :: Q ++ [r]) in Hc.
    apply chain_app in Hc as [H1 H2]. rewrite <- app_assoc. cbn [app].
    change (x :: Q ++ r :: P ++ [x]) with ((x :: Q) ++ r :: P ++ [x]). by apply chain_app.
Qed.

Lemma is_dll_ext nx pv nx' pv' r ns :
  (∀ x, x ∈ r :: ns → nx' !! x = nx !! x ∧ pv' !! x = pv !! x) →
  is_dll nx pv r ns → is_dll nx' pv' r ns.
Proof.
  intros H [Hnd Hc]. split; [done|].
  eapply chain_ext; [| |exact Hc].
  - intros x Hx. change (r :: ns ++ [r]) with ((r :: ns) ++ [r]) in Hx.
    rewrite sources_snoc in Hx. by apply H.
  - intros x Hx. apply H. unfold targets in Hx. simpl in Hx. set_solver.
Qed.

(** Every cell of a ring has both fields. *)
Lemma is_dll_alloc nx pv r ns x :
  is_dll nx pv r ns → x ∈ r :: ns → is_Some (nx !! x) ∧ is_Some (pv !! x).
Proof.
  assert (∀ r ns, is_dll nx pv r ns → is_Some (nx !! r) ∧ is_Some (pv !! r)) as Hroot.
  { clear. intros r ns Hd. split.
    - destruct ns as [|f l].
      + destruct (is_dll_next _ _ _ _ [] r r [] Hd eq_refl) as [-> _]. eauto.
      + destruct (is_dll_next _ _ _ _ [] r f (l ++ [r]) Hd eq_refl) as [-> _]. eauto.
    - destruct ns as [|g l _] using rev_ind.
      + destruct (is_dll_next _ _ _ _ [] r r [] Hd eq_refl) as [_ ->]. eauto.
      + destruct (is_dll_next _ _ _ _ (r :: l) g r [] Hd) as [_ ->]; [|eauto].
        cbn. by rewrite <- app_assoc. }
  intros Hd [->|Hx]%elem_of_cons; [by eapply Hroot|].
  apply list_elem_of_split in Hx as (P & Q & ->). eapply Hroot, is_dll_rotate, Hd.
Qed.

(** The neighbours of the root. *)
Lemma is_dll_root nx pv r ns :
  is_dll nx pv r ns →
  nx !! r = Some (Ptr (default r (head ns))) ∧ pv !! r = Some (Ptr (default r (last ns))).
Proof.
  intros Hd. split.
  - destruct ns as [|f l].
    + by destruct (is_dll_next _ _ _ _ [] r r [] Hd eq_refl) as [-> _].
    + by destruct (is_dll_next _ _ _ _ [] r f (l ++ [r]) Hd eq_refl) as [-> _].
  - destruct ns as [|g l _] using rev_ind.
    + by destruct (is_dll_next _ _ _ _ [] r r [] Hd eq_refl) as [_ ->].
    + destruct (is_dll_next _ _ _ _ (r :: l) g r [] Hd) as [_ ->]; [|by rewrite last_snoc].
      cbn. by rewrite <- app_assoc.
Qed.

(** The inner links of a ring do not involve the root. *)
Lemma chain_inner nx pv nx' pv' r l :
  NoDup (r :: l) → chain nx pv (r :: l ++ [r]) →
  (∀ x, x ∈ l → Some x ≠ last l → nx' !! x = nx !! x) →
  (∀ x, x ∈ l → Some x ≠ head l → pv' !! x = pv !! x) →
  chain nx' pv' l.
Proof.
  intros Hnd Hc Hn Hp. destruct l as [|f l]; [done|].
  destruct l as [|g l _] using rev_ind; [done|].
  assert (chain nx pv (f :: l ++ [g])) as Hc'.
  { assert (r :: (f :: l ++ [g]) ++ [r] = r :: (f :: l) ++ g :: [r]) as E
      by (simpl; by rewrite <- app_assoc).
    rewrite E in Hc. destruct Hc as [_ Hc]. by apply (chain_app _ _ (f :: l)) in Hc as [Hc _]. }
  apply NoDup_cons in Hnd as [_ Hnd].
  eapply chain_ext; [| |exact Hc'].
  - intros x Hx. change (f :: l ++ [g]) with ((f :: l) ++ [g]) in *.
    rewrite sources_snoc in Hx. apply Hn; [set_solver|]. rewrite last_snoc. intros [= ->].
    apply NoDup_app in Hnd as (_ & Hnd & _). by apply (Hnd g); [|left].
  - intros x Hx. unfold targets in Hx. simpl in Hx. apply Hp; [set_solver|]. simpl. intros [= ->].
    apply NoDup_cons in Hnd as [Hnd _]. done.
Qed.

(** Closing a chain of cells by a root. *)
Lemma is_dll_close nx pv r l f g :
  NoDup (r :: l) → chain nx pv l → head l = Some f → last l = Some g →
  linked nx pv r f → linked nx pv g r → is_dll nx pv r l.
Proof.
  intros Hnd Hc Hf Hg H1 H2. split; [done|].
  destruct l as [|f' l]; [done|]. injection Hf as ->.
  change (r :: (f :: l) ++ [r]) with (r :: f :: l ++ [r]). rewrite chain_cons2. split; [done|].
  change (f :: l ++ [r]) with ((f :: l) ++ [r]).
  apply last_Some in Hg as [l' Hl']. rewrite Hl' in Hc |- *. rewrite <- app_assoc.
  change ([g] ++ [r]) with (g :: [r]). apply chain_app. split; [done|]. by split.
Qed.

End chain_lemmas.
