(* ===== verification/CursorList.v ===== *)
(** The interface between a list with a cursor and the code that walks it.

    A client's loop is [for_each] over three commands: is the cursor on an
    element, read it, advance.  [CursorList] states what the list promises about
    them, [for_each_rule] is the loop rule proved from that promise alone, and
    [zoom_cursor] transports an implementation into a larger store. *)

From stdpp Require Import base tactics list.
From S2P Require Import Prelude.

Section fold.
Context {X A : Type}.

(** A loop with early exit over a finite sequence. *)
Fixpoint fold_exit (f : X → A → A + A) (xs : list X) (acc : A) : A :=
  match xs with
  | [] => acc
  | x :: xs' => match f x acc with inr a => a | inl a => fold_exit f xs' a end
  end.

End fold.

(** [cl_at s pre post]: the sequence is [pre ++ post] and the cursor is on the
    first element of [post], or past the end.  [cl_behind s pre post]: the cursor
    is on the last element of [pre], or on the root.  [cl_same]: equal up to
    the cursor.  Each element is a node and its data. *)
Class CursorList (S N X : Type) := {
  cl_valid : cmd S bool;
  cl_get : cmd S X;
  cl_next : cmd S unit;
  cl_at : S → list (N * X) → list (N * X) → Prop;
  cl_behind : S → list (N * X) → list (N * X) → Prop;
  cl_same : S → S → Prop;
  cl_valid_law s pre post :
    cl_at s pre post → cl_valid s = Ret (if post is [] then false else true, s);
  cl_get_law s pre n x post : cl_at s pre ((n, x) :: post) → cl_get s = Ret (x, s);
  cl_visit_law s pre nx post : cl_at s pre (nx :: post) → cl_behind s (pre ++ [nx]) post;
  cl_next_law s pre post :
    cl_behind s pre post → ∃ s', cl_next s = Ret (tt, s') ∧ cl_at s' pre post ∧ cl_same s s';
}.

Section rule.
Context {S N X A : Type} (CL : CursorList S N X).

(** The loop rule.  [I] is the invariant at the loop head; the body either leaves
    the loop with [Q], or leaves the cursor just behind the rest of the sequence
    (it may have removed the current element) with [I] for what follows. *)
Lemma for_each_rule (body : X → A → cmd S (A + A))
    (I : list (N * X) → list (N * X) → A → S → Prop) (Q : A → S → Prop) :
  (∀ pre post acc s s', cl_same s s' → I pre post acc s → I pre post acc s') →
  (∀ pre acc s, cl_at s pre [] → I pre [] acc s → Q acc s) →
  (∀ pre n x post acc s, cl_at s pre ((n, x) :: post) → I pre ((n, x) :: post) acc s →
     ∃ r s', body x acc s = Ret (r, s') ∧
       match r with
       | inr a => Q a s'
       | inl a => ∃ pre', cl_behind s' pre' post ∧ I pre' post a s'
       end) →
  ∀ post pre acc s fuel, (length post < fuel)%nat →
    cl_at s pre post → I pre post acc s →
    ∃ a s', for_each fuel cl_valid cl_get cl_next body acc s = Ret (a, s') ∧ Q a s'.
Proof.
  intros Hst Hend Hbody post. induction post as [|[n x] post IH];
    intros pre acc s [|fuel] Hf Hat HI; simpl in Hf; try lia; simpl.
  - erewrite cmd_bind_Ret; [|by apply cl_valid_law with (pre := pre)]. simpl. eauto.
  - erewrite cmd_bind_Ret; [|by apply cl_valid_law with (pre := pre)]. simpl.
    erewrite cmd_bind_Ret; [|by eapply cl_get_law].
    destruct (Hbody _ _ _ _ _ _ Hat HI) as (r & s' & E & Hr).
    run_with E.
    destruct r as [a|a]; [|by exists a, s'].
    destruct Hr as (pre' & Hbe & HI').
    destruct (cl_next_law _ _ _ Hbe) as (s'' & En & Hat' & Hsame).
    run_with En.
    apply (IH pre'); [lia|done|]. eapply Hst; eauto.
Qed.

(** A body that changes nothing computes [fold_exit]. *)
Lemma for_each_pure (f : X → A → A + A) post pre acc s fuel :
  (∀ s1 s2 s3, cl_same s1 s2 → cl_same s2 s3 → cl_same s1 s3) →
  (∀ s1, cl_same s1 s1) →
  (length post < fuel)%nat → cl_at s pre post →
  ∃ s', for_each fuel cl_valid cl_get cl_next (λ x a, mret (f x a)) acc s
        = Ret (fold_exit f (snd <$> post) acc, s') ∧ cl_same s s'.
Proof.
  intros Htr Hrefl. revert pre acc s fuel. induction post as [|[n x] post IH];
    intros pre acc s [|fuel] Hf Hat; simpl in Hf; try lia; simpl.
  - erewrite cmd_bind_Ret; [|by apply cl_valid_law with (pre := pre)]. simpl. eauto.
  - erewrite cmd_bind_Ret; [|by apply cl_valid_law with (pre := pre)]. simpl.
    erewrite cmd_bind_Ret; [|by eapply cl_get_law].
    run.
    destruct (f x acc) as [a|a]; [|by eauto].
    destruct (cl_next_law _ _ _ (cl_visit_law _ _ _ _ Hat)) as (s'' & En & Hat' & Hsame).
    run_with En.
    destruct (IH _ a s'' fuel ltac:(lia) Hat') as (s' & -> & Hs). eauto.
Qed.

End rule.

(** A cursor list that is a part of a larger store. *)
Section zoom.
Context {S T N X : Type} (CL : CursorList T N X).
Context (get : S → T) (set : T → S → S).
Context (get_set : ∀ t s, get (set t s) = t) (set_get : ∀ s, set (get s) s = s).

#[program] Definition zoom_cursor : CursorList S N X := {|
  cl_valid := zoom get set cl_valid;
  cl_get := zoom get set cl_get;
  cl_next := zoom get set cl_next;
  cl_at := λ s, cl_at (get s);
  cl_behind := λ s, cl_behind (get s);
  cl_same := λ s s', cl_same (get s) (get s') ∧ s' = set (get s') s;
|}.
Next Obligation.
  intros s pre post H. unfold zoom. rewrite (cl_valid_law _ _ _ H). by rewrite set_get.
Qed.
Next Obligation.
  intros s pre n x post H. unfold zoom. rewrite (cl_get_law _ _ _ _ _ H). by rewrite set_get.
Qed.
Next Obligation. intros s pre nx post H. by apply cl_visit_law. Qed.
Next Obligation.
  intros s pre post H. destruct (cl_next_law _ _ _ H) as (t & E & Hat & Hs).
  exists (set t s). unfold zoom. rewrite E, !get_set. done.
Qed.

End zoom.
