(* ===== verification/NbuList.v ===== *)
(** libnbu's cyclic list: [src/efixo/efixo-libnbu/src/src/list.c] and
    [include/nbu/list.h].

    The heap has one map per field of [nbu_list_node_t] and one map for the
    fields of [nbu_list_t] other than its embedded [rootnode], whose cell has the
    address of the list.  A [void *] is an [option D]: [None] is NULL.
    [h_avail] bounds how many more allocations succeed, so that the code's
    out-of-memory branches are reachable; [h_log] records what was handed to
    [free] or to the list's terminator, in order. *)

From stdpp Require Import base tactics list gmap.
From S2P Require Import Prelude.
From S2P Require Import Dll.

Module NbuList.

Definition NBU_SUCCESS : Z := 0.
Definition NBU_ERROR : Z := -1.

(** A [data_terminator_func] that is not NULL: the empty
    [_nbu_list_void_terminator] or a function of the list's owner. *)
Inductive terminator :=
| VoidTerminator
| UserTerminator (f : nat).

(** What [nbu_list_destroy_node] does with a node's data. *)
Inductive event (D : Type) :=
| EvFree (d : option D)
| EvTerm (t : terminator) (d : option D).

Arguments EvFree {D} d.
Arguments EvTerm {D} t d.

(** [struct s_nbu_list_t] without [rootnode]. *)
Record nbu_list_t := Lst {
  count : Z;
  data_size : Z;
  data_terminator_func : option terminator;
  iterator : ptr;
}.

Definition set_count (c : Z) (l : nbu_list_t) : nbu_list_t :=
  Lst c (data_size l) (data_terminator_func l) (iterator l).
Definition set_iterator (p : ptr) (l : nbu_list_t) : nbu_list_t :=
  Lst (count l) (data_size l) (data_terminator_func l) p.
Definition set_terminator (t : option terminator) (l : nbu_list_t) : nbu_list_t :=
  Lst (count l) (data_size l) t (iterator l).

(** The store: [struct s_nbu_list_node_t] field by field. *)
Record heap (D : Type) := Heap {
  h_next : gmap loc ptr;
  h_prev : gmap loc ptr;
  h_data : gmap loc (option D);
  h_lst : gmap loc nbu_list_t;
  h_fresh : loc;
  h_avail : nat;
  h_log : list (event D);
}.

Arguments Heap {D}.
Arguments h_next {D}.
Arguments h_prev {D}.
Arguments h_data {D}.
Arguments h_lst {D}.
Arguments h_fresh {D}.
Arguments h_avail {D}.
Arguments h_log {D}.

Definition heap_empty {D} (avail : nat) : heap D :=
  Heap ∅ ∅ ∅ ∅ 1%positive avail [].

Section ops.
Context {D : Type}.

Abbreviation M := (cmd (heap D)).

(** *** Field accesses *)
Definition load_next (p : ptr) : M ptr := λ h,
  match p with
  | Ptr a => lift (must (h_next h !! a)) h
  | _ => Undef
  end.

Definition load_prev (p : ptr) : M ptr := λ h,
  match p with
  | Ptr a => lift (must (h_prev h !! a)) h
  | _ => Undef
  end.

Definition load_data (p : ptr) : M (option D) := λ h,
  match p with
  | Ptr a => lift (must (h_data h !! a)) h
  | _ => Undef
  end.

Definition load_list (p : ptr) : M nbu_list_t := λ h,
  match p with
  | Ptr a => lift (must (h_lst h !! a)) h
  | _ => Undef
  end.

Definition store_next (p v : ptr) : M unit := λ h,
  match p with
  | Ptr a =>
      match h_next h !! a with
      | Some _ => Ret (tt, Heap (<[a := v]> (h_next h)) (h_prev h) (h_data h) (h_lst h)
                             (h_fresh h) (h_avail h) (h_log h))
      | None => Undef
      end
  | _ => Undef
  end.

Definition store_prev (p v : ptr) : M unit := λ h,
  match p with
  | Ptr a =>
      match h_prev h !! a with
      | Some _ => Ret (tt, Heap (h_next h) (<[a := v]> (h_prev h)) (h_data h) (h_lst h)
                             (h_fresh h) (h_avail h) (h_log h))
      | None => Undef
      end
  | _ => Undef
  end.

Definition store_data (p : ptr) (v : option D) : M unit := λ h,
  match p with
  | Ptr a =>
      match h_data h !! a with
      | Some _ => Ret (tt, Heap (h_next h) (h_prev h) (<[a := v]> (h_data h)) (h_lst h)
                             (h_fresh h) (h_avail h) (h_log h))
      | None => Undef
      end
  | _ => Undef
  end.

Definition mod_list (p : ptr) (f : nbu_list_t → nbu_list_t) : M unit := λ h,
  match p with
  | Ptr a =>
      match h_lst h !! a with
      | Some l => Ret (tt, Heap (h_next h) (h_prev h) (h_data h) (<[a := f l]> (h_lst h))
                             (h_fresh h) (h_avail h) (h_log h))
      | None => Undef
      end
  | _ => Undef
  end.

Definition log_event (e : event D) : M unit := λ h,
  Ret (tt, Heap (h_next h) (h_prev h) (h_data h) (h_lst h) (h_fresh h) (h_avail h)
             (h_log h ++ [e])).

(** [calloc(1, sizeof(nbu_list_node_t))]: a zeroed cell, or NULL. *)
Definition calloc_node : M ptr := λ h,
  match h_avail h with
  | O => Ret (Null, h)
  | S n =>
      let a := h_fresh h in
      Ret (Ptr a, Heap (<[a := Null]> (h_next h)) (<[a := Null]> (h_prev h))
                    (<[a := None]> (h_data h)) (h_lst h) (Pos.succ a) n (h_log h))
  end.

(** [calloc(1, sizeof(nbu_list_t))]: the list's fields and its root cell. *)
Definition calloc_list : M ptr := λ h,
  match h_avail h with
  | O => Ret (Null, h)
  | S n =>
      let a := h_fresh h in
      Ret (Ptr a, Heap (<[a := Null]> (h_next h)) (<[a := Null]> (h_prev h))
                    (<[a := None]> (h_data h)) (<[a := Lst 0 0 None Null]> (h_lst h))
                    (Pos.succ a) n (h_log h))
  end.

(** [free] of a node.  The root cell is part of the list's block: its address is
    not one [free] accepts. *)
Definition free_node (p : ptr) : M unit := λ h,
  match p with
  | Ptr a =>
      match h_lst h !! a, h_next h !! a with
      | None, Some _ =>
          Ret (tt, Heap (delete a (h_next h)) (delete a (h_prev h)) (delete a (h_data h))
                     (h_lst h) (h_fresh h) (h_avail h) (h_log h))
      | _, _ => Undef
      end
  | Null => Ret (tt, h)
  | _ => Undef
  end.

Definition free_list (p : ptr) : M unit := λ h,
  match p with
  | Ptr a =>
      match h_lst h !! a with
      | Some _ =>
          Ret (tt, Heap (delete a (h_next h)) (delete a (h_prev h)) (delete a (h_data h))
                     (delete a (h_lst h)) (h_fresh h) (h_avail h) (h_log h))
      | None => Undef
      end
  | Null => Ret (tt, h)
  | _ => Undef
  end.

Definition not_null (p : ptr) : bool := match p with Null => false | _ => true end.
Definition ptr_eqb (p q : ptr) : bool := bool_decide (p = q).

(** Loops visit distinct cells, so one more than the number of cells is enough. *)
Definition cells : M nat := λ h, Ret (S (size (h_next h)), h).

(** *** list.c *)
Definition nbu_list_destroy_node (list node_ref : ptr) : M unit :=
  assert_c (not_null list);;
  assert_c (not_null node_ref);;
  l ← load_list list;
  d ← load_data node_ref;
  log_event (match data_terminator_func l with
             | Some t => EvTerm t d
             | None => EvFree d
             end);;
  store_data node_ref None;;
  nx ← load_next node_ref;
  pv ← load_prev node_ref;
  (if not_null nx then store_prev nx pv else store_prev list pv);;
  nx ← load_next node_ref;
  pv ← load_prev node_ref;
  (if not_null pv then store_next pv nx else store_next list nx);;
  free_node node_ref;;
  mod_list list (λ l, set_count (u32 (count l - 1)) l).

Definition nbu_list_insert (list : ptr) (data : option D) (node_ref : ptr)
    (direction : bool) : M Z :=
  assert_c (not_null list);;
  node ← calloc_node;
  if not_null node then
    store_data node data;;
    if negb (not_null node_ref) then
      rn ← load_next list;
      rp ← load_prev list;
      if negb (not_null rn) && negb (not_null rp) then
        store_next list node;;
        store_prev list node;;
        store_prev node list;;
        store_next node list;;
        mod_list list (λ l, set_count (u32 (count l + 1)) l);;
        mret NBU_SUCCESS
      else
        free_node node;;
        mret NBU_ERROR
    else if direction then
      store_prev node node_ref;;
      rn ← load_next node_ref;
      store_next node rn;;
      nn ← load_next node;
      (if negb (not_null nn) then store_prev list node else mret tt);;
      rn ← load_next node_ref;
      (if not_null rn then store_prev rn node else mret tt);;
      store_next node_ref node;;
      mod_list list (λ l, set_count (u32 (count l + 1)) l);;
      mret NBU_SUCCESS
    else
      rp ← load_prev node_ref;
      store_prev node rp;;
      store_next node node_ref;;
      np ← load_prev node;
      (if negb (not_null np) then store_next list node else mret tt);;
      rp ← load_prev node_ref;
      (if not_null rp then store_next rp node else mret tt);;
      store_prev node_ref node;;
      mod_list list (λ l, set_count (u32 (count l + 1)) l);;
      mret NBU_SUCCESS
  else mret NBU_ERROR.

Definition nbu_list_new (dsize : Z) : M ptr :=
  list ← calloc_list;
  (if not_null list
   then mod_list list (λ l, Lst (count l) dsize (data_terminator_func l) (iterator l))
   else mret tt);;
  mret list.

Definition nbu_list_new_with_terminator (dsize : Z) (t : option terminator) : M ptr :=
  list ← nbu_list_new dsize;
  (if not_null list then mod_list list (set_terminator t) else mret tt);;
  mret list.

Definition nbu_list_count (list : ptr) : M Z :=
  assert_c (not_null list);;
  l ← load_list list;
  mret (count l).

Definition nbu_list_iterator_start (list : ptr) : M unit :=
  assert_c (not_null list);;
  n ← load_next list;
  mod_list list (set_iterator n).

Definition nbu_list_iterator_end (list : ptr) : M unit :=
  assert_c (not_null list);;
  p ← load_prev list;
  mod_list list (set_iterator p).

Definition nbu_list_iterator_next (list : ptr) : M unit :=
  assert_c (not_null list);;
  l ← load_list list;
  assert_c (not_null (iterator l));;
  n ← load_next (iterator l);
  mod_list list (set_iterator n).

Definition nbu_list_iterator_previous (list : ptr) : M unit :=
  assert_c (not_null list);;
  l ← load_list list;
  assert_c (not_null (iterator l));;
  p ← load_prev (iterator l);
  mod_list list (set_iterator p).

Definition nbu_list_iterator_is_valid (list : ptr) : M bool :=
  l ← load_list list;
  mret (not_null (iterator l) && negb (ptr_eqb (iterator l) list)).

Definition nbu_list_iterator_is_last (list : ptr) : M bool :=
  l ← load_list list;
  rp ← load_prev list;
  mret (ptr_eqb (iterator l) rp).

Definition nbu_list_iterator_is_first (list : ptr) : M bool :=
  l ← load_list list;
  rn ← load_next list;
  mret (ptr_eqb (iterator l) rn).

Definition nbu_list_iterator_has_next (list : ptr) : M bool :=
  l ← load_list list;
  n ← load_next (iterator l);
  mret (not_null n && negb (ptr_eqb n list)).

Definition nbu_list_iterator_has_previous (list : ptr) : M bool :=
  l ← load_list list;
  p ← load_prev (iterator l);
  mret (not_null p && negb (ptr_eqb p list)).

Definition nbu_list_get (list : ptr) : M (option D) :=
  assert_c (not_null list);;
  l ← load_list list;
  assert_c (not_null (iterator l));;
  load_data (iterator l).

Definition nbu_list_insert_after (list : ptr) (data : option D) : M Z :=
  l ← load_list list;
  nbu_list_insert list data (iterator l) true.

Definition nbu_list_insert_before (list : ptr) (data : option D) : M Z :=
  l ← load_list list;
  nbu_list_insert list data (iterator l) false.

Definition nbu_list_delete_forward (list : ptr) : M unit :=
  assert_c (not_null list);;
  l ← load_list list;
  assert_c (not_null (iterator l));;
  node_next ← load_next (iterator l);
  nbu_list_destroy_node list (iterator l);;
  mod_list list (set_iterator node_next).

Definition nbu_list_delete_backward (list : ptr) : M unit :=
  assert_c (not_null list);;
  l ← load_list list;
  assert_c (not_null (iterator l));;
  node_prev ← load_prev (iterator l);
  nbu_list_destroy_node list (iterator l);;
  mod_list list (set_iterator node_prev).

Definition nbu_list_insert_begin (list : ptr) (data : option D) : M Z :=
  rn ← load_next list;
  nbu_list_insert list data rn false.

Definition nbu_list_insert_end (list : ptr) (data : option D) : M Z :=
  rp ← load_prev list;
  nbu_list_insert list data rp true.

Definition nbu_list_delete_begin (list : ptr) : M unit :=
  rn ← load_next list;
  nbu_list_destroy_node list rn.

Definition nbu_list_delete_end (list : ptr) : M unit :=
  rp ← load_prev list;
  nbu_list_destroy_node list rp.

(** The macro [nbu_list_for_each_data]; the data pointer it reads never is the
    list's own address. *)
Definition nbu_list_for_each_data {A} (list : ptr) (body : option D → A → M (A + A))
    (acc : A) : M A :=
  nbu_list_iterator_start list;;
  fuel ← cells;
  for_each fuel (nbu_list_iterator_is_valid list) (nbu_list_get list)
    (nbu_list_iterator_next list) body acc.

Definition nbu_list_get_at_index (list : ptr) (ind : Z) : M (option D) :=
  if negb (not_null list) then mret None
  else
    n ← nbu_list_count list;
    if n <=? ind then mret None
    else
      r ← nbu_list_for_each_data list
            (λ d acc, mret (if acc.1 =? ind then inr (acc.1, d) else inl (u32 (acc.1 + 1), d)))
            (0, None);
      mret (snd r).

(** The search loop of [nbu_list_contain]. *)
Fixpoint contain_loop (fuel : nat) (list marker : ptr) (data : option D)
    (compare : option D → option D → Z) : M Z :=
  match fuel with
  | O => λ _, NoFuel
  | S f =>
      if not_null marker && negb (ptr_eqb marker list) then
        d ← load_data marker;
        if compare d data =? 0 then mret NBU_SUCCESS
        else
          n ← load_next marker;
          contain_loop f list n data compare
      else mret NBU_ERROR
  end.

Definition nbu_list_contain (list : ptr) (data : option D)
    (compare : option D → option D → Z) : M Z :=
  marker ← load_next list;
  fuel ← cells;
  contain_loop fuel list marker data compare.

(** The loop of [nbu_list_destroy]. *)
Fixpoint destroy_loop (fuel : nat) (list : ptr) : M unit :=
  match fuel with
  | O => λ _, NoFuel
  | S f =>
      v ← nbu_list_iterator_is_valid list;
      if v : bool then
        l ← load_list list;
        next_node ← load_next (iterator l);
        nbu_list_destroy_node list (iterator l);;
        mod_list list (set_iterator next_node);;
        destroy_loop f list
      else mret tt
  end.

Definition nbu_list_destroy (list : ptr) : M unit :=
  if negb (not_null list) then mret tt
  else
    nbu_list_iterator_start list;;
    fuel ← cells;
    destroy_loop fuel list;;
    free_list list.

(** One pass of the inner loop of [nbu_list_sort]: [inserted] is set when [data]
    went in before an element it does not come after. *)
Definition sort_insert (list_sorted : ptr) (sort_func : option D → option D → Z)
    (data : option D) : M unit :=
  inserted ← nbu_list_for_each_data list_sorted
    (λ data_sorted ins,
       if 0 <? sort_func data data_sorted then mret (inl ins)
       else
         nbu_list_insert_before list_sorted data;;
         mret (inr true))
    false;
  if negb inserted then
    nbu_list_insert_end list_sorted data;;
    mret tt
  else mret tt.

(** [*list] is passed in and the new [*list] is returned beside the status. *)
Definition nbu_list_sort (list : ptr) (sort_func : option D → option D → Z) : M (Z * ptr) :=
  assert_c (not_null list);;
  mod_list list (set_terminator (Some VoidTerminator));;
  l ← load_list list;
  list_sorted ← nbu_list_new (data_size l);
  l ← load_list list;
  mod_list list_sorted (set_terminator (data_terminator_func l));;
  nbu_list_for_each_data list
    (λ data _, sort_insert list_sorted sort_func data;; mret (inl tt)) tt;;
  nbu_list_destroy list;;
  mret (NBU_SUCCESS, list_sorted).

End ops.

End NbuList.
