(* ===== verification/NbuListSpec.v ===== *)
(** What libnbu's list promises: the operations of [NbuList] implement a finite
    sequence with a cursor.

    [is_list h a ns ds]: in heap [h] the list at [a] has the node cells [ns]
    holding the data [ds].  Every operation is shown to return normally on such a
    list and to produce the list the sequence operation gives, touching no other
    list of the heap. *)

From stdpp Require Import base tactics list gmap.
From S2P Require Import Prelude.
From S2P Require Import Dll.
From S2P Require Import CursorList.
From S2P Require Import NbuList.
Import NbuList.

Section defs.
Context {D : Type}.

(** Cells at and above [h_fresh] were never allocated. *)
Definition heap_ok (h : heap D) : Prop :=
  ∀ x, (h_fresh h <= x)%positive →
    h_next h !! x = None ∧ h_prev h !! x = None ∧ h_data h !! x = None ∧ h_lst h !! x = None.

(** The links of a list: never used (both root pointers NULL) or a cycle. *)
Definition links_ok (h : heap D) (a : loc) (ns : list loc) : Prop :=
  (ns = [] ∧ h_next h !! a = Some Null ∧ h_prev h !! a = Some Null)
  ∨ is_dll (h_next h) (h_prev h) a ns.

Record is_list (h : heap D) (a : loc) (ns : list loc) (ds : list (option D)) : Prop := {
  il_nodup : NoDup (a :: ns);
  il_links : links_ok h a ns;
  il_data : Forall2 (λ n d, h_data h !! n = Some d) ns ds;
  il_root : h_data h !! a = Some None;
  il_nodes : Forall (λ n, h_lst h !! n = None) ns;
  il_hdr : ∃ l, h_lst h !! a = Some l ∧ count l = u32 (Z.of_nat (length ns));
}.

(** Heaps that agree outside the cells [X]. *)
Definition agree_off (X : list loc) (h h' : heap D) : Prop :=
  ∀ x, x ∉ X →
    h_next h' !! x = h_next h !! x ∧ h_prev h' !! x = h_prev h !! x ∧
    h_data h' !! x = h_data h !! x ∧ h_lst h' !! x = h_lst h !! x.

(** The heap after a new node holding [d] was spliced between [p] and [q]. *)
Definition spliced (h : heap D) (a p q : loc) (d : option D) (l : nbu_list_t) (k : nat) : heap D :=
  let n := h_fresh h in
  Heap (<[p := Ptr n]> (<[n := Ptr q]> (<[n := Null]> (h_next h))))
       (<[q := Ptr n]> (<[n := Ptr p]> (<[n := Null]> (h_prev h))))
       (<[n := d]> (<[n := None]> (h_data h)))
       (<[a := set_count (u32 (count l + 1)) l]> (h_lst h))
       (Pos.succ n) k (h_log h).

(** The event [nbu_list_destroy_node] logs for data [d] of a list [l]. *)
Definition disposal (l : nbu_list_t) (d : option D) : event D :=
  match data_terminator_func l with
  | Some t => EvTerm t d
  | None => EvFree d
  end.

(** The heap after the node [n] between [p] and [q] was destroyed. *)
Definition unspliced (h : heap D) (a p n q : loc) (d : option D) (l : nbu_list_t) : heap D :=
  Heap (delete n (<[p := Ptr q]> (h_next h)))
       (delete n (<[q := Ptr p]> (h_prev h)))
       (delete n (<[n := None]> (h_data h)))
       (<[a := set_count (u32 (count l - 1)) l]> (h_lst h))
       (h_fresh h) (h_avail h) (h_log h ++ [disposal l d]).

(** The heap with the list's cursor moved. *)
Definition with_iterator (h : heap D) (a : loc) (p : ptr) (l : nbu_list_t) : heap D :=
  Heap (h_next h) (h_prev h) (h_data h) (<[a := set_iterator p l]> (h_lst h))
       (h_fresh h) (h_avail h) (h_log h).

(** What a successful insertion leaves besides the new sequence. *)
Record grown (h h' : heap D) (a : loc) (ns : list loc) : Prop := {
  gr_ok : heap_ok h';
  gr_avail : h_avail h = S (h_avail h');
  gr_log : h_log h' = h_log h;
  gr_fresh : h_fresh h' = Pos.succ (h_fresh h);
  gr_frame : agree_off (h_fresh h :: a :: ns) h h';
  gr_hdr : ∀ l, h_lst h !! a = Some l → h_lst h' !! a = Some (set_count (u32 (count l + 1)) l);
}.

(** What destroying one node leaves besides the shorter sequence. *)
Record shrunk (h h' : heap D) (a : loc) (ns : list loc) (n : loc) (d : option D) : Prop := {
  sh_ok : heap_ok h';
  sh_avail : h_avail h' = h_avail h;
  sh_log : ∀ l, h_lst h !! a = Some l → h_log h' = h_log h ++ [disposal l d];
  sh_fresh : h_fresh h' = h_fresh h;
  sh_frame : agree_off (a :: ns) h h';
  sh_freed : h_next h' !! n = None ∧ h_prev h' !! n = None ∧ h_data h' !! n = None;
}.

(** The list at [a] as a cursor list. *)
Definition nodes_of (xs : list (loc * option D)) : list loc := fst <$> xs.
Definition datas_of (xs : list (loc * option D)) : list (option D) := snd <$> xs.

Definition first_ptr (a : loc) (post : list (loc * option D)) : ptr :=
  match post with [] => Ptr a | (n, _) :: _ => Ptr n end.

Definition nbu_at (a : loc) (h : heap D) (pre post : list (loc * option D)) : Prop :=
  heap_ok h ∧ is_list h a (nodes_of (pre ++ post)) (datas_of (pre ++ post)) ∧
  ∃ l, h_lst h !! a = Some l ∧
       (iterator l = first_ptr a post ∨ (pre ++ post = [] ∧ iterator l = Null)).

Definition nbu_behind (a : loc) (h : heap D) (pre post : list (loc * option D)) : Prop :=
  heap_ok h ∧ is_list h a (nodes_of (pre ++ post)) (datas_of (pre ++ post)) ∧
  is_dll (h_next h) (h_prev h) a (nodes_of (pre ++ post)) ∧
  ∃ l P p, h_lst h !! a = Some l ∧ a :: nodes_of pre = P ++ [p] ∧ iterator l = Ptr p.

Definition nbu_same (a : loc) (h h' : heap D) : Prop :=
  h' = h ∨ ∃ p l, h_lst h !! a = Some l ∧ h' = with_iterator h a p l.

End defs.

(** *** Symbolic execution of the primitive commands *)
Section prims.
Context {D : Type}.
Implicit Types h : heap D.

Lemma load_next_ok h p v : h_next h !! p = Some v → load_next (Ptr p) h = Ret (v, h).
Proof. intros E. unfold load_next. by rewrite E. Qed.
Lemma load_prev_ok h p v : h_prev h !! p = Some v → load_prev (Ptr p) h = Ret (v, h).
Proof. intros E. unfold load_prev. by rewrite E. Qed.
Lemma load_data_ok h p v : h_data h !! p = Some v → load_data (Ptr p) h = Ret (v, h).
Proof. intros E. unfold load_data. by rewrite E. Qed.
Lemma load_list_ok h p v : h_lst h !! p = Some v → load_list (Ptr p) h = Ret (v, h).
Proof. intros E. unfold load_list. by rewrite E. Qed.

Lemma store_next_ok h p w v : h_next h !! p = Some w →
  store_next (Ptr p) v h = Ret (tt, Heap (<[p := v]> (h_next h)) (h_prev h) (h_data h)
    (h_lst h) (h_fresh h) (h_avail h) (h_log h)).
Proof. intros E. unfold store_next. by rewrite E. Qed.
Lemma store_prev_ok h p w v : h_prev h !! p = Some w →
  store_prev (Ptr p) v h = Ret (tt, Heap (h_next h) (<[p := v]> (h_prev h)) (h_data h)
    (h_lst h) (h_fresh h) (h_avail h) (h_log h)).
Proof. intros E. unfold store_prev. by rewrite E. Qed.
Lemma store_data_ok h p w v : h_data h !! p = Some w →
  store_data (Ptr p) v h = Ret (tt, Heap (h_next h) (h_prev h) (<[p := v]> (h_data h))
    (h_lst h) (h_fresh h) (h_avail h) (h_log h)).
Proof. intros E. unfold store_data. by rewrite E. Qed.
Lemma mod_list_ok h p l f : h_lst h !! p = Some l →
  mod_list (Ptr p) f h = Ret (tt, Heap (h_next h) (h_prev h) (h_data h)
    (<[p := f l]> (h_lst h)) (h_fresh h) (h_avail h) (h_log h)).
Proof. intros E. unfold mod_list. by rewrite E. Qed.
Lemma free_node_ok h p w : h_lst h !! p = None → h_next h !! p = Some w →
  free_node (Ptr p) h = Ret (tt, Heap (delete p (h_next h)) (delete p (h_prev h))
    (delete p (h_data h)) (h_lst h) (h_fresh h) (h_avail h) (h_log h)).
Proof. intros E1 E2. unfold free_node. by rewrite E1, E2. Qed.
Lemma free_list_ok h p l : h_lst h !! p = Some l →
  free_list (Ptr p) h = Ret (tt, Heap (delete p (h_next h)) (delete p (h_prev h))
    (delete p (h_data h)) (delete p (h_lst h)) (h_fresh h) (h_avail h) (h_log h)).
Proof. intros E. unfold free_list. by rewrite E. Qed.
Lemma calloc_node_ok h k : h_avail h = S k →
  calloc_node h = Ret (Ptr (h_fresh h),
    Heap (<[h_fresh h := Null]> (h_next h)) (<[h_fresh h := Null]> (h_prev h))
      (<[h_fresh h := None]> (h_data h)) (h_lst h) (Pos.succ (h_fresh h)) k (h_log h)).
Proof. intros E. unfold calloc_node. by rewrite E. Qed.

Lemma calloc_list_ok h k : h_avail h = S k →
  calloc_list h = Ret (Ptr (h_fresh h),
    Heap (<[h_fresh h := Null]> (h_next h)) (<[h_fresh h := Null]> (h_prev h))
      (<[h_fresh h := None]> (h_data h)) (<[h_fresh h := Lst 0 0 None Null]> (h_lst h))
      (Pos.succ (h_fresh h)) k (h_log h)).
Proof. intros E. unfold calloc_list. by rewrite E. Qed.

End prims.

(** Solve a primitive step: apply its rule and compute the lookup it needs. *)
Ltac look :=
  cbn [h_next h_prev h_data h_lst h_fresh h_avail h_log];
  solve [ repeat first [ eassumption
                       | reflexivity
                       | rewrite lookup_insert_eq; reflexivity
                       | rewrite lookup_insert_ne by congruence
                       | rewrite lookup_delete_ne by congruence ] ].
Ltac prim :=
  lazymatch goal with
  | |- assert_c (not_null (Ptr _)) _ = _ => reflexivity
  | |- assert_c true _ = _ => reflexivity
  | |- log_event _ _ = _ => reflexivity
  | |- mret _ _ = _ => reflexivity
  | |- cells _ = _ => reflexivity
  | |- load_next _ _ = _ => eapply load_next_ok; look
  | |- load_prev _ _ = _ => eapply load_prev_ok; look
  | |- load_data _ _ = _ => eapply load_data_ok; look
  | |- load_list _ _ = _ => eapply load_list_ok; look
  | |- store_next _ _ _ = _ => eapply store_next_ok; look
  | |- store_prev _ _ _ = _ => eapply store_prev_ok; look
  | |- store_data _ _ _ = _ => eapply store_data_ok; look
  | |- mod_list _ _ _ = _ => eapply mod_list_ok; look
  | |- free_node _ _ = _ => eapply free_node_ok; look
  | |- free_list _ _ = _ => eapply free_list_ok; look
  | |- calloc_node _ = _ => eapply calloc_node_ok; look
  | |- calloc_list _ = _ => eapply calloc_list_ok; look
  end.

(** Run the first command of a sequence. *)
Ltac cstep :=
  lazymatch goal with
  | |- (_ ≫= _) _ = _ => erewrite cmd_bind_Ret; [|prim]; cbn [not_null negb andb h_next h_prev h_data h_lst h_fresh h_avail h_log]
  end.

Section specs.
Context {D : Type}.
Implicit Types h : heap D.

Lemma insert_dir_ok h a p q d l k dir :
  heap_ok h → h_avail h = S k → h_lst h !! a = Some l →
  h_next h !! p = Some (Ptr q) → h_prev h !! q = Some (Ptr p) →
  nbu_list_insert (Ptr a) d (Ptr (if dir : bool then p else q)) dir h
  = Ret (NBU_SUCCESS, spliced h a p q d l k).
Proof.
  intros Hok Hk Hl Hp Hq. destruct h as [nx pv dt ls n av lg]. cbn in *. subst av.
  destruct (Hok n ltac:(cbn; lia)) as (Hn1 & Hn2 & Hn3 & Hn4); cbn in *.
  assert (p ≠ n) by congruence. assert (q ≠ n) by congruence. assert (a ≠ n) by congruence.
  unfold nbu_list_insert.
  destruct dir; repeat cstep; reflexivity.
Qed.

Lemma insert_first_ok h a d l k dir :
  heap_ok h → h_avail h = S k → h_lst h !! a = Some l →
  h_next h !! a = Some Null → h_prev h !! a = Some Null →
  nbu_list_insert (Ptr a) d Null dir h = Ret (NBU_SUCCESS, spliced h a a a d l k).
Proof.
  intros Hok Hk Hl Hp Hq. destruct h as [nx pv dt ls n av lg]. cbn in *. subst av.
  destruct (Hok n ltac:(cbn; lia)) as (Hn1 & Hn2 & Hn3 & Hn4); cbn in *.
  assert (a ≠ n) by congruence.
  unfold nbu_list_insert. repeat cstep. unfold spliced; cbn.
  rewrite (insert_insert_ne (<[n:=Null]> nx) n a), (insert_insert_ne (<[n:=Null]> pv) n a)
    by congruence.
  reflexivity.
Qed.

(** A list that has nodes but is given a NULL reference node is refused. *)
Lemma insert_null_refused h a p d k dir :
  heap_ok h → h_avail h = S k → is_Some (h_lst h !! a) →
  h_next h !! a = Some (Ptr p) → is_Some (h_prev h !! a) →
  ∃ h', nbu_list_insert (Ptr a) d Null dir h = Ret (NBU_ERROR, h') ∧
        agree_off [h_fresh h] h h' ∧ h_log h' = h_log h ∧ heap_ok h' ∧ h_avail h' = k.
Proof.
  intros Hok Hk [l Hl] Hp [pv0 Hq]. destruct h as [nx pv dt ls n av lg]. cbn in *. subst av.
  destruct (Hok n ltac:(cbn; lia)) as (Hn1 & Hn2 & Hn3 & Hn4); cbn in *.
  assert (a ≠ n) by congruence.
  eexists. unfold nbu_list_insert. split_and!.
  - repeat cstep. reflexivity.
  - intros x Hx. apply not_elem_of_cons in Hx as [Hx _]. cbn.
    rewrite !lookup_delete_ne, !lookup_insert_ne by done. done.
  - done.
  - intros x Hx. cbn in *. destruct (Hok x ltac:(cbn; lia)) as (? & ? & ? & ?).
    by rewrite !lookup_delete_ne, !lookup_insert_ne by lia.
  - done.
Qed.

Lemma insert_oom h a d r dir :
  h_avail h = O → nbu_list_insert (Ptr a) d r dir h = Ret (NBU_ERROR, h).
Proof.
  intros Hk. unfold nbu_list_insert. cstep.
  erewrite cmd_bind_Ret; [|unfold calloc_node; rewrite Hk; reflexivity]. reflexivity.
Qed.

Lemma destroy_node_ok h a p n q d l :
  h_lst h !! a = Some l → h_lst h !! n = None →
  h_next h !! n = Some (Ptr q) → h_prev h !! n = Some (Ptr p) →
  is_Some (h_next h !! p) → is_Some (h_prev h !! q) →
  p ≠ n → q ≠ n → h_data h !! n = Some d →
  nbu_list_destroy_node (Ptr a) (Ptr n) h = Ret (tt, unspliced h a p n q d l).
Proof.
  intros Hl Hln Hn Hp [? Hp'] [? Hq'] Hpn Hqn Hd.
  destruct h as [nx pv dt ls fr av lg]. cbn in *.
  unfold nbu_list_destroy_node. repeat cstep.
  erewrite mod_list_ok; [reflexivity|look].
Qed.

(** *** Framing *)
Lemma is_list_frame X h h' a ns ds :
  agree_off X h h' → (∀ x, x ∈ a :: ns → x ∉ X) →
  is_list h a ns ds → is_list h' a ns ds.
Proof.
  intros Hag Hdis [Hnd Hlk Hdt Hrt Hno Hhd].
  assert (∀ x, x ∈ a :: ns → h_next h' !! x = h_next h !! x ∧ h_prev h' !! x = h_prev h !! x ∧
            h_data h' !! x = h_data h !! x ∧ h_lst h' !! x = h_lst h !! x) as Hin
    by (intros x Hx; apply Hag, Hdis, Hx).
  destruct (Hin a ltac:(set_solver)) as (Ha1 & Ha2 & Ha3 & Ha4).
  split; [done| | | | |by rewrite Ha4].
  - destruct Hlk as [(-> & H1 & H2)|[_ Hc]]; [left; by rewrite Ha1, Ha2|right].
    split; [done|]. eapply chain_ext; [| |exact Hc].
    + intros x Hx. apply (Hin x).
      change (a :: ns ++ [a]) with ((a :: ns) ++ [a]) in Hx. by rewrite sources_snoc in Hx.
    + intros x Hx. apply (Hin x). unfold targets in Hx; simpl in Hx. set_solver.
  - rewrite Forall2_lookup in *. intros i. specialize (Hdt i).
    destruct (ns !! i) as [n|] eqn:En; [|by inversion Hdt; constructor].
    inversion Hdt as [? d Hd|]; subst. constructor.
    destruct (Hin n) as (_ & _ & -> & _); [|done].
    apply elem_of_cons; right. by eapply list_elem_of_lookup_2.
  - by rewrite Ha3.
  - rewrite Forall_forall in *. intros x Hx. destruct (Hin x) as (_ & _ & _ & ->); [set_solver|auto].
Qed.

Lemma agree_off_refl X h : agree_off X h h.
Proof. by intros x _. Qed.

Lemma agree_off_trans X Y h1 h2 h3 :
  agree_off X h1 h2 → agree_off Y h2 h3 → agree_off (X ++ Y) h1 h3.
Proof.
  intros H1 H2 x Hx. apply not_elem_of_app in Hx as [Hx Hy].
  destruct (H1 x Hx) as (E1 & E2 & E3 & E4). destruct (H2 x Hy) as (F1 & F2 & F3 & F4).
  by rewrite F1, F2, F3, F4.
Qed.

Lemma agree_off_mono X Y h h' : (∀ x, x ∈ X → x ∈ Y) → agree_off X h h' → agree_off Y h h'.
Proof. intros Hs H x Hx. apply H. auto. Qed.

(** Nodes of a list are allocated. *)
Lemma is_list_alloc h a ns ds :
  heap_ok h → is_list h a ns ds → ∀ x, x ∈ a :: ns → (x < h_fresh h)%positive.
Proof.
  intros Hok [_ _ Hdt Hrt _ _] x Hx.
  destruct (decide (x < h_fresh h)%positive) as [|Hge]; [done|].
  destruct (Hok x ltac:(lia)) as (_ & _ & Hd & _).
  apply elem_of_cons in Hx as [->|Hx]; [congruence|].
  apply list_elem_of_lookup in Hx as [i Hi].
  destruct (Forall2_lookup_l _ _ _ _ _ Hdt Hi) as (y & _ & Hy). congruence.
Qed.

(** *** The two surgeries on a well-formed list *)
Lemma heap_ok_spliced h a p q d l k :
  heap_ok h → (a < h_fresh h)%positive → (p < h_fresh h)%positive → (q < h_fresh h)%positive →
  heap_ok (spliced h a p q d l k).
Proof.
  intros Hok Ha Hp Hq x Hx. unfold spliced in *; cbn in *.
  destruct (Hok x ltac:(lia)) as (H1 & H2 & H3 & H4).
  by rewrite !lookup_insert_ne by lia.
Qed.

Lemma agree_off_spliced h a p q d l k :
  agree_off [h_fresh h; a; p; q] h (spliced h a p q d l k).
Proof.
  intros x Hx. cbn. rewrite !not_elem_of_cons in Hx. destruct Hx as (? & ? & ? & ? & _).
  by rewrite !lookup_insert_ne by done.
Qed.

Lemma path_split (a : loc) ns1 ns2 P p q Q :
  a :: ns1 = P ++ [p] → ns2 ++ [a] = q :: Q →
  a :: (ns1 ++ ns2) ++ [a] = P ++ p :: q :: Q.
Proof.
  intros E1 E2. rewrite <- app_assoc, E2.
  change (a :: ns1 ++ q :: Q) with ((a :: ns1) ++ q :: Q). rewrite E1, <- app_assoc. done.
Qed.

Lemma Forall2_data_ext (dt dt' : gmap loc (option D)) ns ds :
  (∀ x, x ∈ ns → dt' !! x = dt !! x) →
  Forall2 (λ n d, dt !! n = Some d) ns ds → Forall2 (λ n d, dt' !! n = Some d) ns ds.
Proof.
  intros Hx H. induction H as [|n d ns ds Hn _ IH]; constructor.
  - rewrite Hx; [done|]. set_solver.
  - apply IH. intros x Hin. apply Hx. set_solver.
Qed.

Lemma splice_nodup (a n : loc) ns1 ns2 :
  NoDup (a :: ns1 ++ ns2) → n ∉ a :: ns1 ++ ns2 → NoDup (a :: ns1 ++ n :: ns2).
Proof.
  intros Hnd Hn. rewrite <- (Permutation_middle ns1 ns2 n).
  apply NoDup_cons in Hnd as [Ha Hnd]. apply NoDup_cons. split; [set_solver|].
  apply NoDup_cons. set_solver.
Qed.

Lemma spliced_dll h a ns1 ns2 P p q Q d l k :
  NoDup (a :: ns1 ++ ns2) → h_fresh h ∉ a :: ns1 ++ ns2 →
  is_dll (h_next h) (h_prev h) a (ns1 ++ ns2) ∨ ns1 ++ ns2 = [] →
  a :: ns1 = P ++ [p] → ns2 ++ [a] = q :: Q →
  is_dll (h_next (spliced h a p q d l k)) (h_prev (spliced h a p q d l k)) a
    (ns1 ++ h_fresh h :: ns2).
Proof.
  intros Hnd Hn Hdll E1 E2. set (n := h_fresh h) in *. cbn. fold n.
  split; [by apply splice_nodup|].
  rewrite (path_split a ns1 (n :: ns2) P p n (q :: Q)) by (done || (simpl; by rewrite E2)).
  pose proof (path_split _ _ _ _ _ _ _ E1 E2) as E.
  destruct Hdll as [[_ Hch]|Hnil].
  - eapply chain_insert; [done|exact E|done|]. rewrite <- E.
    eapply chain_ext; [| |exact Hch]; intros x Hx;
      (rewrite lookup_insert_ne; [done|]; intros <-; apply Hn).
    + change (a :: (ns1 ++ ns2) ++ [a]) with ((a :: ns1 ++ ns2) ++ [a]) in Hx.
      by rewrite sources_snoc in Hx.
    + unfold targets in Hx; simpl in Hx. set_solver.
  - apply app_nil in Hnil as [-> ->]. destruct P as [|? [|]]; simplify_eq/=.
    assert (p ≠ n) by set_solver. unfold linked. by simplify_map_eq.
Qed.

Lemma spliced_data h a p q d l k ns1 ns2 ds1 ds2 :
  h_fresh h ∉ ns1 ++ ns2 → length ns1 = length ds1 →
  Forall2 (λ n d, h_data h !! n = Some d) (ns1 ++ ns2) (ds1 ++ ds2) →
  Forall2 (λ n d', h_data (spliced h a p q d l k) !! n = Some d')
    (ns1 ++ h_fresh h :: ns2) (ds1 ++ d :: ds2).
Proof.
  intros Hn Hlen Hdt. set (n := h_fresh h) in *. cbn. fold n.
  apply Forall2_app_inv in Hdt as [Hd1 Hd2]; [|done].
  apply Forall2_app; [|constructor].
  - eapply Forall2_data_ext; [|exact Hd1]. intros x Hx.
    rewrite !lookup_insert_ne by set_solver. done.
  - by rewrite lookup_insert_eq.
  - eapply Forall2_data_ext; [|exact Hd2]. intros x Hx.
    rewrite !lookup_insert_ne by set_solver. done.
Qed.

Lemma spliced_is_list h a ns1 ns2 ds1 ds2 P p q Q d l k :
  heap_ok h → is_list h a (ns1 ++ ns2) (ds1 ++ ds2) → length ns1 = length ds1 →
  h_lst h !! a = Some l →
  is_dll (h_next h) (h_prev h) a (ns1 ++ ns2) ∨ ns1 ++ ns2 = [] →
  a :: ns1 = P ++ [p] → ns2 ++ [a] = q :: Q →
  is_list (spliced h a p q d l k) a (ns1 ++ h_fresh h :: ns2) (ds1 ++ d :: ds2).
Proof.
  intros Hok Hil Hlen Hl Hdll E1 E2.
  assert (h_fresh h ∉ a :: ns1 ++ ns2) as Hn.
  { intros Hx. pose proof (is_list_alloc _ _ _ _ Hok Hil _ Hx). lia. }
  destruct Hil as [Hnd Hlk Hdt Hrt Hno (l' & Hl' & Hc)]. simplify_eq.
  pose proof (proj1 (NoDup_cons _ _) Hnd) as [Ha _].
  split.
  - by apply splice_nodup.
  - right. by eapply spliced_dll.
  - apply spliced_data; [set_solver|done..].
  - cbn. by rewrite !lookup_insert_ne by set_solver.
  - apply Forall_forall. intros x Hx. cbn. rewrite lookup_insert_ne by set_solver.
    destruct (decide (x = h_fresh h)) as [->|]; [by apply Hok|].
    eapply Forall_forall in Hno; [exact Hno|]. set_solver.
  - cbn. eexists. rewrite lookup_insert_eq. split; [done|]. simpl. rewrite Hc, !length_app; simpl.
    unfold u32. rewrite Zplus_mod_idemp_l. f_equal. lia.
Qed.

Lemma unspliced_is_list h a ns1 n ns2 ds1 d ds2 P p q Q l :
  is_list h a (ns1 ++ n :: ns2) (ds1 ++ d :: ds2) → length ns1 = length ds1 →
  h_lst h !! a = Some l → a :: ns1 = P ++ [p] → ns2 ++ [a] = q :: Q →
  is_list (unspliced h a p n q d l) a (ns1 ++ ns2) (ds1 ++ ds2).
Proof.
  intros Hil Hlen Hl E1 E2.
  destruct Hil as [Hnd Hlk Hdt Hrt Hno (l' & Hl' & Hc)]. simplify_eq.
  assert (NoDup (n :: a :: ns1 ++ ns2)) as Hnd'.
  { rewrite <- (Permutation_middle ns1 ns2 n) in Hnd.
    apply NoDup_cons in Hnd as [Ha Hnd]. apply NoDup_cons in Hnd as [Hn Hnd].
    rewrite !NoDup_cons. set_solver. }
  apply NoDup_cons in Hnd' as [Hn Hnd'].
  assert (∀ x, x ∈ ns1 ++ ns2 → x ≠ a) as Hxa.
  { intros x Hx ->. apply NoDup_cons in Hnd' as [? _]. done. }
  split; [done| | | | |].
  - right. split; [done|]. unfold unspliced; cbn [h_next h_prev]. destruct Hlk as [(E & _)|[_ Hch]]; [by destruct ns1|].
    rewrite (path_split _ _ _ _ _ _ _ E1 E2).
    pose proof (path_split a ns1 (n :: ns2) P p n (q :: Q) E1
                  ltac:(simpl; by rewrite E2)) as E.
    rewrite E in Hch.
    eapply chain_ext; [| |exact (chain_remove _ _ _ _ _ _ _ _ _ Hnd E Hch)]; intros x Hx;
      (rewrite lookup_delete_ne; [done|]; intros <-; apply Hn).
    + rewrite <- (path_split _ _ _ _ _ _ _ E1 E2) in Hx.
      change (a :: (ns1 ++ ns2) ++ [a]) with ((a :: ns1 ++ ns2) ++ [a]) in Hx.
      by rewrite sources_snoc in Hx.
    + rewrite <- (path_split _ _ _ _ _ _ _ E1 E2) in Hx.
      unfold targets in Hx; simpl in Hx. set_solver.
  - cbn. apply Forall2_app_inv in Hdt as [Hd1 Hd2]; [|done].
    apply Forall2_cons in Hd2 as [_ Hd2].
    eapply Forall2_data_ext; [|by apply Forall2_app; [exact Hd1|exact Hd2]].
    intros x Hx. rewrite lookup_delete_ne, lookup_insert_ne by set_solver. done.
  - cbn. rewrite lookup_delete_ne, lookup_insert_ne by set_solver. done.
  - apply Forall_forall. intros x Hx. cbn. rewrite lookup_insert_ne by (specialize (Hxa x); set_solver).
    eapply Forall_forall in Hno; [exact Hno|]. set_solver.
  - cbn. eexists. rewrite lookup_insert_eq. split; [done|]. simpl. rewrite Hc, !length_app; simpl.
    unfold u32. rewrite Zminus_mod_idemp_l. f_equal. lia.
Qed.

(** *** Views of a path *)
Lemma snoc_view (a : loc) ns : ∃ P p, a :: ns = P ++ [p].
Proof. destruct (exists_last (l := a :: ns)) as (P & p & E); [done|eauto]. Qed.

Lemma cons_view (a : loc) ns : ∃ q Q, ns ++ [a] = q :: Q.
Proof. destruct ns; simpl; eauto. Qed.

Lemma snoc_in (a : loc) ns P p : a :: ns = P ++ [p] → p ∈ a :: ns.
Proof. intros ->. set_solver. Qed.

Lemma cons_in (a : loc) ns q Q : ns ++ [a] = q :: Q → q ∈ a :: ns.
Proof. intros E. assert (q ∈ ns ++ [a]) by (rewrite E; set_solver). set_solver. Qed.

Lemma dll_step h a ns1 ns2 P p q Q :
  is_dll (h_next h) (h_prev h) a (ns1 ++ ns2) →
  a :: ns1 = P ++ [p] → ns2 ++ [a] = q :: Q →
  h_next h !! p = Some (Ptr q) ∧ h_prev h !! q = Some (Ptr p).
Proof. intros Hd E1 E2. eapply is_dll_next; [exact Hd|]. by apply path_split. Qed.

(** *** Insertion *)
Lemma spliced_grown h a ns p q d l k :
  heap_ok h → (∀ x, x ∈ a :: ns → (x < h_fresh h)%positive) → p ∈ a :: ns → q ∈ a :: ns →
  h_avail h = S k → h_lst h !! a = Some l → grown h (spliced h a p q d l k) a ns.
Proof.
  intros Hok Hal Hp Hq Hk Hl. split; [|done|done|done| |].
  - apply heap_ok_spliced; [done|apply Hal; set_solver..].
  - eapply agree_off_mono; [|apply agree_off_spliced]. set_solver.
  - intros l' Hl'. simplify_eq. cbn. by rewrite lookup_insert_eq.
Qed.

Lemma insert_at_spec h a ns1 ns2 ds1 ds2 P p q Q d dir ref :
  heap_ok h → is_list h a (ns1 ++ ns2) (ds1 ++ ds2) → length ns1 = length ds1 →
  h_avail h ≠ O →
  a :: ns1 = P ++ [p] → ns2 ++ [a] = q :: Q →
  ref = (if h_next h !! a is Some Null then Null else Ptr (if dir : bool then p else q)) →
  ∃ h', nbu_list_insert (Ptr a) d ref dir h = Ret (NBU_SUCCESS, h') ∧
        is_list h' a (ns1 ++ h_fresh h :: ns2) (ds1 ++ d :: ds2) ∧ grown h h' a (ns1 ++ ns2).
Proof.
  intros Hok Hil Hlen Hk E1 E2 Hrefeq.
  destruct (h_avail h) as [|k] eqn:Hav; [done|].
  pose proof (il_hdr _ _ _ _ Hil) as (l & Hl & _).
  pose proof (is_list_alloc _ _ _ _ Hok Hil) as Hal.
  exists (spliced h a p q d l k).
  assert (p ∈ a :: ns1 ++ ns2) by (apply snoc_in in E1; set_solver).
  assert (q ∈ a :: ns1 ++ ns2) by (apply cons_in in E2; set_solver).
  split_and!; [| |by apply spliced_grown].
  - destruct (il_links _ _ _ _ Hil) as [(Hnil & H1 & H2)|Hd].
    + rewrite H1 in Hrefeq. subst ref. apply app_nil in Hnil as [-> ->].
      destruct P as [|? [|]]; simplify_eq/=. by apply insert_first_ok.
    + destruct (dll_step _ _ _ _ _ _ _ _ Hd E1 E2) as [Hp Hq].
      destruct (cons_view a (ns1 ++ ns2)) as (q' & Q' & E'').
      destruct (dll_step h a [] (ns1 ++ ns2) [] a q' Q' Hd eq_refl E'') as [Ha _].
      rewrite Ha in Hrefeq. subst ref. by apply insert_dir_ok.
  - eapply spliced_is_list; [done..| | |]; [|done|done].
    destruct (il_links _ _ _ _ Hil) as [(Hnil & _)|Hd]; auto.
Qed.

Lemma root_next_spec h a ns ds q Q :
  is_list h a ns ds → ns ++ [a] = q :: Q →
  h_next h !! a = Some (if h_next h !! a is Some Null then Null else Ptr q).
Proof.
  intros Hil E. destruct (il_links _ _ _ _ Hil) as [(-> & H1 & _)|Hd]; [by rewrite H1|].
  destruct (dll_step h a [] ns [] a q Q Hd eq_refl E) as [-> _]. done.
Qed.

Lemma root_prev_spec h a ns ds P p :
  is_list h a ns ds → a :: ns = P ++ [p] →
  h_prev h !! a = Some (if h_next h !! a is Some Null then Null else Ptr p).
Proof.
  intros Hil E. destruct (il_links _ _ _ _ Hil) as [(-> & H1 & H2)|Hd]; [by rewrite H1|].
  destruct (cons_view a ns) as (q & Q & E'').
  destruct (dll_step h a [] ns [] a q Q Hd eq_refl E'') as [-> _].
  rewrite <- (app_nil_r ns) in Hd.
  by destruct (dll_step h a ns [] P p a [] Hd E eq_refl) as [_ ->].
Qed.

Lemma insert_end_spec h a ns ds d :
  heap_ok h → is_list h a ns ds → h_avail h ≠ O →
  ∃ h', nbu_list_insert_end (Ptr a) d h = Ret (NBU_SUCCESS, h') ∧
        is_list h' a (ns ++ [h_fresh h]) (ds ++ [d]) ∧ grown h h' a ns.
Proof.
  intros Hok Hil Hk. destruct (snoc_view a ns) as (P & p & E).
  pose proof (root_prev_spec _ _ _ _ _ _ Hil E) as Hp.
  unfold nbu_list_insert_end.
  destruct (insert_at_spec h a ns [] ds [] P p a [] d true _ Hok
              ltac:(by rewrite !app_nil_r) ltac:(by eapply Forall2_length, il_data)
              Hk E eq_refl eq_refl) as (h' & E' & Hil' & Hg).
  exists h'. rewrite app_nil_r in Hg. split_and!; [|done..].
  erewrite cmd_bind_Ret; [|by apply load_prev_ok]. exact E'.
Qed.

Lemma insert_begin_spec h a ns ds d :
  heap_ok h → is_list h a ns ds → h_avail h ≠ O →
  ∃ h', nbu_list_insert_begin (Ptr a) d h = Ret (NBU_SUCCESS, h') ∧
        is_list h' a (h_fresh h :: ns) (d :: ds) ∧ grown h h' a ns.
Proof.
  intros Hok Hil Hk. destruct (cons_view a ns) as (q & Q & E).
  pose proof (root_next_spec _ _ _ _ _ _ Hil E) as Hp.
  unfold nbu_list_insert_begin.
  destruct (insert_at_spec h a [] ns [] ds [] a q Q d false _ Hok Hil eq_refl
              Hk eq_refl E eq_refl) as (h' & E' & Hil' & Hg).
  exists h'. split_and!; [|done..].
  erewrite cmd_bind_Ret; [|by apply load_next_ok]. exact E'.
Qed.

(** *** Destruction of one node *)
Lemma destroy_node_spec h a ns1 n ns2 ds1 d ds2 :
  heap_ok h → is_list h a (ns1 ++ n :: ns2) (ds1 ++ d :: ds2) → length ns1 = length ds1 →
  ∃ h' l, h_lst h !! a = Some l ∧
    nbu_list_destroy_node (Ptr a) (Ptr n) h = Ret (tt, h') ∧
    is_list h' a (ns1 ++ ns2) (ds1 ++ ds2) ∧
    is_dll (h_next h') (h_prev h') a (ns1 ++ ns2) ∧
    h_lst h' !! a = Some (set_count (u32 (count l - 1)) l) ∧
    shrunk h h' a (ns1 ++ n :: ns2) n d.
Proof.
  intros Hok Hil Hlen.
  destruct (snoc_view a ns1) as (P & p & E1). destruct (cons_view a ns2) as (q & Q & E2).
  pose proof (il_hdr _ _ _ _ Hil) as (l & Hl & _).
  destruct (il_links _ _ _ _ Hil) as [(Hnil & _)|Hd]; [by destruct ns1|].
  destruct (dll_step h a ns1 (n :: ns2) P p n (q :: Q) Hd E1
              ltac:(simpl; by rewrite E2)) as [Hp Hn].
  destruct (dll_step h a (ns1 ++ [n]) ns2 (P ++ [p]) n q Q
              ltac:(by rewrite <- app_assoc) ltac:(by rewrite <- E1) E2) as [Hn' Hq].
  pose proof (unspliced_is_list _ _ _ _ _ _ _ _ _ _ _ _ _ Hil Hlen Hl E1 E2) as Hil'.
  pose proof (il_nodup _ _ _ _ Hil) as Hnd.
  rewrite <- (Permutation_middle ns1 ns2 n) in Hnd.
  apply NoDup_cons in Hnd as [Ha Hnd]. apply NoDup_cons in Hnd as [Hnn Hnd].
  assert (p ≠ n) by (apply snoc_in in E1; set_solver).
  assert (q ≠ n) by (apply cons_in in E2; set_solver).
  pose proof (il_data _ _ _ _ Hil) as Hdt. apply Forall2_app_inv in Hdt as [_ Hdt]; [|done].
  apply Forall2_cons in Hdt as [Hdn _].
  pose proof (il_nodes _ _ _ _ Hil) as Hno. apply Forall_app in Hno as [_ Hno].
  apply Forall_cons in Hno as [Hno _].
  exists (unspliced h a p n q d l), l. split_and!; [done| |done| | |].
  - by apply destroy_node_ok.
  - destruct (il_links _ _ _ _ Hil') as [(Hnil & Hx & _)|Hd']; [|done].
    apply app_nil in Hnil as [-> ->]. exfalso. destruct P as [|? [|]]; simplify_eq/=.
    cbn in Hx. by rewrite lookup_delete_ne, lookup_insert_eq in Hx by done.
  - cbn. by rewrite lookup_insert_eq.
  - split; [|done| |done| |].
    + intros x Hx. cbn in Hx. destruct (Hok x Hx) as (F1 & F2 & F3 & F4). cbn.
      assert (x ≠ p) by congruence. assert (x ≠ q) by congruence. assert (x ≠ a) by congruence.
      assert (x ≠ n) by congruence.
      by rewrite !lookup_delete_ne, !lookup_insert_ne by done.
    + intros l' Hl'. by simplify_eq.
    + intros x Hx. apply snoc_in in E1. apply cons_in in E2. cbn.
      rewrite !lookup_delete_ne, !lookup_insert_ne by set_solver. done.
    + cbn. by rewrite !lookup_delete_eq.
Qed.

(** *** The cursor *)
Lemma with_iterator_agree h a p l : agree_off [a] h (with_iterator h a p l).
Proof.
  intros x Hx. cbn. rewrite lookup_insert_ne by set_solver. done.
Qed.

Lemma with_iterator_is_list h a p l ns ds :
  h_lst h !! a = Some l → is_list h a ns ds → is_list (with_iterator h a p l) a ns ds.
Proof.
  intros Hl [Hnd Hlk Hdt Hrt Hno (l' & Hl' & Hc)]. simplify_eq.
  pose proof (proj1 (NoDup_cons _ _) Hnd) as [Ha _].
  split; [done|done|done|done| |].
  - apply Forall_forall. intros x Hx. cbn. rewrite lookup_insert_ne by set_solver.
    by eapply Forall_forall in Hno.
  - cbn. eexists. by rewrite lookup_insert_eq.
Qed.

Lemma with_iterator_heap_ok h a p l :
  h_lst h !! a = Some l → heap_ok h → heap_ok (with_iterator h a p l).
Proof.
  intros Hl Hok x Hx. cbn in *. destruct (Hok x Hx) as (? & ? & ? & ?).
  rewrite lookup_insert_ne by congruence. done.
Qed.

Lemma nbu_same_refl a h : nbu_same a h h.
Proof. by left. Qed.

Lemma nbu_same_trans a h1 h2 h3 : nbu_same a h1 h2 → nbu_same a h2 h3 → nbu_same a h1 h3.
Proof.
  intros [->|(p & l & Hl & ->)]; [done|]. intros [->|(p' & l' & Hl' & ->)]; right; [eauto|].
  cbn in Hl'. rewrite lookup_insert_eq in Hl'. simplify_eq.
  exists p', l. split; [done|]. unfold with_iterator; cbn. by rewrite insert_insert_eq.
Qed.

Lemma nbu_same_spec a h h' ns ds :
  nbu_same a h h' → heap_ok h → is_list h a ns ds →
  heap_ok h' ∧ is_list h' a ns ds ∧ agree_off [a] h h' ∧ h_next h' = h_next h ∧
  h_prev h' = h_prev h ∧ h_fresh h' = h_fresh h ∧ h_avail h' = h_avail h ∧ h_log h' = h_log h.
Proof.
  intros [->|(p & l & Hl & ->)] Hok Hil; [by split_and!|].
  split_and!; [by apply with_iterator_heap_ok|by apply with_iterator_is_list
              |apply with_iterator_agree|done..].
Qed.

Lemma nodes_of_app (xs ys : list (loc * option D)) :
  nodes_of (xs ++ ys) = nodes_of xs ++ nodes_of ys.
Proof. apply fmap_app. Qed.

Lemma datas_of_app (xs ys : list (loc * option D)) :
  datas_of (xs ++ ys) = datas_of xs ++ datas_of ys.
Proof. apply fmap_app. Qed.

Lemma first_ptr_cons a (post : list (loc * option D)) :
  ∃ q Q, first_ptr a post = Ptr q ∧ nodes_of post ++ [a] = q :: Q.
Proof. destruct post as [|[n x] post]; simpl; eauto. Qed.

Lemma nbu_valid_law a h pre post :
  nbu_at a h pre post →
  nbu_list_iterator_is_valid (Ptr a) h = Ret (if post is [] then false else true, h).
Proof.
  intros (Hok & Hil & l & Hl & Hit). unfold nbu_list_iterator_is_valid. cstep.
  destruct post as [|[n x] post]; simpl in Hit.
  - destruct Hit as [->|[_ ->]]; [|done].
    unfold ptr_eqb. rewrite bool_decide_true by done. done.
  - destruct Hit as [->|[Hnil _]]; [|by destruct pre].
    unfold ptr_eqb. rewrite bool_decide_false; [done|]. intros [= ->].
    destruct Hil as [Hnd _ _ _ _ _]. rewrite nodes_of_app in Hnd; simpl in Hnd.
    apply NoDup_cons in Hnd as [Hnd _]. set_solver.
Qed.

Lemma nbu_get_law a h pre n x post :
  nbu_at a h pre ((n, x) :: post) → nbu_list_get (Ptr a) h = Ret (x, h).
Proof.
  intros (Hok & Hil & l & Hl & Hit). destruct Hit as [Hit|[Hnil _]]; [|by destruct pre].
  pose proof (il_data _ _ _ _ Hil) as Hd. rewrite nodes_of_app, datas_of_app in Hd.
  apply Forall2_app_inv in Hd as [_ Hd]; [|unfold nodes_of, datas_of; by rewrite !length_fmap].
  simpl in Hd. apply Forall2_cons in Hd as [Hd _].
  unfold nbu_list_get. cstep. cstep. rewrite Hit; simpl. cstep. by apply load_data_ok.
Qed.

Lemma nbu_visit_law a h pre nx post :
  nbu_at a h pre (nx :: post) → nbu_behind a h (pre ++ [nx]) post.
Proof.
  destruct nx as [n x].
  intros (Hok & Hil & l & Hl & Hit). destruct Hit as [Hit|[Hnil _]]; [|by destruct pre].
  unfold nbu_behind. rewrite <- app_assoc; simpl. split_and!; [done|done| |].
  - destruct (il_links _ _ _ _ Hil) as [(Hnil & _)|Hd]; [|done].
    rewrite nodes_of_app in Hnil. by destruct pre.
  - exists l, (a :: nodes_of pre), n. rewrite nodes_of_app. done.
Qed.

Lemma nbu_next_law a h pre post :
  nbu_behind a h pre post →
  ∃ h', nbu_list_iterator_next (Ptr a) h = Ret (tt, h') ∧ nbu_at a h' pre post ∧ nbu_same a h h'.
Proof.
  intros (Hok & Hil & Hd & l & P & p & Hl & E & Hit).
  destruct (first_ptr_cons a post) as (q & Q & Eq & E2). rewrite nodes_of_app in Hd.
  destruct (dll_step _ _ _ _ _ _ _ _ Hd E E2) as [Hn _].
  exists (with_iterator h a (Ptr q) l). split_and!.
  - unfold nbu_list_iterator_next. cstep. cstep. rewrite Hit; simpl. cstep. cstep.
    by apply mod_list_ok.
  - split_and!; [by apply with_iterator_heap_ok|by apply with_iterator_is_list|].
    eexists. cbn. rewrite lookup_insert_eq. split; [done|]. left. by rewrite Eq.
  - right. eauto.
Qed.

#[export] Instance nbu_cursor (a : loc) : CursorList (heap D) loc (option D) := {|
  cl_valid := nbu_list_iterator_is_valid (Ptr a);
  cl_get := nbu_list_get (Ptr a);
  cl_next := nbu_list_iterator_next (Ptr a);
  cl_at := nbu_at a;
  cl_behind := nbu_behind a;
  cl_same := nbu_same a;
  cl_valid_law := nbu_valid_law a;
  cl_get_law := nbu_get_law a;
  cl_visit_law := nbu_visit_law a;
  cl_next_law := nbu_next_law a;
|}.

Lemma zip_view h a ns ds :
  is_list h a ns ds → ∃ xs : list (loc * option D), ns = nodes_of xs ∧ ds = datas_of xs.
Proof.
  intros Hil. exists (zip ns ds). pose proof (Forall2_length _ _ _ (il_data _ _ _ _ Hil)).
  unfold nodes_of, datas_of. rewrite fst_zip, snd_zip by lia. done.
Qed.

Lemma start_spec h a xs :
  heap_ok h → is_list h a (nodes_of xs) (datas_of xs) →
  ∃ h', nbu_list_iterator_start (Ptr a) h = Ret (tt, h') ∧ nbu_at a h' [] xs ∧ nbu_same a h h'.
Proof.
  intros Hok Hil. destruct (il_hdr _ _ _ _ Hil) as (l & Hl & _).
  destruct (first_ptr_cons a xs) as (q & Q & Eq & E2).
  pose proof (root_next_spec _ _ _ _ _ _ Hil E2) as Hn.
  eexists. split_and!.
  - unfold nbu_list_iterator_start. cstep.
    erewrite cmd_bind_Ret; [|by apply load_next_ok]. by apply mod_list_ok.
  - split_and!; [by apply with_iterator_heap_ok|by apply with_iterator_is_list|].
    eexists. cbn. rewrite lookup_insert_eq. split; [done|]. simpl. rewrite Eq.
    destruct (il_links _ _ _ _ Hil) as [(Hnil & H1 & _)|Hd].
    + right. rewrite H1. by destruct xs.
    + left. by destruct (dll_step h a [] _ [] a q Q Hd eq_refl E2) as [-> _].
  - right. eauto.
Qed.

(** There are fewer nodes than cells: the loops' fuel is enough. *)
Lemma cells_enough h a ns ds : is_list h a ns ds → (length ns < S (size (h_next h)))%nat.
Proof.
  intros Hil. destruct (il_links _ _ _ _ Hil) as [(-> & _)|Hd]; [simpl; lia|].
  pose proof (il_nodup _ _ _ _ Hil) as Hnd. apply NoDup_cons in Hnd as [_ Hnd].
  rewrite <- (size_list_to_set (C := gset loc)) by done. rewrite <- size_dom.
  apply le_n_S, subseteq_size. intros x Hx. apply elem_of_list_to_set in Hx.
  apply list_elem_of_split in Hx as (l1 & l2 & ->).
  destruct (cons_view a l2) as (q & Q & E). apply elem_of_dom.
  destruct (is_dll_next (h_next h) (h_prev h) a (l1 ++ x :: l2) (a :: l1) x q Q) as [Hx _];
    [done| |by eexists].
  simpl. rewrite <- app_assoc; simpl. by rewrite E.
Qed.

(** A fresh list. *)
Lemma new_list_ok h dsize k :
  heap_ok h → h_avail h = S k →
  ∃ a h', nbu_list_new dsize h = Ret (Ptr a, h') ∧ heap_ok h' ∧ is_list h' a [] [] ∧ h_avail h' = k.
Proof.
  intros Hok Hk. destruct h as [nx pv dt ls n av lg]. cbn in *. subst av.
  exists n. eexists. split_and!.
  - unfold nbu_list_new. cstep. cstep. reflexivity.
  - intros x Hx. cbn in *. destruct (Hok x ltac:(cbn; lia)) as (? & ? & ? & ?).
    by rewrite !lookup_insert_ne by lia.
  - split; cbn; try done.
    + by apply NoDup_singleton.
    + left. cbn. by rewrite !lookup_insert_eq.
    + by rewrite lookup_insert_eq.
    + eexists. by rewrite lookup_insert_eq.
  - done.
Qed.

End specs.
