(* ===== verification/NbuListRefine.v ===== *)
(** libnbu's list refines an abstract sequence with a cursor.

    [astep] is the contract of list.c as an abstract machine: a sequence, a
    cursor position, the allocation budget and the log of disposals.  It also
    says what happens at the edges: a failed [assert] on a NULL cursor, the
    rejected insertion through a NULL cursor into a used list, the undefined
    behaviour of deleting through the root or using a cursor whose node is gone.
    [step_refines] and [run_refines] show that list.c does exactly that. *)

From stdpp Require Import base tactics list gmap.
From S2P Require Import Prelude.
From S2P Require Import Dll.
From S2P Require Import CursorList.
From S2P Require Import NbuList.
From S2P Require Import NbuListSpec.
Import NbuList.

(** Cursor of the abstract machine: NULL, on the root, on element [i], or on a
    node that was deleted under it. *)
Inductive acur :=
| ANull
| ARoot
| AAt (i : nat)
| ADangling.

#[export] Instance acur_eq_dec : EqDecision acur.
Proof. solve_decision. Defined.

Inductive op (D : Type) :=
| OStart | OEnd | ONext | OPrevious
| OIsValid | OIsLast | OIsFirst | OHasNext | OHasPrevious
| OGet | OCount
| OInsertAfter (d : option D) | OInsertBefore (d : option D)
| OInsertBegin (d : option D) | OInsertEnd (d : option D)
| ODeleteForward | ODeleteBackward | ODeleteBegin | ODeleteEnd.

Arguments OStart {D}.
Arguments OEnd {D}.
Arguments ONext {D}.
Arguments OPrevious {D}.
Arguments OIsValid {D}.
Arguments OIsLast {D}.
Arguments OIsFirst {D}.
Arguments OHasNext {D}.
Arguments OHasPrevious {D}.
Arguments OGet {D}.
Arguments OCount {D}.
Arguments OInsertAfter {D} d.
Arguments OInsertBefore {D} d.
Arguments OInsertBegin {D} d.
Arguments OInsertEnd {D} d.
Arguments ODeleteForward {D}.
Arguments ODeleteBackward {D}.
Arguments ODeleteBegin {D}.
Arguments ODeleteEnd {D}.

Inductive res (D : Type) :=
| RUnit
| RInt (z : Z)
| RBool (b : bool)
| RData (d : option D).

Arguments RUnit {D}.
Arguments RInt {D} z.
Arguments RBool {D} b.
Arguments RData {D} d.

Record astate (D : Type) := AS {
  a_seq : list (option D);
  a_cur : acur;
  a_used : bool;
  a_term : option terminator;
  a_avail : nat;
  a_log : list (event D);
}.

Arguments AS {D}.
Arguments a_seq {D}.
Arguments a_cur {D}.
Arguments a_used {D}.
Arguments a_term {D}.
Arguments a_avail {D}.
Arguments a_log {D}.

Section machine.
Context {D : Type}.
Implicit Types s : astate D.

Definition a_set_cur (c : acur) s : astate D :=
  AS (a_seq s) c (a_used s) (a_term s) (a_avail s) (a_log s).

Definition a_spend s : astate D :=
  AS (a_seq s) (a_cur s) (a_used s) (a_term s) (pred (a_avail s)) (a_log s).

(** The cursor keeps its node when another one is inserted or deleted at [i]. *)
Definition a_shift (i : nat) (c : acur) : acur :=
  match c with
  | AAt j => if (i <=? j)%nat then AAt (S j) else AAt j
  | c => c
  end.

Definition a_unshift (i : nat) (c : acur) : acur :=
  match c with
  | AAt j => if (j =? i)%nat then ADangling else if (i <? j)%nat then AAt (pred j) else AAt j
  | c => c
  end.

Definition a_insert (i : nat) (d : option D) s : astate D :=
  AS (take i (a_seq s) ++ d :: drop i (a_seq s)) (a_shift i (a_cur s)) true (a_term s) (pred (a_avail s)) (a_log s).

Definition a_dispose s (d : option D) : event D :=
  match a_term s with Some t => EvTerm t d | None => EvFree d end.

Definition a_delete (i : nat) (d : option D) s : astate D :=
  AS (delete i (a_seq s)) (a_unshift i (a_cur s)) (a_used s) (a_term s) (a_avail s) (a_log s ++ [a_dispose s d]).

(** The element after, and before, the cursor. *)
Definition a_next s : outcome acur :=
  match a_cur s with
  | ANull | ADangling => Undef
  | ARoot => Ret (if a_seq s is [] then ARoot else AAt 0)
  | AAt i => Ret (if (S i <? length (a_seq s))%nat then AAt (S i) else ARoot)
  end.

Definition a_prev s : outcome acur :=
  match a_cur s with
  | ANull | ADangling => Undef
  | ARoot => Ret (if a_seq s is [] then ARoot else AAt (pred (length (a_seq s))))
  | AAt O => Ret ARoot
  | AAt (S i) => Ret (AAt i)
  end.

Definition a_insert_op (i : nat) (d : option D) s : outcome (res D * astate D) :=
  match a_avail s with
  | O => Ret (RInt NBU_ERROR, s)
  | S _ => Ret (RInt NBU_SUCCESS, a_insert i d s)
  end.

(** Insertion relative to the cursor. *)
Definition a_insert_cur (d : option D) (at_root : nat) (at_i : nat → nat) s
    : outcome (res D * astate D) :=
  match a_avail s with
  | O => Ret (RInt NBU_ERROR, s)
  | S _ =>
      match a_cur s with
      | ANull => if a_used s then Ret (RInt NBU_ERROR, a_spend s)
                 else Ret (RInt NBU_SUCCESS, a_insert 0 d s)
      | ARoot => Ret (RInt NBU_SUCCESS, a_insert at_root d s)
      | AAt i => Ret (RInt NBU_SUCCESS, a_insert (at_i i) d s)
      | ADangling => Undef
      end
  end.

(** Deletion at the cursor, which then moves to [c]. *)
Definition a_delete_cur (dest : astate D → outcome acur) s : outcome (res D * astate D) :=
  match a_cur s with
  | ANull => Abort
  | ARoot | ADangling => Undef
  | AAt i =>
      d ← must (a_seq s !! i);
      c ← dest s;
      Ret (RUnit, a_set_cur (a_unshift i c) (a_delete i d s))
  end.

Definition a_delete_at (i : nat) s : outcome (res D * astate D) :=
  if negb (a_used s) then Abort
  else match a_seq s !! i with
       | None => Undef
       | Some d => Ret (RUnit, a_delete i d s)
       end.

Definition astep (o : op D) s : outcome (res D * astate D) :=
  let n := length (a_seq s) in
  match o with
  | OStart => Ret (RUnit, a_set_cur (if a_used s then if a_seq s is [] then ARoot else AAt 0
                                     else ANull) s)
  | OEnd => Ret (RUnit, a_set_cur (if a_used s then if a_seq s is [] then ARoot else AAt (pred n)
                                   else ANull) s)
  | ONext => match a_cur s with
             | ANull => Abort
             | _ => c ← a_next s; Ret (RUnit, a_set_cur c s)
             end
  | OPrevious => match a_cur s with
                 | ANull => Abort
                 | _ => c ← a_prev s; Ret (RUnit, a_set_cur c s)
                 end
  | OIsValid => Ret (RBool (match a_cur s with ANull | ARoot => false | _ => true end), s)
  | OIsLast => Ret (RBool (match a_cur s with
                           | ANull => negb (a_used s)
                           | ARoot => (n =? 0)%nat
                           | AAt i => (S i =? n)%nat
                           | ADangling => false
                           end), s)
  | OIsFirst => Ret (RBool (match a_cur s with
                            | ANull => negb (a_used s)
                            | ARoot => (n =? 0)%nat
                            | AAt i => (i =? 0)%nat
                            | ADangling => false
                            end), s)
  | OHasNext => c ← a_next s; Ret (RBool (match c with ARoot => false | _ => true end), s)
  | OHasPrevious => c ← a_prev s; Ret (RBool (match c with ARoot => false | _ => true end), s)
  | OGet => match a_cur s with
            | ANull => Abort
            | ARoot => Ret (RData None, s)
            | AAt i => d ← must (a_seq s !! i); Ret (RData d, s)
            | ADangling => Undef
            end
  | OCount => Ret (RInt (u32 (Z.of_nat n)), s)
  | OInsertAfter d => a_insert_cur d 0 S s
  | OInsertBefore d => a_insert_cur d n (λ i, i) s
  | OInsertBegin d => a_insert_op 0 d s
  | OInsertEnd d => a_insert_op n d s
  | ODeleteForward => a_delete_cur a_next s
  | ODeleteBackward => a_delete_cur a_prev s
  | ODeleteBegin => a_delete_at 0 s
  | ODeleteEnd => a_delete_at (pred n) s
  end.

(** The operation of list.c on the list at [a]. *)
Definition cstep (a : loc) (o : op D) : cmd (heap D) (res D) :=
  let l := Ptr a in
  match o with
  | OStart => nbu_list_iterator_start l;; mret RUnit
  | OEnd => nbu_list_iterator_end l;; mret RUnit
  | ONext => nbu_list_iterator_next l;; mret RUnit
  | OPrevious => nbu_list_iterator_previous l;; mret RUnit
  | OIsValid => b ← nbu_list_iterator_is_valid l; mret (RBool b)
  | OIsLast => b ← nbu_list_iterator_is_last l; mret (RBool b)
  | OIsFirst => b ← nbu_list_iterator_is_first l; mret (RBool b)
  | OHasNext => b ← nbu_list_iterator_has_next l; mret (RBool b)
  | OHasPrevious => b ← nbu_list_iterator_has_previous l; mret (RBool b)
  | OGet => d ← nbu_list_get l; mret (RData d)
  | OCount => z ← nbu_list_count l; mret (RInt z)
  | OInsertAfter d => z ← nbu_list_insert_after l d; mret (RInt z)
  | OInsertBefore d => z ← nbu_list_insert_before l d; mret (RInt z)
  | OInsertBegin d => z ← nbu_list_insert_begin l d; mret (RInt z)
  | OInsertEnd d => z ← nbu_list_insert_end l d; mret (RInt z)
  | ODeleteForward => nbu_list_delete_forward l;; mret RUnit
  | ODeleteBackward => nbu_list_delete_backward l;; mret RUnit
  | ODeleteBegin => nbu_list_delete_begin l;; mret RUnit
  | ODeleteEnd => nbu_list_delete_end l;; mret RUnit
  end.

(** Programs: sequences of operations. *)
Fixpoint arun (os : list (op D)) s : outcome (list (res D) * astate D) :=
  match os with
  | [] => Ret ([], s)
  | o :: os' =>
      '(r, s') ← astep o s;
      '(rs, s'') ← arun os' s';
      Ret (r :: rs, s'')
  end.

Fixpoint crun (a : loc) (os : list (op D)) : cmd (heap D) (list (res D)) :=
  match os with
  | [] => mret []
  | o :: os' =>
      r ← cstep a o;
      rs ← crun a os';
      mret (r :: rs)
  end.

Definition cur_rel (h : heap D) (a : loc) (ns : list loc) (c : acur) (p : ptr) : Prop :=
  match c with
  | ANull => p = Null
  | ARoot => p = Ptr a
  | AAt i => ∃ n, ns !! i = Some n ∧ p = Ptr n
  | ADangling => ∃ n, p = Ptr n ∧ h_next h !! n = None ∧ h_prev h !! n = None ∧
                      h_data h !! n = None ∧ (n < h_fresh h)%positive
  end.

(** The simulation relation. *)
Record rep (h : heap D) (a : loc) (s : astate D) (ns : list loc) (l : nbu_list_t) : Prop := {
  rp_ok : heap_ok h;
  rp_list : is_list h a ns (a_seq s);
  rp_lst : h_lst h !! a = Some l;
  rp_used : if a_used s then is_dll (h_next h) (h_prev h) a ns
            else ns = [] ∧ h_next h !! a = Some Null ∧ h_prev h !! a = Some Null;
  rp_cur : cur_rel h a ns (a_cur s) (iterator l);
  rp_root : a_cur s = ARoot → a_used s = true;
  rp_term : data_terminator_func l = a_term s;
  rp_avail : h_avail h = a_avail s;
  rp_log : h_log h = a_log s;
}.

Definition refines (h : heap D) (a : loc) (s : astate D) : Prop := ∃ ns l, rep h a s ns l.

(** Matching outcomes: the same failure, or the same result in related states. *)
Definition match_out {R} (a : loc) (c : outcome (R * heap D)) (o : outcome (R * astate D)) : Prop :=
  match o with
  | Ret (r, s') => ∃ h', c = Ret (r, h') ∧ refines h' a s'
  | Undef => c = Undef
  | Abort => c = Abort
  | NoFuel => c = NoFuel
  end.

End machine.

Section lemmas.
Context {D : Type}.
Implicit Types (s : astate D) (h : heap D).

(** Positions in a sequence after an insertion or a deletion. *)
Lemma insert_lookup_lt {A} (l : list A) i x j :
  (j < i)%nat → (i <= length l)%nat → (take i l ++ x :: drop i l) !! j = l !! j.
Proof.
  intros Hj Hi. rewrite lookup_app_l by (rewrite length_take; lia).
  by rewrite lookup_take_lt.
Qed.

Lemma insert_lookup_ge {A} (l : list A) i x j :
  (i <= j)%nat → (i <= length l)%nat → (take i l ++ x :: drop i l) !! S j = l !! j.
Proof.
  intros Hj Hi. rewrite lookup_app_r by (rewrite length_take; lia).
  rewrite length_take_le by lia. replace (S j - i)%nat with (S (j - i)) by lia.
  simpl. rewrite lookup_drop. f_equal. lia.
Qed.

Lemma rep_length h a s ns l : rep h a s ns l → length ns = length (a_seq s).
Proof. intros H. eapply Forall2_length, il_data, rp_list, H. Qed.

Lemma rep_dll h a s ns l :
  rep h a s ns l → a_used s = true → is_dll (h_next h) (h_prev h) a ns.
Proof. intros H Hu. pose proof (rp_used _ _ _ _ _ H) as Hx. by rewrite Hu in Hx. Qed.

Lemma rep_used_lookup h a s ns l i n : rep h a s ns l → ns !! i = Some n → a_used s = true.
Proof.
  intros H Hi. pose proof (rp_used _ _ _ _ _ H) as Hx.
  destruct (a_used s); [done|]. destruct Hx as [-> _]. done.
Qed.

Lemma rep_set_cur h a s ns l c p :
  rep h a s ns l → cur_rel h a ns c p → (c = ARoot → a_used s = true) →
  rep (with_iterator h a p l) a (a_set_cur c s) ns (set_iterator p l).
Proof.
  intros [Hok Hil Hl Hu Hc Hr Ht Ha Hlg] Hc' Hr'. split; try done.
  - by apply with_iterator_heap_ok.
  - by apply with_iterator_is_list.
  - cbn. by rewrite lookup_insert_eq.
Qed.

(** Moving a cursor across an insertion and a deletion. *)
Lemma cur_rel_grown h h' a ns c p i :
  cur_rel h a ns c p → heap_ok h → grown h h' a ns → (i <= length ns)%nat →
  (∀ x, x ∈ a :: ns → is_Some (h_data h !! x)) →
  cur_rel h' a (take i ns ++ h_fresh h :: drop i ns)
    (a_shift i c) p.
Proof.
  intros Hc Hok Hg Hi Hdt. destruct c as [| |j|]; simpl in *; [done|done| |].
  - destruct Hc as (n & Hn & ->). destruct (Nat.leb_spec i j); simpl; exists n.
    + by rewrite insert_lookup_ge.
    + by rewrite insert_lookup_lt.
  - destruct Hc as (n & -> & H1 & H2 & H3 & Hf). exists n.
    assert (n ∉ h_fresh h :: a :: ns) as Hn.
    { intros Hx. apply elem_of_cons in Hx as [->|Hx]; [lia|].
      destruct (Hdt n Hx) as [? ?]. congruence. }
    destruct (gr_frame _ _ _ _ Hg n Hn) as (-> & -> & -> & _).
    rewrite (gr_fresh _ _ _ _ Hg). split_and!; try done. lia.
Qed.

Lemma is_list_data_some h a ns ds x : is_list h a ns ds → x ∈ a :: ns → is_Some (h_data h !! x).
Proof.
  intros Hil Hx. apply elem_of_cons in Hx as [->|Hx].
  - rewrite (il_root _ _ _ _ Hil). eauto.
  - apply list_elem_of_lookup in Hx as [i Hi].
    destruct (Forall2_lookup_l _ _ _ _ _ (il_data _ _ _ _ Hil) Hi) as (y & _ & ->). eauto.
Qed.

Lemma cur_rel_shrunk h h' a ns c p i n d :
  cur_rel h a ns c p → ns !! i = Some n → shrunk h h' a ns n d →
  (∀ x, x ∈ a :: ns → is_Some (h_data h !! x) ∧ (x < h_fresh h)%positive) →
  cur_rel h' a (delete i ns)
    (a_unshift i c) p.
Proof.
  intros Hc Hi Hs Hdt. destruct c as [| |j|]; simpl in *; [done|done| |].
  - destruct Hc as (m & Hm & ->). destruct (Nat.eqb_spec j i) as [->|Hji]; simpl.
    + assert (m = n) as -> by congruence. exists n. destruct (sh_freed _ _ _ _ _ _ Hs) as (? & ? & ?).
      rewrite (sh_fresh _ _ _ _ _ _ Hs). split_and!; try done.
      apply Hdt, elem_of_cons; right. by eapply list_elem_of_lookup_2.
    + destruct (Nat.ltb_spec i j); simpl; exists m; (split; [|done]).
      * rewrite list_lookup_delete_ge by lia. by replace (S (pred j)) with j by lia.
      * rewrite list_lookup_delete_lt by lia. done.
  - destruct Hc as (m & -> & H1 & H2 & H3 & Hf). exists m.
    assert (m ∉ a :: ns) as Hn.
    { intros Hx. destruct (Hdt m Hx) as [[? ?] _]. congruence. }
    destruct (sh_frame _ _ _ _ _ _ Hs m Hn) as (-> & -> & -> & _).
    rewrite (sh_fresh _ _ _ _ _ _ Hs). done.
Qed.

(** Insertion at position [i] through the node before it or the node after it. *)
Lemma rep_insert h a s ns l i d dir P p q Q :
  rep h a s ns l → a_avail s ≠ O → (i <= length ns)%nat →
  a :: take i ns = P ++ [p] → drop i ns ++ [a] = q :: Q →
  ∃ h', nbu_list_insert (Ptr a) d (if a_used s then Ptr (if dir : bool then p else q) else Null) dir h
        = Ret (NBU_SUCCESS, h') ∧ refines h' a (a_insert i d s).
Proof.
  intros Hr Hav Hi E1 E2. pose proof Hr as [Hok Hil Hl Hu Hc Hro Ht Ha Hlg].
  pose proof (rep_length _ _ _ _ _ Hr) as Hlen.
  destruct (insert_at_spec h a (take i ns) (drop i ns) (take i (a_seq s)) (drop i (a_seq s))
              P p q Q d dir (if a_used s then Ptr (if dir then p else q) else Null))
    as (h' & E & Hil' & Hg); [done|by rewrite !take_drop| |congruence|done|done| |].
  { rewrite !length_take. lia. }
  { destruct (a_used s).
    - destruct (cons_view a ns) as (q' & Q' & E').
      by destruct (dll_step h a [] ns [] a q' Q' Hu eq_refl E') as [-> _].
    - by destruct Hu as (_ & -> & _). }
  rewrite take_drop in Hg.
  exists h'. split; [done|]. eexists _, _. split.
  - exact (gr_ok _ _ _ _ Hg).
  - exact Hil'.
  - by apply (gr_hdr _ _ _ _ Hg).
  - simpl. destruct (il_links _ _ _ _ Hil') as [(Hnil & _)|Hd]; [|done].
    by destruct (take i ns).
  - cbn [a_cur a_insert set_count iterator].
    apply (cur_rel_grown h); [done..|]. intros x. by eapply is_list_data_some.
  - done.
  - done.
  - simpl. pose proof (gr_avail _ _ _ _ Hg). lia.
  - simpl. by rewrite (gr_log _ _ _ _ Hg).
Qed.

(** Destroying the node at position [i]. *)
Lemma rep_delete h a s ns l i n d :
  rep h a s ns l → ns !! i = Some n → a_seq s !! i = Some d →
  ∃ h', nbu_list_destroy_node (Ptr a) (Ptr n) h = Ret (tt, h') ∧
        rep h' a (a_delete i d s) (delete i ns) (set_count (u32 (count l - 1)) l) ∧
        (∀ c p, cur_rel h a ns c p → cur_rel h' a (delete i ns) (a_unshift i c) p).
Proof.
  intros Hr Hn Hd. pose proof Hr as [Hok Hil Hl Hu Hc Hro Ht Ha Hlg].
  pose proof (rep_length _ _ _ _ _ Hr) as Hlen.
  pose proof (rep_used_lookup _ _ _ _ _ _ _ Hr Hn) as Hus.
  assert (i < length ns)%nat by (by eapply lookup_lt_Some).
  destruct (destroy_node_spec h a (take i ns) n (drop (S i) ns) (take i (a_seq s)) d
              (drop (S i) (a_seq s))) as (h' & l' & Hl' & E & Hil' & Hd' & Hh' & Hs);
    [done|by rewrite !take_drop_middle|rewrite !length_take; lia|].
  simplify_eq. rewrite take_drop_middle in Hs by done.
  assert (∀ c p, cur_rel h a ns c p → cur_rel h' a (delete i ns) (a_unshift i c) p) as Hcur.
  { intros c p Hcp. apply (cur_rel_shrunk h _ _ _ _ _ _ n d); [done|done|exact Hs|]. intros x Hx.
    split; [by eapply is_list_data_some|by eapply is_list_alloc]. }
  exists h'. split_and!; [done| |done]. split.
  - exact (sh_ok _ _ _ _ _ _ Hs).
  - simpl. by rewrite !delete_take_drop.
  - done.
  - simpl. rewrite Hus. by rewrite delete_take_drop.
  - cbn [a_cur a_delete set_count iterator]. by apply Hcur.
  - done.
  - done.
  - simpl. by rewrite (sh_avail _ _ _ _ _ _ Hs).
  - simpl. rewrite (sh_log _ _ _ _ _ _ Hs l Hl), Hlg. unfold disposal, a_dispose. by rewrite Ht.
Qed.

(** *** Where the pointers of a related state lead *)
Lemma take_snoc_view (a : loc) ns i n :
  ns !! i = Some n → a :: take (S i) ns = (a :: take i ns) ++ [n].
Proof. intros Hi. simpl. by rewrite (take_S_r _ _ _ Hi). Qed.

(** The node at position [i], or the root past the end. *)
Definition node_at (a : loc) (ns : list loc) (i : nat) : loc := default a (ns !! i).

Definition cur_at (ns : list loc) (i : nat) : acur :=
  if (i <? length ns)%nat then AAt i else ARoot.

Lemma drop_cons_view (a : loc) ns i : ∃ Q, drop i ns ++ [a] = node_at a ns i :: Q ∨
  (length ns < i)%nat.
Proof.
  unfold node_at. destruct (ns !! i) as [n|] eqn:E.
  - exists (drop (S i) ns ++ [a]). left. by rewrite (drop_S _ _ _ E).
  - apply lookup_ge_None in E. exists []. destruct (decide (length ns = i)) as [<-|].
    + left. by rewrite drop_all.
    + right. lia.
Qed.

Lemma cur_rel_at h a ns i : cur_rel h a ns (cur_at ns i) (Ptr (node_at a ns i)).
Proof.
  unfold cur_at, node_at. destruct (Nat.ltb_spec i (length ns)); simpl.
  - destruct (lookup_lt_is_Some_2 ns i) as [n Hn]; [done|]. rewrite Hn. eauto.
  - by rewrite lookup_ge_None_2.
Qed.

Lemma next_of_node h a ns i n :
  is_dll (h_next h) (h_prev h) a ns → ns !! i = Some n →
  h_next h !! n = Some (Ptr (node_at a ns (S i))).
Proof.
  intros Hd Hi. destruct (drop_cons_view a ns (S i)) as [Q [E|Hlt]].
  - rewrite <- (take_drop (S i) ns) in Hd.
    by destruct (dll_step _ _ _ _ _ _ _ _ Hd (take_snoc_view a _ _ _ Hi) E) as [-> _].
  - apply lookup_lt_Some in Hi. lia.
Qed.

Lemma next_of_root h a ns :
  is_dll (h_next h) (h_prev h) a ns → h_next h !! a = Some (Ptr (node_at a ns 0)).
Proof.
  intros Hd. destruct (drop_cons_view a ns 0) as [Q [E|Hlt]]; [|lia].
  by destruct (dll_step h a [] ns [] a _ Q Hd eq_refl E) as [-> _].
Qed.

(** The predecessor of position [i] is the root when [i] is 0. *)
Lemma prev_of_pos h a ns i :
  is_dll (h_next h) (h_prev h) a ns → (i <= length ns)%nat →
  h_prev h !! node_at a ns i = Some (Ptr (match i with O => a | S j => node_at a ns j end)).
Proof.
  intros Hd Hi. destruct (drop_cons_view a ns i) as [Q [E|Hlt]]; [|lia].
  destruct i as [|j].
  - by destruct (dll_step h a [] ns [] a _ Q Hd eq_refl E) as [_ ->].
  - destruct (lookup_lt_is_Some_2 ns j) as [m Hm]; [lia|].
    rewrite <- (take_drop (S j) ns) in Hd.
    destruct (dll_step _ _ _ _ _ _ _ _ Hd (take_snoc_view a _ _ _ Hm) E) as [_ ->].
    unfold node_at. by rewrite Hm.
Qed.

Lemma a_seq_nil_iff h a s ns l : rep h a s ns l → (a_seq s = [] ↔ ns = []).
Proof.
  intros H. apply rep_length in H. destruct ns, (a_seq s); simpl in *; naive_solver lia.
Qed.

Lemma next_ptr h a s ns l :
  rep h a s ns l →
  match a_next s with
  | Ret c => ∃ i, c = cur_at ns i ∧ a_used s = true ∧
                  load_next (iterator l) h = Ret (Ptr (node_at a ns i), h)
  | _ => load_next (iterator l) h = Undef
  end.
Proof.
  intros Hr. pose proof (rp_cur _ _ _ _ _ Hr) as Hc. pose proof (rep_length _ _ _ _ _ Hr) as Hlen.
  unfold a_next. destruct (a_cur s) as [| |i|] eqn:Ec; simpl in Hc.
  - by rewrite Hc.
  - pose proof (rp_root _ _ _ _ _ Hr Ec) as Hu. exists O. split_and!; [|done|].
    + unfold cur_at. rewrite Hlen. by destruct (a_seq s).
    + rewrite Hc. apply load_next_ok, next_of_root. by eapply rep_dll.
  - destruct Hc as (n & Hn & ->). pose proof (rep_used_lookup _ _ _ _ _ _ _ Hr Hn) as Hu.
    exists (S i). split_and!; [unfold cur_at; by rewrite Hlen|done|].
    apply load_next_ok, next_of_node; [by eapply rep_dll|done].
  - destruct Hc as (n & -> & Hx & _). unfold load_next. by rewrite Hx.
Qed.

Lemma prev_ptr h a s ns l :
  rep h a s ns l →
  match a_prev s with
  | Ret c => ∃ i, c = cur_at ns i ∧ a_used s = true ∧
                  load_prev (iterator l) h = Ret (Ptr (node_at a ns i), h)
  | _ => load_prev (iterator l) h = Undef
  end.
Proof.
  intros Hr. pose proof (rp_cur _ _ _ _ _ Hr) as Hc. pose proof (rep_length _ _ _ _ _ Hr) as Hlen.
  assert (node_at a ns (length ns) = a) as Hend
    by (unfold node_at; by rewrite lookup_ge_None_2).
  unfold a_prev. destruct (a_cur s) as [| |i|] eqn:Ec; simpl in Hc.
  - by rewrite Hc.
  - pose proof (rp_root _ _ _ _ _ Hr Ec) as Hu.
    pose proof (prev_of_pos h a ns (length ns) (rep_dll _ _ _ _ _ Hr Hu) ltac:(lia)) as Hp.
    rewrite Hend in Hp. exists (pred (length ns)). split_and!; [|done|].
    + unfold cur_at. rewrite Hlen. destruct (a_seq s); simpl; [done|].
      by rewrite (proj2 (Nat.ltb_lt _ _)) by lia.
    + rewrite Hc. apply load_prev_ok. rewrite Hp. destruct ns; simpl; [|done].
      by unfold node_at.
  - destruct Hc as (n & Hn & ->). pose proof (rep_used_lookup _ _ _ _ _ _ _ Hr Hn) as Hu.
    pose proof (lookup_lt_Some _ _ _ Hn) as Hlt.
    pose proof (prev_of_pos h a ns i (rep_dll _ _ _ _ _ Hr Hu) ltac:(lia)) as Hp.
    unfold node_at in Hp at 1. rewrite Hn in Hp; simpl in Hp. destruct i as [|i].
    + exists (length ns). rewrite Hend. split_and!; [|done|by apply load_prev_ok].
      unfold cur_at. by rewrite Nat.ltb_irrefl.
    + exists i. split_and!; [|done|by apply load_prev_ok].
      unfold cur_at. by rewrite (proj2 (Nat.ltb_lt _ _)) by lia.
  - destruct Hc as (n & -> & _ & Hx & _). unfold load_prev. by rewrite Hx.
Qed.

(** *** One operation *)
Lemma matched {R S} a (m : cmd (heap D) R) (f : R → S) h (o : outcome (R * astate D)) :
  match_out a (m h) o →
  match_out a ((x ← m; mret (f x)) h) ('(x, s) ← o; Ret (f x, s)).
Proof.
  unfold match_out, mbind, cmd_bind, outcome_bind. destruct o as [[r s]| | |]; simpl.
  - intros (h' & -> & H). by exists h'.
  - by intros ->.
  - by intros ->.
  - by intros ->.
Qed.

Lemma rep_hdr_root h a s ns l : rep h a s ns l →
  load_next (Ptr a) h = Ret (if a_used s then Ptr (node_at a ns 0) else Null, h) ∧
  load_prev (Ptr a) h =
    Ret (if a_used s then Ptr (node_at a ns (pred (length ns))) else Null, h).
Proof.
  intros Hr. pose proof (rp_used _ _ _ _ _ Hr) as Hu. destruct (a_used s).
  - split; [by apply load_next_ok, next_of_root|]. apply load_prev_ok.
    pose proof (prev_of_pos h a ns (length ns) Hu ltac:(lia)) as Hp.
    unfold node_at in Hp at 1. rewrite lookup_ge_None_2 in Hp by lia. simpl in Hp.
    rewrite Hp. by destruct ns.
  - destruct Hu as (_ & H1 & H2). by split; [apply load_next_ok|apply load_prev_ok].
Qed.

(** The embedded root is not a block [free] accepts. *)
Lemma destroy_root_undef h a s ns l :
  rep h a s ns l → a_used s = true → nbu_list_destroy_node (Ptr a) (Ptr a) h = Undef.
Proof.
  intros Hr Hu. destruct (rep_hdr_root _ _ _ _ _ Hr) as [Hn Hp]. rewrite Hu in Hn, Hp.
  pose proof (rep_dll _ _ _ _ _ Hr Hu) as Hd.
  pose proof (prev_of_pos h a ns 0 Hd ltac:(lia)) as Hq. simpl in Hq.
  assert (∃ v, h_next h !! node_at a ns (pred (length ns)) = Some v) as [v Hv].
  { unfold node_at. destruct (ns !! pred (length ns)) as [n|] eqn:E; simpl.
    - eexists. by eapply next_of_node.
    - eexists. by apply next_of_root. }
  pose proof (rp_lst _ _ _ _ _ Hr) as Hl. pose proof (il_root _ _ _ _ (rp_list _ _ _ _ _ Hr)) as Hdt.
  pose proof (next_of_root _ _ _ Hd) as Hn'.
  revert Hn Hp Hq Hv Hn'. generalize (node_at a ns 0), (node_at a ns (pred (length ns))).
  intros q p Hn Hp Hq Hv Hn'. clear Hr Hd Hu.
  assert (h_prev h !! a = Some (Ptr p)) as Hp'.
  { revert Hp. unfold load_prev, lift, must. destruct (h_prev h !! a); congruence. }
  destruct h as [nx pv dt ls fr av lg]. cbn in *. clear Hn Hp.
  unfold nbu_list_destroy_node. do 8 cstep.
  cstep. cstep.
  assert (<[q := Ptr p]> pv !! a = Some (Ptr p)) as Hp2.
  { destruct (decide (q = a)) as [->|]; [by rewrite lookup_insert_eq|by rewrite lookup_insert_ne]. }
  cstep. cstep. apply cmd_bind_Undef. unfold free_node. cbn. by rewrite Hl.
Qed.

Lemma step_set_cur h a s ns l c p :
  rep h a s ns l → cur_rel h a ns c p → (c = ARoot → a_used s = true) →
  match_out a (mod_list (Ptr a) (set_iterator p) h) (Ret (tt, a_set_cur c s)).
Proof.
  intros Hr Hc Hroot. eexists. split.
  - apply mod_list_ok. exact (rp_lst _ _ _ _ _ Hr).
  - eexists _, _. by apply rep_set_cur.
Qed.

Lemma cur_at_root ns i : cur_at ns i = ARoot → (length ns <= i)%nat.
Proof. unfold cur_at. destruct (Nat.ltb_spec i (length ns)); by intros [=]. Qed.

Lemma step_start h a s : refines h a s →
  match_out a (nbu_list_iterator_start (Ptr a) h)
    (Ret (tt, a_set_cur (if a_used s then if a_seq s is [] then ARoot else AAt 0 else ANull) s)).
Proof.
  intros (ns & l & Hr). destruct (rep_hdr_root _ _ _ _ _ Hr) as [E _].
  unfold nbu_list_iterator_start. run.
  run_with E. eapply step_set_cur; [exact Hr| |].
  - destruct (a_used s); [|done]. pose proof (cur_rel_at h a ns 0) as Hc.
    unfold cur_at in Hc. rewrite (rep_length _ _ _ _ _ Hr) in Hc. by destruct (a_seq s).
  - by destruct (a_used s).
Qed.

Lemma step_end h a s : refines h a s →
  match_out a (nbu_list_iterator_end (Ptr a) h)
    (Ret (tt, a_set_cur (if a_used s then if a_seq s is [] then ARoot
                           else AAt (pred (length (a_seq s))) else ANull) s)).
Proof.
  intros (ns & l & Hr). destruct (rep_hdr_root _ _ _ _ _ Hr) as [_ E].
  unfold nbu_list_iterator_end. run.
  run_with E. eapply step_set_cur; [exact Hr| |].
  - destruct (a_used s); [|done]. pose proof (cur_rel_at h a ns (pred (length ns))) as Hc.
    unfold cur_at in Hc. rewrite (rep_length _ _ _ _ _ Hr) in *. destruct (a_seq s); [done|].
    by rewrite (proj2 (Nat.ltb_lt _ _)) in Hc by (simpl; lia).
  - by destruct (a_used s).
Qed.

(** The cursor is NULL exactly in the abstract state. *)
Lemma cur_null h a s ns l : rep h a s ns l →
  not_null (iterator l) = (if a_cur s is ANull then false else true).
Proof.
  intros Hr. pose proof (rp_cur _ _ _ _ _ Hr) as Hc.
  destruct (a_cur s); simpl in Hc;
    [by rewrite Hc|by rewrite Hc|by destruct Hc as (?&?&->)|by destruct Hc as (?&->&?)].
Qed.

Lemma step_move h a s (load : ptr → cmd (heap D) ptr) (dest : astate D → outcome acur) :
  (∀ ns l, rep h a s ns l → match dest s with
     | Ret c => ∃ i, c = cur_at ns i ∧ a_used s = true ∧
                     load (iterator l) h = Ret (Ptr (node_at a ns i), h)
     | _ => load (iterator l) h = Undef
     end) →
  (dest s = Undef ∨ ∃ c, dest s = Ret c) →
  refines h a s →
  match_out a
    ((assert_c true;; l ← load_list (Ptr a); assert_c (not_null (iterator l));;
      n ← load (iterator l); mod_list (Ptr a) (set_iterator n)) h)
    (match a_cur s with
     | ANull => Abort
     | _ => c ← dest s; Ret (tt, a_set_cur c s)
     end).
Proof.
  intros Hload Hcase (ns & l & Hr). specialize (Hload _ _ Hr).
  run.
  erewrite cmd_bind_Ret; [|apply load_list_ok, (rp_lst _ _ _ _ _ Hr)].
  rewrite (cur_null _ _ _ _ _ Hr).
  destruct (decide (a_cur s = ANull)) as [->|Hnn]; [done|].
  replace (match a_cur s with ANull => false | _ => true end) with true by by destruct (a_cur s).
  run.
  assert (match_out a ((n ← load (iterator l); mod_list (Ptr a) (set_iterator n)) h)
            (c ← dest s; Ret (tt, a_set_cur c s))) as Hgoal.
  { destruct Hcase as [E|[c E]]; rewrite E in Hload |- *.
    - by apply cmd_bind_Undef.
    - destruct Hload as (i & -> & Hu & E'). run_with E'.
      eapply step_set_cur; [done|apply cur_rel_at|done]. }
  by destruct (a_cur s).
Qed.

Lemma a_next_case s : a_next s = Undef ∨ ∃ c, a_next s = Ret c.
Proof. unfold a_next. destruct (a_cur s); eauto. Qed.

Lemma a_prev_case s : a_prev s = Undef ∨ ∃ c, a_prev s = Ret c.
Proof. unfold a_prev. destruct (a_cur s) as [| |[|i]|]; eauto. Qed.

(** The cursor compared with the ends of the list. *)
Lemma is_valid_rep h a s ns l : rep h a s ns l →
  not_null (iterator l) && negb (ptr_eqb (iterator l) (Ptr a))
  = match a_cur s with ANull | ARoot => false | _ => true end.
Proof.
  intros Hr. rewrite (cur_null _ _ _ _ _ Hr). pose proof (rp_cur _ _ _ _ _ Hr) as Hc.
  pose proof (il_nodup _ _ _ _ (rp_list _ _ _ _ _ Hr)) as Hnd. apply NoDup_cons in Hnd as [Hnd _].
  unfold ptr_eqb. destruct (a_cur s); simpl in Hc.
  - done.
  - rewrite Hc. by rewrite bool_decide_true.
  - destruct Hc as (n & Hn & ->). rewrite bool_decide_false; [done|]. intros [= ->].
    by eapply Hnd, list_elem_of_lookup_2.
  - destruct Hc as (n & -> & Hx & _). rewrite bool_decide_false; [done|]. intros [= ->].
    destruct (rep_hdr_root _ _ _ _ _ Hr) as [E _]. unfold load_next in E. by rewrite Hx in E.
Qed.

Lemma node_eqb_at h a s ns l i : rep h a s ns l → a_used s = true →
  (i < length ns)%nat ∨ ns = [] →
  ptr_eqb (iterator l) (Ptr (node_at a ns i))
  = match a_cur s with
    | ANull | ADangling => false
    | ARoot => (length ns =? 0)%nat
    | AAt j => (j =? i)%nat
    end.
Proof.
  intros Hr Hu Hi. pose proof (rp_cur _ _ _ _ _ Hr) as Hc.
  pose proof (is_list_data_some _ _ _ _ (node_at a ns i) (rp_list _ _ _ _ _ Hr)) as Hdt.
  pose proof (il_nodup _ _ _ _ (rp_list _ _ _ _ _ Hr)) as Hnd. apply NoDup_cons in Hnd as [Hna Hnd].
  assert (node_at a ns i ∈ a :: ns) as Hin.
  { unfold node_at. destruct (ns !! i) eqn:E; [|set_solver].
    apply elem_of_cons; right. by eapply list_elem_of_lookup_2. }
  unfold ptr_eqb. destruct (a_cur s) as [| |j|]; simpl in Hc.
  - by rewrite Hc.
  - rewrite Hc. destruct Hi as [Hi| ->]; [|by rewrite bool_decide_true].
    destruct (lookup_lt_is_Some_2 ns i Hi) as [n Hn]. unfold node_at. rewrite Hn; simpl.
    rewrite bool_decide_false; [by destruct ns|]. intros [= ->].
    by eapply Hna, list_elem_of_lookup_2.
  - destruct Hc as (n & Hn & ->). destruct Hi as [Hi| ->]; [|done].
    destruct (lookup_lt_is_Some_2 ns i Hi) as [m Hm]. unfold node_at. rewrite Hm; simpl.
    destruct (Nat.eqb_spec j i) as [->|Hji].
    + rewrite bool_decide_true; congruence.
    + rewrite bool_decide_false; [done|]. intros [= ->]. by eapply Hji, NoDup_lookup.
  - destruct Hc as (n & -> & _ & _ & Hx & _). rewrite bool_decide_false; [done|].
    intros [= ->]. destruct (Hdt Hin) as [? ?]. congruence.
Qed.

(** At position [i] of a valid list the pointer is the root's iff past the end. *)
Lemma node_is_elem h a s ns l i : rep h a s ns l →
  negb (ptr_eqb (Ptr (node_at a ns i)) (Ptr a)) = match cur_at ns i with ARoot => false | _ => true end.
Proof.
  intros Hr. pose proof (il_nodup _ _ _ _ (rp_list _ _ _ _ _ Hr)) as Hnd.
  apply NoDup_cons in Hnd as [Hna _]. unfold ptr_eqb, node_at, cur_at.
  destruct (Nat.ltb_spec i (length ns)) as [Hi|Hi].
  - destruct (lookup_lt_is_Some_2 ns i Hi) as [m Hm]. rewrite Hm; simpl.
    rewrite bool_decide_false; [done|]. intros [= ->]. by eapply Hna, list_elem_of_lookup_2.
  - rewrite lookup_ge_None_2 by done. by rewrite bool_decide_true.
Qed.

(** *** Insertion and deletion *)
Lemma step_insert h a s ns l i d dir P p q Q :
  rep h a s ns l → (i <= length ns)%nat →
  a :: take i ns = P ++ [p] → drop i ns ++ [a] = q :: Q →
  match_out a
    (nbu_list_insert (Ptr a) d (if a_used s then Ptr (if dir : bool then p else q) else Null) dir h)
    (match a_avail s with
     | O => Ret (NBU_ERROR, s)
     | S _ => Ret (NBU_SUCCESS, a_insert i d s)
     end).
Proof.
  intros Hr Hi E1 E2. pose proof (rp_avail _ _ _ _ _ Hr) as Hav.
  destruct (a_avail s) as [|k] eqn:Ek.
  - exists h. split; [by apply insert_oom|]. by exists ns, l.
  - eapply rep_insert; [done|lia|done..].
Qed.

(** A NULL cursor on a list in use: the new node is allocated and freed again. *)
Lemma step_insert_null h a s ns l d dir k :
  rep h a s ns l → a_cur s = ANull → a_used s = true → a_avail s = S k →
  match_out a (nbu_list_insert (Ptr a) d Null dir h) (Ret (NBU_ERROR, a_spend s)).
Proof.
  intros Hr Hc Hu Hav.
  pose proof (next_of_root _ _ _ (rep_dll _ _ _ _ _ Hr Hu)) as Hn.
  pose proof (prev_of_pos _ _ _ (length ns) (rep_dll _ _ _ _ _ Hr Hu) ltac:(lia)) as Hp.
  unfold node_at in Hp at 1. rewrite lookup_ge_None_2 in Hp by lia. simpl in Hp.
  destruct Hr as [Hok Hil Hl Hus Hcu Hro Ht Ha Hlg].
  destruct (insert_null_refused h a (node_at a ns 0) d k dir) as (h' & E & Hag & Hlog & Hfr & Hav');
    [done|congruence|eauto|done|eauto|].
  assert (∀ x, x ∈ a :: ns → x ∉ [h_fresh h]) as Hdis.
  { intros x Hx Hf. apply list_elem_of_singleton in Hf as ->.
    pose proof (is_list_alloc _ _ _ _ Hok Hil _ Hx). lia. }
  exists h'. split; [done|]. exists ns, l. split.
  - by apply Hfr.
  - by eapply is_list_frame.
  - destruct (Hag a) as (_ & _ & _ & ->); [apply Hdis; set_solver|done].
  - simpl. rewrite Hu. pose proof (is_list_frame _ _ _ _ _ _ Hag Hdis Hil) as Hil'.
    destruct (il_links _ _ _ _ Hil') as [(_ & Hx & _)|Hd]; [|done].
    destruct (Hag a) as (Hx' & _); [apply Hdis; set_solver|]. congruence.
  - simpl. rewrite Hc in Hcu |- *. done.
  - done.
  - done.
  - simpl. rewrite Hav'. by rewrite Hav.
  - simpl. congruence.
Qed.

(** Insertion beside the cursor: [dir] chooses the side. *)
Lemma step_insert_cur h a s ns l d (dir : bool) :
  rep h a s ns l →
  match_out a (nbu_list_insert (Ptr a) d (iterator l) dir h)
    ('(r, s') ← a_insert_cur d (if dir then O else length (a_seq s))
                  (if dir then S else λ i, i) s;
     match r with RInt z => Ret (z, s') | _ => Undef end).
Proof.
  intros Hr. pose proof (rep_length _ _ _ _ _ Hr) as Hlen.
  pose proof (rp_cur _ _ _ _ _ Hr) as Hc. unfold a_insert_cur.
  destruct (a_avail s) as [|k] eqn:Ek.
  { exists h. split; [apply insert_oom; by rewrite (rp_avail _ _ _ _ _ Hr)|]. by exists ns, l. }
  destruct (a_cur s) as [| |i|] eqn:Ec; simpl in Hc.
  - rewrite Hc. destruct (a_used s) eqn:Hu; [by eapply step_insert_null|].
    destruct (cons_view a ns) as (q & Q & E).
    pose proof (step_insert h a s ns l 0 d dir [] a q Q Hr ltac:(lia) eq_refl E) as Hx.
    by rewrite Hu, Ek in Hx.
  - pose proof (rp_root _ _ _ _ _ Hr Ec) as Hu. rewrite Hc. destruct dir.
    + destruct (cons_view a ns) as (q & Q & E).
      pose proof (step_insert h a s ns l 0 d true [] a q Q Hr ltac:(lia) eq_refl E) as Hx.
      by rewrite Hu, Ek in Hx.
    + destruct (snoc_view a ns) as (P & p & E).
      pose proof (step_insert h a s ns l (length ns) d false P p a [] Hr ltac:(lia)
                    ltac:(by rewrite firstn_all) ltac:(by rewrite drop_all)) as Hx.
      rewrite Hu, Ek in Hx. by rewrite <- Hlen.
  - destruct Hc as (n & Hn & Hit). rewrite Hit.
    pose proof (rep_used_lookup _ _ _ _ _ _ _ Hr Hn) as Hu.
    pose proof (lookup_lt_Some _ _ _ Hn) as Hlt. destruct dir.
    + destruct (cons_view a (drop (S i) ns)) as (q & Q & E).
      pose proof (step_insert h a s ns l (S i) d true _ n q Q Hr ltac:(lia)
                    (take_snoc_view a ns i n Hn) E) as Hx.
      by rewrite Hu, Ek in Hx.
    + destruct (snoc_view a (take i ns)) as (P & p & E).
      pose proof (step_insert h a s ns l i d false P p n _ Hr ltac:(lia) E
                    ltac:(by rewrite (drop_S _ _ _ Hn))) as Hx.
      by rewrite Hu, Ek in Hx.
  - destruct Hc as (n & Hit & Hx1 & Hx2 & _ & Hf). rewrite Hit. simpl.
    pose proof (rp_avail _ _ _ _ _ Hr) as Hav. rewrite Ek in Hav.
    destruct h as [nx pv dt ls fr av lg]. cbn in *. subst av. unfold nbu_list_insert.
    cstep. cstep. cstep. destruct dir.
    + cstep. apply cmd_bind_Undef. unfold load_next. cbn. by rewrite lookup_insert_ne, Hx1 by lia.
    + apply cmd_bind_Undef. unfold load_prev. cbn. by rewrite lookup_insert_ne, Hx2 by lia.
Qed.

(** Deletion at the cursor. *)
Lemma step_delete_cur h a s (load : ptr → cmd (heap D) ptr) (dest : astate D → outcome acur) :
  (∀ ns l, rep h a s ns l → match dest s with
     | Ret c => ∃ i, c = cur_at ns i ∧ a_used s = true ∧
                     load (iterator l) h = Ret (Ptr (node_at a ns i), h)
     | _ => load (iterator l) h = Undef
     end) →
  (dest s = Undef ∨ ∃ c, dest s = Ret c) →
  refines h a s →
  match_out a
    ((assert_c true;; l ← load_list (Ptr a); assert_c (not_null (iterator l));;
      n ← load (iterator l); nbu_list_destroy_node (Ptr a) (iterator l);;
      mod_list (Ptr a) (set_iterator n)) h)
    ('(_, s') ← a_delete_cur dest s; Ret (tt, s')).
Proof.
  intros Hload Hcase (ns & l & Hr). specialize (Hload _ _ Hr).
  run.
  erewrite cmd_bind_Ret; [|apply load_list_ok, (rp_lst _ _ _ _ _ Hr)].
  rewrite (cur_null _ _ _ _ _ Hr). pose proof (rp_cur _ _ _ _ _ Hr) as Hc. unfold a_delete_cur.
  destruct (a_cur s) as [| |i|] eqn:Ec; simpl in Hc; [done| | |];
    (run).
  - destruct Hcase as [E|[c E]]; rewrite E in Hload; [by apply cmd_bind_Undef|].
    destruct Hload as (j & -> & Hu & E'). run_with E'.
    rewrite Hc. apply cmd_bind_Undef. by eapply destroy_root_undef.
  - destruct Hc as (n & Hn & Hit).
    destruct (lookup_lt_is_Some_2 (a_seq s) i) as [d Hd].
    { rewrite <- (rep_length _ _ _ _ _ Hr). by eapply lookup_lt_Some. }
    rewrite Hd; simpl.
    destruct Hcase as [E|[c E]]; rewrite E in Hload |- *; simpl; [by apply cmd_bind_Undef|].
    destruct Hload as (j & -> & Hu & E'). run_with E'.
    destruct (rep_delete _ _ _ _ _ _ _ _ Hr Hn Hd) as (h' & E2 & Hr' & Hcur).
    rewrite Hit. run_with E2.
    eexists. split; [apply mod_list_ok, (rp_lst _ _ _ _ _ Hr')|]. eexists _, _.
    eapply rep_set_cur; [exact Hr'|apply Hcur, cur_rel_at|done].
  - destruct Hcase as [E|[c E]]; rewrite E in Hload; [by apply cmd_bind_Undef|].
    destruct Hload as (j & -> & Hu & E'). run_with E'.
    destruct Hc as (n & -> & _ & _ & Hx & _). unfold nbu_list_destroy_node.
    apply cmd_bind_Undef. do 2 (run).
    erewrite cmd_bind_Ret; [|apply load_list_ok, (rp_lst _ _ _ _ _ Hr)].
    apply cmd_bind_Undef. unfold load_data. by rewrite Hx.
Qed.

(** Deletion at an end. *)
Lemma step_delete_at h a s ns l i :
  rep h a s ns l → (i < length ns)%nat ∨ ns = [] →
  match_out a
    (nbu_list_destroy_node (Ptr a) (if a_used s then Ptr (node_at a ns i) else Null) h)
    ('(_, s') ← a_delete_at i s; Ret (tt, s')).
Proof.
  intros Hr Hi. pose proof (rep_length _ _ _ _ _ Hr) as Hlen. unfold a_delete_at.
  destruct (a_used s) eqn:Hu; simpl; [|done]. destruct Hi as [Hi| ->].
  - destruct (lookup_lt_is_Some_2 ns i Hi) as [n Hn].
    destruct (lookup_lt_is_Some_2 (a_seq s) i) as [d Hd]; [lia|].
    unfold node_at. rewrite Hn, Hd; simpl.
    destruct (rep_delete _ _ _ _ _ _ _ _ Hr Hn Hd) as (h' & E2 & Hr' & _).
    exists h'. split; [done|]. by eexists _, _.
  - destruct (a_seq s); [|done]. simpl. by eapply destroy_root_undef.
Qed.

(** Observations leave the state alone. *)
Lemma step_observe {R} h a s (m : cmd (heap D) R) r :
  refines h a s → m h = Ret (r, h) → match_out a (m h) (Ret (r, s)).
Proof. intros Hr E. by exists h. Qed.

Lemma step_is_end h a s (o : bool) : refines h a s →
  (if o then nbu_list_iterator_is_last (Ptr a) else nbu_list_iterator_is_first (Ptr a)) h
  = Ret (match a_cur s with
         | ANull => negb (a_used s)
         | ARoot => (length (a_seq s) =? 0)%nat
         | AAt i => if o then (S i =? length (a_seq s))%nat else (i =? 0)%nat
         | ADangling => false
         end, h).
Proof.
  intros (ns & l & Hr). destruct (rep_hdr_root _ _ _ _ _ Hr) as [E1 E2].
  pose proof (rep_length _ _ _ _ _ Hr) as Hlen. pose proof (cur_null _ _ _ _ _ Hr) as Hnul.
  pose proof (rp_cur _ _ _ _ _ Hr) as Hc.
  assert ((pred (length ns) < length ns)%nat ∨ ns = []) as Hend
    by (destruct ns; [by right|left; simpl; lia]).
  assert ((0 < length ns)%nat ∨ ns = []) as Hbeg by (destruct ns; [by right|left; simpl; lia]).
  destruct o; [unfold nbu_list_iterator_is_last|unfold nbu_list_iterator_is_first];
    (erewrite cmd_bind_Ret; [|apply load_list_ok, (rp_lst _ _ _ _ _ Hr)]);
    (erewrite cmd_bind_Ret; [|eassumption]); unfold mret, cmd_ret; do 2 f_equal;
    (destruct (a_used s) eqn:Hu;
      [rewrite (node_eqb_at _ _ _ _ _ _ Hr Hu) by done; rewrite <- Hlen
      |destruct (a_cur s) as [| |i|] eqn:Ec; simpl in Hc;
        [by rewrite Hc|by apply (rp_root _ _ _ _ _ Hr) in Ec; rewrite Hu in Ec
        |destruct Hc as (n & Hn & _); pose proof (rep_used_lookup _ _ _ _ _ _ _ Hr Hn); congruence
        |by destruct Hc as (n & -> & _)]]);
    destruct (a_cur s) as [| |i|] eqn:Ec; simpl in *; try done.
  destruct Hc as (n & Hn & _). apply lookup_lt_Some in Hn.
  by destruct (length ns); [lia|].
Qed.

Lemma step_has h a s (load : ptr → cmd (heap D) ptr) (dest : astate D → outcome acur) :
  (∀ ns l, rep h a s ns l → match dest s with
     | Ret c => ∃ i, c = cur_at ns i ∧ a_used s = true ∧
                     load (iterator l) h = Ret (Ptr (node_at a ns i), h)
     | _ => load (iterator l) h = Undef
     end) →
  (dest s = Undef ∨ ∃ c, dest s = Ret c) →
  refines h a s →
  match_out a
    ((l ← load_list (Ptr a); n ← load (iterator l);
      mret (not_null n && negb (ptr_eqb n (Ptr a)))) h)
    (c ← dest s; Ret (match c with ARoot => false | _ => true end, s)).
Proof.
  intros Hload Hcase (ns & l & Hr). specialize (Hload _ _ Hr).
  erewrite cmd_bind_Ret; [|apply load_list_ok, (rp_lst _ _ _ _ _ Hr)].
  destruct Hcase as [E|[c E]]; rewrite E in Hload |- *; [by apply cmd_bind_Undef|].
  destruct Hload as (i & -> & _ & E'). run_with E'.
  exists h. split; [|by exists ns, l].
  by rewrite (node_is_elem _ _ _ _ _ _ Hr).
Qed.

Lemma step_get h a s : refines h a s →
  match_out a (nbu_list_get (Ptr a) h)
    (match a_cur s with
     | ANull => Abort
     | ARoot => Ret (None, s)
     | AAt i => d ← must (a_seq s !! i); Ret (d, s)
     | ADangling => Undef
     end).
Proof.
  intros (ns & l & Hr). pose proof (rp_cur _ _ _ _ _ Hr) as Hc. unfold nbu_list_get.
  run.
  erewrite cmd_bind_Ret; [|apply load_list_ok, (rp_lst _ _ _ _ _ Hr)].
  rewrite (cur_null _ _ _ _ _ Hr).
  destruct (a_cur s) as [| |i|] eqn:Ec; simpl in Hc; [done| | |];
    (run).
  - rewrite Hc. exists h. split; [|by exists ns, l].
    apply load_data_ok, (il_root _ _ _ _ (rp_list _ _ _ _ _ Hr)).
  - destruct Hc as (n & Hn & ->).
    destruct (Forall2_lookup_l _ _ _ _ _ (il_data _ _ _ _ (rp_list _ _ _ _ _ Hr)) Hn)
      as (d & -> & Hd).
    exists h. split; [by apply load_data_ok|by exists ns, l].
  - destruct Hc as (n & -> & _ & _ & Hx & _). simpl. by rewrite Hx.
Qed.

Lemma bind_unit_move {R} c s (dest : outcome acur) (r : R) :
  ('(_, s') ← (match c with ANull => Abort | _ => x ← dest; Ret (tt, a_set_cur x s) end);
   Ret (r, s'))
  = match c with ANull => Abort | _ => x ← dest; Ret (r, a_set_cur x s) end.
Proof. destruct c, dest; done. Qed.

Lemma step_motion h a s o :
  refines h a s → o ∈ [OStart; OEnd; ONext; OPrevious] → match_out a (cstep a o h) (astep o s).
Proof.
  intros H Ho. unfold cstep, astep.
  repeat (apply elem_of_cons in Ho as [->|Ho]); [..|by apply elem_of_nil in Ho].
  - apply (matched a _ (λ _, RUnit) h _ (step_start h a s H)).
  - apply (matched a _ (λ _, RUnit) h _ (step_end h a s H)).
  - rewrite <- (bind_unit_move (a_cur s) s (a_next s) RUnit). apply (matched a _ (λ _, RUnit)).
    apply step_move; [intros; by apply next_ptr|apply a_next_case|done].
  - rewrite <- (bind_unit_move (a_cur s) s (a_prev s) RUnit). apply (matched a _ (λ _, RUnit)).
    apply step_move; [intros; by apply prev_ptr|apply a_prev_case|done].
Qed.

Lemma step_inspect h a s o :
  refines h a s → o ∈ [OIsValid; OIsLast; OIsFirst; OHasNext; OHasPrevious; OGet; OCount] →
  match_out a (cstep a o h) (astep o s).
Proof.
  intros H Ho. pose proof H as (ns & l & Hr). unfold cstep, astep.
  pose proof (load_list_ok _ _ _ (rp_lst _ _ _ _ _ Hr)) as El.
  repeat (apply elem_of_cons in Ho as [->|Ho]); [..|by apply elem_of_nil in Ho].
  - eapply (matched a _ (@RBool D) h (Ret (_, s))), step_observe; [done|].
    unfold nbu_list_iterator_is_valid. run_with El.
    by rewrite (is_valid_rep _ _ _ _ _ Hr).
  - eapply (matched a _ (@RBool D) h (Ret (_, s))), step_observe; [done|].
    exact (step_is_end h a s true H).
  - eapply (matched a _ (@RBool D) h (Ret (_, s))), step_observe; [done|].
    exact (step_is_end h a s false H).
  - pose proof (matched a _ (@RBool D) _ _ (step_has h a s load_next a_next
      ltac:(intros; by apply next_ptr) (a_next_case s) H)) as Hm. by destruct (a_next s).
  - pose proof (matched a _ (@RBool D) _ _ (step_has h a s load_prev a_prev
      ltac:(intros; by apply prev_ptr) (a_prev_case s) H)) as Hm. by destruct (a_prev s).
  - pose proof (matched a _ (@RData D) _ _ (step_get h a s H)) as Hm.
    destruct (a_cur s) as [| |i|]; try done. by destruct (a_seq s !! i).
  - eapply (matched a _ (@RInt D) h (Ret (_, s))), step_observe; [done|].
    unfold nbu_list_count. run.
    run_with El.
    destruct (il_hdr _ _ _ _ (rp_list _ _ _ _ _ Hr)) as (l' & Hl' & Hc).
    rewrite (rp_lst _ _ _ _ _ Hr) in Hl'. simplify_eq.
    by rewrite Hc, (rep_length _ _ _ _ _ Hr).
Qed.

Lemma insert_cur_int d i f s :
  ('(z, s') ← ('(r, s') ← a_insert_cur d i f s; match r with RInt z => Ret (z, s') | _ => Undef end);
   Ret (RInt z, s')) = a_insert_cur d i f s.
Proof. unfold a_insert_cur. by destruct (a_avail s), (a_cur s), (a_used s). Qed.

Lemma insert_op_int d i s :
  ('(z, s') ← (match a_avail s with
               | O => Ret (NBU_ERROR, s)
               | S _ => Ret (NBU_SUCCESS, a_insert i d s)
               end); Ret (RInt z, s')) = a_insert_op i d s.
Proof. unfold a_insert_op. by destruct (a_avail s). Qed.

Lemma delete_at_unit i s :
  ('(_, s') ← ('(_, s') ← a_delete_at i s; Ret (tt, s')); Ret (RUnit, s')) = a_delete_at i s.
Proof. unfold a_delete_at. by destruct (negb (a_used s)), (a_seq s !! i). Qed.

Lemma delete_cur_unit dest s :
  ('(_, s') ← ('(_, s') ← a_delete_cur dest s; Ret (tt, s')); Ret (RUnit, s'))
  = a_delete_cur dest s.
Proof.
  unfold a_delete_cur. destruct (a_cur s) as [| |i|]; try done.
  by destruct (a_seq s !! i), (dest s).
Qed.

Lemma last_view (a : loc) ns :
  a :: take (length ns) ns
  = match length ns with O => [] | S n => a :: take n ns end
      ++ [node_at a ns (pred (length ns))].
Proof.
  destruct (length ns) as [|n] eqn:E; simpl.
  - by destruct ns.
  - destruct (lookup_lt_is_Some_2 ns n) as [m Hm]; [lia|].
    rewrite (take_S_r _ _ _ Hm). unfold node_at. by rewrite Hm.
Qed.

Lemma step_update h a s o :
  refines h a s →
  match o with
  | OInsertAfter _ | OInsertBefore _ | OInsertBegin _ | OInsertEnd _
  | ODeleteForward | ODeleteBackward | ODeleteBegin | ODeleteEnd => True
  | _ => False
  end → match_out a (cstep a o h) (astep o s).
Proof.
  intros H Ho. pose proof H as (ns & l & Hr). unfold cstep, astep.
  pose proof (load_list_ok _ _ _ (rp_lst _ _ _ _ _ Hr)) as El.
  pose proof (rep_length _ _ _ _ _ Hr) as Hlen. destruct (rep_hdr_root _ _ _ _ _ Hr) as [En Ep].
  destruct o as [| | | | | | | | | | |d|d|d|d| | | |]; try done.
  - rewrite <- (insert_cur_int d _ _ s). apply (matched a _ (@RInt D)).
    unfold nbu_list_insert_after. run_with El.
    by apply (step_insert_cur h a s ns l d true).
  - rewrite <- (insert_cur_int d _ _ s). apply (matched a _ (@RInt D)).
    unfold nbu_list_insert_before. run_with El.
    by apply (step_insert_cur h a s ns l d false).
  - rewrite <- insert_op_int. apply (matched a _ (@RInt D)).
    unfold nbu_list_insert_begin. run_with En.
    destruct (drop_cons_view a ns 0) as [Q [E|?]]; [|lia].
    exact (step_insert h a s ns l 0 d false [] a _ Q Hr ltac:(lia) eq_refl E).
  - rewrite <- insert_op_int. apply (matched a _ (@RInt D)).
    unfold nbu_list_insert_end. run_with Ep. rewrite <- Hlen.
    apply (step_insert h a s ns l (length ns) d true _ _ a [] Hr ltac:(lia) (last_view a ns)).
    by rewrite drop_all.
  - rewrite <- delete_cur_unit. apply (matched a _ (λ _, RUnit)).
    apply step_delete_cur; [intros; by apply next_ptr|apply a_next_case|done].
  - rewrite <- delete_cur_unit. apply (matched a _ (λ _, RUnit)).
    apply step_delete_cur; [intros; by apply prev_ptr|apply a_prev_case|done].
  - rewrite <- delete_at_unit. apply (matched a _ (λ _, RUnit)).
    unfold nbu_list_delete_begin. run_with En.
    eapply step_delete_at; [exact Hr|]. destruct ns; [by right|left; simpl; lia].
  - rewrite <- delete_at_unit. apply (matched a _ (λ _, RUnit)).
    unfold nbu_list_delete_end. run_with Ep. rewrite <- Hlen.
    eapply step_delete_at; [exact Hr|]. destruct ns; [by right|left; simpl; lia].
Qed.

Lemma step_ok h a s o : refines h a s → match_out a (cstep a o h) (astep o s).
Proof.
  intros H. destruct o; (apply step_motion; [done|set_solver]) ||
    (apply step_inspect; [done|set_solver]) || by apply step_update.
Qed.

Lemma run_ok os h a s : refines h a s → match_out a (crun a os h) (arun os s).
Proof.
  revert h s. induction os as [|o os IH]; intros h s H; simpl; [by exists h|].
  pose proof (step_ok h a s o H) as Hs. unfold match_out in Hs.
  destruct (astep o s) as [[r s']| | |]; simpl; [|by apply cmd_bind_Undef|by apply cmd_bind_Abort|].
  - destruct Hs as (h' & E & H'). run_with E.
    apply (matched a (crun a os) (cons r)), IH, H'.
  - unfold mbind, cmd_bind. by rewrite Hs.
Qed.

(** A list that [nbu_list_new] just returned. *)
Lemma new_refines h dsize k t :
  heap_ok h → h_avail h = S k →
  ∃ a h', nbu_list_new_with_terminator dsize t h = Ret (Ptr a, h') ∧
          refines h' a (AS [] ANull false t k (h_log h)).
Proof.
  intros Hok Hk. destruct h as [nx pv dt ls n av lg]. cbn in *. subst av.
  exists n. eexists. split.
  - unfold nbu_list_new_with_terminator, nbu_list_new.
    erewrite cmd_bind_Ret; [|cstep; cstep; reflexivity].
    cbn [not_null]. cstep. reflexivity.
  - exists [], (Lst 0 dsize t Null). split; cbn; try done.
    + intros x Hx. cbn in *. destruct (Hok x ltac:(cbn; lia)) as (? & ? & ? & ?).
      by rewrite !lookup_insert_ne by lia.
    + split; cbn; try done.
      * by apply NoDup_singleton.
      * left. cbn. by rewrite !lookup_insert_eq.
      * by rewrite lookup_insert_eq.
      * eexists. by rewrite lookup_insert_eq.
    + by rewrite lookup_insert_eq.
    + by rewrite !lookup_insert_eq.
Qed.

End lemmas.

(** C1: list.c refines its contract.  For any sequence of operations on a list
    just returned by [nbu_list_new_with_terminator], the C code returns the same
    results, aborts on the same assertion or runs into undefined behaviour at the
    same point as the abstract sequence with a cursor, allocation failures
    included. *)
Theorem nbu_list_refines_sequence {D} (h : heap D) dsize t k os :
  heap_ok h → h_avail h = S k →
  ∃ a h', nbu_list_new_with_terminator dsize t h = Ret (Ptr a, h') ∧
          match_out a (crun a os h') (arun os (AS [] ANull false t k (h_log h))).
Proof.
  intros Hok Hk. destruct (new_refines h dsize k t Hok Hk) as (a & h' & E & Hr).
  exists a, h'. split; [done|]. by apply run_ok.
Qed.

Lemma heap_empty_ok {D} n : heap_ok (heap_empty n : heap D).
Proof. intros x _. cbn. by rewrite !lookup_empty. Qed.

Lemma nbu_list_refines_sequence_witness :
  ∃ a h', nbu_list_new_with_terminator 4 None (heap_empty 5 : heap Z) = Ret (Ptr a, h') ∧
          match_out a (crun a [OInsertEnd (Some 7); OInsertBegin (Some 3); OStart; ONext; OGet;
                               ODeleteForward; OIsValid; OCount] h')
            (arun [OInsertEnd (Some 7); OInsertBegin (Some 3); OStart; ONext; OGet;
                   ODeleteForward; OIsValid; OCount] (AS [] ANull false None 4 [])).
Proof. apply (nbu_list_refines_sequence (heap_empty 5)); [apply heap_empty_ok|reflexivity]. Defined.
