(* ===== verification/NbuListAlg.v ===== *)
(** The algorithms of list.c: lookup by index, search, destruction, sorting. *)

From stdpp Require Import base tactics list gmap sorting.
From S2P Require Import Prelude.
From S2P Require Import Dll.
From S2P Require Import CursorList.
From S2P Require Import NbuList.
From S2P Require Import NbuListSpec.
Import NbuList.

Section pure.
Context {D : Type}.
Implicit Types (ds : list (option D)) (d : option D).

(** Where [nbu_list_sort] puts an element: before the first one it does not come
    strictly after. *)
Fixpoint ins (cmp : option D → option D → Z) d ds : list (option D) :=
  match ds with
  | [] => [d]
  | x :: ds' => if 0 <? cmp d x then x :: ins cmp d ds' else d :: x :: ds'
  end.

Definition isort (cmp : option D → option D → Z) ds : list (option D) :=
  foldl (λ acc d, ins cmp d acc) [] ds.

Lemma ins_perm cmp d ds : ins cmp d ds ≡ₚ d :: ds.
Proof.
  induction ds as [|x ds IH]; simpl; [done|]. destruct (0 <? cmp d x); [|done].
  rewrite IH. apply Permutation_swap.
Qed.

Lemma foldl_ins_perm cmp ds acc : foldl (λ acc d, ins cmp d acc) acc ds ≡ₚ acc ++ ds.
Proof.
  revert acc. induction ds as [|d ds IH]; intros acc; simpl; [by rewrite app_nil_r|].
  rewrite IH, ins_perm. by rewrite <- Permutation_middle.
Qed.

Lemma isort_perm cmp ds : isort cmp ds ≡ₚ ds.
Proof. apply (foldl_ins_perm cmp ds []). Qed.

Definition leq (cmp : option D → option D → Z) (x y : option D) : Prop := cmp x y <= 0.

Lemma ins_sorted cmp d ds :
  (∀ x y, 0 < cmp x y → cmp y x <= 0) → Sorted (leq cmp) ds → Sorted (leq cmp) (ins cmp d ds).
Proof.
  intros Htot Hs. induction Hs as [|x ds Hs IH Hx]; simpl; [by repeat constructor|].
  destruct (0 <? cmp d x) eqn:E; zbool; [|by repeat constructor].
  constructor; [done|]. destruct ds as [|y ds]; simpl.
  - constructor. by apply Htot.
  - destruct (0 <? cmp d y); constructor; [by inversion Hx|by apply Htot].
Qed.

Lemma isort_sorted cmp ds :
  (∀ x y, 0 < cmp x y → cmp y x <= 0) → Sorted (leq cmp) (isort cmp ds).
Proof.
  intros Htot. unfold isort. assert (Sorted (leq cmp) []) as Hs by constructor.
  revert Hs. generalize (@nil (option D)) as acc.
  induction ds as [|d ds IH]; intros acc Hs; simpl; [done|]. by apply IH, ins_sorted.
Qed.

Lemma ins_prefix cmp d ds1 ds2 :
  Forall (λ x, 0 < cmp d x) ds1 → ins cmp d (ds1 ++ ds2) = ds1 ++ ins cmp d ds2.
Proof.
  induction 1 as [|x ds1 Hx _ IH]; simpl; [done|].
  rewrite (proj2 (Z.ltb_lt _ _)) by done. by rewrite IH.
Qed.

(** The index loop. *)
Lemma index_fold ind (f := λ d acc, if acc.1 =? ind then inr (acc.1, d) else inl (u32 (acc.1 + 1), d))
    ds i (x : option D) :
  0 <= i <= ind → ind < 2 ^ 32 → ind - i < Z.of_nat (length ds) →
  snd (fold_exit f ds (i, x)) = default None (ds !! Z.to_nat (ind - i)).
Proof.
  revert i x. induction ds as [|d ds IH]; intros i x Hi Hm Hl; simpl in *; [lia|].
  unfold f at 1; simpl. destruct (i =? ind) eqn:E; zbool.
  - subst. by rewrite Z.sub_diag.
  - rewrite u32_small by lia. fold f. rewrite IH by lia.
    by replace (Z.to_nat (ind - i)) with (S (Z.to_nat (ind - (i + 1)))) by lia.
Qed.

End pure.

Section specs.
Context {D : Type}.
Implicit Types h : heap D.

(** A loop over the list whose body only computes. *)
Lemma for_each_data_pure {A} (f : option D → A → A + A) acc h a ns ds :
  heap_ok h → is_list h a ns ds →
  ∃ h', nbu_list_for_each_data (Ptr a) (λ d x, mret (f d x)) acc h
        = Ret (fold_exit f ds acc, h') ∧ nbu_same a h h'.
Proof.
  intros Hok Hil. destruct (zip_view _ _ _ _ Hil) as (xs & -> & ->).
  destruct (start_spec h a xs Hok Hil) as (h1 & E1 & Hat & Hs1).
  unfold nbu_list_for_each_data. run_with E1.
  run.
  destruct (for_each_pure (nbu_cursor a) f xs [] acc h1 (S (size (h_next h1))))
    as (h2 & E2 & Hs2).
  - intros ???. apply nbu_same_trans.
  - apply nbu_same_refl.
  - destruct Hat as (_ & Hil1 & _). apply cells_enough in Hil1.
    unfold nodes_of in Hil1. by rewrite length_fmap in Hil1.
  - done.
  - exists h2. split; [exact E2|]. by eapply nbu_same_trans.
Qed.

Lemma count_spec h a ns ds :
  is_list h a ns ds → nbu_list_count (Ptr a) h = Ret (u32 (Z.of_nat (length ds)), h).
Proof.
  intros Hil. destruct (il_hdr _ _ _ _ Hil) as (l & Hl & Hc). unfold nbu_list_count. do 2 cstep.
  by rewrite Hc, (Forall2_length _ _ _ (il_data _ _ _ _ Hil)).
Qed.

(** [nbu_list_get_at_index] returns the datum at the index, NULL past the
    end, and changes nothing but the list's cursor. *)
Theorem nbu_list_get_at_index_spec h a ns ds ind :
  heap_ok h → is_list h a ns ds → Z.of_nat (length ds) < 2 ^ 32 → 0 <= ind < 2 ^ 32 →
  ∃ h', nbu_list_get_at_index (Ptr a) ind h
        = Ret (default None (ds !! Z.to_nat ind), h') ∧ nbu_same a h h'.
Proof.
  intros Hok Hil Hlen Hind. unfold nbu_list_get_at_index. cbn [not_null negb].
  erewrite cmd_bind_Ret; [|by eapply count_spec]. rewrite u32_small by lia.
  destruct (_ <=? ind) eqn:E; zbool.
  - exists h. rewrite lookup_ge_None_2 by lia. split; [done|apply nbu_same_refl].
  - destruct (for_each_data_pure
                (λ d acc, if acc.1 =? ind then inr (acc.1, d) else inl (u32 (acc.1 + 1), d))
                (0, None) h a ns ds Hok Hil) as (h' & E' & Hs).
    exists h'. split; [|done]. run_with E'.
    rewrite index_fold by lia. by rewrite Z.sub_0_r.
Qed.

(** *** Search *)
Lemma contain_loop_spec h a ns1 ns2 ds1 ds2 q Q data cmp fuel :
  is_dll (h_next h) (h_prev h) a (ns1 ++ ns2) → NoDup (a :: ns1 ++ ns2) →
  Forall2 (λ n d, h_data h !! n = Some d) (ns1 ++ ns2) (ds1 ++ ds2) → length ns1 = length ds1 →
  ns2 ++ [a] = q :: Q → (length ns2 < fuel)%nat →
  contain_loop fuel (Ptr a) (Ptr q) data cmp h
  = Ret (if existsb (λ d, cmp d data =? 0) ds2 then NBU_SUCCESS else NBU_ERROR, h).
Proof.
  revert ns1 ds1 ds2 q Q fuel.
  induction ns2 as [|n ns2 IH]; intros ns1 ds1 ds2 q Q [|fuel] Hd Hnd Hdt Hlen E Hf;
    try (simpl in Hf; lia).
  - apply Forall2_app_inv in Hdt as [_ Hd2]; [|done]. inversion Hd2; subst.
    injection E as <- <-. simpl. unfold ptr_eqb. by rewrite bool_decide_true.
  - pose proof Hdt as Hdt'. apply Forall2_app_inv in Hdt' as [_ Hd2]; [|done].
    inversion Hd2 as [|? d ? ds' Hdn Hd2']; subst. injection E as <- <-.
    destruct (cons_view a ns2) as (q & Q & E).
    destruct (dll_step h a (ns1 ++ [n]) ns2 (a :: ns1) n q Q
                ltac:(by rewrite <- app_assoc) eq_refl E) as [Hn _].
    simpl. unfold ptr_eqb. rewrite bool_decide_false.
    2: { intros [= ->]. apply NoDup_cons in Hnd as [Hnd _]. set_solver. }
    simpl. erewrite cmd_bind_Ret; [|by apply load_data_ok].
    destruct (cmp d data =? 0); simpl; [done|].
    erewrite cmd_bind_Ret; [|by apply load_next_ok].
    apply (IH (ns1 ++ [n]) (ds1 ++ [d]) ds' q Q); rewrite <- ?app_assoc; try done.
    + rewrite !length_app; simpl; lia.
    + simpl in Hf. lia.
Qed.

(** [nbu_list_contain] answers NBU_SUCCESS exactly when some element compares
    equal, NBU_ERROR otherwise, terminates and changes nothing. *)
Theorem nbu_list_contain_spec h a ns ds data cmp :
  is_list h a ns ds →
  nbu_list_contain (Ptr a) data cmp h
  = Ret (if existsb (λ d, cmp d data =? 0) ds then NBU_SUCCESS else NBU_ERROR, h).
Proof.
  intros Hil. destruct (cons_view a ns) as (q & Q & E). unfold nbu_list_contain.
  pose proof (root_next_spec _ _ _ _ _ _ Hil E) as Hn.
  erewrite cmd_bind_Ret; [|by apply load_next_ok]. run.
  pose proof (cells_enough _ _ _ _ Hil) as Hf. destruct Hil as [Hnd Hlk Hdt _ _ _].
  destruct Hlk as [(-> & H1 & _)|Hd].
  - rewrite H1. inversion Hdt; subst. done.
  - destruct (dll_step h a [] ns [] a q Q Hd eq_refl E) as [-> _].
    by apply (contain_loop_spec h a [] ns [] ds q Q).
Qed.

(** *** Destruction *)
Lemma destroy_loop_spec h a xs l fuel :
  nbu_at a h [] xs → h_lst h !! a = Some l → (length xs < fuel)%nat →
  ∃ h' l', destroy_loop fuel (Ptr a) h = Ret (tt, h') ∧ heap_ok h' ∧
    h_lst h' !! a = Some l' ∧
    h_log h' = h_log h ++ (disposal l <$> datas_of xs) ∧
    agree_off (a :: nodes_of xs) h h' ∧
    (∀ n, n ∈ nodes_of xs → h_next h' !! n = None ∧ h_prev h' !! n = None ∧ h_data h' !! n = None).
Proof.
  revert h l fuel. induction xs as [|[n d] xs IH]; intros h l [|fuel] Hat Hl Hf; simpl in Hf; try lia.
  - exists h, l. simpl. erewrite cmd_bind_Ret; [|by eapply (nbu_valid_law a h [] [])].
    destruct Hat as (Hok & _). split_and!; try done.
    + by rewrite app_nil_r.
    + intros n Hn. by apply elem_of_nil in Hn.
  - simpl. erewrite cmd_bind_Ret; [|by eapply (nbu_valid_law a h [])]. simpl.
    erewrite cmd_bind_Ret; [|by apply load_list_ok].
    destruct Hat as (Hok & Hil & l0 & Hl0 & Hit). assert (l0 = l) as -> by congruence.
    destruct Hit as [Hit|[? _]]; [|done]. simpl in Hit. rewrite Hit.
    destruct (first_ptr_cons a xs) as (q & Q & Eq & E).
    destruct (il_links _ _ _ _ Hil) as [(Hnil & _)|Hd]; [done|].
    destruct (dll_step h a [n] (nodes_of xs) [a] n q Q Hd eq_refl E) as [Hn _].
    erewrite cmd_bind_Ret; [|by apply load_next_ok].
    destruct (destroy_node_spec h a [] n (nodes_of xs) [] d (datas_of xs) Hok Hil eq_refl)
      as (h1 & l1 & Hl1 & E1 & Hil1 & Hd1 & Hh1 & Hs). assert (l1 = l) as -> by congruence.
    run_with E1. erewrite cmd_bind_Ret; [|by apply mod_list_ok].
    set (h2 := with_iterator h1 a (Ptr q) (set_count (u32 (count l - 1)) l)).
    assert (heap_ok h2) as Hok2 by (apply with_iterator_heap_ok; [done|apply (sh_ok _ _ _ _ _ _ Hs)]).
    destruct (IH h2 (set_iterator (Ptr q) (set_count (u32 (count l - 1)) l)) fuel)
      as (h' & l' & E' & Hok' & Hl' & Hlg & Hag & Hfr).
    { split_and!; [done|by apply with_iterator_is_list|]. eexists. cbn. rewrite lookup_insert_eq.
      split; [done|]. left. by rewrite Eq. }
    { cbn. by rewrite lookup_insert_eq. }
    { lia. }
    exists h', l'. split_and!; try done.
    + rewrite Hlg. unfold h2; cbn [with_iterator h_log]. rewrite (sh_log _ _ _ _ _ _ Hs l Hl).
      rewrite <- app_assoc. done.
    + intros x Hx. destruct (Hag x ltac:(set_solver)) as (-> & -> & -> & ->).
      destruct (sh_frame _ _ _ _ _ _ Hs x ltac:(set_solver)) as (<- & <- & <- & <-).
      cbn. by rewrite lookup_insert_ne by set_solver.
    + intros x Hx. destruct (decide (x ∈ nodes_of xs)) as [|Hnx]; [by apply Hfr|].
      assert (x = n) as -> by (simpl in Hx; set_solver).
      pose proof (il_nodup _ _ _ _ Hil) as Hnd. simpl in Hnd.
      destruct (Hag n) as (-> & -> & -> & _); [by apply NoDup_cons in Hnd; set_solver|].
      exact (sh_freed _ _ _ _ _ _ Hs).
Qed.

(** The whole destruction, for clients. *)
Lemma destroy_spec h a ns ds :
  heap_ok h → is_list h a ns ds →
  ∃ h' l, h_lst h !! a = Some l ∧ nbu_list_destroy (Ptr a) h = Ret (tt, h') ∧ heap_ok h' ∧
    h_log h' = h_log h ++ (disposal l <$> ds) ∧
    agree_off (a :: ns) h h' ∧ h_lst h' !! a = None ∧
    (∀ n, n ∈ a :: ns → h_next h' !! n = None ∧ h_prev h' !! n = None ∧ h_data h' !! n = None).
Proof.
  intros Hok Hil. destruct (zip_view _ _ _ _ Hil) as (xs & -> & ->).
  destruct (il_hdr _ _ _ _ Hil) as (l & Hl & _). unfold nbu_list_destroy. cbn [not_null negb].
  destruct (start_spec h a xs Hok Hil) as (h1 & E1 & Hat & Hs1).
  run_with E1. run.
  destruct (nbu_same_spec a h h1 _ _ Hs1 Hok Hil) as (Hok1 & Hil1 & Hag1 & _ & _ & _ & _ & Hlg1).
  destruct (il_hdr _ _ _ _ Hil1) as (l1 & Hl1 & _).
  destruct (destroy_loop_spec h1 a xs l1 (S (size (h_next h1))))
    as (h2 & l2 & E2 & Hok2 & Hl2 & Hlg & Hag & Hfr); [done|done| |].
  { apply cells_enough in Hil1. unfold nodes_of in Hil1. by rewrite length_fmap in Hil1. }
  run_with E2.
  eexists _, l. split; [done|]. split; [by eapply free_list_ok|].
  assert (disposal (D := D) l1 = disposal l) as Hdis.
  { destruct Hs1 as [->|(p & l' & Hl' & ->)]; [by simplify_eq|].
    cbn in Hl1. rewrite lookup_insert_eq in Hl1. by simplify_eq. }
  split_and!; cbn.
  - intros x Hx. cbn in *. destruct (Hok2 x Hx) as (? & ? & ? & ?). by rewrite !lookup_delete_None; auto.
  - by rewrite Hlg, Hlg1, Hdis.
  - intros x Hx. cbn. rewrite !lookup_delete_ne by set_solver.
    destruct (Hag x Hx) as (-> & -> & -> & ->). apply Hag1. set_solver.
  - by rewrite lookup_delete_eq.
  - intros n Hn. apply elem_of_cons in Hn as [->|Hn]; [by rewrite !lookup_delete_eq|].
    destruct (Hfr n Hn) as (? & ? & ?). by rewrite !lookup_delete_None; auto.
Qed.

(** *** Sorting *)
Lemma nbu_same_hdr a h h' l : nbu_same a h h' → h_lst h !! a = Some l →
  ∃ p, h_lst h' !! a = Some (set_iterator p l).
Proof.
  intros [->|(p & l' & Hl' & ->)] Hl.
  - exists (iterator l). by destruct l.
  - simplify_eq. exists p. cbn. by rewrite lookup_insert_eq.
Qed.

(** One more element in the list at [b], nothing else touched. *)
Record inserted (h h' : heap D) (b : loc) (ms ms' : list loc) (es : list (option D)) : Prop := {
  in_ok : heap_ok h';
  in_list : is_list h' b ms' es;
  in_nodes : ∀ x, x ∈ ms' → x ∈ h_fresh h :: ms;
  in_frame : agree_off (h_fresh h :: b :: ms) h h';
  in_avail : h_avail h = S (h_avail h');
  in_log : h_log h' = h_log h;
  in_fresh : (h_fresh h < h_fresh h')%positive;
  in_term : ∀ l, h_lst h !! b = Some l →
    ∃ l', h_lst h' !! b = Some l' ∧ data_terminator_func l' = data_terminator_func l;
}.

Lemma inserted_intro h h1 h' b ms1 ms2 es :
  nbu_same b h h1 → h_fresh h1 = h_fresh h → h_avail h1 = h_avail h → h_log h1 = h_log h →
  is_list h' b (ms1 ++ h_fresh h :: ms2) es → grown h1 h' b (ms1 ++ ms2) →
  inserted h h' b (ms1 ++ ms2) (ms1 ++ h_fresh h :: ms2) es.
Proof.
  intros Hs Hf Hav Hlg Hil Hg. split.
  - exact (gr_ok _ _ _ _ Hg).
  - done.
  - set_solver.
  - intros x Hx. destruct (gr_frame _ _ _ _ Hg x) as (-> & -> & -> & ->); [by rewrite Hf|].
    destruct Hs as [->|(p & l & Hl & ->)]; [done|]. apply with_iterator_agree. set_solver.
  - rewrite <- Hav. exact (gr_avail _ _ _ _ Hg).
  - rewrite <- Hlg. exact (gr_log _ _ _ _ Hg).
  - rewrite (gr_fresh _ _ _ _ Hg), Hf. lia.
  - intros l Hl. destruct (nbu_same_hdr _ _ _ _ Hs Hl) as (p & Hp).
    eexists. split; [by apply (gr_hdr _ _ _ _ Hg)|]. done.
Qed.

(** Inserting before the cursor. *)
Lemma insert_before_at h b pre n x post d :
  nbu_at b h pre ((n, x) :: post) → h_avail h ≠ O →
  ∃ h', nbu_list_insert_before (Ptr b) d h = Ret (NBU_SUCCESS, h') ∧
    is_list h' b (nodes_of pre ++ h_fresh h :: n :: nodes_of post)
      (datas_of pre ++ d :: x :: datas_of post) ∧
    grown h h' b (nodes_of pre ++ n :: nodes_of post).
Proof.
  intros (Hok & Hil & l & Hl & Hit) Hav. destruct Hit as [Hit|[Hnil _]]; [|by destruct pre].
  rewrite nodes_of_app, datas_of_app in Hil. simpl in Hit.
  destruct (snoc_view b (nodes_of pre)) as (P & p & E).
  unfold nbu_list_insert_before. erewrite cmd_bind_Ret; [|by apply load_list_ok]. rewrite Hit.
  apply (insert_at_spec h b (nodes_of pre) (n :: nodes_of post) (datas_of pre)
           (x :: datas_of post) P p n (nodes_of post ++ [b]) d false); try done.
  - unfold nodes_of, datas_of. by rewrite !length_fmap.
  - destruct (il_links _ _ _ _ Hil) as [(Hnil & _)|Hd]; [by destruct pre|].
    destruct (cons_view b (nodes_of pre ++ n :: nodes_of post)) as (q' & Q' & E').
    by destruct (dll_step h b [] _ [] b q' Q' Hd eq_refl E') as [-> _].
Qed.

(** The scan for the place of [d]. *)
Lemma sort_scan h b xs cmp d :
  heap_ok h → is_list h b (nodes_of xs) (datas_of xs) → h_avail h ≠ O →
  ∃ acc h', nbu_list_for_each_data (Ptr b)
      (λ data_sorted ins, if 0 <? cmp d data_sorted then mret (inl ins)
         else nbu_list_insert_before (Ptr b) d;; mret (inr true)) false h = Ret (acc, h') ∧
    if acc : bool then ∃ ms', inserted h h' b (nodes_of xs) ms' (ins cmp d (datas_of xs))
    else nbu_same b h h' ∧ Forall (λ x, 0 < cmp d x) (datas_of xs).
Proof.
  intros Hok Hil Hav. destruct (start_spec h b xs Hok Hil) as (h1 & E1 & Hat & Hs1).
  unfold nbu_list_for_each_data. run_with E1.
  run.
  apply (for_each_rule (nbu_cursor b)
    (λ data_sorted ins, if 0 <? cmp d data_sorted then mret (inl ins)
       else nbu_list_insert_before (Ptr b) d;; mret (inr true))
    (λ pre post acc s, acc = false ∧ nbu_same b h s ∧ pre ++ post = xs ∧
       Forall (λ x, 0 < cmp d x) (datas_of pre))
    (λ acc s, if acc : bool
              then ∃ ms', inserted h s b (nodes_of xs) ms' (ins cmp d (datas_of xs))
              else nbu_same b h s ∧ Forall (λ x, 0 < cmp d x) (datas_of xs)))
    with (post := xs) (pre := @nil (loc * option D)).
  - intros pre post acc s s' Hss (-> & Hs & Hx & Hp). split_and!; try done. by eapply nbu_same_trans.
  - intros pre acc s _ (-> & Hs & Hx & Hp). rewrite app_nil_r in Hx. by subst.
  - intros pre n x post acc s Hats (-> & Hs & Hx & Hp). subst xs.
    destruct (0 <? cmp d x) eqn:Ec; zbool.
    + eexists _, _. split; [reflexivity|]. exists (pre ++ [(n, x)]).
      split; [by apply (nbu_visit_law b s pre (n, x) post)|].
      rewrite <- app_assoc, datas_of_app. split_and!; try done. apply Forall_app_2; [done|].
      by repeat constructor.
    + destruct (nbu_same_spec b h s _ _ Hs Hok Hil) as (_ & _ & _ & _ & _ & Hf & Ha & Hl).
      destruct (insert_before_at s b pre n x post d Hats) as (s' & E & Hil' & Hg); [congruence|].
      eexists _, _. split; [by run_with E|].
      rewrite nodes_of_app, datas_of_app in *. rewrite Hf in Hil'.
      exists (nodes_of pre ++ h_fresh h :: n :: nodes_of post).
      apply (inserted_intro h s); try done. rewrite ins_prefix by done. simpl.
      by rewrite (proj2 (Z.ltb_ge _ _)) by lia.
  - destruct Hat as (_ & Hil1 & _). apply cells_enough in Hil1.
    unfold nodes_of in Hil1. by rewrite length_fmap in Hil1.
  - done.
  - by split_and!.
Qed.

Lemma sort_insert_spec h b ms es cmp d :
  heap_ok h → is_list h b ms es → h_avail h ≠ O →
  ∃ h' ms', sort_insert (Ptr b) cmp d h = Ret (tt, h') ∧ inserted h h' b ms ms' (ins cmp d es).
Proof.
  intros Hok Hil Hav. destruct (zip_view _ _ _ _ Hil) as (xs & -> & ->). unfold sort_insert.
  destruct (sort_scan h b xs cmp d Hok Hil Hav) as (acc & h1 & E & HQ).
  run_with E. destruct acc; cbn [negb].
  - destruct HQ as (ms' & HQ). by exists h1, ms'.
  - destruct HQ as [Hs Hall].
    destruct (nbu_same_spec b h h1 _ _ Hs Hok Hil) as (Hok1 & Hil1 & _ & _ & _ & Hf & Ha & Hl).
    destruct (insert_end_spec h1 b _ _ d Hok1 Hil1) as (h2 & E2 & Hil2 & Hg); [congruence|].
    exists h2, (nodes_of xs ++ [h_fresh h]). split; [by run_with E2|].
    rewrite <- (app_nil_r (datas_of xs)), ins_prefix by done. simpl.
    pose proof (inserted_intro h h1 h2 b (nodes_of xs) [] (datas_of xs ++ [d])) as Hx.
    rewrite app_nil_r in Hx. apply Hx; try done. by rewrite <- Hf.
Qed.

(** Changing a header field other than the count. *)
Definition with_hdr (h : heap D) (a : loc) (l : nbu_list_t) : heap D :=
  Heap (h_next h) (h_prev h) (h_data h) (<[a := l]> (h_lst h)) (h_fresh h) (h_avail h) (h_log h).

Lemma with_hdr_ok h a l l' ns ds :
  heap_ok h → is_list h a ns ds → h_lst h !! a = Some l → count l' = count l →
  heap_ok (with_hdr h a l') ∧ is_list (with_hdr h a l') a ns ds ∧ agree_off [a] h (with_hdr h a l').
Proof.
  intros Hok [Hnd Hlk Hdt Hrt Hno (l0 & Hl0 & Hc)] Hl Hcnt.
  pose proof (proj1 (NoDup_cons _ _) Hnd) as [Ha _]. split_and!.
  - intros x Hx. cbn in *. destruct (Hok x Hx) as (? & ? & ? & ?).
    rewrite lookup_insert_ne by congruence. done.
  - split; [done|done|done|done| |].
    + apply Forall_forall. intros x Hx. cbn. rewrite lookup_insert_ne by set_solver.
      by eapply Forall_forall in Hno.
    + cbn. eexists. rewrite lookup_insert_eq. split; [done|]. congruence.
  - intros x Hx. cbn. rewrite lookup_insert_ne by set_solver. done.
Qed.

Lemma nbu_behind_frame X h h' a pre post :
  agree_off X h h' → (∀ x, x ∈ a :: nodes_of (pre ++ post) → x ∉ X) → heap_ok h' →
  nbu_behind a h pre post → nbu_behind a h' pre post.
Proof.
  intros Hag Hdis Hok' (Hok & Hil & Hd & l & P & p & Hl & E & Hit).
  pose proof (is_list_frame _ _ _ _ _ _ Hag Hdis Hil) as Hil'.
  destruct (Hag a ltac:(apply Hdis; set_solver)) as (En & _ & _ & El).
  split_and!; [done|done| |exists l, P, p; by rewrite El].
  destruct (il_links _ _ _ _ Hil') as [(_ & Hx & _)|]; [|done].
  destruct (cons_view a (nodes_of (pre ++ post))) as (q' & Q' & E').
  destruct (dll_step h a [] _ [] a q' Q' Hd eq_refl E') as [Hy _]. congruence.
Qed.

(** The invariant of the outer loop of [nbu_list_sort]: [pre] has been inserted
    in the new list at [b], whose cells are all younger than [fr]. *)
Record sorting (h : heap D) (fr b a : loc) (cmp : option D → option D → Z)
    (xs pre post : list (loc * option D)) (s : heap D) : Prop := {
  so_split : pre ++ post = xs;
  so_list : ∃ ms, is_list s b ms (foldl (λ acc d, ins cmp d acc) [] (datas_of pre)) ∧
                  ∀ x, x ∈ b :: ms → (fr <= x)%positive;
  so_fresh : (fr <= h_fresh s)%positive;
  so_avail : (length post <= h_avail s)%nat;
  so_log : h_log s = h_log h;
  so_term_b : ∃ l, h_lst s !! b = Some l ∧ data_terminator_func l = Some VoidTerminator;
  so_term_a : ∃ l, h_lst s !! a = Some l ∧ data_terminator_func l = Some VoidTerminator;
  so_frame : ∀ x, (x < fr)%positive → x ≠ a →
    h_next s !! x = h_next h !! x ∧ h_prev s !! x = h_prev h !! x ∧
    h_data s !! x = h_data h !! x ∧ h_lst s !! x = h_lst h !! x;
}.

Lemma sorting_same h fr b a cmp xs pre post s s' :
  (a < fr)%positive → nbu_same a s s' →
  sorting h fr b a cmp xs pre post s → sorting h fr b a cmp xs pre post s'.
Proof.
  intros Ha Hs [H1 (ms & Hil & Hms) H3 H4 H5 (lb & Hlb & Htb) (la & Hla & Hta) H8].
  destruct (nbu_same_hdr _ _ _ _ Hs Hla) as (p & Hp).
  assert (agree_off [a] s s') as Hag.
  { destruct Hs as [->|(q & l & Hl & ->)]; [apply agree_off_refl|apply with_iterator_agree]. }
  assert (h_fresh s' = h_fresh s ∧ h_avail s' = h_avail s ∧ h_log s' = h_log s) as (Ef & Ea & El)
    by (by destruct Hs as [->|(q & l & Hl & ->)]).
  assert (b ≠ a) as Hba by (specialize (Hms b ltac:(set_solver)); intros ->; lia).
  split; rewrite ?Ef, ?Ea, ?El; try done.
  - exists ms. split; [|done]. eapply is_list_frame; [exact Hag| |done].
    intros x Hx Hxa. apply list_elem_of_singleton in Hxa as ->. specialize (Hms a Hx). lia.
  - exists lb. by destruct (Hag b ltac:(set_solver)) as (_ & _ & _ & ->).
  - by eexists.
  - intros x Hx Hxa. destruct (Hag x ltac:(set_solver)) as (-> & -> & -> & ->). by apply H8.
Qed.

Lemma sorting_step h fr b a cmp xs pre n x post s :
  (∀ y, y ∈ a :: nodes_of xs → (y < fr)%positive) →
  nbu_at a s pre ((n, x) :: post) → sorting h fr b a cmp xs pre ((n, x) :: post) s →
  ∃ s', (sort_insert (Ptr b) cmp x;; mret (inl tt)) s = Ret (@inl unit unit tt, s') ∧
        nbu_behind a s' (pre ++ [(n, x)]) post ∧ sorting h fr b a cmp xs (pre ++ [(n, x)]) post s'.
Proof.
  intros Hold Hat [H1 (ms & Hil & Hms) H3 H4 H5 (lb & Hlb & Htb) (la & Hla & Hta) H8].
  simpl in H4. pose proof Hat as (Hok & _).
  destruct (sort_insert_spec s b ms _ cmp x Hok Hil ltac:(lia)) as (s' & ms' & E & Hin).
  assert (∀ y, (y < fr)%positive → y ∉ h_fresh s :: b :: ms) as Hdis.
  { intros y Hy Hx. apply elem_of_cons in Hx as [->|Hx]; [lia|]. specialize (Hms y Hx). lia. }
  exists s'. split_and!; [by run_with E| |].
  - eapply nbu_behind_frame; [exact (in_frame _ _ _ _ _ _ Hin)| |exact (in_ok _ _ _ _ _ _ Hin)|].
    + intros y Hy. apply Hdis, Hold. by rewrite <- H1, <- (app_assoc pre) in *.
    + exact (nbu_visit_law a s pre (n, x) post Hat).
  - split.
    + by rewrite <- app_assoc.
    + exists ms'. rewrite datas_of_app, foldl_app. split; [exact (in_list _ _ _ _ _ _ Hin)|].
      intros y Hy. apply elem_of_cons in Hy as [->|Hy]; [apply Hms; set_solver|].
      apply (in_nodes _ _ _ _ _ _ Hin) in Hy. apply elem_of_cons in Hy as [->|Hy]; [done|].
      apply Hms. set_solver.
    + pose proof (in_fresh _ _ _ _ _ _ Hin). lia.
    + pose proof (in_avail _ _ _ _ _ _ Hin). lia.
    + by rewrite (in_log _ _ _ _ _ _ Hin).
    + destruct (in_term _ _ _ _ _ _ Hin lb Hlb) as (l' & ? & ?). exists l'. split; congruence.
    + exists la. destruct (in_frame _ _ _ _ _ _ Hin a) as (_ & _ & _ & ->); [|done].
      apply Hdis, Hold. set_solver.
    + intros y Hy Hya. destruct (in_frame _ _ _ _ _ _ Hin y (Hdis y Hy)) as (-> & -> & -> & ->).
      by apply H8.
Qed.

(** The heap in which the loop of [nbu_list_sort] starts. *)
Definition sort_start (h : heap D) (a : loc) (l : nbu_list_t) (k : nat) : heap D :=
  let b := h_fresh h in
  Heap (<[b := Null]> (h_next h)) (<[b := Null]> (h_prev h)) (<[b := None]> (h_data h))
    (<[b := Lst 0 (data_size l) (Some VoidTerminator) Null]>
       (<[a := set_terminator (Some VoidTerminator) l]> (h_lst h)))
    (Pos.succ b) k (h_log h).

Lemma sort_start_ok h a ns ds l k :
  heap_ok h → is_list h a ns ds → h_lst h !! a = Some l →
  heap_ok (sort_start h a l k) ∧ is_list (sort_start h a l k) a ns ds ∧
  is_list (sort_start h a l k) (h_fresh h) [] [] ∧
  agree_off [h_fresh h; a] h (sort_start h a l k).
Proof.
  intros Hok Hil Hl. set (l' := set_terminator (Some VoidTerminator) l).
  destruct (with_hdr_ok h a l l' ns ds Hok Hil Hl eq_refl) as (Hok1 & Hil1 & Hag1).
  pose proof (is_list_alloc _ _ _ _ Hok Hil) as Hal.
  assert (agree_off [h_fresh h] (with_hdr h a l') (sort_start h a l k)) as Hag2.
  { intros x Hx. cbn. rewrite !(lookup_insert_ne _ (h_fresh h)) by set_solver. done. }
  split_and!.
  - intros x Hx. cbn in Hx. destruct (Hok1 x ltac:(cbn; lia)) as (E1 & E2 & E3 & E4).
    destruct (Hag2 x) as (-> & -> & -> & ->); [|done].
    intros Hxf. apply list_elem_of_singleton in Hxf. subst. lia.
  - eapply is_list_frame; [exact Hag2| |exact Hil1]. intros x Hx Hxf.
    apply list_elem_of_singleton in Hxf as ->. specialize (Hal _ Hx). lia.
  - split; cbn.
    + by apply NoDup_singleton.
    + left. cbn. by rewrite !lookup_insert_eq.
    + constructor.
    + by rewrite lookup_insert_eq.
    + constructor.
    + eexists. rewrite lookup_insert_eq. done.
  - intros x Hx. destruct (Hag2 x ltac:(set_solver)) as (-> & -> & -> & ->). apply Hag1. set_solver.
Qed.

Lemma sort_loop h a xs l k cmp :
  heap_ok h → is_list h a (nodes_of xs) (datas_of xs) → h_lst h !! a = Some l →
  (length xs <= k)%nat →
  ∃ s, nbu_list_for_each_data (Ptr a)
         (λ data _, sort_insert (Ptr (h_fresh h)) cmp data;; mret (inl tt)) tt (sort_start h a l k)
       = Ret (tt, s) ∧ heap_ok s ∧ is_list s a (nodes_of xs) (datas_of xs) ∧
       sorting h (h_fresh h) (h_fresh h) a cmp xs xs [] s.
Proof.
  intros Hok Hil Hl Hk. set (b := h_fresh h).
  pose proof (is_list_alloc _ _ _ _ Hok Hil) as Hal.
  destruct (sort_start_ok h a _ _ l k Hok Hil Hl) as (Hok0 & Hila & Hilb & Hag).
  destruct (start_spec _ a xs Hok0 Hila) as (h1 & E1 & Hat & Hs1).
  unfold nbu_list_for_each_data. run_with E1.
  run.
  destruct (for_each_rule (nbu_cursor a)
    (λ data (_ : unit), sort_insert (Ptr b) cmp data;; mret (inl tt))
    (λ pre post (_ : unit) s, sorting h b b a cmp xs pre post s)
    (λ (_ : unit) s, heap_ok s ∧ is_list s a (nodes_of xs) (datas_of xs) ∧
                     sorting h b b a cmp xs xs [] s))
    with (post := xs) (pre := @nil (loc * option D)) (acc := tt) (s := h1)
      (fuel := S (size (h_next h1))) as ([] & s & E2 & HQ).
  - intros pre post acc s s' Hss. apply sorting_same; [|done]. apply Hal. set_solver.
  - intros pre acc s (Hoks & Hils & _) Hso. pose proof (so_split _ _ _ _ _ _ _ _ _ Hso) as Hx.
    rewrite app_nil_r in *. by subst.
  - intros pre n x post acc s Hats Hso.
    destruct (sorting_step h b b a cmp xs pre n x post s Hal Hats Hso) as (s' & E & Hb & Hso').
    exists (inl tt), s'. split; [exact E|]. by exists (pre ++ [(n, x)]).
  - destruct Hat as (_ & Hil1 & _). apply cells_enough in Hil1.
    unfold nodes_of in Hil1. by rewrite length_fmap in Hil1.
  - done.
  - eapply sorting_same; [apply Hal; set_solver|exact Hs1|]. split; try done.
    + exists []. split; [done|]. intros x Hx. apply list_elem_of_singleton in Hx as ->. lia.
    + cbn. unfold b. lia.
    + cbn. eexists. by rewrite lookup_insert_eq.
    + cbn. eexists. rewrite lookup_insert_ne, lookup_insert_eq; [done|].
      specialize (Hal a ltac:(set_solver)). unfold b. lia.
    + intros x Hx Hxa. apply Hag. rewrite !not_elem_of_cons. split_and!; [|done|set_solver].
      unfold b in Hx. lia.
  - exists s. by split; [exact E2|].
Qed.

(** Everything [nbu_list_sort] does. *)
Lemma sort_spec h a ns ds l cmp :
  heap_ok h → is_list h a ns ds → h_lst h !! a = Some l → (length ds < h_avail h)%nat →
  ∃ b ms h' l', nbu_list_sort (Ptr a) cmp h = Ret ((NBU_SUCCESS, Ptr b), h') ∧ heap_ok h' ∧
    is_list h' b ms (isort cmp ds) ∧
    h_lst h' !! b = Some l' ∧ data_terminator_func l' = Some VoidTerminator ∧
    h_log h' = h_log h ++ (EvTerm VoidTerminator <$> ds) ∧
    (∀ x, x ∈ a :: ns → h_next h' !! x = None ∧ h_prev h' !! x = None ∧ h_data h' !! x = None).
Proof.
  intros Hok Hil Hl Hav. destruct (zip_view _ _ _ _ Hil) as (xs & -> & ->).
  destruct (h_avail h) as [|k] eqn:Ek; [lia|]. unfold datas_of in Hav. rewrite length_fmap in Hav.
  destruct (sort_loop h a xs l k cmp Hok Hil Hl ltac:(lia)) as (s & E & Hoks & Hils & Hso).
  destruct (destroy_spec s a _ _ Hoks Hils) as (h' & la & Hla & Ed & Hok' & Hlog & Hag & _ & Hfr).
  destruct Hso as [_ (ms & Hilb & Hms) _ _ Hlg (lb & Hlb & Htb) (la' & Hla' & Hta) _].
  assert (la' = la) as -> by congruence.
  assert (∀ x, x ∈ h_fresh h :: ms → x ∉ a :: nodes_of xs) as Hdis.
  { intros x Hx Hx'. pose proof (is_list_alloc _ _ _ _ Hok Hil x Hx'). specialize (Hms x Hx). lia. }
  exists (h_fresh h), ms, h', lb. split_and!; try done.
  - destruct h as [nx pv dt lst fr av lg]. cbn in *. subst av. unfold nbu_list_sort.
    assert (a ≠ fr) by (intros ->; apply (Hdis fr); set_solver).
    cstep. cstep. cstep.
    erewrite cmd_bind_Ret; [|unfold nbu_list_new; cstep; cstep; reflexivity].
    cstep. cstep. rewrite !insert_insert_eq.
    run_with E. by run_with Ed.
  - eapply is_list_frame; [exact Hag|exact Hdis|done].
  - destruct (Hag (h_fresh h)) as (_ & _ & _ & ->); [apply Hdis; set_solver|done].
  - rewrite Hlog, Hlg. f_equal. apply list_fmap_ext. intros ???. unfold disposal. by rewrite Hta.
Qed.

(** C39: [nbu_list_sort] succeeds when memory suffices, frees the old list's
    cells, and returns a list with the same data in the comparison's order. *)
Theorem nbu_list_sort_sorts h a ns ds cmp :
  heap_ok h → is_list h a ns ds → (length ds < h_avail h)%nat →
  (∀ x y, 0 < cmp x y → cmp y x <= 0) →
  ∃ b ms es h', nbu_list_sort (Ptr a) cmp h = Ret ((NBU_SUCCESS, Ptr b), h') ∧
    is_list h' b ms es ∧ es ≡ₚ ds ∧ Sorted (leq cmp) es ∧
    (∀ x, x ∈ a :: ns → h_data h' !! x = None).
Proof.
  intros Hok Hil Hav Htot. destruct (il_hdr _ _ _ _ Hil) as (l & Hl & _).
  destruct (sort_spec h a ns ds l cmp Hok Hil Hl Hav) as (b & ms & h' & l' & E & _ & Hil' & _ & _ & _ & Hfr).
  exists b, ms, (isort cmp ds), h'. split_and!; try done.
  - apply isort_perm.
  - by apply isort_sorted.
  - intros x Hx. by apply Hfr.
Qed.

(** [nbu_list_sort] loses the list's terminator: whatever the terminator was,
    the sorted list has the empty one, so destroying it runs the empty function
    on every datum where the original list would have freed it. *)
Theorem nbu_list_sort_drops_terminator h a ns ds l cmp :
  heap_ok h → is_list h a ns ds → h_lst h !! a = Some l → (length ds < h_avail h)%nat →
  ∃ b h1 h2 h3, nbu_list_sort (Ptr a) cmp h = Ret ((NBU_SUCCESS, Ptr b), h1) ∧
    nbu_list_destroy (Ptr b) h1 = Ret (tt, h2) ∧
    h_log h2 = h_log h ++ (EvTerm VoidTerminator <$> ds)
                 ++ (EvTerm VoidTerminator <$> isort cmp ds) ∧
    nbu_list_destroy (Ptr a) h = Ret (tt, h3) ∧ h_log h3 = h_log h ++ (disposal l <$> ds).
Proof.
  intros Hok Hil Hl Hav.
  destruct (sort_spec h a ns ds l cmp Hok Hil Hl Hav)
    as (b & ms & h1 & l' & E & Hok1 & Hil1 & Hl1 & Ht & Hlg1 & _).
  destruct (destroy_spec h1 b ms _ Hok1 Hil1) as (h2 & l2 & Hl2 & E2 & _ & Hlg2 & _).
  destruct (destroy_spec h a ns ds Hok Hil) as (h3 & l3 & Hl3 & E3 & _ & Hlg3 & _).
  assert (l2 = l') as -> by congruence. assert (l3 = l) as -> by congruence.
  exists b, h1, h2, h3. split_and!; try done.
  rewrite Hlg2, Hlg1, <- app_assoc. do 2 f_equal. apply list_fmap_ext. intros ???.
  unfold disposal. by rewrite Ht.
Qed.

(** [nbu_list_destroy] returns, hands every datum exactly once to the
    terminator or to [free] in list order, frees every cell of the list and leaves
    all other cells as they were. *)
Theorem nbu_list_destroy_complete h a ns ds :
  heap_ok h → is_list h a ns ds →
  ∃ h' l, h_lst h !! a = Some l ∧ nbu_list_destroy (Ptr a) h = Ret (tt, h') ∧
    h_log h' = h_log h ++ (disposal l <$> ds) ∧ agree_off (a :: ns) h h' ∧
    h_lst h' !! a = None ∧
    (∀ n, n ∈ a :: ns → h_next h' !! n = None ∧ h_prev h' !! n = None ∧ h_data h' !! n = None).
Proof.
  intros Hok Hil. destruct (destroy_spec h a ns ds Hok Hil) as (h' & l & ? & ? & _ & ? & ? & ? & ?).
  by exists h', l.
Qed.

(** Deleting at the cursor in a loop: the cursor falls back on the element before,
    or on the root, so that the next advance reaches the following element. *)
Lemma delete_backward_at h a pre n x post l :
  nbu_at a h pre ((n, x) :: post) → h_lst h !! a = Some l →
  ∃ h' l', nbu_list_delete_backward (Ptr a) h = Ret (tt, h') ∧ nbu_behind a h' pre post ∧
    h_log h' = h_log h ++ [disposal l x] ∧ h_avail h' = h_avail h ∧
    h_lst h' !! a = Some l' ∧ data_terminator_func l' = data_terminator_func l.
Proof.
  intros (Hok & Hil & l0 & Hl0 & Hit) Hl. assert (l0 = l) as -> by congruence.
  destruct Hit as [Hit|[Hnil _]]; [|by destruct pre]. simpl in Hit.
  rewrite nodes_of_app, datas_of_app in Hil. simpl in Hil.
  destruct (snoc_view a (nodes_of pre)) as (P & p & E).
  destruct (il_links _ _ _ _ Hil) as [(Hnil & _)|Hd]; [by destruct pre|].
  destruct (dll_step h a (nodes_of pre) (n :: nodes_of post) P p n (nodes_of post ++ [a]) Hd E eq_refl)
    as [_ Hp].
  destruct (destroy_node_spec h a (nodes_of pre) n (nodes_of post) (datas_of pre) x (datas_of post))
    as (h1 & l1 & Hl1 & E1 & Hil1 & Hd1 & Hh1 & Hs);
    [done|done|unfold nodes_of, datas_of; by rewrite !length_fmap|].
  assert (l1 = l) as -> by congruence. set (l2 := set_count (u32 (count l - 1)) l) in *.
  exists (with_iterator h1 a (Ptr p) l2), (set_iterator (Ptr p) l2). split_and!.
  - unfold nbu_list_delete_backward. cstep. cstep. rewrite Hit. cbn [not_null]. cstep. cstep.
    run_with E1. by apply mod_list_ok.
  - unfold nbu_behind. rewrite nodes_of_app, datas_of_app. split_and!.
    + apply with_iterator_heap_ok; [done|exact (sh_ok _ _ _ _ _ _ Hs)].
    + by apply with_iterator_is_list.
    + done.
    + exists (set_iterator (Ptr p) l2), P, p. cbn. by rewrite lookup_insert_eq.
  - cbn. by apply (sh_log _ _ _ _ _ _ Hs).
  - cbn. exact (sh_avail _ _ _ _ _ _ Hs).
  - cbn. by rewrite lookup_insert_eq.
  - done.
Qed.

End specs.

(** *** A concrete list, on which the theorems are instantiated *)
Definition sample : heap Z :=
  Heap (<[1 := Ptr 2]> (<[2 := Ptr 3]> (<[3 := Ptr 4]> (<[4 := Ptr 1]> ∅))))%positive
       (<[1 := Ptr 4]> (<[2 := Ptr 1]> (<[3 := Ptr 2]> (<[4 := Ptr 3]> ∅))))%positive
       (<[1 := None]> (<[2 := Some 30%Z]> (<[3 := Some 10%Z]> (<[4 := Some 20%Z]> ∅))))%positive
       (<[1%positive := Lst 3 4 None Null]> ∅) 5%positive 9 [].

(** The comparison of two integers behind [void *]. *)
Definition cmp_int (x y : option Z) : Z :=
  match x, y with Some x, Some y => x - y | _, _ => 0 end.

Lemma sample_ok : heap_ok sample.
Proof. intros x Hx. cbn in *. by rewrite !lookup_insert_ne by lia. Qed.

Lemma sample_list : is_list sample 1%positive [2; 3; 4]%positive [Some 30; Some 10; Some 20].
Proof.
  split.
  - apply (bool_decide_unpack _). by vm_compute.
  - right. split; [apply (bool_decide_unpack _); by vm_compute|]. cbn. unfold linked. by repeat split.
  - by repeat constructor.
  - done.
  - by repeat constructor.
  - eexists. by split.
Qed.

Lemma nbu_list_get_at_index_spec_witness :
  ∃ h', nbu_list_get_at_index (Ptr 1) 1 sample = Ret (Some 10, h') ∧ nbu_same 1 sample h'.
Proof.
  apply (nbu_list_get_at_index_spec sample 1 [2; 3; 4]%positive [Some 30; Some 10; Some 20] 1);
    [apply sample_ok|apply sample_list|reflexivity|lia].
Defined.

Lemma nbu_list_contain_spec_witness :
  nbu_list_contain (Ptr 1) (Some 20) cmp_int sample = Ret (NBU_SUCCESS, sample).
Proof.
  exact (nbu_list_contain_spec sample 1 [2; 3; 4]%positive [Some 30; Some 10; Some 20]
           (Some 20) cmp_int sample_list).
Defined.

Lemma nbu_list_sort_sorts_witness :
  ∃ b ms es h', nbu_list_sort (Ptr 1) cmp_int sample = Ret ((NBU_SUCCESS, Ptr b), h') ∧
    is_list h' b ms es ∧ es ≡ₚ [Some 30; Some 10; Some 20] ∧ Sorted (leq cmp_int) es ∧
    (∀ x, x ∈ [1; 2; 3; 4]%positive → h_data h' !! x = None).
Proof.
  apply (nbu_list_sort_sorts sample 1 [2; 3; 4]%positive); [apply sample_ok|apply sample_list| |].
  - cbn. lia.
  - intros [x|] [y|]; cbn; lia.
Defined.

Lemma nbu_list_sort_drops_terminator_witness :
  ∃ b h1 h2 h3, nbu_list_sort (Ptr 1) cmp_int sample = Ret ((NBU_SUCCESS, Ptr b), h1) ∧
    nbu_list_destroy (Ptr b) h1 = Ret (tt, h2) ∧
    h_log h2 = EvTerm VoidTerminator <$> [Some 30; Some 10; Some 20; Some 10; Some 20; Some 30] ∧
    nbu_list_destroy (Ptr 1) sample = Ret (tt, h3) ∧
    h_log h3 = EvFree <$> [Some 30; Some 10; Some 20].
Proof.
  apply (nbu_list_sort_drops_terminator sample 1 [2; 3; 4]%positive [Some 30; Some 10; Some 20]
           (Lst 3 4 None Null) cmp_int);
    [apply sample_ok|apply sample_list|reflexivity|cbn; lia].
Defined.

Lemma nbu_list_destroy_complete_witness :
  ∃ h' l, h_lst sample !! 1%positive = Some l ∧ nbu_list_destroy (Ptr 1) sample = Ret (tt, h') ∧
    h_log h' = [] ++ (disposal l <$> [Some 30; Some 10; Some 20]) ∧
    agree_off [1; 2; 3; 4]%positive sample h' ∧ h_lst h' !! 1%positive = None ∧
    (∀ n, n ∈ [1; 2; 3; 4]%positive →
       h_next h' !! n = None ∧ h_prev h' !! n = None ∧ h_data h' !! n = None).
Proof.
  exact (nbu_list_destroy_complete sample 1 [2; 3; 4]%positive _ sample_ok sample_list).
Defined.
