(* ===== verification/CString.v ===== *)
(** The parts of the C library the code uses on strings and numbers.

    A [char *] is an [option (list Z)]: [None] is NULL, [Some m] the bytes from the
    pointer to the end of its object.  Reading past [m] is undefined.  The text
    of [m] is what stands before its first 0 ([str_of]).  [memcmp] compares byte by
    byte and stops at the first difference, as the boxes' uClibc does. *)

From stdpp Require Import base tactics list.
From S2P Require Import Prelude.

Abbreviation bytes := (list Z).

(** ** Memory *)
Definition rd (m : bytes) (i : Z) : outcome Z :=
  if i <? 0 then Undef else must (m !! Z.to_nat i).

Definition wr (m : bytes) (i v : Z) : outcome bytes :=
  if (0 <=? i) && (i <? Z.of_nat (length m)) then Ret (<[Z.to_nat i := v]> m) else Undef.

(** The bytes [m] with [t] written from the start. *)
Definition overwrite (m t : bytes) : outcome bytes :=
  if (length t <=? length m)%nat then Ret (t ++ drop (length t) m) else Undef.

(** [p + n]. *)
Definition padd (m : bytes) (n : nat) : outcome bytes :=
  if (n <=? length m)%nat then Ret (drop n m) else Undef.

(** [memcpy] from and to an object at an offset; NULL is allowed for 0 bytes. *)
Definition mem_read (m : option bytes) (off n : Z) : outcome bytes :=
  if n =? 0 then Ret []
  else match m with
       | None => Undef
       | Some b =>
           if off + n <=? Z.of_nat (length b)
           then Ret (take (Z.to_nat n) (drop (Z.to_nat off) b)) else Undef
       end.

Definition mem_write (m : option bytes) (off : Z) (s : bytes) : outcome (option bytes) :=
  if (length s =? 0)%nat then Ret m
  else match m with
       | None => Undef
       | Some b =>
           if off + Z.of_nat (length s) <=? Z.of_nat (length b)
           then Ret (Some (take (Z.to_nat off) b ++ s ++ drop (Z.to_nat off + length s) b))
           else Undef
       end.

(** ** string.h *)
Fixpoint str_of (m : bytes) : option bytes :=
  match m with
  | [] => None
  | c :: m' => if c =? 0 then Some [] else (c ::.) <$> str_of m'
  end.

Definition c_str (m : bytes) : outcome bytes := must (str_of m).
Definition strlen (m : bytes) : outcome Z := (λ s, Z.of_nat (length s)) <$> c_str m.

(** A literal, or a string the caller owns, as an object. *)
Definition cstr (s : bytes) : bytes := s ++ [0].

(** The first difference of at most [n] bytes, stopping at a 0 of the first. *)
Fixpoint strncmp (a b : bytes) (n : nat) : outcome Z :=
  match n with
  | O => Ret 0
  | S n' =>
      match a, b with
      | x :: a', y :: b' =>
          if x =? y then (if x =? 0 then Ret 0 else strncmp a' b' n') else Ret (x - y)
      | _, _ => Undef
      end
  end.

Fixpoint memcmp (a b : bytes) (n : nat) : outcome Z :=
  match n with
  | O => Ret 0
  | S n' =>
      match a, b with
      | x :: a', y :: b' => if x =? y then memcmp a' b' n' else Ret (x - y)
      | _, _ => Undef
      end
  end.

(** At most [n] bytes of text, or less when a 0 comes first. *)
Fixpoint take_text (m : bytes) (n : nat) : outcome bytes :=
  match n with
  | O => Ret []
  | S n' =>
      match m with
      | [] => Undef
      | c :: m' => if c =? 0 then Ret [] else (c ::.) <$> take_text m' n'
      end
  end.

Definition strnlen (m : bytes) (n : nat) : outcome Z := (λ s, Z.of_nat (length s)) <$> take_text m n.

(** [strncpy(dst, src, n)]: exactly [n] bytes are written, padded with 0. *)
Definition strncpy (dst src : bytes) (n : nat) : outcome bytes :=
  t ← take_text src n;
  overwrite dst (t ++ replicate (n - length t) 0).

Fixpoint prefixb (p s : bytes) : bool :=
  match p, s with
  | [], _ => true
  | x :: p', y :: s' => (x =? y) && prefixb p' s'
  | _ :: _, [] => false
  end.

(** [strstr] on texts: how far the first occurrence is. *)
Fixpoint strstr (s sep : bytes) : option nat :=
  if prefixb sep s then Some O
  else match s with
       | [] => None
       | _ :: s' => S <$> strstr s' sep
       end.

(** [strchr] on texts. *)
Fixpoint strchr (s : bytes) (c : Z) : option nat :=
  match s with
  | [] => None
  | x :: s' => if x =? c then Some O else S <$> strchr s' c
  end.

(** [strspn] on texts. *)
Fixpoint strspn (s accept : bytes) : nat :=
  match s with
  | [] => O
  | x :: s' => if existsb (Z.eqb x) accept then S (strspn s' accept) else O
  end.

(** ** ctype.h and stdlib.h *)
Definition isspace (c : Z) : bool := (c =? 32) || ((9 <=? c) && (c <=? 13)).
Definition isdigit (c : Z) : bool := (48 <=? c) && (c <=? 57).
Definition isxdigit (c : Z) : bool :=
  isdigit c || ((65 <=? c) && (c <=? 70)) || ((97 <=? c) && (c <=? 102)).
Definition isupper (c : Z) : bool := (65 <=? c) && (c <=? 90).
Definition islower (c : Z) : bool := (97 <=? c) && (c <=? 122).
Definition isalpha (c : Z) : bool := isupper c || islower c.
Definition isalnum (c : Z) : bool := isalpha c || isdigit c.

(** The value of a digit in base 10 or 16. *)
Definition digit_val (base c : Z) : option Z :=
  if isdigit c then Some (c - 48)
  else if negb (base =? 16) then None
  else if (65 <=? c) && (c <=? 70) then Some (c - 55)
  else if (97 <=? c) && (c <=? 102) then Some (c - 87)
  else None.

(** The longest run of digits: value and length. *)
Fixpoint digits (base : Z) (s : bytes) (acc : Z) (n : nat) : Z * nat :=
  match s with
  | c :: s' =>
      match digit_val base c with
      | Some d => digits base s' (acc * base + d) (S n)
      | None => (acc, n)
      end
  | [] => (acc, n)
  end.

Fixpoint skip_spaces (s : bytes) : bytes :=
  match s with
  | c :: s' => if isspace c then skip_spaces s' else s
  | [] => []
  end.

Definition take_sign (s : bytes) : bool * bytes :=
  match s with
  | c :: s' => if c =? 45 then (true, s') else if c =? 43 then (false, s') else (false, s)
  | [] => (false, [])
  end.

(** [0x] is skipped in base 16 when a hexadecimal digit follows. *)
Definition skip_0x (base : Z) (s : bytes) : bytes :=
  match s with
  | z :: x :: d :: s' =>
      if (base =? 16) && (z =? 48) && ((x =? 120) || (x =? 88)) && isxdigit d
      then d :: s' else s
  | _ => s
  end.

Record strtol_result := Strtol {
  st_val : Z;
  st_end : bytes;        (* what [*endptr] points to *)
  st_some : bool;        (* a digit was converted: endptr moved *)
  st_erange : bool;      (* errno = ERANGE *)
}.

Definition strtol (s : bytes) (base : Z) : strtol_result :=
  let s1 := skip_spaces s in
  let '(neg, s2) := take_sign s1 in
  let s3 := skip_0x base s2 in
  let '(v, n) := digits base s3 0 0 in
  if (n =? 0)%nat then Strtol 0 s false false
  else
    let z := if neg then - v else v in
    if z <? LONG_MIN then Strtol LONG_MIN (drop n s3) true true
    else if LONG_MAX <? z then Strtol LONG_MAX (drop n s3) true true
    else Strtol z (drop n s3) true false.

(** ** search.h *)

(** [hsearch_r]: the first entry of a key. *)
Fixpoint hsearch {A} (entries : list (bytes * A)) (key : bytes) : option A :=
  match entries with
  | [] => None
  | (k, m) :: entries => if bytes_eqb k key then Some m else hsearch entries key
  end.

(** ** stdio.h *)

(** Decimal and hexadecimal digits. *)
Fixpoint digits_of (fuel : nat) (base z : Z) (upper : bool) (acc : bytes) : bytes :=
  match fuel with
  | O => acc
  | S f =>
      let d := z mod base in
      let c := if d <? 10 then 48 + d else if upper then 55 + d else 87 + d in
      let acc' := c :: acc in
      if z <? base then acc' else digits_of f base (z / base) upper acc'
  end.

(** [%u], [%d], [%x], [%X] of a value of at most 64 bits. *)
Definition fmt_u (z : Z) : bytes := digits_of 20 10 z false [].
Definition fmt_d (z : Z) : bytes := if z <? 0 then 45 :: fmt_u (- z) else fmt_u z.
Definition fmt_x (z : Z) : bytes := digits_of 16 16 z false [].
Definition fmt_X (z : Z) : bytes := digits_of 16 16 z true [].

(** [%0Nx]: zeros up to a minimum width. *)
Definition pad0 (w : nat) (s : bytes) : bytes := replicate (w - length s) 48 ++ s.
Definition fmt_02x (z : Z) : bytes := pad0 2 (fmt_x z).
Definition fmt_02X (z : Z) : bytes := pad0 2 (fmt_X z).

(** [vsnprintf] once the format is rendered as [text]: the bytes left in the
    buffer and the value returned. *)
Definition vsnprintf (m : bytes) (size : nat) (text : bytes) : outcome (Z * bytes) :=
  match size with
  | O => Ret (Z.of_nat (length text), m)
  | S n =>
      m' ← overwrite m (take n text ++ [0]);
      Ret (Z.of_nat (length text), m')
  end.

(** [sscanf]: the directives the code uses. *)
Inductive directive :=
| ScanD (width : nat)
| ScanX (width : nat)
| ScanLit (c : Z).

(** One [%Nd] or [%Nx]: spaces, then at most [N] bytes of sign and digits. *)
Definition scan_num (base : Z) (width : nat) (s : bytes) : option (Z * bytes) :=
  let s1 := skip_spaces s in
  let field := take width s1 in
  let '(neg, f1) := take_sign field in
  let f2 := skip_0x base f1 in
  let '(v, n) := digits base f2 0 0 in
  if (n =? 0)%nat then None
  else
    let used := (length field - length f2 + n)%nat in
    let is_0x := (base =? 16) && (v =? 0) && (n =? 1)%nat &&
                 match drop n f2 with x :: _ => (x =? 120) || (x =? 88) | [] => false end in
    (* "0x" not followed by a digit is a matching failure *)
    if is_0x then None
    else Some (s32 (if neg then - v else v), drop used s1).

Fixpoint sscanf (s : bytes) (fmt : list directive) : list Z :=
  match fmt with
  | [] => []
  | ScanD w :: fmt' =>
      match scan_num 10 w s with Some (v, s') => v :: sscanf s' fmt' | None => [] end
  | ScanX w :: fmt' =>
      match scan_num 16 w s with Some (v, s') => v :: sscanf s' fmt' | None => [] end
  | ScanLit c :: fmt' =>
      match s with x :: s' => if x =? c then sscanf s' fmt' else [] | [] => [] end
  end.

(** ** Lemmas *)

(** A text has no 0. *)
Abbreviation text s := (Forall (λ c, c ≠ 0) s).

Lemma strncmp_sym a b n : strncmp b a n = Z.opp <$> strncmp a b n.
Proof.
  revert a b. induction n as [|n IH]; intros [|x a] [|y b]; try done. cbn [strncmp]. rewrite (Z.eqb_sym y x).
  destruct (Z.eqb_spec x y) as [->|]; [|cbn; f_equal; lia]. by destruct (y =? 0).
Qed.

Lemma str_of_text m s : str_of m = Some s → text s.
Proof.
  revert s. induction m as [|c m IH]; intros s; simpl; [done|].
  destruct (c =? 0) eqn:E; zbool; [by intros [= <-]|].
  destruct (str_of m) as [t|]; [|done]. intros [= <-]. constructor; auto.
Qed.

Lemma str_of_app s m : text s → str_of (s ++ 0 :: m) = Some s.
Proof.
  induction 1 as [|c s Hc _ IH]; simpl; [done|].
  rewrite (proj2 (Z.eqb_neq _ _)) by done. by rewrite IH.
Qed.

Lemma str_of_split m s : str_of m = Some s → ∃ r, m = s ++ 0 :: r.
Proof.
  revert s. induction m as [|c m IH]; intros s; simpl; [done|].
  destruct (c =? 0) eqn:E; zbool; [intros [= <-]; exists m; by subst|].
  destruct (str_of m) as [t|]; [|done]. intros [= <-].
  destruct (IH t eq_refl) as [r ->]. by exists r.
Qed.

Lemma str_of_cstr s : text s → str_of (cstr s) = Some s.
Proof. apply str_of_app. Qed.

Lemma c_str_cstr s : text s → c_str (cstr s) = Ret s.
Proof. intros H. unfold c_str. by rewrite str_of_cstr. Qed.

Lemma strlen_ok m s : str_of m = Some s → strlen m = Ret (Z.of_nat (length s)).
Proof. intros E. unfold strlen, c_str. by rewrite E. Qed.

Lemma text_take n s : text s → text (take n s).
Proof. apply Forall_take. Qed.

Lemma take_text_ok m s n : str_of m = Some s → take_text m n = Ret (take n s).
Proof.
  revert m s. induction n as [|n IH]; intros [|c m] s; simpl; try done.
  destruct (c =? 0) eqn:E; [by intros [= <-]|].
  destruct (str_of m) as [t|] eqn:Et; [|done]. intros [= <-]. by rewrite (IH m t).
Qed.

Lemma text_no0 s t a b : text s → text t → s ++ 0 :: a = t ++ 0 :: b → s = t.
Proof.
  intros Hs Ht E. pose proof (str_of_app s a Hs) as H1. rewrite E, str_of_app in H1 by done. congruence.
Qed.

(** [strncmp] bounded by more than the first text decides equality. *)
Lemma strncmp_ok a b s t n :
  str_of a = Some s → str_of b = Some t → (length s < n)%nat →
  ∃ z, strncmp a b n = Ret z ∧ (z = 0 ↔ s = t).
Proof.
  revert a b s t. induction n as [|n IH]; intros [|x a] [|y b] s t; simpl; try (done || lia).
  intros Ha Hb Hn. destruct (x =? y) eqn:Exy; zbool.
  - subst. destruct (y =? 0) eqn:E0; [exists 0; by simplify_eq|].
    destruct (str_of a) as [s'|] eqn:Ea; [|done]. destruct (str_of b) as [t'|] eqn:Eb; [|done].
    simplify_eq/=. destruct (IH a b s' t' Ea Eb ltac:(lia)) as (z & -> & Hz).
    exists z. split; [done|]. rewrite Hz. naive_solver.
  - exists (x - y). split; [done|]. split; [lia|]. intros ->.
    by destruct (x =? 0) eqn:E1, (y =? 0) eqn:E2, (str_of a), (str_of b); zbool; simplify_eq/=.
Qed.

(** [memcmp] with a literal and its 0 decides equality of texts. *)
Lemma memcmp_lit_ok a s t :
  str_of a = Some s → text t →
  ∃ z, memcmp a (cstr t) (S (length t)) = Ret z ∧ (z = 0 ↔ s = t).
Proof.
  unfold cstr. intros Ha Ht. revert a s Ha. induction Ht as [|y t Hy Ht IH]; intros [|x a] s; simpl; try done.
  - destruct (x =? 0) eqn:E0; intros Ha; zbool.
    + simplify_eq/=. exists 0. split; [by destruct a|tauto].
    + destruct (str_of a); simplify_eq/=. exists (x - 0). split; [done|]. split; [lia|done].
  - intros Ha. destruct (x =? y) eqn:Exy; zbool.
    + subst. rewrite (proj2 (Z.eqb_neq _ _)) in Ha by done.
      destruct (str_of a) as [s'|] eqn:Ea; [|done]. simplify_eq/=.
      destruct (IH a s' Ea) as (z & -> & Hz). exists z. split; [done|]. rewrite Hz. naive_solver.
    + exists (x - y). split; [done|]. split; [lia|]. intros ->.
      destruct (x =? 0); [done|]. destruct (str_of a); simplify_eq/=.
Qed.

Lemma overwrite_ok m t :
  (length t <= length m)%nat → overwrite m t = Ret (t ++ drop (length t) m).
Proof. intros H. unfold overwrite. by rewrite (proj2 (Nat.leb_le _ _)). Qed.

Lemma wr_ok m i v : 0 <= i < Z.of_nat (length m) → wr m i v = Ret (<[Z.to_nat i := v]> m).
Proof.
  intros H. unfold wr. rewrite (proj2 (Z.leb_le _ _)), (proj2 (Z.ltb_lt _ _)) by lia. done.
Qed.

Lemma rd_ok m i v : 0 <= i → m !! Z.to_nat i = Some v → rd m i = Ret v.
Proof. intros H E. unfold rd. rewrite (proj2 (Z.ltb_ge _ _)) by lia. by rewrite E. Qed.

Lemma prefixb_ok p s : prefixb p s = true ↔ ∃ r, s = p ++ r.
Proof.
  revert s. induction p as [|x p IH]; intros [|y s]; simpl; try naive_solver.
  rewrite andb_true_iff, Z.eqb_eq, IH. naive_solver.
Qed.

(** [strstr] finds a first occurrence. *)
Lemma strstr_split s sep n :
  strstr s sep = Some n → s = take n s ++ sep ++ drop (n + length sep) s ∧ (n <= length s)%nat.
Proof.
  revert n. induction s as [|x s IH]; intros n; simpl.
  - destruct (prefixb sep []) eqn:E; [|done]. intros [= <-].
    apply prefixb_ok in E as [r E]. destruct sep; [|done]. simpl. split; [done|lia].
  - destruct (prefixb sep (x :: s)) eqn:E.
    + intros [= <-]. apply prefixb_ok in E as [r ->]. simpl. split; [|lia].
      by rewrite drop_app_length.
    + destruct (strstr s sep) as [k|]; [|done]. intros [= <-].
      destruct (IH k eq_refl) as [E' Hk]. simpl. split; [|lia]. f_equal. done.
Qed.

Lemma strstr_none s sep : strstr s sep = None → ∀ a b, s ≠ a ++ sep ++ b.
Proof.
  induction s as [|x s IH]; simpl; destruct (prefixb sep _) eqn:E; try done; intros Hn a b Hs.
  - symmetry in Hs. apply app_nil in Hs as [-> Hs]. apply app_nil in Hs as [-> ->]. done.
  - destruct (strstr s sep) eqn:Es; [done|]. destruct a as [|y a]; simpl in Hs.
    + assert (prefixb sep (x :: s) = true) by (apply prefixb_ok; eauto). congruence.
    + injection Hs as -> Hs. by eapply IH.
Qed.

(** ** Lemmas on memcpy *)
Lemma mem_read_Ret b off n :
  0 <= off → 0 <= n → off + n <= Z.of_nat (length b) →
  mem_read (Some b) off n = Ret (take (Z.to_nat n) (drop (Z.to_nat off) b)).
Proof.
  intros. unfold mem_read. destruct (Z.eqb_spec n 0) as [->|]; [done |].
  by destruct (Z.leb_spec (off + n) (Z.of_nat (length b))); [| lia].
Qed.

Lemma mem_write_Ret b off s :
  0 <= off → off + Z.of_nat (length s) <= Z.of_nat (length b) →
  ∃ b', mem_write (Some b) off s = Ret (Some b') ∧ length b' = length b ∧
    b' = take (Z.to_nat off) b ++ s ++ drop (Z.to_nat off + length s) b ∧
    ∀ i, b' !! i = if decide (Z.to_nat off <= i < Z.to_nat off + length s)%nat
                   then s !! (i - Z.to_nat off)%nat else b !! i.
Proof.
  intros Ho Hs. exists (take (Z.to_nat off) b ++ s ++ drop (Z.to_nat off + length s) b).
  repeat split.
  - unfold mem_write. destruct s as [|x s]; simpl length in *.
    + simpl. by rewrite Nat.add_0_r, take_drop.
    + simpl Nat.eqb. destruct (Z.leb_spec (off + Z.of_nat (S (length s))) (Z.of_nat (length b))); [done | lia].
  - rewrite !length_app, length_take, length_drop. lia.
  - intros i. case_decide.
    + rewrite lookup_app_r, length_take_le by (rewrite ?length_take_le; lia).
      by rewrite lookup_app_l by lia.
    + destruct (decide (i < Z.to_nat off)%nat).
      * by rewrite lookup_app_l, lookup_take_lt by (rewrite ?length_take_le; lia).
      * rewrite !lookup_app_r by (rewrite ?length_take_le; lia).
        rewrite lookup_drop. f_equal. rewrite length_take_le; lia.
Qed.

Lemma mem_write_length b off s b' :
  0 <= off → mem_write (Some b) off s = Ret (Some b') → length b' = length b.
Proof.
  intros Ho E. unfold mem_write in E. destruct (length s =? 0)%nat eqn:?; [by simplify_eq |].
  case_match eqn:Hle; [| done]. simplify_eq. zbool. rewrite !length_app, length_take, length_drop. lia.
Qed.

Lemma vsnprintf_ok m n t :
  (0 < n <= length m)%nat →
  vsnprintf m n t = Ret (Z.of_nat (length t), take (pred n) t ++ 0 :: drop (S (min (pred n) (length t))) m).
Proof.
  intros Hn. destruct n as [|n]; [lia|]. simpl.
  rewrite overwrite_ok by (rewrite length_app, length_take; simpl; lia).
  rewrite length_app, length_take, <- app_assoc. simpl. by replace (n `min` length t + 1)%nat with (S (n `min` length t)) by lia.
Qed.

(** ** Accesses in the middle of an object *)
Lemma rd_mid a c r : rd (a ++ c :: r) (Z.of_nat (length a)) = Ret c.
Proof.
  apply rd_ok; [lia|]. rewrite Nat2Z.id, lookup_app_r by lia. by rewrite Nat.sub_diag.
Qed.

(** Overwriting the middle of an object. *)
Lemma mem_write_mid a x c y off :
  length x = length y → off = Z.of_nat (length a) →
  mem_write (Some (a ++ x ++ c)) off y = Ret (Some (a ++ y ++ c)).
Proof.
  intros Hl ->. destruct (mem_write_Ret (a ++ x ++ c) (Z.of_nat (length a)) y) as (b & -> & _ & -> & _);
    [lia | rewrite !length_app; lia |].
  rewrite Nat2Z.id, take_app_length, (assoc app a x c). do 3 f_equal. f_equal.
  apply drop_app_length'. rewrite length_app. lia.
Qed.

Lemma wr_mid a c r v : wr (a ++ c :: r) (Z.of_nat (length a)) v = Ret (a ++ v :: r).
Proof.
  rewrite wr_ok by (rewrite length_app; cbn; lia). rewrite Nat2Z.id. f_equal.
  by rewrite insert_app_r_alt, Nat.sub_diag by lia.
Qed.

Lemma rd_at m i a c r : m = a ++ c :: r → i = Z.of_nat (length a) → rd m i = Ret c.
Proof. intros -> ->. apply rd_mid. Qed.

Lemma wr_at m i v a c r : m = a ++ c :: r → i = Z.of_nat (length a) → wr m i v = Ret (a ++ v :: r).
Proof. intros -> ->. apply wr_mid. Qed.

Lemma wr_Undef m i v : Z.of_nat (length m) <= i → wr m i v = Undef.
Proof. intros H. unfold wr. rewrite (proj2 (Z.ltb_ge _ _)) by lia. by rewrite andb_false_r. Qed.
