(* ===== verification/NbuString.v ===== *)
(** libnbu's strings and paths: [src/efixo/efixo-libnbu/src/src/string.c] and
    [file.c].

    Every function is given the memory its pointers point to and returns the
    buffer it wrote beside its result. *)

From stdpp Require Import base tactics list gmap strings.
From S2P Require Import Prelude.
From S2P Require Import Dll.
From S2P Require Import CursorList.
From S2P Require Import CString.
From S2P Require Import NbuList.
From S2P Require Import NbuListSpec.
From S2P Require Import NbuListAlg.
Import NbuList.

Module NbuString.

Definition NBU_STRING_EQUAL : Z := 0.
Definition NBU_STRING_DIFFERENT : Z := -1.

Definition nbu_string_isempty (str : option bytes) : outcome Z :=
  match str with
  | None => Ret NBU_SUCCESS
  | Some m => c ← rd m 0; Ret (if c =? 0 then NBU_SUCCESS else NBU_ERROR)
  end.

(** The loop of [nbu_string_compare]: both pointers move together. *)
Fixpoint compare_loop (c1 c2 : bytes) : outcome Z :=
  match c1, c2 with
  | x :: c1', y :: c2' =>
      if (x =? y) && negb (x =? 0) && negb (y =? 0) then compare_loop c1' c2'
      else Ret (if x =? y then NBU_STRING_EQUAL else NBU_STRING_DIFFERENT)
  | _, _ => Undef
  end.

Definition nbu_string_compare (str1 str2 : option bytes) : outcome Z :=
  match str1, str2 with
  | Some c1, Some c2 => compare_loop c1 c2
  | _, _ => Ret NBU_STRING_DIFFERENT
  end.

Definition nbu_string_ncompare (str1 : bytes) (maxsize : Z) (str2 : bytes) : outcome Z :=
  if s32 maxsize <? 0 then Ret NBU_STRING_DIFFERENT
  else
    r ← strncmp str1 str2 (Z.to_nat maxsize);
    if negb (r =? 0) then Ret NBU_STRING_DIFFERENT else Ret NBU_STRING_EQUAL.

(** The macro [nbu_string_matches]: [sizeof(c_str)] counts the final 0. *)
Definition nbu_string_matches (s : bytes) (c_str : string) : outcome Z :=
  r ← memcmp s (cstr (lit c_str)) (S (length (lit c_str)));
  Ret (if r =? 0 then NBU_STRING_EQUAL else NBU_STRING_DIFFERENT).

Definition nbu_string_length (str : bytes) (maxsize : Z) : outcome Z :=
  if maxsize <=? 0 then Ret 0
  else strnlen str (Z.to_nat (u32 (s32 maxsize - 1))).

Definition nbu_string_copy (str : option bytes) (size : Z) (src : option bytes)
    : outcome (Z * option bytes) :=
  match src, str with
  | Some src, Some str =>
      if s32 size <? 0 then Ret (NBU_ERROR, Some str)
      else
        let len := s32 size in
        str ← wr str (len - 1) 0;
        str ← strncpy str src (Z.to_nat len);
        c ← rd str (len - 1);
        if negb (c =? 0) then
          str ← wr str (len - 1) 0;
          Ret (NBU_ERROR, Some str)
        else Ret (NBU_SUCCESS, Some str)
  | _, _ => Ret (NBU_ERROR, str)
  end.

(** [text] is what the format and its arguments render to. *)
Definition nbu_string_vprintf (str : option bytes) (size : Z) (text : bytes)
    : outcome (Z * option bytes) :=
  match str with
  | None => Ret (NBU_ERROR, None)
  | Some m =>
      if s32 size <? 0 then Ret (NBU_ERROR, Some m)
      else
        m ← wr m (u32 (size - 1)) 0;
        '(ret, m) ← vsnprintf m (Z.to_nat size) text;
        if ret <? 0 then Ret (NBU_ERROR, Some m)
        else
          c ← rd m (u32 (size - 1));
          if negb (c =? 0) || (s32 size - 1 <? ret) then
            m ← wr m (u32 (size - 1)) 0;
            Ret (NBU_ERROR, Some m)
          else Ret (NBU_SUCCESS, Some m)
  end.

Definition nbu_string_printf (str : option bytes) (size : Z) (text : bytes)
    : outcome (Z * option bytes) :=
  match str with
  | None => Ret (NBU_ERROR, None)
  | Some m =>
      if s32 size <? 0 then Ret (NBU_ERROR, Some m)
      else nbu_string_vprintf (Some m) size text
  end.

(** [strdup] and [strndup] take one allocation. *)
Definition strdup (s : bytes) : cmd (heap bytes) (option bytes) := λ h,
  match h_avail h with
  | O => Ret (None, h)
  | S n => Ret (Some s, Heap (h_next h) (h_prev h) (h_data h) (h_lst h) (h_fresh h) n (h_log h))
  end.

(** The loop of [nbu_string_split] on texts; the fuel is one more than the length
    of what is left, enough when the separator is not empty. *)
Fixpoint split_loop (fuel : nat) (list : ptr) (saveptr sep : bytes) : cmd (heap bytes) bytes :=
  match fuel with
  | O => λ _, NoFuel
  | S f =>
      match strstr saveptr sep with
      | Some n =>
          d ← strdup (take n saveptr);
          nbu_list_insert_end list d;;
          split_loop f list (drop (n + length sep) saveptr) sep
      | None => mret saveptr
      end
  end.

Definition nbu_string_split (fuel : nat) (str sep : bytes) : cmd (heap bytes) (Z * ptr) :=
  sep ← lift (c_str sep);
  list ← nbu_list_new 4;
  str ← lift (c_str str);
  rest ← split_loop fuel list str sep;
  d ← strdup rest;
  nbu_list_insert_end list d;;
  mret (NBU_SUCCESS, list).

(** [TRIM(p, ++)] and [TRIM(p, --)]: the index of the first byte that is no blank. *)
Definition is_blank (c : Z) : bool := (c =? 32) || (c =? 9) || (c =? 10) || (c =? 13).

Fixpoint trim_from (fuel : nat) (m : bytes) (i step : Z) : outcome Z :=
  match fuel with
  | O => NoFuel
  | S f =>
      c ← rd m i;
      if is_blank c then trim_from f m (i + step) step else Ret i
  end.

(** ["%.*s"]: at most [n] bytes of the text at [m]. *)
Definition fmt_prec_s (m : bytes) (n : nat) : outcome bytes := take_text m n.

Definition nbu_string_trim (str : option bytes) (buf : option bytes) (buf_size : Z)
    : outcome (Z * option bytes) :=
  match str with
  | None => Ret (NBU_ERROR, buf)
  | Some m =>
      n ← strlen m;
      sta ← trim_from (S (length m)) m 0 1;
      end_ ← trim_from (S (length m)) m (n - 1) (-1);
      let diff := end_ - sta + 1 in
      let diff := if diff <? 0 then 0 else diff in
      t ← fmt_prec_s (drop (Z.to_nat sta) m) (Z.to_nat diff);
      nbu_string_printf buf buf_size t
  end.

Definition nbu_string_to_int (str : bytes) (default_value : Z) : outcome Z :=
  s ← c_str str;
  let r := strtol s 10 in
  Ret (if st_erange r then default_value else st_val r).

(** *** file.c *)

(** [while((c > path) && ( *c != '/')) c--;] *)
Fixpoint basename_loop (path : bytes) (c : nat) : outcome nat :=
  match c with
  | O => Ret O
  | S c' => x ← rd path (Z.of_nat c); if x =? 47 then Ret c else basename_loop path c'
  end.

(** The offset of the result in [path], or NULL. *)
Definition nbu_file_basename (path : option bytes) : outcome (option nat) :=
  match path with
  | None => Ret None
  | Some m =>
      c0 ← rd m 0;
      if c0 =? 0 then Ret None
      else
        c1 ← (if c0 =? 47 then rd m 1 else Ret 0);
        if (c0 =? 47) && negb (c1 =? 0) then
          n ← strlen m;
          c ← basename_loop m (Z.to_nat (n - 1));
          Ret (Some (S c))
        else Ret (Some O)
  end.

End NbuString.

Import NbuString.

(** *** Comparison *)
Lemma compare_loop_ok a b s t :
  str_of a = Some s → str_of b = Some t →
  compare_loop a b = Ret (if bytes_eqb s t then NBU_STRING_EQUAL else NBU_STRING_DIFFERENT).
Proof.
  revert b s t. induction a as [|x a IH]; intros [|y b] s t; simpl; try done.
  intros Ha Hb. destruct (x =? y) eqn:Exy; simpl.
  - zbool. subst. destruct (y =? 0) eqn:E0; simpl; [by simplify_eq|].
    destruct (str_of a) as [s'|] eqn:Ea; [|done]. destruct (str_of b) as [t'|] eqn:Eb; [|done].
    simplify_eq/=. rewrite (IH b s' t') by done. by rewrite Z.eqb_refl.
  - f_equal. replace (bytes_eqb s t) with false; [done|]. symmetry. apply bytes_eqb_neq. intros ->.
    zbool. destruct (x =? 0) eqn:E1, (y =? 0) eqn:E2, (str_of a), (str_of b); zbool; simplify_eq/=.
Qed.

Lemma ncompare_ok a b s t n :
  str_of a = Some s → str_of b = Some t → Z.of_nat (length s) < n <= INT_MAX →
  nbu_string_ncompare a n b
  = Ret (if bytes_eqb s t then NBU_STRING_EQUAL else NBU_STRING_DIFFERENT).
Proof.
  intros Ha Hb Hn. unfold nbu_string_ncompare.
  rewrite s32_small by (unfold INT_MIN; lia). rewrite (proj2 (Z.ltb_ge _ _)) by lia.
  destruct (strncmp_ok a b s t (Z.to_nat n) Ha Hb ltac:(lia)) as (z & -> & Hz). simpl.
  destruct (bytes_eqb s t) eqn:E.
  - apply bytes_eqb_eq in E. by rewrite (proj2 Hz E).
  - apply bytes_eqb_neq in E. rewrite (proj2 (Z.eqb_neq z 0)) by tauto. done.
Qed.

Lemma matches_ok a s lt :
  str_of a = Some s → text (lit lt) →
  nbu_string_matches a lt
  = Ret (if bytes_eqb s (lit lt) then NBU_STRING_EQUAL else NBU_STRING_DIFFERENT).
Proof.
  intros Ha Hl. unfold nbu_string_matches.
  destruct (memcmp_lit_ok a s (lit lt) Ha Hl) as (z & -> & Hz). simpl.
  destruct (bytes_eqb s (lit lt)) eqn:E.
  - apply bytes_eqb_eq in E. by rewrite (proj2 Hz E).
  - apply bytes_eqb_neq in E. rewrite (proj2 (Z.eqb_neq z 0)) by tauto. done.
Qed.

(** *** Bounded copies *)

(** What a bounded copy leaves: the text cut to the buffer, the rest untouched. *)
Record copied (m m' : bytes) (size : Z) (s : bytes) : Prop := {
  cp_text : str_of m' = Some (take (Z.to_nat (size - 1)) s);
  cp_length : length m' = length m;
  cp_rest : drop (Z.to_nat size) m' = drop (Z.to_nat size) m;
}.

Lemma str_of_padded t n r :
  text t → (0 < n)%nat → str_of (t ++ replicate n 0 ++ r) = Some t.
Proof. intros Ht Hn. destruct n; [lia|]. by apply str_of_app. Qed.

(** What [strncpy] leaves in a buffer whose last byte was cleared. *)
Lemma strncpy_ok m n src s v :
  (0 < n <= length m)%nat → str_of src = Some s →
  strncpy (<[pred n := v]> m) src n
  = Ret ((take n s ++ replicate (n - length s) 0) ++ drop n m).
Proof.
  intros Hn Hsrc. unfold strncpy. rewrite (take_text_ok _ s) by done. simpl. rewrite length_take.
  replace (n - n `min` length s)%nat with (n - length s)%nat by lia.
  rewrite overwrite_ok by (rewrite length_app, length_take, length_replicate, length_insert; lia).
  rewrite length_app, length_take, length_replicate.
  replace (n `min` length s + (n - length s))%nat with n by lia.
  by rewrite drop_insert_lt by lia.
Qed.

Lemma copied_fits m s (n : nat) :
  text s → (length s < n <= length m)%nat →
  copied m ((take n s ++ replicate (n - length s) 0) ++ drop n m) (Z.of_nat n) s.
Proof.
  intros Ht Hn. rewrite (take_ge s) by lia. split.
  - rewrite <- app_assoc, str_of_padded by (done || lia). by rewrite take_ge by lia.
  - rewrite !length_app, length_replicate, length_drop. lia.
  - rewrite drop_app_ge by (rewrite length_app, length_replicate; lia).
    rewrite length_app, length_replicate, drop_drop. f_equal. lia.
Qed.

Lemma copied_cut m s (n : nat) c :
  text s → (0 < n <= length m)%nat → s !! pred n = Some c →
  copied m (take (pred n) s ++ 0 :: drop n m) (Z.of_nat n) s.
Proof.
  intros Ht Hn Hc. apply lookup_lt_Some in Hc. split.
  - rewrite str_of_app by by apply text_take. do 2 f_equal. lia.
  - rewrite length_app, length_take_le by lia. simpl. rewrite length_drop. lia.
  - rewrite drop_app_ge by (rewrite length_take; lia). rewrite length_take_le by lia.
    rewrite Nat2Z.id. by replace (n - pred n)%nat with 1%nat by lia.
Qed.

Lemma copy_ok m size src s :
  0 < size <= Z.of_nat (length m) → size <= INT_MAX → str_of src = Some s →
  ∃ m', nbu_string_copy (Some m) size (Some src)
        = Ret (if Z.of_nat (length s) <? size then NBU_SUCCESS else NBU_ERROR, Some m') ∧
        copied m m' size s.
Proof.
  intros Hs Hi Hsrc. pose proof (str_of_text _ _ Hsrc) as Ht. unfold nbu_string_copy.
  rewrite s32_small by (unfold INT_MIN; lia). rewrite (proj2 (Z.ltb_ge _ _)) by lia.
  rewrite wr_ok by lia. simpl. set (n := Z.to_nat size).
  replace (Z.to_nat (size - 1)) with (pred n) by lia. replace size with (Z.of_nat n) by lia.
  rewrite (strncpy_ok m n src s) by (done || lia). simpl.
  destruct (Z.of_nat (length s) <? Z.of_nat n) eqn:E; zbool.
  - rewrite (rd_ok _ _ 0); [|lia|].
    2: { rewrite <- app_assoc, lookup_app_r by (rewrite length_take; lia).
         rewrite lookup_app_l by (rewrite length_replicate, length_take; lia).
         apply lookup_replicate_2. rewrite length_take. lia. }
    eexists. split; [reflexivity|]. apply copied_fits; [done|lia].
  - replace (n - length s)%nat with O by lia. simpl. rewrite app_nil_r.
    destruct (lookup_lt_is_Some_2 s (pred n)) as [c Hc]; [lia|].
    assert (take n s = take (pred n) s ++ [c]) as En
      by (rewrite <- (take_S_r _ _ _ Hc); f_equal; lia).
    rewrite En, <- app_assoc. simpl. replace (Z.to_nat (Z.of_nat n - 1)) with (pred n) by lia.
    rewrite (rd_ok _ _ c); [|lia|].
    2: { replace (Z.to_nat (Z.of_nat n - 1)) with (pred n) by lia.
         rewrite lookup_app_r, length_take_le by (rewrite ?length_take; lia).
         by rewrite Nat.sub_diag. }
    simpl. rewrite (proj2 (Z.eqb_neq c 0)) by exact (Forall_lookup_1 _ _ _ _ Ht Hc).
    simpl. rewrite wr_ok by (rewrite length_app, length_take; simpl; rewrite length_drop; lia).
    simpl. eexists. split; [reflexivity|].
    replace (Z.to_nat (Z.of_nat n - 1)) with (pred n) by lia.
    rewrite insert_app_r_alt by (rewrite length_take; lia).
    rewrite length_take_le by lia. rewrite Nat.sub_diag. simpl. by eapply copied_cut; [|lia|].
Qed.

Lemma printf_ok m size t :
  0 < size <= Z.of_nat (length m) → size <= INT_MAX → text t →
  ∃ m', nbu_string_printf (Some m) size t
        = Ret (if Z.of_nat (length t) <? size then NBU_SUCCESS else NBU_ERROR, Some m') ∧
        str_of m' = Some (take (Z.to_nat (size - 1)) t) ∧ length m' = length m.
Proof.
  intros Hs Hi Ht. unfold nbu_string_printf, nbu_string_vprintf.
  rewrite s32_small by (unfold INT_MIN; lia). rewrite (proj2 (Z.ltb_ge _ _)) by lia.
  rewrite u32_small by (unfold INT_MAX in Hi; lia). rewrite wr_ok by lia. simpl.
  set (n := Z.to_nat size).
  rewrite vsnprintf_ok by (rewrite length_insert; lia). simpl.
  rewrite (proj2 (Z.ltb_ge _ 0)) by lia.
  replace (Z.to_nat (size - 1)) with (pred n) by lia.
  destruct (Z.of_nat (length t) <? size) eqn:E; zbool.
  - rewrite (take_ge t) by lia.
    assert (∃ v, (t ++ 0 :: drop (S (pred n `min` length t)) (<[pred n:=0]> m)) !! pred n = Some v ∧ v = 0)
      as (v & Hv & ->).
    { exists 0. split; [|done]. rewrite Nat.min_r by lia.
      destruct (decide (length t = pred n)) as [Heq|Hne].
      - rewrite lookup_app_r by lia. by replace (pred n - length t)%nat with O by lia.
      - rewrite lookup_app_r by lia. destruct (pred n - length t)%nat as [|k] eqn:Ek; [lia|]. simpl.
        rewrite lookup_drop. replace (S (length t) + k)%nat with (pred n) by lia.
        apply list_lookup_insert_eq. lia. }
    rewrite (rd_ok _ _ 0); [|lia|by replace (Z.to_nat (size - 1)) with (pred n) by lia].
    simpl. rewrite (proj2 (Z.ltb_ge _ _)) by lia. eexists. split; [reflexivity|]. split.
    + by apply str_of_app.
    + rewrite length_app. simpl. rewrite length_drop, length_insert. lia.
  - rewrite Nat.min_l by lia. rewrite (rd_ok _ _ 0); [|lia|].
    2: { replace (Z.to_nat (size - 1)) with (pred n) by lia.
         rewrite lookup_app_r, length_take_le by (rewrite ?length_take; lia). by rewrite Nat.sub_diag. }
    simpl. rewrite (proj2 (Z.ltb_lt _ _)) by lia.
    rewrite wr_ok by (rewrite length_app, length_take; simpl; rewrite length_drop, length_insert; lia).
    simpl. eexists. split; [reflexivity|].
    replace (Z.to_nat (size - 1)) with (pred n) by lia.
    rewrite insert_app_r_alt, length_take_le by (rewrite ?length_take; lia).
    rewrite Nat.sub_diag. simpl. split.
    + apply str_of_app. by apply text_take.
    + rewrite length_app, length_take. simpl. rewrite length_drop, length_insert. lia.
Qed.

(** A print that fills its bound exactly. *)
Lemma printf_exact m t :
  text t → (length t < length m)%nat → Z.of_nat (S (length t)) <= INT_MAX →
  nbu_string_printf (Some m) (Z.of_nat (S (length t))) t
  = Ret (NBU_SUCCESS, Some (t ++ 0 :: drop (S (length t)) m)).
Proof.
  intros Ht Hl Hi. unfold nbu_string_printf, nbu_string_vprintf. set (n := S (length t)) in *.
  rewrite s32_small by (unfold INT_MIN; lia). rewrite (proj2 (Z.ltb_ge _ 0)) by lia.
  rewrite u32_small by (unfold INT_MAX in Hi; lia). rewrite wr_ok by lia. cbn [mbind outcome_bind].
  rewrite Nat2Z.id, vsnprintf_ok by (rewrite length_insert; lia). cbn [mbind outcome_bind].
  rewrite (proj2 (Z.ltb_ge _ 0)) by lia. replace (pred n) with (length t) by lia.
  rewrite firstn_all, Nat.min_id. rewrite (rd_ok _ _ 0); [|lia|].
  2: { rewrite lookup_app_r by lia. by replace (Z.to_nat (Z.of_nat n - 1) - length t)%nat with O by lia. }
  cbn [mbind outcome_bind negb orb]. change (0 =? 0) with true. cbn [negb orb].
  rewrite (proj2 (Z.ltb_ge _ _)) by lia. by rewrite drop_insert_lt by lia.
Qed.

(** *** Splitting *)
Fixpoint join (sep : bytes) (ps : list bytes) : bytes :=
  match ps with
  | [] => []
  | [p] => p
  | p :: ps' => p ++ sep ++ join sep ps'
  end.

Lemma join_snoc sep ps r :
  join sep (ps ++ [r]) = concat ((λ p, p ++ sep) <$> ps) ++ r.
Proof.
  induction ps as [|p ps IH]; [done|].
  assert (join sep ((p :: ps) ++ [r]) = p ++ sep ++ join sep (ps ++ [r])) as -> by by destruct ps.
  rewrite IH. simpl. by rewrite <- !app_assoc.
Qed.

Lemma prefixb_app p s t : prefixb p s = true → prefixb p (s ++ t) = true.
Proof. rewrite !prefixb_ok. intros [r ->]. exists (r ++ t). by rewrite app_assoc. Qed.

Lemma strstr_take s sep n : sep ≠ [] → strstr s sep = Some n → strstr (take n s) sep = None.
Proof.
  intros Hne. assert (prefixb sep [] = false) as Hnil by by destruct sep.
  revert n. induction s as [|x s IH]; intros n; simpl.
  - by rewrite Hnil.
  - destruct (prefixb sep (x :: s)) eqn:E; [intros [= <-]; simpl; by rewrite Hnil|].
    destruct (strstr s sep) as [k|] eqn:Ek; [|done]. intros [= <-]. simpl.
    destruct (prefixb sep (x :: take k s)) eqn:E'.
    + apply (prefixb_app _ _ (drop k s)) in E'. simpl in E'. rewrite take_drop in E'. congruence.
    + by rewrite IH.
Qed.

Lemma strdup_ok s h k : h_avail h = S k →
  ∃ h', strdup s h = Ret (Some s, h') ∧ h_avail h' = k ∧ h_fresh h' = h_fresh h ∧
        (heap_ok h → heap_ok h') ∧ (∀ a ns ds, is_list h a ns ds → is_list h' a ns ds).
Proof.
  intros Hk. unfold strdup. rewrite Hk. eexists. split; [reflexivity|]. split_and!; try done.
  intros a ns ds [H1 H2 H3 H4 H5 H6]. by split.
Qed.

Lemma split_loop_ok h a ns ds s sep fuel :
  heap_ok h → is_list h a ns ds → sep ≠ [] → (length s < fuel)%nat →
  (2 * length s < h_avail h)%nat →
  ∃ h' ns' rest ps, split_loop fuel (Ptr a) s sep h = Ret (rest, h') ∧ heap_ok h' ∧
    is_list h' a ns' (ds ++ (Some <$> ps)) ∧
    s = concat ((λ p, p ++ sep) <$> ps) ++ rest ∧
    Forall (λ p, strstr p sep = None) (ps ++ [rest]) ∧
    (2 * length s + h_avail h' >= h_avail h)%nat ∧ (h_avail h' + 2 * length ps = h_avail h)%nat.
Proof.
  intros Hok Hil Hne Hf Hav. revert h ns ds s Hok Hil Hf Hav.
  induction fuel as [|fuel IH]; intros h ns ds s Hok Hil Hf Hav; [lia|]. simpl.
  destruct (strstr s sep) as [n|] eqn:E.
  2: { exists h, ns, s, []. rewrite app_nil_r. simpl. split_and!; try (done || lia).
       by repeat constructor. }
  destruct (strstr_split _ _ _ E) as [Es Hn].
  assert (1 <= length sep)%nat by (destruct sep; simpl; [done|lia]).
  assert (length (drop (n + length sep) s) + n + length sep = length s)%nat as Hl.
  { pose proof (f_equal length Es) as Hl. rewrite !length_app, length_take in Hl. lia. }
  destruct (h_avail h) as [|k] eqn:Ek; [lia|].
  destruct (strdup_ok (take n s) h k Ek) as (h1 & E1 & Hk1 & _ & Hok1 & Hil1).
  run_with E1.
  destruct (insert_end_spec h1 a ns ds (Some (take n s)) (Hok1 Hok) (Hil1 _ _ _ Hil))
    as (h2 & E2 & Hil2 & Hg); [lia|].
  pose proof (gr_avail _ _ _ _ Hg) as Hk2.
  run_with E2.
  destruct (IH h2 _ _ (drop (n + length sep) s) (gr_ok _ _ _ _ Hg) Hil2 ltac:(lia) ltac:(lia))
    as (h' & ns' & rest & ps & E3 & Hok' & Hil' & Hs & Hall & Ha & Hb).
  exists h', ns', rest, (take n s :: ps). split_and!; try (done || (simpl; lia)).
  - by rewrite <- app_assoc in Hil'.
  - rewrite Es at 1. rewrite Hs at 1. simpl. by rewrite <- !app_assoc.
  - simpl. constructor; [by apply strstr_take|done].
Qed.

(** C40: [nbu_string_split] returns the pieces between the separators: joining them
    with the separator gives the text back, and no piece holds the separator.
    It terminates for every non-empty separator. *)
Theorem nbu_string_split_join h s sep :
  heap_ok h → text s → text sep → sep ≠ [] → (2 * length s + 4 < h_avail h)%nat →
  ∃ a h' ns ps, nbu_string_split (S (length s)) (cstr s) (cstr sep) h
                = Ret ((NBU_SUCCESS, Ptr a), h') ∧
    is_list h' a ns (Some <$> ps) ∧ join sep ps = s ∧ Forall (λ p, strstr p sep = None) ps.
Proof.
  intros Hok Hs Hsep Hne Hav. destruct (h_avail h) as [|k] eqn:Ek; [lia|].
  unfold nbu_string_split. rewrite !c_str_cstr by done.
  run.
  destruct (new_list_ok h 4 k Hok Ek) as (a & h1 & E1 & Hok1 & Hil1 & Hk1).
  run_with E1. run.
  destruct (split_loop_ok h1 a [] [] s sep (S (length s)) Hok1 Hil1 Hne ltac:(lia) ltac:(lia))
    as (h2 & ns2 & rest & ps & E2 & Hok2 & Hil2 & Es & Hall & Ha & Hb).
  run_with E2.
  destruct (h_avail h2) as [|k2] eqn:Ek2; [lia|].
  destruct (strdup_ok rest h2 k2 Ek2) as (h3 & E3 & Hk3 & _ & Hok3 & Hil3).
  run_with E3.
  destruct (insert_end_spec h3 a _ _ (Some rest) (Hok3 Hok2) (Hil3 _ _ _ Hil2))
    as (h4 & E4 & Hil4 & _); [lia|].
  run_with E4.
  exists a, h4, (ns2 ++ [h_fresh h3]), (ps ++ [rest]). split_and!; try done.
  - by rewrite fmap_app.
  - by rewrite join_snoc.
Qed.

Lemma nbu_string_split_join_witness :
  ∃ a h' ns ps, nbu_string_split 7 (cstr (lit "a, b,c")) (cstr (lit ",")) (heap_empty 40)
                = Ret ((NBU_SUCCESS, Ptr a), h') ∧
    is_list h' a ns (Some <$> ps) ∧ join (lit ",") ps = lit "a, b,c" ∧
    Forall (λ p, strstr p (lit ",") = None) ps.
Proof.
  apply (nbu_string_split_join (heap_empty 40) (lit "a, b,c") (lit ",")).
  - intros x _. cbn. by rewrite !lookup_empty.
  - by repeat constructor.
  - by repeat constructor.
  - done.
  - cbn. lia.
Defined.

(** With an empty separator the loop of [nbu_string_split] never ends: no
    amount of iterations is enough, whatever the text and the memory left. *)
Theorem nbu_string_split_empty_separator_loops h a ns ds s fuel :
  heap_ok h → is_list h a ns ds → split_loop fuel (Ptr a) s [] h = NoFuel.
Proof.
  revert h ns ds. induction fuel as [|fuel IH]; intros h ns ds Hok Hil; [done|].
  assert (strstr s [] = Some O) as E by by destruct s.
  simpl. rewrite E. destruct (h_avail h) as [|[|k]] eqn:Ek.
  - erewrite cmd_bind_Ret; [|unfold strdup; rewrite Ek; reflexivity].
    destruct (snoc_view a ns) as (P & p & Ep).
    pose proof (root_prev_spec _ _ _ _ _ _ Hil Ep) as Hp.
    erewrite cmd_bind_Ret.
    2: { unfold nbu_list_insert_end. erewrite cmd_bind_Ret; [|by apply load_prev_ok].
         by apply insert_oom. }
    by eapply IH.
  - destruct (strdup_ok (take 0 s) h 0 Ek) as (h1 & E1 & Hk1 & _ & Hok1 & Hil1).
    run_with E1. destruct (snoc_view a ns) as (P & p & Ep).
    pose proof (root_prev_spec _ _ _ _ _ _ (Hil1 _ _ _ Hil) Ep) as Hp.
    erewrite cmd_bind_Ret.
    2: { unfold nbu_list_insert_end. erewrite cmd_bind_Ret; [|by apply load_prev_ok].
         by apply insert_oom. }
    eapply IH; [by apply Hok1|by eapply Hil1].
  - destruct (strdup_ok (take 0 s) h (S k) Ek) as (h1 & E1 & Hk1 & _ & Hok1 & Hil1).
    run_with E1.
    destruct (insert_end_spec h1 a ns ds (Some (take 0 s)) (Hok1 Hok) (Hil1 _ _ _ Hil))
      as (h2 & E2 & Hil2 & Hg); [lia|].
    run_with E2. eapply IH; [exact (gr_ok _ _ _ _ Hg)|exact Hil2].
Qed.

Lemma nbu_string_split_empty_separator_loops_witness :
  ∃ h, is_list h 1%positive [] [] ∧ split_loop 1000 (Ptr 1) (lit "x") [] h = NoFuel.
Proof.
  destruct (new_list_ok (heap_empty 9 : heap bytes) 4 8) as (a & h & E & Hok & Hil & _).
  { intros x _. cbn. by rewrite !lookup_empty. }
  { done. }
  assert (a = 1%positive) as -> by (revert E; clear; vm_compute; congruence).
  exists h. split; [exact Hil|].
  exact (nbu_string_split_empty_separator_loops h 1%positive [] [] (lit "x") 1000 Hok Hil).
Defined.

(** *** Trimming *)
Abbreviation blanks s := (Forall (λ c, is_blank c = true) s).

Lemma trim_up fuel a pre c r :
  blanks pre → is_blank c = false → (length pre < fuel)%nat →
  trim_from fuel (a ++ pre ++ c :: r) (Z.of_nat (length a)) 1
  = Ret (Z.of_nat (length a + length pre)).
Proof.
  intros Hp Hc. revert a fuel. induction Hp as [|b pre Hb _ IH]; intros a [|fuel] Hf; simpl in Hf; try lia; simpl.
  - rewrite rd_mid. simpl. rewrite Hc. f_equal. lia.
  - rewrite rd_mid. simpl. rewrite Hb.
    specialize (IH (a ++ [b]) fuel ltac:(lia)). rewrite <- app_assoc in IH. simpl in IH.
    rewrite length_app in IH. simpl in IH.
    replace (Z.of_nat (length a) + 1) with (Z.of_nat (length a + 1)) by lia. rewrite IH. f_equal. lia.
Qed.

Lemma trim_down fuel a c post r :
  blanks post → is_blank c = false → (length post < fuel)%nat →
  trim_from fuel (a ++ c :: post ++ r) (Z.of_nat (length a + length post)) (-1)
  = Ret (Z.of_nat (length a)).
Proof.
  intros Hp Hc. revert r fuel. induction post as [|b post IH] using rev_ind; intros r [|fuel] Hf; try lia.
  - simpl. rewrite Nat.add_0_r, rd_mid. simpl. by rewrite Hc.
  - rewrite length_app in Hf. simpl in Hf.
    apply Forall_app in Hp as [Hp Hb]. apply Forall_cons in Hb as [Hb _].
    specialize (IH Hp (b :: r) fuel ltac:(lia)).
    assert (a ++ c :: (post ++ [b]) ++ r = (a ++ c :: post) ++ b :: r) as E
      by by simplify_list_eq.
    rewrite E, length_app. simpl.
    replace (Z.of_nat (length a + (length post + 1))) with (Z.of_nat (length (a ++ c :: post)))
      by (rewrite length_app; simpl; lia).
    rewrite rd_mid. simpl. rewrite Hb. rewrite <- app_assoc. simpl.
    replace (Z.of_nat (length (a ++ c :: post)) + -1) with (Z.of_nat (length a + length post))
      by (rewrite length_app; simpl; lia).
    done.
Qed.

Lemma trim_down_undef fuel s r :
  blanks s → (length s < fuel)%nat →
  trim_from fuel (s ++ r) (Z.of_nat (length s) - 1) (-1) = Undef.
Proof.
  intros Hp. revert r fuel. induction s as [|b s IH] using rev_ind; intros r [|fuel] Hf; try lia.
  - done.
  - rewrite length_app in *. simpl in *. apply Forall_app in Hp as [Hp Hb].
    apply Forall_cons in Hb as [Hb _]. rewrite <- app_assoc. simpl.
    replace (Z.of_nat (length s + 1) - 1) with (Z.of_nat (length s)) by lia.
    rewrite rd_mid. simpl. rewrite Hb. apply (IH Hp (b :: r)). lia.
Qed.

#[local] Arguments trim_from : simpl never.
#[local] Arguments nbu_string_printf : simpl never.

Lemma blank_not0 s : blanks s → text s.
Proof. intros H. eapply Forall_impl; [exact H|]. intros c Hc ->. done. Qed.

(** [nbu_string_trim] on a text with a byte that is no blank leaves in the
    buffer exactly what stands between the leading and trailing blanks, cut to
    the buffer, and reports whether it was cut. *)
Theorem nbu_string_trim_ok pre body post r m size c1 b1 c2 b2 :
  blanks pre → blanks post → text body →
  body = c1 :: b1 → body = b2 ++ [c2] → is_blank c1 = false → is_blank c2 = false →
  0 < size <= Z.of_nat (length m) → size <= INT_MAX →
  ∃ m', nbu_string_trim (Some (pre ++ body ++ post ++ 0 :: r)) (Some m) size
        = Ret (if Z.of_nat (length body) <? size then NBU_SUCCESS else NBU_ERROR, Some m') ∧
        str_of m' = Some (take (Z.to_nat (size - 1)) body) ∧ length m' = length m.
Proof.
  intros Hpre Hpost Hb E1 E2 Hc1 Hc2 Hs Hi. pose proof (blank_not0 _ Hpre) as Htp.
  pose proof (blank_not0 _ Hpost) as Htq. set (M := pre ++ body ++ post ++ 0 :: r).
  assert (str_of M = Some (pre ++ body ++ post)) as HM.
  { unfold M. replace (pre ++ body ++ post ++ 0 :: r) with ((pre ++ body ++ post) ++ 0 :: r)
      by by simplify_list_eq.
    apply str_of_app. rewrite !Forall_app. done. }
  unfold nbu_string_trim. rewrite (strlen_ok _ _ HM). simpl.
  assert (length M = length pre + length body + length post + S (length r))%nat as HlM
    by (unfold M; rewrite !length_app; simpl; lia).
  pose proof (trim_up (S (length M)) [] pre c1 (b1 ++ post ++ 0 :: r) Hpre Hc1 ltac:(lia)) as Hu.
  pose proof (trim_down (S (length M)) (pre ++ b2) c2 post (0 :: r) Hpost Hc2 ltac:(lia)) as Hd.
  replace ([] ++ pre ++ c1 :: b1 ++ post ++ 0 :: r) with M in Hu by (unfold M; by rewrite E1).
  replace ((pre ++ b2) ++ c2 :: post ++ 0 :: r) with M in Hd
    by (unfold M; rewrite E2; by simplify_list_eq).
  rewrite length_app in Hd. change (Z.of_nat (length [])) with 0 in Hu. rewrite Hu. simpl.
  replace (Z.of_nat (length (pre ++ body ++ post)) - 1)
    with (Z.of_nat (length pre + length b2 + length post))
    by (rewrite E2, !length_app; simpl; lia).
  rewrite Hd.
  simpl. assert (length body = S (length b2)) as Hlb by (rewrite E2, length_app; simpl; lia).
  rewrite (proj2 (Z.ltb_ge (Z.of_nat (length pre + length b2) - Z.of_nat (length pre) + 1) 0)) by lia.
  replace (Z.to_nat (Z.of_nat (length pre + length b2) - Z.of_nat (length pre) + 1))
    with (length body) by lia.
  rewrite Nat2Z.id. unfold M. rewrite drop_app_length. unfold fmt_prec_s.
  assert (str_of (body ++ post ++ 0 :: r) = Some (body ++ post)) as Hs'.
  { rewrite app_assoc. apply str_of_app. by apply Forall_app. }
  rewrite (take_text_ok _ _ _ Hs'), take_app_length. simpl. by apply printf_ok.
Qed.

Lemma nbu_string_trim_ok_witness :
  ∃ m', nbu_string_trim (Some (lit "  a b " ++ [0])) (Some (replicate 8 7)) 8
        = Ret (NBU_SUCCESS, Some m') ∧
        str_of m' = Some (lit "a b") ∧ length m' = 8%nat.
Proof.
  apply (nbu_string_trim_ok (lit "  ") (lit "a b") (lit " ") [] (replicate 8 7) 8
           97 (lit " b") 98 (lit "a ")); try done; try by repeat constructor.
Defined.

(** [nbu_string_trim] on a text with nothing but blanks, the empty text
    included, reads before the start of the text. *)
Theorem nbu_string_trim_blank_undef s r buf size :
  blanks s → nbu_string_trim (Some (s ++ 0 :: r)) buf size = Undef.
Proof.
  intros Hs. unfold nbu_string_trim.
  rewrite (strlen_ok _ s) by by apply str_of_app, blank_not0. simpl.
  pose proof (trim_up (S (length (s ++ 0 :: r))) [] s 0 r Hs eq_refl
                ltac:(rewrite length_app; simpl; lia)) as Hu.
  change (Z.of_nat (length [])) with 0 in Hu. simpl app in Hu. rewrite Hu.
  simpl. rewrite trim_down_undef by (done || (rewrite length_app; simpl; lia)). done.
Qed.

Lemma nbu_string_trim_blank_undef_witness :
  nbu_string_trim (Some (lit " " ++ [0])) (Some (replicate 8 7)) 8 = Undef.
Proof. apply (nbu_string_trim_blank_undef (lit " ") []). by repeat constructor. Defined.

(** [nbu_string_copy] into a buffer of at least one byte never writes outside
    its first [size] bytes, always leaves a terminated text, the source cut to
    the buffer, and answers NBU_ERROR exactly when it was cut. *)
Theorem nbu_string_copy_bounded m size src s :
  0 < size <= Z.of_nat (length m) → size <= INT_MAX → str_of src = Some s →
  ∃ m', nbu_string_copy (Some m) size (Some src)
        = Ret (if Z.of_nat (length s) <? size then NBU_SUCCESS else NBU_ERROR, Some m') ∧
        str_of m' = Some (take (Z.to_nat (size - 1)) s) ∧
        length m' = length m ∧ drop (Z.to_nat size) m' = drop (Z.to_nat size) m.
Proof.
  intros Hs Hi Hsrc. destruct (copy_ok m size src s Hs Hi Hsrc) as (m' & E & [? ? ?]).
  by exists m'.
Qed.

Lemma nbu_string_copy_bounded_witness :
  ∃ m', nbu_string_copy (Some (replicate 6 9)) 4 (Some (cstr (lit "neuf")))
        = Ret (NBU_ERROR, Some m') ∧
        str_of m' = Some (lit "neu") ∧ length m' = 6%nat ∧ drop 4 m' = [9; 9].
Proof.
  apply (nbu_string_copy_bounded (replicate 6 9) 4 (cstr (lit "neuf")) (lit "neuf")); done.
Defined.
