(* ===== verification/NbuNet.v ===== *)
(** libnbu's addresses: [src/efixo/efixo-libnbu/src/src/net.c].

    Local arrays are created by the caller of the model with any contents: the code
    overwrites them before it reads them.  [in_addr_t] values are kept in host
    order: the code only masks and compares them between its conversions. *)

From stdpp Require Import base tactics list gmap strings.
From S2P Require Import Prelude.
From S2P Require Import CString.
From S2P Require Import NbuList.
From S2P Require Import NbuString.
Import NbuList NbuString.

Module NbuNet.

Definition nbu_net_err_invalid_ip : Z := -1000.
Definition nbu_net_err_invalid_mask : Z := -999.
Definition nbu_net_err_ip_is_network : Z := -998.
Definition nbu_net_err_ip_is_broadcast : Z := -997.

(** An uninitialised [char name[n]]. *)
Definition local_buf (n : nat) : bytes := replicate n 165.

(** A call whose status is ignored: the buffer it leaves. *)
Definition buf_of (o : outcome (Z * option bytes)) : outcome bytes :=
  '(_, b) ← o; must b.

Definition ip_format : list directive :=
  [ScanD 3; ScanLit 46; ScanD 3; ScanLit 46; ScanD 3; ScanLit 46; ScanD 3].

Definition mac_format : list directive :=
  [ScanX 2; ScanLit 58; ScanX 2; ScanLit 58; ScanX 2; ScanLit 58;
   ScanX 2; ScanLit 58; ScanX 2; ScanLit 58; ScanX 2].

(** [((p[0] | p[1] | ...) & 0xffffff00) == 0]. *)
Definition all_bytes (parts : list Z) : bool :=
  Z.land (u32 (fold_left Z.lor parts 0)) 4294967040 =? 0.

(** The checks [nbu_net_validate_ip] and [nbu_net_split_ip] share: the parts read. *)
Definition read_ip (ip : bytes) : outcome (option (list Z)) :=
  buffer ← buf_of (nbu_string_copy (Some (local_buf 17)) 17 (Some ip));
  b ← c_str buffer;
  let n := length b in
  Ret (if ((6 <? n) && (n <? 16))%nat && (strspn b (lit "0123456789.") =? n)%nat then
         let iparts := sscanf b ip_format in
         if (length iparts =? 4)%nat && all_bytes iparts then Some iparts else None
       else None).

Definition nbu_net_validate_ip (ip : option bytes) : outcome Z :=
  match ip with
  | None => Ret NBU_ERROR
  | Some ip => r ← read_ip ip; Ret (if r is Some _ then NBU_SUCCESS else NBU_ERROR)
  end.

(** [memset(parts[n], 0, size); nbu_string_printf(parts[n], size, ...)]. *)
Fixpoint print_parts (size : nat) (texts : list bytes) : outcome (list bytes) :=
  match texts with
  | [] => Ret []
  | t :: ts =>
      p ← buf_of (nbu_string_printf (Some (replicate size 0)) (Z.of_nat size) t);
      ps ← print_parts size ts;
      Ret (p :: ps)
  end.

Definition nbu_net_split_ip (ip : option bytes) (parts : list bytes) : outcome (Z * list bytes) :=
  match ip with
  | None => Ret (NBU_ERROR, parts)
  | Some ip =>
      r ← read_ip ip;
      match r with
      | Some iparts => ps ← print_parts 4 (fmt_d <$> iparts); Ret (NBU_SUCCESS, ps)
      | None => Ret (NBU_ERROR, parts)
      end
  end.

(** The loop of [nbu_net_validate_netmask]; [i << k] keeps the low 32 bits. *)
Fixpoint netmask_loop (n : Z) (parts : list bytes) (nm : Z) : outcome (option Z) :=
  match parts with
  | [] => Ret (Some nm)
  | p :: ps =>
      s ← c_str p;
      let r := strtol s 10 in
      if st_erange r then Ret None
      else netmask_loop (n + 1) ps (u32 (nm + Z.shiftl (st_val r) ((3 - n) * 8)))
  end.

(** [-(nm & -nm) == nm] on [unsigned int]. *)
Definition contiguous (nm : Z) : bool := u32 (- Z.land nm (u32 (- nm))) =? nm.

Definition nbu_net_validate_netmask (netmask : option bytes) : outcome Z :=
  match netmask with
  | None => Ret NBU_ERROR
  | Some _ =>
      '(ret, parts) ← nbu_net_split_ip netmask (replicate 4 (local_buf 4));
      if ret =? 0 then
        r ← netmask_loop 0 parts 0;
        Ret (match r with
             | Some nm => if contiguous nm then NBU_SUCCESS else NBU_ERROR
             | None => NBU_ERROR
             end)
      else Ret NBU_ERROR
  end.

(** One number of an Internet address in the notations of [inet_addr]: decimal,
    octal with a leading 0, hexadecimal with a leading 0x. *)
Fixpoint octal (s : bytes) (acc : Z) (n : nat) : Z * nat :=
  match s with
  | c :: s' => if (48 <=? c) && (c <=? 55) then octal s' (acc * 8 + (c - 48)) (S n) else (acc, n)
  | [] => (acc, n)
  end.

Definition inet_num (s : bytes) : option (Z * bytes) :=
  match s with
  | 48 :: x :: s' =>
      if (x =? 120) || (x =? 88) then
        let '(v, n) := digits 16 s' 0 0 in
        if (n =? 0)%nat then None else Some (v, drop n s')
      else let '(v, n) := octal s 0 0 in Some (v, drop n s)
  | _ => let '(v, n) := digits 10 s 0 0 in if (n =? 0)%nat then None else Some (v, drop n s)
  end.

(** Up to four numbers; the last one fills the bytes that are left. *)
Fixpoint inet_parts (k : nat) (s : bytes) (acc : Z) : option Z :=
  match inet_num s with
  | None => None
  | Some (v, []) => if v <? 2 ^ (8 * Z.of_nat (S k)) then Some (acc + v) else None
  | Some (v, c :: s') =>
      match k with
      | O => None
      | S k' =>
          if (c =? 46) && (v <? 256) then inet_parts k' s' (acc + v * 2 ^ (8 * Z.of_nat k)) else None
      end
  end.

Definition inet_aton (s : bytes) : option Z := inet_parts 3 s 0.
Definition inet_addr (s : bytes) : Z := default (2 ^ 32 - 1) (inet_aton s).

(** [inet_ntoa]. *)
Definition dotted (a b c d : Z) : bytes :=
  fmt_u a ++ 46 :: fmt_u b ++ 46 :: fmt_u c ++ 46 :: fmt_u d.

Definition inet_ntoa (ip : Z) : bytes :=
  dotted (u8 (Z.shiftr ip 24)) (u8 (Z.shiftr ip 16)) (u8 (Z.shiftr ip 8)) (u8 ip).

Definition nbu_net_validate_full_ip (ip netmask : option bytes) : outcome Z :=
  r ← nbu_net_validate_ip ip;
  if negb (r =? NBU_SUCCESS) then Ret nbu_net_err_invalid_ip
  else
    r ← nbu_net_validate_netmask netmask;
    if negb (r =? NBU_SUCCESS) then Ret nbu_net_err_invalid_mask
    else
      ip ← must ip; ip ← c_str ip;
      netmask ← must netmask; netmask ← c_str netmask;
      let in_ip_addr := inet_addr ip in
      if in_ip_addr =? 2 ^ 32 - 1 then Ret nbu_net_err_invalid_ip
      else
        let in_mask_addr := inet_addr netmask in
        if in_mask_addr =? 2 ^ 32 - 1 then Ret nbu_net_err_invalid_mask
        else
          let in_mask_wildcard_addr := u32 (Z.lnot in_mask_addr) in
          let in_network_addr := Z.land in_ip_addr in_mask_addr in
          Ret (if in_network_addr =? in_ip_addr then nbu_net_err_ip_is_network
               else if Z.lor in_network_addr in_mask_wildcard_addr =? in_ip_addr
                    then nbu_net_err_ip_is_broadcast
                    else NBU_SUCCESS).

Definition nbu_net_validate_mac (mac : option bytes) : outcome Z :=
  match mac with
  | None => Ret NBU_ERROR
  | Some mac =>
      buffer ← buf_of (nbu_string_copy (Some (local_buf 18)) 18 (Some mac));
      b ← c_str buffer;
      Ret (if (length b =? 17)%nat && (length (sscanf b mac_format) =? 6)%nat
           then NBU_SUCCESS else NBU_ERROR)
  end.

Definition nbu_net_split_mac (mac : option bytes) (parts : list bytes) : outcome (Z * list bytes) :=
  match mac with
  | None => Ret (NBU_ERROR, parts)
  | Some mac =>
      buffer ← buf_of (nbu_string_copy (Some (local_buf 19)) 19 (Some mac));
      b ← c_str buffer;
      let n := length b in
      if ((10 <? n) && (n <? 18))%nat && (strspn b (lit "0123456789abcdefABCDEF:") =? n)%nat then
        let mparts := sscanf b mac_format in
        if (length mparts =? 6)%nat && all_bytes mparts then
          ps ← print_parts 3 (fmt_02X <$> mparts);
          Ret (NBU_SUCCESS, ps)
        else Ret (NBU_ERROR, parts)
      else Ret (NBU_ERROR, parts)
  end.

Definition nbu_net_split_hostname (hostname : option bytes) (host : option bytes) (host_len : Z)
    (domain : option bytes) (domain_len : Z) : outcome (Z * (option bytes * option bytes)) :=
  match hostname, host, domain with
  | Some m, Some _, Some _ =>
      s ← c_str m;
      match strchr s 46 with
      | Some n =>
          c1 ← rd m (Z.of_nat n + 1);
          if negb (c1 =? 0) then
            '(_, host) ← nbu_string_printf host host_len (take n s);
            rest ← padd m (S n);
            '(_, domain) ← nbu_string_copy domain domain_len (Some rest);
            Ret (NBU_SUCCESS, (host, domain))
          else Ret (NBU_ERROR, (host, domain))
      | None => Ret (NBU_ERROR, (host, domain))
      end
  | _, _, _ => Ret (NBU_ERROR, (host, domain))
  end.

Definition nbu_net_join_hostname (host domain : option bytes) (hostname : option bytes)
    (hostname_len : Z) : outcome (Z * option bytes) :=
  match host, domain with
  | Some hm, Some dm =>
      h ← c_str hm;
      let n := length h in
      if ((0 <? n) && (n <? 21))%nat then
        d ← c_str dm;
        '(_, b) ← nbu_string_printf hostname hostname_len (h ++ 46 :: d);
        Ret (NBU_SUCCESS, b)
      else Ret (NBU_ERROR, hostname)
  | _, _ => Ret (NBU_ERROR, hostname)
  end.

(** The loop of [nbu_net_join_ip] and [nbu_net_join_mac]: each part goes through the
    output buffer.  [None] is the loop left with an error. *)
Fixpoint join_loop (base : Z) (maxlen : Z) (ps : list bytes) (buf : option bytes) (len : Z)
    : outcome (option (list Z) * option bytes) :=
  match ps with
  | [] => Ret (Some [], buf)
  | p :: ps' =>
      '(_, buf) ← nbu_string_copy buf len (Some p);
      b ← must buf; s ← c_str b;
      let m := Z.of_nat (length s) in
      if (m <? 1) || (maxlen <? m) then Ret (None, buf)
      else
        let r := strtol s base in
        if negb (st_some r) || negb (length (st_end r) =? 0)%nat || st_erange r then Ret (None, buf)
        else
          '(vs, buf) ← join_loop base maxlen ps' buf len;
          Ret (option_map (cons (st_val r)) vs, buf)
  end.

Definition colons (ts : list bytes) : bytes := join [58] ts.

Definition nbu_net_join_ip (p0 p1 p2 p3 : option bytes) (ip : option bytes) (ip_len : Z)
    : outcome (Z * option bytes) :=
  match p0, p1, p2, p3 with
  | Some p0, Some p1, Some p2, Some p3 =>
      '(r, ip) ← join_loop 10 3 [p0; p1; p2; p3] ip ip_len;
      match r with
      | Some parts =>
          if all_bytes parts then
            '(_, ip) ← nbu_string_printf ip ip_len (join [46] (fmt_d <$> parts));
            Ret (NBU_SUCCESS, ip)
          else Ret (NBU_ERROR, ip)
      | None => Ret (NBU_ERROR, ip)
      end
  | _, _, _, _ => Ret (NBU_ERROR, ip)
  end.

Definition nbu_net_join_mac (p0 p1 p2 p3 p4 p5 : option bytes) (mac : option bytes) (mac_len : Z)
    : outcome (Z * option bytes) :=
  match p0, p1, p2, p3, p4, p5 with
  | Some p0, Some p1, Some p2, Some p3, Some p4, Some p5 =>
      '(r, mac) ← join_loop 16 2 [p0; p1; p2; p3; p4; p5] mac mac_len;
      match r with
      | Some parts =>
          if all_bytes parts then
            '(_, mac) ← nbu_string_printf mac mac_len (colons (fmt_02X <$> parts));
            Ret (NBU_SUCCESS, mac)
          else Ret (NBU_ERROR, mac)
      | None => Ret (NBU_ERROR, mac)
      end
  | _, _, _, _, _, _ => Ret (NBU_ERROR, mac)
  end.

(** [ffs]: one more than the position of the lowest set bit, 0 for 0. *)
Fixpoint ffs_from (fuel : nat) (z i : Z) : Z :=
  match fuel with
  | O => 0
  | S f => if Z.testbit z i then i + 1 else ffs_from f z (i + 1)
  end.
Definition ffs (z : Z) : Z := ffs_from 32 z 0.

(** [mask -= ffs(nm) - 1U] on [unsigned int], then the clamp. *)
Definition prefix_len (nm : Z) : Z :=
  let mask := u32 (32 - u32 (ffs nm - 1)) in
  if 32 <? mask then 0 else mask.

Definition nbu_net_get_network (ip netmask : bytes) (network : bytes) (network_size : Z)
    : outcome (Z * bytes) :=
  ip ← c_str ip;
  match inet_aton ip with
  | None => Ret (NBU_ERROR, network)
  | Some in_ipaddr =>
      netmask ← c_str netmask;
      match inet_aton netmask with
      | None => Ret (NBU_ERROR, network)
      | Some in_netmask =>
          let mask := prefix_len in_netmask in
          let in_network := Z.land in_ipaddr in_netmask in
          '(_, network) ← vsnprintf network (Z.to_nat network_size)
                            (inet_ntoa in_network ++ 47 :: fmt_u mask ++ [10]);
          Ret (NBU_SUCCESS, network)
      end
  end.

Definition nbu_net_ipfr2ipsr (ip netmask : bytes) (ezip : bytes) (ezip_size : Z)
    : outcome (Z * bytes) :=
  ip ← c_str ip;
  match inet_aton ip with
  | None => Ret (NBU_ERROR, ezip)
  | Some _ =>
      netmask ← c_str netmask;
      match inet_aton netmask with
      | None => Ret (NBU_ERROR, ezip)
      | Some in_netmask =>
          '(_, ezip) ← vsnprintf ezip (Z.to_nat ezip_size)
                         (ip ++ 47 :: fmt_u (prefix_len in_netmask) ++ [10]);
          Ret (NBU_SUCCESS, ezip)
      end
  end.

End NbuNet.

Import NbuNet.

(** *** Decimal and hexadecimal bytes *)
Lemma forall_bytes (P : Z → bool) :
  forallb (λ n, P (Z.of_nat n)) (seq 0 256) = true → ∀ n, 0 <= n < 256 → P n = true.
Proof.
  intros H n Hn. rewrite forallb_forall in H. specialize (H (Z.to_nat n)).
  rewrite Z2Nat.id in H by lia. apply H, in_seq. lia.
Qed.

Definition stops (base : Z) (r : bytes) : Prop :=
  match r with [] => True | c :: _ => digit_val base c = None end.

Lemma digits_stop base s r acc k :
  forallb (λ c, if digit_val base c is Some _ then true else false) s = true → stops base r →
  digits base (s ++ r) acc k = digits base s acc k.
Proof.
  intros Hs Hr. revert acc k. induction s as [|c s IH]; intros acc k; simpl in *.
  - destruct r as [|c r]; simpl in *; [done|]. by rewrite Hr.
  - apply andb_true_iff in Hs as [Hc Hs]. destruct (digit_val base c); [|done]. by apply IH.
Qed.

(** What the code relies on about the text [s] of a byte in a base. *)
Record byte_text (base n : Z) (s : bytes) : Prop := {
  bt_digits : forallb (λ c, if digit_val base c is Some _ then true else false) s = true;
  bt_head : ∃ c s', s = c :: s' ∧ isspace c = false ∧ c ≠ 45 ∧ c ≠ 43 ∧ c ≠ 0;
  bt_val : digits base s 0 0 = (n, length s);
  bt_text : text s;
}.

Definition byte_textb (base n : Z) (s : bytes) : bool :=
  forallb (λ c, if digit_val base c is Some _ then true else false) s &&
  match s with
  | c :: _ => negb (isspace c) && negb (c =? 45) && negb (c =? 43)
  | [] => false
  end && (fst (digits base s 0 0) =? n) && (snd (digits base s 0 0) =? length s)%nat &&
  forallb (λ c, negb (c =? 0)) s.

Lemma byte_textb_ok base n s : byte_textb base n s = true → byte_text base n s.
Proof.
  unfold byte_textb. rewrite !andb_true_iff. intros ((((H1 & H2) & H3) & H4) & H5).
  assert (text s) as Ht.
  { apply List.Forall_forall. intros c Hc. rewrite forallb_forall in H5. specialize (H5 c Hc).
    zbool. done. }
  split; [done| | |done].
  - destruct s as [|c s]; [done|]. exists c, s. zbool. split_and!; try done.
    by apply Forall_cons in Ht as [Ht _].
  - apply Nat.eqb_eq in H4. zbool. destruct (digits base s 0 0); simpl in *. congruence.
Qed.

Lemma fmt_u_byte n : 0 <= n < 256 → byte_text 10 n (fmt_u n) ∧ (1 <= length (fmt_u n) <= 3)%nat.
Proof.
  intros Hn. split.
  - apply byte_textb_ok. revert n Hn. apply forall_bytes. vm_compute. reflexivity.
  - assert ((1 <=? length (fmt_u n)) && (length (fmt_u n) <=? 3) = true)%nat as H.
    { revert n Hn. apply (forall_bytes (λ n, (1 <=? length (fmt_u n)) && (length (fmt_u n) <=? 3))%nat).
      vm_compute. reflexivity. }
    apply andb_true_iff in H as [H1 H2]. apply Nat.leb_le in H1, H2. lia.
Qed.

Lemma fmt_02X_byte n : 0 <= n < 256 → byte_text 16 n (fmt_02X n) ∧ length (fmt_02X n) = 2%nat.
Proof.
  intros Hn. split.
  - apply byte_textb_ok. revert n Hn. apply forall_bytes. vm_compute. reflexivity.
  - apply Nat.eqb_eq. revert n Hn. apply (forall_bytes (λ n, length (fmt_02X n) =? 2)%nat).
    vm_compute. reflexivity.
Qed.

Lemma skip_spaces_head c s : isspace c = false → skip_spaces (c :: s) = c :: s.
Proof. intros H. simpl. by rewrite H. Qed.

Lemma take_sign_head c s : c ≠ 45 → c ≠ 43 → take_sign (c :: s) = (false, c :: s).
Proof.
  intros H1 H2. simpl. rewrite (proj2 (Z.eqb_neq c 45)), (proj2 (Z.eqb_neq c 43)) by done. done.
Qed.

(** [%3d] on a decimal byte, [%2x] on a hexadecimal one. *)
Lemma scan_dec n r : 0 <= n < 256 → stops 10 r → scan_num 10 3 (fmt_u n ++ r) = Some (n, r).
Proof.
  intros Hn Hr. destruct (fmt_u_byte n Hn) as [[Hd (c & s' & Ec & Hsp & H45 & H43 & _) Hv _] Hl].
  unfold scan_num. rewrite Ec in *. cbn [app]. rewrite skip_spaces_head by done.
  change (c :: s' ++ r) with ((c :: s') ++ r). rewrite take_app_ge by lia.
  change ((c :: s') ++ take (3 - length (c :: s')) r) with (c :: s' ++ take (3 - length (c :: s')) r).
  rewrite take_sign_head by done.
  assert (∀ s, skip_0x 10 s = s) as H0 by (intros [|? [|? [|]]]; done). rewrite H0.
  change (c :: s' ++ take (3 - length (c :: s')) r) with ((c :: s') ++ take (3 - length (c :: s')) r).
  rewrite digits_stop; [|done|].
  2: { destruct r; [by rewrite take_nil|]. by destruct (3 - length (c :: s'))%nat. }
  rewrite Hv. cbn [Nat.eqb length]. rewrite Nat.sub_diag. simpl andb.
  rewrite s32_small by (unfold INT_MIN, INT_MAX; lia).
  replace (0 + S (length s'))%nat with (length (c :: s')) by (simpl; lia).
  by rewrite drop_app_length.
Qed.

Lemma scan_hex n r : 0 <= n < 256 → scan_num 16 2 (fmt_02X n ++ r) = Some (n, r).
Proof.
  intros Hn. destruct (fmt_02X_byte n Hn) as [[Hd (c & s' & Ec & Hsp & H45 & H43 & _) Hv _] Hl].
  rewrite Ec in *. destruct s' as [|d [|]]; simpl in Hl; try lia.
  unfold scan_num. cbn [app]. rewrite skip_spaces_head by done.
  change (take 2 (c :: d :: r)) with [c; d]. rewrite take_sign_head by done.
  cbn [skip_0x]. rewrite Hv. cbn [length Nat.eqb drop]. rewrite andb_false_r.
  rewrite s32_small by (unfold INT_MIN, INT_MAX; lia). done.
Qed.

Lemma strtol_byte base n s maxlen :
  byte_text base n s → 0 <= n < 256 → (length s <= maxlen)%nat → base = 10 ∨ maxlen = 2%nat →
  strtol s base = Strtol n [] true false.
Proof.
  intros [Hd (c & s' & -> & Hsp & H45 & H43 & _) Hv _] Hn Hl Hb. unfold strtol.
  rewrite skip_spaces_head, take_sign_head by done.
  assert (skip_0x base (c :: s') = c :: s') as ->.
  { destruct Hb as [->| ->]; destruct s' as [|? [|]]; try done. simpl in Hl. lia. }
  rewrite Hv. cbn [Nat.eqb length]. unfold LONG_MIN, LONG_MAX, INT_MIN, INT_MAX.
  rewrite (proj2 (Z.ltb_ge _ _)), (proj2 (Z.ltb_ge _ _)) by lia.
  cbn [drop]. by rewrite drop_all.
Qed.

Lemma stops_dot r : stops 10 (46 :: r).
Proof. done. Qed.

Lemma sscanf_dotted a b c d :
  0 <= a < 256 → 0 <= b < 256 → 0 <= c < 256 → 0 <= d < 256 →
  sscanf (dotted a b c d) ip_format = [a; b; c; d].
Proof.
  intros Ha Hb Hc Hd. unfold dotted, ip_format. cbn [sscanf].
  rewrite scan_dec by (done || apply stops_dot). cbn [sscanf Z.eqb Pos.eqb].
  rewrite scan_dec by (done || apply stops_dot). cbn [sscanf Z.eqb Pos.eqb].
  rewrite scan_dec by (done || apply stops_dot). cbn [sscanf Z.eqb Pos.eqb].
  rewrite <- (app_nil_r (fmt_u d)). by rewrite scan_dec.
Qed.

(** Any list of bytes passes [all_bytes], and only bytes do. *)
Lemma all_bytes_ok l : Forall (λ n, 0 <= n < 256) l → all_bytes l = true.
Proof.
  intros H. unfold all_bytes. apply Z.eqb_eq.
  assert (∀ acc, 0 <= acc < 256 → 0 <= fold_left Z.lor l acc < 256) as Hf.
  { induction H as [|n l Hn _ IH]; intros acc Hacc; simpl; [done|]. apply IH.
    assert (0 <= Z.lor acc n) by (apply Z.lor_nonneg; lia). split; [done|]. destruct (decide (Z.lor acc n = 0)) as [->|Hne]; [lia|].
    apply (Z.log2_lt_pow2 _ 8); [lia|].
    rewrite Z.log2_lor by lia. apply Z.max_lub_lt;
      (destruct (decide (acc = 0)) as [->|]; destruct (decide (n = 0)) as [->|]; simpl;
       try lia; apply Z.log2_lt_pow2; lia). }
  specialize (Hf 0 ltac:(lia)). rewrite u32_small by lia.
  set (z := fold_left Z.lor l 0) in *. clearbody z. apply Z.bits_inj'. intros i Hi.
  rewrite Z.land_spec, Z.bits_0. destruct (decide (i < 8)) as [Hlt|Hge].
  - apply andb_false_iff. right.
    assert (i = 0 ∨ i = 1 ∨ i = 2 ∨ i = 3 ∨ i = 4 ∨ i = 5 ∨ i = 6 ∨ i = 7) by lia.
    naive_solver.
  - apply andb_false_iff. left. destruct (decide (z = 0)) as [->|]; [apply Z.bits_0|].
    apply Z.bits_above_log2; [lia|]. apply Z.log2_lt_pow2; [lia|].
    assert (2 ^ 8 <= 2 ^ i) by (apply Z.pow_le_mono_r; lia). lia.
Qed.

Lemma digit_in_set base n s set :
  byte_text base n s →
  (∀ c, digit_val base c ≠ None → existsb (Z.eqb c) set = true) →
  ∀ r, strspn (s ++ r) set = (length s + strspn r set)%nat.
Proof.
  intros [Hd _ _ _] Hset r. clear n. induction s as [|c s IH]; simpl in *; [done|].
  apply andb_true_iff in Hd as [Hc Hd]. rewrite Hset by by destruct (digit_val base c).
  by rewrite IH.
Qed.

Lemma dec_digits_in c : digit_val 10 c ≠ None → existsb (Z.eqb c) (lit "0123456789.") = true.
Proof.
  unfold digit_val, isdigit. destruct ((48 <=? c) && (c <=? 57)) eqn:E; [|done]. intros _. zbool.
  assert (c = 48 ∨ c = 49 ∨ c = 50 ∨ c = 51 ∨ c = 52 ∨ c = 53 ∨ c = 54 ∨ c = 55 ∨ c = 56 ∨ c = 57)
    by lia. naive_solver.
Qed.

Lemma dotted_length a b c d :
  0 <= a < 256 → 0 <= b < 256 → 0 <= c < 256 → 0 <= d < 256 →
  (6 < length (dotted a b c d) < 16)%nat.
Proof.
  intros Ha Hb Hc Hd. unfold dotted. rewrite !length_app. cbn [length]. rewrite !length_app. cbn [length].
  rewrite !length_app. cbn [length].
  destruct (fmt_u_byte a Ha), (fmt_u_byte b Hb), (fmt_u_byte c Hc), (fmt_u_byte d Hd). lia.
Qed.

Lemma dotted_text a b c d :
  0 <= a < 256 → 0 <= b < 256 → 0 <= c < 256 → 0 <= d < 256 → text (dotted a b c d).
Proof.
  intros Ha Hb Hc Hd. unfold dotted.
  repeat (rewrite Forall_app || rewrite Forall_cons).
  split_and!; try lia; by eapply bt_text, fmt_u_byte.
Qed.

Lemma dotted_span a b c d :
  0 <= a < 256 → 0 <= b < 256 → 0 <= c < 256 → 0 <= d < 256 →
  strspn (dotted a b c d) (lit "0123456789.") = length (dotted a b c d).
Proof.
  intros Ha Hb Hc Hd. unfold dotted.
  assert (∀ r, strspn (46 :: r) (lit "0123456789.") = S (strspn r (lit "0123456789."))) as Hdot by done.
  rewrite (digit_in_set 10 a) by (by apply fmt_u_byte || apply dec_digits_in). rewrite Hdot.
  rewrite (digit_in_set 10 b) by (by apply fmt_u_byte || apply dec_digits_in). rewrite Hdot.
  rewrite (digit_in_set 10 c) by (by apply fmt_u_byte || apply dec_digits_in). rewrite Hdot.
  rewrite <- (app_nil_r (fmt_u d)) at 1.
  rewrite (digit_in_set 10 d) by (by apply fmt_u_byte || apply dec_digits_in).
  rewrite !length_app. cbn [length]. rewrite !length_app. cbn [length]. rewrite !length_app. simpl. lia.
Qed.

(** Reading a dotted quad gives its bytes. *)
Lemma read_ip_dotted a b c d r :
  0 <= a < 256 → 0 <= b < 256 → 0 <= c < 256 → 0 <= d < 256 →
  read_ip (dotted a b c d ++ 0 :: r) = Ret (Some [a; b; c; d]).
Proof.
  intros Ha Hb Hc Hd. pose proof (dotted_length a b c d Ha Hb Hc Hd) as Hl.
  destruct (copy_ok (local_buf 17) 17 (dotted a b c d ++ 0 :: r) (dotted a b c d))
    as (m' & E & [Ht _ _]).
  { unfold local_buf. rewrite length_replicate. lia. }
  { unfold INT_MAX. lia. }
  { by apply str_of_app, dotted_text. }
  unfold read_ip, buf_of. rewrite E. cbn [mbind outcome_bind must]. unfold c_str. rewrite Ht.
  rewrite take_ge by lia. cbn [must mbind outcome_bind].
  rewrite (proj2 (Nat.ltb_lt 6 _)), (proj2 (Nat.ltb_lt _ 16)) by lia.
  rewrite dotted_span by done. rewrite Nat.eqb_refl. cbn [andb].
  rewrite sscanf_dotted by done. cbn [length Nat.eqb andb].
  rewrite all_bytes_ok; [done|]. by rewrite !Forall_cons, Forall_nil.
Qed.

(** *** Netmasks *)

(** The lowest set bit of [w] decides: a number that is below its own complement
    bit for bit is a power of two. *)
Lemma self_land_pow2 w :
  0 < w < 2 ^ 32 → Z.land (2 ^ 32 - w) w = w → w = 2 ^ Z.log2 w ∧ Z.log2 w < 32.
Proof.
  intros Hw Hl. set (i := Z.log2 w). pose proof (Z.log2_spec w ltac:(lia)) as Hspec. fold i in Hspec.
  pose proof (Z.log2_nonneg w) as Hi0. fold i in Hi0.
  assert (i < 32) as Hi by (apply Z.log2_lt_pow2; lia). split; [|done].
  destruct (decide (w = 2 ^ i)) as [|Hne]; [done|exfalso].
  assert (Z.testbit (2 ^ 32 - w) i = true) as Hb.
  { assert (Z.testbit w i = true) as Hwi by (apply Z.bit_log2; lia).
    rewrite <- Hl, Z.land_spec in Hwi. by apply andb_true_iff in Hwi as [? _]. }
  apply Z.testbit_true in Hb; [|done].
  assert ((2 ^ 32 - w) / 2 ^ i = 2 ^ (32 - i) - 2) as Hq.
  { symmetry. apply (Z.div_unique _ _ _ (2 ^ (i + 1) - w)).
    - left. rewrite Z.pow_add_r, Z.pow_1_r in * by lia. rewrite <- Z.add_1_r in Hspec.
      rewrite Z.pow_add_r in Hspec by lia. lia.
    - rewrite Z.mul_sub_distr_l, <- Z.pow_add_r by lia.
      replace (i + (32 - i)) with 32 by lia. rewrite Z.pow_add_r by lia. lia. }
  rewrite Hq in Hb. replace (32 - i) with (1 + (31 - i)) in Hb by lia.
  rewrite Z.pow_add_r, Z.pow_1_r in Hb by lia.
  replace (2 * 2 ^ (31 - i) - 2) with ((2 ^ (31 - i) - 1) * 2) in Hb by lia.
  rewrite Z.mod_mul in Hb; lia.
Qed.

(** The bit trick recognises exactly the masks that are a run of ones followed by
    zeros. *)
Lemma contiguous_ok nm :
  0 <= nm < 2 ^ 32 → contiguous nm = true ↔ ∃ k, 0 <= k <= 32 ∧ nm = 2 ^ 32 - 2 ^ k.
Proof.
  intros Hnm. unfold contiguous. rewrite Z.eqb_eq. split.
  - remember (Z.land nm (u32 (- nm))) as w eqn:Ew. intros E.
    pose proof (u32_range (- nm)) as Hu.
    assert (0 <= w) as Hw0 by (subst w; apply Z.land_nonneg; lia).
    destruct (decide (w = 0)) as [Hw|Hw].
    { exists 32. rewrite Hw in E. split; [lia|]. rewrite <- E. reflexivity. }
    assert (w < 2 ^ 32) as Hw1.
    { apply Z.log2_lt_cancel. rewrite Z.log2_pow2 by lia. rewrite Ew.
      pose proof (Z.log2_land nm (u32 (- nm)) ltac:(lia) ltac:(lia)) as Hl.
      destruct (decide (nm = 0)) as [->|]; [simpl; lia|].
      assert (Z.log2 nm < 32) by (apply Z.log2_lt_pow2; lia). lia. }
    assert (∀ z, 0 < z < 2 ^ 32 → u32 (- z) = 2 ^ 32 - z) as Hneg.
    { intros z Hz. unfold u32. symmetry. apply (Z.mod_unique _ _ (-1)); lia. }
    rewrite Hneg in E by lia.
    rewrite (Hneg nm) in Ew by lia. rewrite <- E in Ew at 2.
    replace (2 ^ 32 - (2 ^ 32 - w)) with w in Ew by lia. rewrite <- E in Ew.
    destruct (self_land_pow2 w) as [Hp Hlt]; [lia|done|].
    pose proof (Z.log2_nonneg w). exists (Z.log2 w). split; [lia|]. lia.
  - intros (k & Hk & ->).
    assert (k ∈ seqZ 0 33) as Hin by (apply elem_of_seqZ; lia). clear Hk Hnm.
    revert k Hin. apply Forall_forall. apply (bool_decide_unpack _). vm_compute. exact I.
Qed.

Lemma fmt_d_byte n : 0 <= n < 256 → fmt_d n = fmt_u n.
Proof. intros H. unfold fmt_d. by rewrite (proj2 (Z.ltb_ge _ _)) by lia. Qed.

Lemma print_parts_ok size ts :
  (0 < size)%nat → Z.of_nat size <= INT_MAX → Forall (λ t, text t ∧ (length t < size)%nat) ts →
  ∃ ps, print_parts size ts = Ret ps ∧ Forall2 (λ p t, str_of p = Some t) ps ts.
Proof.
  intros Hs Hi. induction 1 as [|t ts [Ht Hl] _ (ps & E & IH)]; [by exists []|].
  cbn [print_parts].
  destruct (printf_ok (replicate size 0) (Z.of_nat size) t) as (m' & E' & Hm & _);
    [rewrite length_replicate; lia|done|done|].
  unfold buf_of. rewrite E'. cbn [mbind outcome_bind must]. rewrite E.
  exists (m' :: ps). split; [done|]. constructor; [|done]. rewrite Hm, take_ge by lia. done.
Qed.

Lemma join_loop_ok base maxlen ps ns m len :
  (base = 10 ∧ maxlen = 3%nat) ∨ (base = 16 ∧ maxlen = 2%nat) →
  0 < len <= Z.of_nat (length m) → len <= INT_MAX → Z.of_nat maxlen < len →
  Forall2 (λ p n, 0 <= n < 256 ∧ ∃ s, str_of p = Some s ∧ byte_text base n s ∧
                  (length s <= maxlen)%nat) ps ns →
  ∃ m', join_loop base (Z.of_nat maxlen) ps (Some m) len = Ret (Some ns, Some m') ∧
        length m' = length m.
Proof.
  intros Hb Hlen Hi Hmax H. revert m Hlen.
  induction H as [|p n ps ns (Hn & s & Es & Hbt & Hl) _ IH]; intros m Hlen; [by exists m|].
  cbn [join_loop]. destruct (copy_ok m len p s Hlen Hi Es) as (m1 & E1 & [Ht Hl1 _]).
  rewrite E1. cbn [mbind outcome_bind must]. unfold c_str. rewrite Ht. cbn [must mbind outcome_bind].
  rewrite take_ge by lia. destruct (bt_head _ _ _ Hbt) as (c & s' & Ec & _).
  assert (1 <= length s)%nat by (subst; simpl; lia). clear Ec.
  rewrite (proj2 (Z.ltb_ge _ 1)), (proj2 (Z.ltb_ge _ _)) by lia. cbn [orb].
  rewrite (strtol_byte base n s maxlen) by (done || naive_solver).
  cbn [st_some st_end st_erange st_val negb length Nat.eqb orb].
  destruct (IH m1 ltac:(by rewrite Hl1)) as (m' & -> & Hl'). exists m'. split; [done|congruence].
Qed.

(** Only bytes pass [all_bytes]. *)
Lemma all_bytes_inv l : Forall (λ n, INT_MIN <= n <= INT_MAX) l → all_bytes l = true → Forall (λ n, 0 <= n < 256) l.
Proof.
  intros Hr Hb. unfold all_bytes in Hb. apply Z.eqb_eq in Hb.
  assert (∀ i acc, Z.testbit (fold_left Z.lor l acc) i = false → Forall (λ n, Z.testbit n i = false) l) as Hf.
  { clear. intros i. induction l as [|n l IH]; intros acc E; [done|]. cbn [fold_left] in E. constructor; [|by eapply IH].
    assert (Z.testbit (Z.lor acc n) i = false) as E'.
    { clear IH. revert E. generalize (Z.lor acc n). induction l as [|m l IH]; intros z E; [done|].
      cbn [fold_left] in E. apply IH in E. rewrite Z.lor_spec in E. by apply orb_false_iff in E as [? _]. }
    rewrite Z.lor_spec in E'. by apply orb_false_iff in E' as [_ ?]. }
  assert (∀ i, 8 <= i < 32 → Forall (λ n, Z.testbit n i = false) l) as Hh.
  { intros i Hi. apply (Hf i 0). assert (Z.testbit (Z.land (u32 (fold_left Z.lor l 0)) 4294967040) i = false) as E
      by (rewrite Hb; apply Z.bits_0).
    rewrite Z.land_spec in E. change 4294967040 with (Z.shiftl (Z.ones 24) 8) in E.
    rewrite Z.shiftl_spec, Z.testbit_ones_nonneg, (proj2 (Z.ltb_lt _ _)), andb_true_r in E by lia.
    unfold u32 in E. change (2 ^ 32) with (2 ^ 32) in E. by rewrite Z.mod_pow2_bits_low in E by lia. }
  apply Forall_forall. intros n Hn. rewrite Forall_forall in Hr. specialize (Hr n Hn).
  assert (∀ i, 8 <= i < 32 → Z.testbit n i = false) as Hbits by (intros i Hi; by apply (proj1 (Forall_forall _ _) (Hh i Hi))).
  assert (n = n mod 2 ^ 8) as ->; [|apply Z.mod_pos_bound; lia].
  assert (n mod 2 ^ 31 = n mod 2 ^ 8) as E.
  { apply Z.bits_inj'. intros i Hi. destruct (decide (i < 8)).
    - by rewrite !Z.mod_pow2_bits_low by lia.
    - rewrite (Z.mod_pow2_bits_high n 8) by lia. destruct (decide (i < 31)).
      + rewrite Z.mod_pow2_bits_low by lia. apply Hbits. lia.
      + by apply Z.mod_pow2_bits_high; lia. }
  rewrite <- E. unfold INT_MIN, INT_MAX in Hr. destruct (decide (0 <= n)); [by rewrite Z.mod_small by lia|].
  exfalso. specialize (Hbits 31 ltac:(lia)). rewrite Z.testbit_false in Hbits by lia.
  replace (n / 2 ^ 31) with (-1) in Hbits; [done|]. apply (Z.div_unique _ _ _ (n + 2 ^ 31)); lia.
Qed.

Lemma strtol_range s base : INT_MIN <= st_val (strtol s base) <= INT_MAX.
Proof.
  unfold strtol. case_match. case_match. unfold LONG_MIN, LONG_MAX. repeat case_match; cbn [st_val]; zbool; unfold INT_MIN, INT_MAX in *; lia.
Qed.

(** The numbers that [join_loop] reads. *)
Lemma join_loop_inv base maxlen ps ts m len ns o :
  0 < len <= Z.of_nat (length m) → len <= INT_MAX → maxlen < len - 1 →
  Forall2 (λ p t, str_of p = Some t) ps ts →
  join_loop base maxlen ps (Some m) len = Ret (Some ns, o) →
  ns = (λ t, st_val (strtol t base)) <$> ts ∧ ∃ m', o = Some m' ∧ length m' = length m.
Proof.
  intros Hlen Hi Hmax Hps. revert m ns o Hlen.
  induction Hps as [|p t ps ts Hp Hps IH]; intros m ns o Hlen E; cbn [join_loop] in E.
  { injection E as <- <-. eauto. }
  destruct (copy_ok m len p t Hlen Hi Hp) as (m1 & E1 & [Ht Hl1 _]). rewrite E1 in E.
  cbn [mbind outcome_bind must] in E. unfold c_str in E. rewrite Ht in E. cbn [must mbind outcome_bind] in E.
  destruct (_ || _) eqn:Hm in E; [done|]. apply orb_false_iff in Hm as [_ Hm]. apply Z.ltb_ge in Hm.
  assert (take (Z.to_nat (len - 1)) t = t) as Et.
  { apply take_ge. rewrite length_take in Hm. lia. }
  rewrite Et in E. destruct (_ || _) in E; [done|].
  destruct (join_loop base maxlen ps (Some m1) len) as [[vs o1]| | |] eqn:El; try done. cbn in E.
  destruct vs as [vs|]; [|done]. injection E as <- <-.
  destruct (IH m1 vs o1 ltac:(by rewrite Hl1) El) as [-> (m' & -> & Hl')]. split; [done|]. exists m'. split; [done|congruence].
Qed.

(** What [nbu_net_join_ip] accepts: four numbers that are bytes. *)
Lemma join_ip_inv p0 p1 p2 p3 t0 t1 t2 t3 buf r o :
  str_of p0 = Some t0 → str_of p1 = Some t1 → str_of p2 = Some t2 → str_of p3 = Some t3 → length buf = 16%nat →
  nbu_net_join_ip (Some p0) (Some p1) (Some p2) (Some p3) (Some buf) 16 = Ret (r, o) → r = NBU_SUCCESS →
  Forall (λ t, 0 <= st_val (strtol t 10) < 256) [t0; t1; t2; t3] ∧
  ∃ ip, o = Some ip ∧ str_of ip = Some (dotted (st_val (strtol t0 10)) (st_val (strtol t1 10))
                                         (st_val (strtol t2 10)) (st_val (strtol t3 10))).
Proof.
  intros H0 H1 H2 H3 Hb E ->. unfold nbu_net_join_ip in E.
  destruct (join_loop 10 3 [p0; p1; p2; p3] (Some buf) 16) as [[vs o1]| | |] eqn:El; try done. cbn in E.
  destruct vs as [ns|]; [|done].
  apply (join_loop_inv 10 3 _ [t0; t1; t2; t3]) in El as [-> (m & -> & Hm)]; [|lia|done|lia|by repeat constructor].
  destruct (all_bytes _) eqn:Ha; [|done]. apply all_bytes_inv in Ha.
  2: { cbn [fmap list_fmap]. repeat constructor; apply strtol_range. }
  cbn [fmap list_fmap] in Ha, E. repeat (apply Forall_cons in Ha as [? Ha]).
  split; [repeat (apply Forall_cons; split; [done|]); by apply Forall_nil|]. rewrite !fmt_d_byte in E by done.
  destruct (printf_ok m 16 (dotted (st_val (strtol t0 10)) (st_val (strtol t1 10)) (st_val (strtol t2 10)) (st_val (strtol t3 10))))
    as (m' & E' & Hm' & _); [lia|done|by apply dotted_text|].
  change (join [46] _) with (dotted (st_val (strtol t0 10)) (st_val (strtol t1 10)) (st_val (strtol t2 10)) (st_val (strtol t3 10))) in E.
  rewrite E' in E. injection E as <-. exists m'. split; [done|].
  rewrite Hm', take_ge; [done|]. pose proof (dotted_length (st_val (strtol t0 10)) (st_val (strtol t1 10)) (st_val (strtol t2 10)) (st_val (strtol t3 10))). lia.
Qed.

(** The parts [nbu_net_split_ip] gives for a dotted quad. *)
Lemma split_ip_ok a b c d r parts :
  0 <= a < 256 → 0 <= b < 256 → 0 <= c < 256 → 0 <= d < 256 →
  ∃ p0 p1 p2 p3, nbu_net_split_ip (Some (dotted a b c d ++ 0 :: r)) parts
    = Ret (NBU_SUCCESS, [p0; p1; p2; p3]) ∧
    Forall2 (λ p n, str_of p = Some (fmt_u n)) [p0; p1; p2; p3] [a; b; c; d].
Proof.
  intros Ha Hb Hc Hd. unfold nbu_net_split_ip. rewrite read_ip_dotted by done.
  cbn [mbind outcome_bind].
  destruct (print_parts_ok 4 (fmt_d <$> [a; b; c; d])) as (ps & E & Hps); [lia|done| |].
  { cbn. rewrite !fmt_d_byte by done.
    rewrite !Forall_cons, Forall_nil.
    split_and!; try done; first [by eapply bt_text, fmt_u_byte
      | match goal with |- (length (fmt_u ?n) < 4)%nat => destruct (fmt_u_byte n); [done|lia] end]. }
  rewrite E. cbn in Hps. rewrite !fmt_d_byte in Hps by done.
  apply Forall2_cons_inv_r in Hps as (p0 & ? & ? & Hps & ->).
  apply Forall2_cons_inv_r in Hps as (p1 & ? & ? & Hps & ->).
  apply Forall2_cons_inv_r in Hps as (p2 & ? & ? & Hps & ->).
  apply Forall2_cons_inv_r in Hps as (p3 & ? & ? & Hps & ->).
  apply Forall2_nil_inv_r in Hps as ->. exists p0, p1, p2, p3.
  split; [done|]. by repeat constructor.
Qed.

(** Splitting a dotted quad and joining the parts gives the address back. *)
Theorem nbu_net_ip_roundtrip a b c d r parts buf :
  0 <= a < 256 → 0 <= b < 256 → 0 <= c < 256 → 0 <= d < 256 → length buf = 16%nat →
  ∃ p0 p1 p2 p3 buf',
    nbu_net_split_ip (Some (dotted a b c d ++ 0 :: r)) parts
    = Ret (NBU_SUCCESS, [p0; p1; p2; p3]) ∧
    nbu_net_join_ip (Some p0) (Some p1) (Some p2) (Some p3) (Some buf) 16
    = Ret (NBU_SUCCESS, Some buf') ∧ str_of buf' = Some (dotted a b c d).
Proof.
  intros Ha Hb Hc Hd Hbuf.
  destruct (split_ip_ok a b c d r parts Ha Hb Hc Hd) as (p0 & p1 & p2 & p3 & E & Hps).
  exists p0, p1, p2, p3. unfold nbu_net_join_ip.
  destruct (join_loop_ok 10 3 [p0; p1; p2; p3] [a; b; c; d] buf 16) as (m1 & E1 & Hl1);
    [by left|lia|done|lia| |].
  { eapply Forall2_impl; [|intros p n Hp; exact Hp].
    repeat (apply Forall2_cons in Hps as [? Hps]).
    repeat (apply Forall2_cons; split); try apply Forall2_nil; try done;
      (split; [done|]; eexists; split_and!; [eassumption|by apply fmt_u_byte|by apply fmt_u_byte]). }
  change (Z.of_nat 3) with 3 in E1. rewrite E1. cbn [mbind outcome_bind].
  rewrite all_bytes_ok by by rewrite !Forall_cons, Forall_nil.
  assert (join [46] (fmt_d <$> [a; b; c; d]) = dotted a b c d) as ->
    by (cbn; by rewrite !fmt_d_byte by done).
  pose proof (dotted_length a b c d Ha Hb Hc Hd).
  destruct (printf_ok m1 16 (dotted a b c d)) as (m2 & E2 & Ht & _);
    [lia|done|by apply dotted_text|].
  rewrite E2. exists m2. split_and!; [done|done|]. by rewrite Ht, take_ge by lia.
Qed.

Lemma nbu_net_ip_roundtrip_witness :
  ∃ p0 p1 p2 p3 buf',
    nbu_net_split_ip (Some (dotted 192 168 1 254 ++ [0])) []
    = Ret (NBU_SUCCESS, [p0; p1; p2; p3]) ∧
    nbu_net_join_ip (Some p0) (Some p1) (Some p2) (Some p3) (Some (local_buf 16)) 16
    = Ret (NBU_SUCCESS, Some buf') ∧ str_of buf' = Some (dotted 192 168 1 254).
Proof. apply (nbu_net_ip_roundtrip 192 168 1 254 [] [] (local_buf 16)); lia || done. Defined.

(** *** MAC addresses *)
Definition mac_text (ns : list Z) : bytes := colons (fmt_02X <$> ns).

Lemma sscanf_mac n0 n1 n2 n3 n4 n5 :
  Forall (λ n, 0 <= n < 256) [n0; n1; n2; n3; n4; n5] →
  sscanf (mac_text [n0; n1; n2; n3; n4; n5]) mac_format = [n0; n1; n2; n3; n4; n5].
Proof.
  rewrite !Forall_cons. intros (H0 & H1 & H2 & H3 & H4 & H5 & _).
  unfold mac_text, colons, mac_format. cbn [fmap list_fmap join sscanf app].
  do 5 (rewrite scan_hex by done; cbn [sscanf Z.eqb Pos.eqb app]).
  rewrite <- (app_nil_r (fmt_02X n5)). by rewrite scan_hex.
Qed.

Lemma hex_digits_in c :
  digit_val 16 c ≠ None → existsb (Z.eqb c) (lit "0123456789abcdefABCDEF:") = true.
Proof.
  unfold digit_val, isdigit. cbn [Z.eqb Pos.eqb negb].
  destruct ((48 <=? c) && (c <=? 57)) eqn:E1; [|destruct ((65 <=? c) && (c <=? 70)) eqn:E2;
    [|destruct ((97 <=? c) && (c <=? 102)) eqn:E3; [|done]]]; intros _; zbool.
  - assert (c = 48 ∨ c = 49 ∨ c = 50 ∨ c = 51 ∨ c = 52 ∨ c = 53 ∨ c = 54 ∨ c = 55 ∨ c = 56 ∨ c = 57)
      by lia. naive_solver.
  - assert (c = 65 ∨ c = 66 ∨ c = 67 ∨ c = 68 ∨ c = 69 ∨ c = 70) by lia. naive_solver.
  - assert (c = 97 ∨ c = 98 ∨ c = 99 ∨ c = 100 ∨ c = 101 ∨ c = 102) by lia. naive_solver.
Qed.

Lemma mac_text_facts ns :
  Forall (λ n, 0 <= n < 256) ns → ns ≠ [] →
  text (mac_text ns) ∧ S (length (mac_text ns)) = (3 * length ns)%nat ∧
  strspn (mac_text ns) (lit "0123456789abcdefABCDEF:") = length (mac_text ns).
Proof.
  induction 1 as [|n ns Hn Hns IH]; [done|intros _].
  destruct (fmt_02X_byte n Hn) as [Hbt Hl]. pose proof (bt_text _ _ _ Hbt) as Ht.
  pose proof (digit_in_set 16 n _ (lit "0123456789abcdefABCDEF:") Hbt hex_digits_in) as Hsp.
  destruct ns as [|n' ns].
  - unfold mac_text, colons. cbn [fmap list_fmap join]. split_and!; [done|cbn [length]; lia|].
    rewrite <- (app_nil_r (fmt_02X n)) at 1. rewrite Hsp. simpl. lia.
  - destruct (IH ltac:(done)) as (Ht' & Hl' & Hs').
    change (mac_text (n :: n' :: ns)) with (fmt_02X n ++ 58 :: mac_text (n' :: ns)).
    split_and!.
    + apply Forall_app. split; [done|]. by apply Forall_cons.
    + rewrite length_app. cbn [length] in *. lia.
    + rewrite Hsp, length_app. f_equal. change (strspn (58 :: ?s) ?a) with (S (strspn s a)).
      cbn [length]. by rewrite <- Hs'.
Qed.

Lemma split_mac_ok n0 n1 n2 n3 n4 n5 r parts (ns := [n0; n1; n2; n3; n4; n5]) :
  Forall (λ n, 0 <= n < 256) ns →
  ∃ ps, nbu_net_split_mac (Some (mac_text ns ++ 0 :: r)) parts = Ret (NBU_SUCCESS, ps) ∧
        Forall2 (λ p n, str_of p = Some (fmt_02X n)) ps ns.
Proof.
  intros H. destruct (mac_text_facts ns H ltac:(done)) as (Ht & Hl & Hsp). change (3 * length ns)%nat with 18%nat in Hl.
  destruct (copy_ok (local_buf 19) 19 (mac_text ns ++ 0 :: r) (mac_text ns)) as (m' & E & [Htx _ _]).
  { unfold local_buf. rewrite length_replicate. lia. }
  { done. }
  { by apply str_of_app. }
  unfold nbu_net_split_mac, buf_of. rewrite E. cbn [mbind outcome_bind must]. unfold c_str.
  rewrite Htx, take_ge by lia. cbn [must mbind outcome_bind].
  rewrite Hsp, Nat.eqb_refl.
  rewrite (proj2 (Nat.ltb_lt 10 _)), (proj2 (Nat.ltb_lt _ 18)) by lia. cbn [andb].
  unfold ns at 1 2 3. rewrite sscanf_mac by done. cbn [length Nat.eqb andb].
  rewrite all_bytes_ok by done.
  destruct (print_parts_ok 3 (fmt_02X <$> ns)) as (ps & E' & Hps); [lia|done| |].
  { apply Forall_fmap. eapply Forall_impl; [exact H|]. intros n Hn. simpl.
    destruct (fmt_02X_byte n Hn) as [Hbt ->]. split; [by eapply bt_text|lia]. }
  unfold ns in E'. rewrite E'. exists ps. split; [done|].
  by apply Forall2_fmap_r in Hps.
Qed.

(** Splitting a MAC address in upper case and joining the parts gives the
    address back. *)
Theorem nbu_net_mac_roundtrip n0 n1 n2 n3 n4 n5 r parts buf (ns := [n0; n1; n2; n3; n4; n5]) :
  Forall (λ n, 0 <= n < 256) ns → length buf = 18%nat →
  ∃ p0 p1 p2 p3 p4 p5 buf',
    nbu_net_split_mac (Some (mac_text ns ++ 0 :: r)) parts
    = Ret (NBU_SUCCESS, [p0; p1; p2; p3; p4; p5]) ∧
    nbu_net_join_mac (Some p0) (Some p1) (Some p2) (Some p3) (Some p4) (Some p5) (Some buf) 18
    = Ret (NBU_SUCCESS, Some buf') ∧ str_of buf' = Some (mac_text ns).
Proof.
  intros H Hbuf. destruct (split_mac_ok n0 n1 n2 n3 n4 n5 r parts H) as (ps & E & Hps).
  destruct (mac_text_facts ns H ltac:(done)) as (Ht & Hl & _). change (3 * length ns)%nat with 18%nat in Hl.
  destruct (join_loop_ok 16 2 ps ns buf 18) as (m1 & E1 & Hl1); [by right|lia|done|lia| |].
  { apply Forall2_same_length_lookup. split; [by eapply Forall2_length|].
    intros i p n Hp Hn. pose proof (Forall_lookup_1 _ _ _ _ H Hn) as Hb. simpl in Hb.
    destruct (Forall2_lookup_l _ _ _ _ _ Hps Hp) as (n' & Hn' & Hs).
    fold ns in Hn'. assert (n' = n) as -> by congruence. split; [done|]. exists (fmt_02X n). destruct (fmt_02X_byte n Hb) as [? ->].
    split_and!; done || lia. }
  do 6 (apply Forall2_cons_inv_r in Hps as (?p & ? & _ & Hps & ->)).
  apply Forall2_nil_inv_r in Hps as ->. do 6 eexists. unfold nbu_net_join_mac.
  change (Z.of_nat 2) with 2 in E1. erewrite E1. cbn [mbind outcome_bind].
  rewrite all_bytes_ok by done.
  destruct (printf_ok m1 18 (mac_text ns)) as (m2 & E2 & Ht2 & _); [lia|done|done|].
  unfold mac_text in E2. rewrite E2. exists m2. split_and!; [exact E|done|].
  by rewrite Ht2, take_ge by lia.
Qed.

Lemma nbu_net_mac_roundtrip_witness :
  ∃ p0 p1 p2 p3 p4 p5 buf',
    nbu_net_split_mac (Some (mac_text [0; 23; 51; 171; 205; 239] ++ [0])) []
    = Ret (NBU_SUCCESS, [p0; p1; p2; p3; p4; p5]) ∧
    nbu_net_join_mac (Some p0) (Some p1) (Some p2) (Some p3) (Some p4) (Some p5)
      (Some (local_buf 18)) 18
    = Ret (NBU_SUCCESS, Some buf') ∧ str_of buf' = Some (mac_text [0; 23; 51; 171; 205; 239]).
Proof.
  apply (nbu_net_mac_roundtrip 0 23 51 171 205 239 [] [] (local_buf 18)); [|done].
  apply (bool_decide_unpack _). vm_compute. exact I.
Defined.

(** *** Addresses as numbers *)
Definition addr (a b c d : Z) : Z := a * 2 ^ 24 + b * 2 ^ 16 + c * 2 ^ 8 + d.

Lemma addr_range a b c d :
  0 <= a < 256 → 0 <= b < 256 → 0 <= c < 256 → 0 <= d < 256 → 0 <= addr a b c d < 2 ^ 32.
Proof. unfold addr. lia. Qed.

Lemma netmask_loop_ok a b c d p0 p1 p2 p3 :
  0 <= a < 256 → 0 <= b < 256 → 0 <= c < 256 → 0 <= d < 256 →
  Forall2 (λ p n, str_of p = Some (fmt_u n)) [p0; p1; p2; p3] [a; b; c; d] →
  netmask_loop 0 [p0; p1; p2; p3] 0 = Ret (Some (addr a b c d)).
Proof.
  intros Ha Hb Hc Hd H. rewrite !Forall2_cons in H. destruct H as (E0 & E1 & E2 & E3 & _).
  assert (∀ n, 0 <= n < 256 → strtol (fmt_u n) 10 = Strtol n [] true false) as Hs.
  { intros n Hn. destruct (fmt_u_byte n Hn) as [Hbt Hl].
    apply (strtol_byte 10 n _ 3); [done|done|lia|by left]. }
  cbn [netmask_loop]. unfold c_str. rewrite E0, E1, E2, E3. cbn [must mbind outcome_bind].
  rewrite !Hs by done. cbn [st_erange st_val]. rewrite !Z.shiftl_mul_pow2 by lia.
  change ((3 - 0) * 8) with 24. change ((3 - (0 + 1)) * 8) with 16.
  change ((3 - (0 + 1 + 1)) * 8) with 8. change ((3 - (0 + 1 + 1 + 1)) * 8) with 0.
  do 2 f_equal. unfold addr.
  rewrite (u32_small (0 + a * 2 ^ 24)) by lia.
  rewrite (u32_small (0 + a * 2 ^ 24 + b * 2 ^ 16)) by lia.
  rewrite (u32_small (0 + a * 2 ^ 24 + b * 2 ^ 16 + c * 2 ^ 8)) by lia.
  rewrite u32_small; lia.
Qed.

Lemma validate_netmask_ok a b c d r :
  0 <= a < 256 → 0 <= b < 256 → 0 <= c < 256 → 0 <= d < 256 →
  nbu_net_validate_netmask (Some (dotted a b c d ++ 0 :: r))
  = Ret (if contiguous (addr a b c d) then NBU_SUCCESS else NBU_ERROR).
Proof.
  intros Ha Hb Hc Hd. unfold nbu_net_validate_netmask.
  destruct (split_ip_ok a b c d r (replicate 4 (local_buf 4)) Ha Hb Hc Hd)
    as (p0 & p1 & p2 & p3 & -> & Hps).
  cbn [mbind outcome_bind]. change (NBU_SUCCESS =? 0) with true. cbn iota.
  by rewrite (netmask_loop_ok a b c d) by done.
Qed.

(** C38: [nbu_net_validate_netmask] accepts a dotted quad exactly when its 32 bits
    are a run of ones followed by a run of zeros. *)
Theorem nbu_net_validate_netmask_contiguous a b c d r :
  0 <= a < 256 → 0 <= b < 256 → 0 <= c < 256 → 0 <= d < 256 →
  ∃ ret, nbu_net_validate_netmask (Some (dotted a b c d ++ 0 :: r)) = Ret ret ∧
    (ret = NBU_SUCCESS ↔ ∃ k, 0 <= k <= 32 ∧ addr a b c d = 2 ^ 32 - 2 ^ k).
Proof.
  intros Ha Hb Hc Hd. rewrite validate_netmask_ok by done. eexists. split; [done|].
  rewrite <- contiguous_ok by by apply addr_range. by destruct (contiguous _).
Qed.

Lemma nbu_net_validate_netmask_contiguous_witness :
  ∃ ret, nbu_net_validate_netmask (Some (dotted 255 255 254 0 ++ [0])) = Ret ret ∧
    (ret = NBU_SUCCESS ↔ ∃ k, 0 <= k <= 32 ∧ addr 255 255 254 0 = 2 ^ 32 - 2 ^ k).
Proof. apply (nbu_net_validate_netmask_contiguous 255 255 254 0 []); lia. Defined.

(** [inet_aton] on a dotted quad. *)
Lemma inet_num_dec n r :
  0 <= n < 256 → r = [] ∨ (∃ r', r = 46 :: r') → inet_num (fmt_u n ++ r) = Some (n, r).
Proof.
  intros Hn Hr. destruct (fmt_u_byte n Hn) as [[Hd (c & s' & Ec & _) Hv _] _].
  assert (stops 10 r) as Hst by (destruct Hr as [->|[r' ->]]; done).
  assert (digits 10 (fmt_u n ++ r) 0 0 = (n, length (fmt_u n))) as Hdig
    by (by rewrite digits_stop).
  destruct (decide (n = 0)) as [->|Hn0].
  { destruct Hr as [->|[r' ->]]; done. }
  assert (match fmt_u n with 48 :: _ => false | _ => true end = true) as Hz.
  { assert (0 <= n - 1 < 256) as H1 by lia. replace n with (n - 1 + 1) by lia.
    revert H1. generalize (n - 1). intros m Hm. destruct (decide (m = 255)) as [->|]; [done|].
    assert ((m =? 255) || match fmt_u (m + 1) with 48 :: _ => false | _ => true end = true) as Hx.
    { revert Hm. generalize m as k.
      apply (forall_bytes (λ k, (k =? 255) || match fmt_u (k + 1) with 48 :: _ => false | _ => true end)).
      vm_compute. reflexivity. }
    apply orb_true_iff in Hx as [Hx|Hx]; [zbool; lia|done]. }
  unfold inet_num. rewrite Hdig, drop_app_length. rewrite Ec in Hz |- *. cbn [app].
  destruct c as [|p|p]; cbn [length Nat.eqb]; try done.
  do 6 (destruct p; try done).
Qed.

Lemma inet_aton_dotted a b c d :
  0 <= a < 256 → 0 <= b < 256 → 0 <= c < 256 → 0 <= d < 256 →
  inet_aton (dotted a b c d) = Some (addr a b c d).
Proof.
  intros Ha Hb Hc Hd. unfold inet_aton, dotted. cbn [inet_parts].
  rewrite inet_num_dec; [|done|right; eauto]. cbn [Z.eqb Pos.eqb andb].
  rewrite (proj2 (Z.ltb_lt a 256)) by lia. cbn [inet_parts].
  rewrite inet_num_dec; [|done|right; eauto]. cbn [Z.eqb Pos.eqb andb].
  rewrite (proj2 (Z.ltb_lt b 256)) by lia. cbn [inet_parts].
  rewrite inet_num_dec; [|done|right; eauto]. cbn [Z.eqb Pos.eqb andb].
  rewrite (proj2 (Z.ltb_lt c 256)) by lia. cbn [inet_parts].
  rewrite <- (app_nil_r (fmt_u d)). rewrite inet_num_dec; [|done|by left].
  rewrite (proj2 (Z.ltb_lt d _)) by (simpl; lia). by f_equal.
Qed.

(** Masking with a contiguous mask. *)
Lemma mask_shift k : 0 <= k <= 32 → 2 ^ 32 - 2 ^ k = Z.shiftl (Z.ones (32 - k)) k.
Proof.
  intros Hk. rewrite Z.shiftl_mul_pow2, Z.ones_equiv by lia.
  rewrite <- Z.sub_1_r, Z.mul_sub_distr_r, <- Z.pow_add_r by lia.
  replace (32 - k + k) with 32 by lia. lia.
Qed.

Lemma land_mask ip k :
  0 <= k <= 32 → 0 <= ip < 2 ^ 32 → Z.land ip (2 ^ 32 - 2 ^ k) = ip - ip mod 2 ^ k.
Proof.
  intros Hk Hip. rewrite mask_shift by done.
  assert (Z.land ip (Z.shiftl (Z.ones (32 - k)) k) = Z.shiftl (Z.shiftr ip k) k) as ->.
  { rewrite <- Z.ldiff_ones_r by lia. apply Z.bits_inj'. intros i Hi.
    rewrite Z.land_spec, Z.ldiff_spec, Z.shiftl_spec, (Z.testbit_ones_nonneg k i) by lia.
    destruct (decide (i < k)) as [Hlt|Hge].
    - rewrite (Z.testbit_neg_r (Z.ones (32 - k)) (i - k)) by lia. rewrite (proj2 (Z.ltb_lt i k)) by lia. by rewrite !andb_false_r.
    - rewrite Z.testbit_ones_nonneg by lia. rewrite (proj2 (Z.ltb_ge i k)) by lia.
      destruct (decide (i < 32)) as [Hi32|Hi32].
      + by rewrite (proj2 (Z.ltb_lt (i - k) (32 - k))) by lia.
      + rewrite (proj2 (Z.ltb_ge (i - k) (32 - k))) by lia. rewrite andb_false_r.
        replace (Z.testbit ip i) with false; [done|]. symmetry.
        destruct (decide (ip = 0)) as [->|]; [apply Z.bits_0|].
        apply Z.bits_above_log2; [lia|]. apply Z.log2_lt_pow2; [lia|].
        assert (2 ^ 32 <= 2 ^ i) by (apply Z.pow_le_mono_r; lia). lia. }
  rewrite Z.shiftr_div_pow2, Z.shiftl_mul_pow2 by lia.
  pose proof (Z.div_mod ip (2 ^ k) ltac:(apply Z.pow_nonzero; lia)). lia.
Qed.

Lemma lor_host q k : 0 <= k → Z.lor (q * 2 ^ k) (2 ^ k - 1) = q * 2 ^ k + (2 ^ k - 1).
Proof.
  intros Hk. rewrite <- Z.add_lor_land. rewrite <- (Z.add_0_r (Z.lor _ _)) at 1. f_equal.
  replace (2 ^ k - 1) with (Z.ones k) by (rewrite Z.ones_equiv; lia).
  rewrite Z.land_ones, Z.mod_mul by (lia || apply Z.pow_nonzero; lia). done.
Qed.

Lemma dotted_c_str a b c d r :
  0 <= a < 256 → 0 <= b < 256 → 0 <= c < 256 → 0 <= d < 256 →
  c_str (dotted a b c d ++ 0 :: r) = Ret (dotted a b c d).
Proof. intros. unfold c_str. by rewrite str_of_app by by apply dotted_text. Qed.

(** On a dotted quad and a contiguous netmask with a host part of [k] bits,
    [nbu_net_validate_full_ip] rejects exactly the network address (host part 0)
    and the broadcast address (host part all ones), each with its own error. *)
Theorem nbu_net_validate_full_ip_spec a b c d m0 m1 m2 m3 k r r' :
  0 <= a < 256 → 0 <= b < 256 → 0 <= c < 256 → 0 <= d < 256 →
  0 <= m0 < 256 → 0 <= m1 < 256 → 0 <= m2 < 256 → 0 <= m3 < 256 →
  1 <= k <= 32 → addr m0 m1 m2 m3 = 2 ^ 32 - 2 ^ k → addr a b c d ≠ 2 ^ 32 - 1 →
  nbu_net_validate_full_ip (Some (dotted a b c d ++ 0 :: r)) (Some (dotted m0 m1 m2 m3 ++ 0 :: r'))
  = Ret (if addr a b c d mod 2 ^ k =? 0 then nbu_net_err_ip_is_network
         else if addr a b c d mod 2 ^ k =? 2 ^ k - 1 then nbu_net_err_ip_is_broadcast
         else NBU_SUCCESS).
Proof.
  intros Ha Hb Hc Hd Hm0 Hm1 Hm2 Hm3 Hk Em Hne. unfold nbu_net_validate_full_ip.
  pose proof (addr_range a b c d Ha Hb Hc Hd) as Hr.
  unfold nbu_net_validate_ip at 1. rewrite read_ip_dotted by done. cbn [mbind outcome_bind].
  change (negb (NBU_SUCCESS =? NBU_SUCCESS)) with false. cbn iota.
  rewrite validate_netmask_ok by done. cbn [mbind outcome_bind].
  assert (2 <= 2 ^ k) as Hp by (apply (Z.pow_le_mono_r 2 1 k); lia).
  assert (2 ^ k <= 2 ^ 32) as Hp' by (apply Z.pow_le_mono_r; lia).
  rewrite (proj2 (contiguous_ok _ (addr_range _ _ _ _ Hm0 Hm1 Hm2 Hm3))) by (exists k; lia).
  change (negb (NBU_SUCCESS =? NBU_SUCCESS)) with false. cbn [must mbind outcome_bind].
  rewrite !dotted_c_str by done. cbn [mbind outcome_bind]. unfold inet_addr.
  rewrite !inet_aton_dotted by done. cbn [default from_option]. rewrite Em.
  unfold id. rewrite (proj2 (Z.eqb_neq (addr a b c d) _)) by done.
  rewrite (proj2 (Z.eqb_neq (2 ^ 32 - 2 ^ k) _)) by lia. f_equal.
  rewrite land_mask by lia. set (ip := addr a b c d) in *. clearbody ip.
  assert (u32 (Z.lnot (2 ^ 32 - 2 ^ k)) = 2 ^ k - 1) as ->.
  { unfold u32, Z.lnot. symmetry. apply (Z.mod_unique _ _ (-1)); lia. }
  pose proof (Z.div_mod ip (2 ^ k) ltac:(lia)) as Hdm.
  pose proof (Z.mod_pos_bound ip (2 ^ k) ltac:(lia)) as Hmb.
  replace (ip - ip mod 2 ^ k) with (ip / 2 ^ k * 2 ^ k) by lia. rewrite lor_host by lia.
  destruct (Z.eqb_spec (ip mod 2 ^ k) 0) as [E0|E0];
    destruct (Z.eqb_spec (ip / 2 ^ k * 2 ^ k) ip) as [E1|E1]; try lia.
  destruct (Z.eqb_spec (ip mod 2 ^ k) (2 ^ k - 1)) as [E2|E2];
    destruct (Z.eqb_spec (ip / 2 ^ k * 2 ^ k + (2 ^ k - 1)) ip) as [E3|E3]; try lia; done.
Qed.

Lemma nbu_net_validate_full_ip_spec_witness :
  nbu_net_validate_full_ip (Some (dotted 192 168 1 255 ++ [0])) (Some (dotted 255 255 255 0 ++ [0]))
  = Ret nbu_net_err_ip_is_broadcast.
Proof.
  exact (nbu_net_validate_full_ip_spec 192 168 1 255 255 255 255 0 8 [] []
    ltac:(lia) ltac:(lia) ltac:(lia) ltac:(lia) ltac:(lia) ltac:(lia) ltac:(lia) ltac:(lia)
    ltac:(lia) eq_refl ltac:(by vm_compute)).
Defined.

(** *** Prefix lengths *)
Lemma prefix_len_ok k : 0 <= k <= 32 → prefix_len (2 ^ 32 - 2 ^ k) = 32 - k.
Proof.
  intros Hk. assert (k ∈ seqZ 0 33) as Hin by (apply elem_of_seqZ; lia). clear Hk.
  revert k Hin. apply Forall_forall, (bool_decide_unpack _). vm_compute. exact I.
Qed.

Lemma get_network_ok a b c d m0 m1 m2 m3 k r r' buf size :
  0 <= a < 256 → 0 <= b < 256 → 0 <= c < 256 → 0 <= d < 256 →
  0 <= m0 < 256 → 0 <= m1 < 256 → 0 <= m2 < 256 → 0 <= m3 < 256 →
  0 <= k <= 32 → addr m0 m1 m2 m3 = 2 ^ 32 - 2 ^ k → (21 <= size <= length buf)%nat →
  let out := inet_ntoa (addr a b c d - addr a b c d mod 2 ^ k) ++ 47 :: fmt_u (32 - k) ++ [10] in
  ∃ buf', nbu_net_get_network (dotted a b c d ++ 0 :: r) (dotted m0 m1 m2 m3 ++ 0 :: r') buf
            (Z.of_nat size) = Ret (NBU_SUCCESS, buf') ∧ str_of buf' = Some out.
Proof.
  intros Ha Hb Hc Hd Hm0 Hm1 Hm2 Hm3 Hk Em Hs out. unfold nbu_net_get_network.
  rewrite dotted_c_str by done. cbn [mbind outcome_bind]. rewrite inet_aton_dotted by done.
  rewrite dotted_c_str by done. cbn [mbind outcome_bind]. rewrite inet_aton_dotted by done.
  rewrite Em, prefix_len_ok, land_mask by (done || by apply addr_range). rewrite Nat2Z.id.
  rewrite vsnprintf_ok by lia. cbn [mbind outcome_bind]. fold out. eexists. split; [done|].
  set (ip := addr a b c d - addr a b c d mod 2 ^ k) in *.
  pose proof (u8_range (Z.shiftr ip 24)) as H0. pose proof (u8_range (Z.shiftr ip 16)) as H1.
  pose proof (u8_range (Z.shiftr ip 8)) as H2. pose proof (u8_range ip) as H3.
  destruct (fmt_u_byte (32 - k) ltac:(lia)) as [Hbt Hl].
  rewrite take_ge.
  - apply str_of_app. unfold out, inet_ntoa. rewrite Forall_app, Forall_cons, Forall_app.
    split_and!; [by apply dotted_text|lia|by eapply bt_text|]. by apply Forall_singleton.
  - unfold out, inet_ntoa. rewrite length_app. cbn [length]. rewrite length_app. cbn [length].
    pose proof (dotted_length _ _ _ _ H0 H1 H2 H3). lia.
Qed.

(** [nbu_net_get_network] prints the network of an address and a contiguous
    mask with a host part of [k] bits as the address with its host part cleared,
    a slash and the prefix length [32 - k]. *)
Theorem nbu_net_get_network_spec a b c d m0 m1 m2 m3 k r r' buf size :
  0 <= a < 256 → 0 <= b < 256 → 0 <= c < 256 → 0 <= d < 256 →
  0 <= m0 < 256 → 0 <= m1 < 256 → 0 <= m2 < 256 → 0 <= m3 < 256 →
  0 <= k <= 32 → addr m0 m1 m2 m3 = 2 ^ 32 - 2 ^ k → (21 <= size <= length buf)%nat →
  let out := inet_ntoa (addr a b c d - addr a b c d mod 2 ^ k) ++ 47 :: fmt_u (32 - k) ++ [10] in
  ∃ buf', nbu_net_get_network (dotted a b c d ++ 0 :: r) (dotted m0 m1 m2 m3 ++ 0 :: r') buf
            (Z.of_nat size) = Ret (NBU_SUCCESS, buf') ∧ str_of buf' = Some out.
Proof. intros. by apply (get_network_ok a b c d m0 m1 m2 m3). Qed.

Lemma nbu_net_get_network_spec_witness :
  ∃ buf', nbu_net_get_network (dotted 192 168 1 77 ++ [0]) (dotted 255 255 255 192 ++ [0])
            (local_buf 32) 32 = Ret (NBU_SUCCESS, buf') ∧
          str_of buf' = Some (inet_ntoa (addr 192 168 1 77 - addr 192 168 1 77 mod 2 ^ 6)
                                ++ 47 :: fmt_u 26 ++ [10]).
Proof.
  exact (nbu_net_get_network_spec 192 168 1 77 255 255 255 192 6 [] [] (local_buf 32) 32
    ltac:(lia) ltac:(lia) ltac:(lia) ltac:(lia) ltac:(lia) ltac:(lia) ltac:(lia) ltac:(lia)
    ltac:(lia) eq_refl ltac:(simpl; lia)).
Defined.
