(* ===== verification/EwfHdf.v ===== *)
(** libewf's request data and configuration: [ewf_hdf.c], [core/ewf_secure.c],
    [core/ewf_config.c] and [ewf_utils_pcre_validate] under
    [src/efixo/efixo-libewf/src/src].

    The ClearSilver data set ([HDF]) and the regular expressions of PCRE are
    libraries: [Hdf] and [pcre_match] stand for them. *)

From stdpp Require Import base tactics list gmap strings.
From S2P Require Import Prelude.
From S2P Require Import CString.
From S2P Require Import NbuList.
From S2P Require Import NbuString.
From S2P Require Import NbuNet.
Import NbuList NbuString NbuNet.

(** What the code relies on of ClearSilver's data sets: named texts. *)
Class Hdf (H : Type) := {
  hdf_get : H → bytes → option bytes;
  hdf_set : H → bytes → bytes → H;
  hdf_get_set h k v : hdf_get (hdf_set h k v) k = Some v;
  hdf_get_other h k k' v : k ≠ k' → hdf_get (hdf_set h k v) k' = hdf_get h k';
}.

(** Data sets as finite maps: the interface can be implemented. *)
#[export] Instance hdf_gmap : Hdf (gmap bytes bytes) := {|
  hdf_get h k := h !! k;
  hdf_set h k v := <[k := v]> h;
  hdf_get_set h k v := lookup_insert_eq h k v;
  hdf_get_other h k k' v := lookup_insert_ne h k k' v;
|}.

Module EwfHdf.

Definition EWF_SUCCESS : Z := 0.
Definition EWF_ERROR : Z := -1.

(** A name printed in a local or static buffer of [size] bytes: status and text. *)
Definition print_name (size : nat) (t : bytes) : outcome (Z * bytes) :=
  '(r, b) ← nbu_string_printf (Some (local_buf size)) (Z.of_nat size) t;
  b ← must b;
  s ← c_str b;
  Ret (r, s).

(** *** ewf_secure.c *)

(** The double quote, the quote and the backquote. *)
Definition forbidden : bytes := [34; 39; 96].

(** The characters kept: printable ASCII but the quotes; [char] is signed. *)
Definition allowed (c : Z) : bool :=
  let c := schar c in
  negb ((c <? 32) || (126 <? c)) && negb (existsb (Z.eqb c) forbidden).

Fixpoint escape_loop (val : bytes) (i_val buf_size : Z) (buf : bytes) : outcome (Z * bytes) :=
  match val with
  | [] => Undef
  | c :: val' =>
      if negb (c =? 0) && (i_val <? u32 (buf_size - 1)) then
        buf ← wr buf i_val (if allowed c then c else 32);
        escape_loop val' (i_val + 1) buf_size buf
      else
        buf ← wr buf i_val 0;
        Ret (if c =? 0 then EWF_SUCCESS else EWF_ERROR, buf)
  end.

Definition ewf_secure_escape_input (val buf : bytes) (buf_size : Z) : outcome (Z * bytes) :=
  escape_loop val 0 buf_size buf.

(** *** ewf_config.c *)

(** [ewf_matrix_ops.conf_get], set by the web application: it may fill the buffer
    and answers a status. *)
Definition conf_get_fn : Type := option (bytes → bytes → outcome (Z * bytes)).

Definition conf_default_value : list (bytes * bytes) :=
  [(lit "web_lang", lit "en"); (lit "web_auth", lit "off"); (lit "web_login", lit "admin");
   (lit "web_password", []); (lit "web_theme_uri", lit "local://default")].

(** The search in the table of default values. *)
Fixpoint conf_default (table : list (bytes * bytes)) (name value : bytes) (value_size : Z)
    : outcome (Z * bytes) :=
  match table with
  | [] => Ret (EWF_ERROR, value)
  | (n, v) :: table' =>
      r ← nbu_string_compare (Some (cstr n)) (Some (cstr name));
      if r =? NBU_SUCCESS then
        '(_, b) ← nbu_string_copy (Some value) value_size (Some (cstr v));
        b ← must b;
        Ret (EWF_SUCCESS, b)
      else conf_default table' name value value_size
  end.

Definition ewf_config_get (conf_get : conf_get_fn) (name value : bytes) (value_size : Z)
    : outcome (Z * bytes) :=
  value ← wr value 0 0;
  '(r, value) ← match conf_get with
                | Some f => f name value
                | None => Ret (EWF_ERROR, value)
                end;
  if r =? EWF_SUCCESS then Ret (EWF_SUCCESS, value)
  else conf_default conf_default_value name value value_size.

Definition ewf_config_get_int (conf_get : conf_get_fn) (name : bytes) : outcome Z :=
  '(r, buf) ← ewf_config_get conf_get name (local_buf 256) 256;
  if r =? EWF_SUCCESS then
    s ← c_str buf;
    Ret (s32 (st_val (strtol s 10)))
  else Ret (-1).

(** [ewf_matrix_ops.conf_set]. *)
Definition ewf_config_set (conf_set : option (bytes → bytes → Z)) (name value : bytes) : Z :=
  match conf_set with
  | Some f => f name value
  | None => EWF_ERROR
  end.

(** *** ewf_hdf.c *)
Section hdf.
Context {H : Type} `{Hdf H}.

(** [pcre_compile] and [pcre_exec] on a pattern and a subject: [None] when the
    pattern does not compile. *)
Context (pcre_match : bytes → bytes → option bool).

Definition ewf_utils_pcre_validate (value pattern : option bytes) : Z :=
  match value, pattern with
  | Some v, Some p =>
      match pcre_match p v with
      | Some true => EWF_SUCCESS
      | _ => EWF_ERROR
      end
  | _, _ => EWF_ERROR
  end.

Definition hdf_get_value (name : bytes) : cmd H (option bytes) := λ h, Ret (hdf_get h name, h).
Definition hdf_set_value (name value : bytes) : cmd H unit := λ h, Ret (tt, hdf_set h name value).
Definition hdf_set_int_value (name : bytes) (z : Z) : cmd H unit := hdf_set_value name (fmt_d z).

(** [fmt] and its arguments are given rendered, as in [nbu_string_vprintf]. *)
Definition _ewf_hdf_vset (var_name fmt : option bytes) (overwrite : bool) : cmd H Z :=
  match var_name, fmt with
  | Some var_name, Some text =>
      '(r, name) ← lift (print_name 256 (lit "Var." ++ var_name ++ lit ".Value"));
      let ret := if r =? NBU_ERROR then EWF_ERROR else EWF_SUCCESS in
      val ← (if overwrite then mret None else hdf_get_value name);
      match val with
      | Some _ => mret EWF_ERROR
      | None =>
          '(r, value) ← lift (print_name 512 text);
          let ret := if r =? NBU_ERROR then EWF_ERROR else ret in
          hdf_set_value name value;;
          mret ret
      end
  | _, _ => mret EWF_ERROR
  end.

Definition _ewf_hdf_set (var_name str_value : option bytes) (overwrite : bool) : cmd H Z :=
  match var_name, str_value with
  | Some var_name, Some str_value =>
      '(r, name) ← lift (print_name 256 (lit "Var." ++ var_name ++ lit ".Value"));
      let ret := if r =? NBU_ERROR then EWF_ERROR else EWF_SUCCESS in
      val ← (if overwrite then mret None else hdf_get_value name);
      match val with
      | Some _ => mret EWF_ERROR
      | None => hdf_set_value name str_value;; mret ret
      end
  | _, _ => mret EWF_ERROR
  end.

Definition ewf_hdf_validate (var_name : bytes) (value : option bytes) : cmd H Z :=
  match value with
  | None => mret EWF_ERROR
  | Some v =>
      '(_, name) ← lift (print_name 128 (lit "Env.Var." ++ var_name ++ lit ".Regex"));
      pattern ← hdf_get_value name;
      match pattern with
      | None => mret EWF_SUCCESS
      | Some p => mret (ewf_utils_pcre_validate (Some v) (Some p))
      end
  end.

Definition ewf_hdf_setf (var_name fmt : option bytes) : cmd H Z := _ewf_hdf_vset var_name fmt false.
Definition ewf_hdf_set (var_name str_value : option bytes) : cmd H Z :=
  _ewf_hdf_set var_name str_value false.
Definition ewf_hdf_owsetf (var_name fmt : option bytes) : cmd H Z := _ewf_hdf_vset var_name fmt true.
Definition ewf_hdf_owset (var_name str_value : option bytes) : cmd H Z :=
  _ewf_hdf_set var_name str_value true.

Definition ewf_hdf_set_error (var_name : option bytes) (error_id : bytes) : cmd H Z :=
  match var_name with
  | None => mret EWF_ERROR
  | Some var_name =>
      '(r, name) ← lift (print_name 256 (lit "Var." ++ var_name ++ lit ".Error"));
      let ret := if r =? NBU_ERROR then EWF_ERROR else EWF_SUCCESS in
      val ← hdf_get_value name;
      match val with
      | Some _ => mret EWF_ERROR
      | None =>
          hdf_set_value name error_id;;
          hdf_set_int_value (lit "Form.Status") (-1);;
          mret ret
      end
  end.

Definition ewf_hdf_form_set_error (error_id : bytes) : cmd H Z :=
  hdf_set_int_value (lit "Form.Status") (-1);;
  hdf_set_value (lit "Form.Error") error_id;;
  mret EWF_SUCCESS.

Definition ewf_hdf_form_set_success (success_id : bytes) : cmd H Z :=
  hdf_set_int_value (lit "Form.Status") 0;;
  hdf_set_value (lit "Form.Success") success_id;;
  mret EWF_SUCCESS.

Definition ewf_hdf_env_gettext_d (var_name value def_value : option bytes) : cmd H bytes :=
  match var_name with
  | None => mret []
  | Some var_name =>
      match value with
      | None | Some [] => mret []
      | Some value =>
          '(_, name) ← lift (print_name 256 (lit "Env.Var." ++ var_name ++ lit ".Value." ++ value));
          val ← hdf_get_value name;
          match val with
          | Some v => mret v
          | None =>
              '(_, name) ← lift (print_name 256 (lit "Env.Var." ++ var_name ++ lit ".Value."
                                                   ++ default (lit "NULL") def_value));
              val ← hdf_get_value name;
              match val with
              | Some v => mret v
              | None =>
                  val ← hdf_get_value (lit "Env.Text.UnknownValue");
                  mret (default (lit "Unknown Value !") val)
              end
          end
      end
  end.

Definition ewf_hdf_env_gettext (var_name value : option bytes) : cmd H bytes :=
  ewf_hdf_env_gettext_d var_name value None.

(** The value, and whether it is the caller's default ([val == dfl_val]). *)
Definition ewf_hdf_get_default (var_name : bytes) (dfl_val : option bytes)
    : cmd H (option bytes * bool) :=
  '(_, name) ← lift (print_name 128 (lit "Query." ++ var_name));
  val ← hdf_get_value name;
  match val with
  | Some v => mret (Some v, false)
  | None => mret (dfl_val, true)
  end.

Definition ewf_hdf_get (var_name : bytes) : cmd H (option bytes) :=
  '(v, _) ← ewf_hdf_get_default var_name None; mret v.

Definition ewf_hdf_get_copy (var_name buf : bytes) (buf_len : Z) : cmd H (Z * bytes) :=
  val ← ewf_hdf_get var_name;
  match val with
  | Some v =>
      '(_, b) ← lift (nbu_string_printf (Some buf) buf_len v);
      b ← lift (must b);
      mret (EWF_SUCCESS, b)
  | None => mret (EWF_ERROR, buf)
  end.

(** [strtol] of a value; errno is set only when it is out of range. *)
Definition to_int_default (v : bytes) (d : Z) : Z :=
  let r := strtol v 10 in if st_erange r then d else st_val r.

Definition ewf_hdf_get_int_default (var_name : bytes) (default_val_int : Z) : cmd H Z :=
  val ← ewf_hdf_get var_name;
  match val with
  | None => mret default_val_int
  | Some v => mret (to_int_default v default_val_int)
  end.

Definition ewf_hdf_get_int (var_name : bytes) : cmd H Z := ewf_hdf_get_int_default var_name (-1).

Definition ewf_hdf_sget_default (var_name : bytes) (dflval : option bytes) : cmd H (option bytes) :=
  '(val, is_default) ← ewf_hdf_get_default var_name dflval;
  if is_default : bool then mret dflval
  else
    r ← ewf_hdf_validate var_name val;
    if r =? EWF_ERROR then mret dflval else mret val.

Definition ewf_hdf_sget (var_name : bytes) : cmd H (option bytes) :=
  val ← ewf_hdf_get var_name;
  match val with
  | None => mret None
  | Some v =>
      r ← ewf_hdf_validate var_name (Some v);
      if r =? EWF_ERROR then
        '(_, name) ← lift (print_name 128 (lit "Var." ++ var_name ++ lit ".Error"));
        hdf_set_value name (lit "value");;
        hdf_set_int_value (lit "Form.Status") (-1);;
        mret None
      else mret (Some v)
  end.

Definition ewf_hdf_sget_copy (var_name buf : bytes) (buf_len : Z) : cmd H (Z * bytes) :=
  val ← ewf_hdf_sget var_name;
  match val with
  | Some v =>
      '(_, b) ← lift (nbu_string_copy (Some buf) buf_len (Some (cstr v)));
      b ← lift (must b);
      mret (EWF_SUCCESS, b)
  | None => mret (EWF_ERROR, buf)
  end.

Definition ewf_hdf_sget_int_default (var_name : bytes) (dflt_val_int : Z) : cmd H Z :=
  val ← ewf_hdf_sget var_name;
  match val with
  | None => mret dflt_val_int
  | Some v => mret (to_int_default v dflt_val_int)
  end.

Definition ewf_hdf_sget_int (var_name : bytes) : cmd H Z := ewf_hdf_sget_int_default var_name (-1).

Definition ewf_hdf_set_env (name value : bytes) : cmd H Z :=
  '(_, n) ← lift (print_name 128 (lit "Env." ++ name));
  hdf_set_value n value;;
  mret EWF_SUCCESS.

Definition ewf_hdf_get_env (name : bytes) : cmd H (option bytes) :=
  '(_, n) ← lift (print_name 128 (lit "Env." ++ name));
  hdf_get_value n.

(** The children of [Query] as the iterator gives them: name and value. *)
Fixpoint ewf_hdf_copy_cgi_query_tree (query : list (option bytes * option bytes)) : cmd H Z :=
  match query with
  | [] => mret EWF_SUCCESS
  | (Some name, Some value) :: query' =>
      '(ret, val_buf) ← lift (ewf_secure_escape_input (cstr value) (local_buf 512) 512);
      (if ret =? EWF_SUCCESS then
         v ← lift (c_str val_buf);
         ewf_hdf_set (Some name) (Some v);; mret tt
       else mret tt);;
      ewf_hdf_copy_cgi_query_tree query'
  | _ :: query' => ewf_hdf_copy_cgi_query_tree query'
  end.

End hdf.

End EwfHdf.

Import EwfHdf.

Lemma print_name_ok size t :
  (0 < size)%nat → Z.of_nat size <= INT_MAX → text t →
  print_name size t = Ret (if (length t <? size)%nat then NBU_SUCCESS else NBU_ERROR, take (pred size) t).
Proof.
  intros Hs Hi Ht. unfold print_name.
  destruct (printf_ok (local_buf size) (Z.of_nat size) t) as (m' & E & Hm & _);
    [unfold local_buf; rewrite length_replicate; lia|done|done|].
  rewrite E. cbn [mbind outcome_bind must]. unfold c_str. rewrite Hm. cbn [must mbind outcome_bind].
  replace (Z.to_nat (Z.of_nat size - 1)) with (pred size) by lia.
  destruct (Nat.ltb_spec (length t) size), (Z.ltb_spec (Z.of_nat (length t)) (Z.of_nat size)); done || lia.
Qed.

Lemma print_name_fits size t :
  (length t < size)%nat → Z.of_nat size <= INT_MAX → text t → print_name size t = Ret (NBU_SUCCESS, t).
Proof.
  intros Hl Hi Ht. rewrite print_name_ok by (done || lia).
  rewrite (proj2 (Nat.ltb_lt _ _)) by done. by rewrite take_ge by lia.
Qed.

(** *** Escaping *)
Definition clean (c : Z) : Z := if allowed c then c else 32.

Lemma clean_nonzero c : c ≠ 0 → clean c ≠ 0.
Proof. intros Hc. unfold clean. by destruct (allowed c). Qed.

Lemma escape_loop_ok done_ s r buf size :
  text (done_ ++ s) → (length done_ < size <= length buf)%nat → Z.of_nat size < 2 ^ 32 →
  take (length done_) buf = clean <$> done_ →
  ∃ buf', escape_loop (s ++ 0 :: r) (Z.of_nat (length done_)) (Z.of_nat size) buf
    = Ret (if (length done_ + length s <? size)%nat then EWF_SUCCESS else EWF_ERROR, buf') ∧
    str_of buf' = Some (clean <$> take (pred size) (done_ ++ s)) ∧ length buf' = length buf ∧
    drop size buf' = drop size buf.
Proof.
  revert done_ buf. induction s as [|c s IH]; intros d buf Ht Hs Hz Hb.
  - simpl. rewrite wr_ok by lia. simpl. rewrite Nat.add_0_r, (proj2 (Nat.ltb_lt _ _)) by lia.
    eexists. split; [done|]. rewrite length_insert. split; [|split; [done|apply drop_insert_lt; lia]].
    rewrite Nat2Z.id, insert_take_drop, Hb by lia. rewrite app_nil_r in *. rewrite take_ge by lia.
    apply str_of_app, Forall_fmap. eapply Forall_impl; [exact Ht|]. apply clean_nonzero.
  - cbn [app escape_loop]. rewrite Forall_app, Forall_cons in Ht. destruct Ht as (Ht & Hc & Hts).
    rewrite (proj2 (Z.eqb_neq c 0)) by done. cbn [negb andb].
    rewrite u32_small by lia. destruct (Z.ltb_spec (Z.of_nat (length d)) (Z.of_nat size - 1)) as [Hlt|Hge].
    + rewrite wr_ok by lia. cbn [mbind outcome_bind]. fold (clean c).
      replace (Z.of_nat (length d) + 1) with (Z.of_nat (length (d ++ [c])))
        by (rewrite length_app; simpl; lia).
      destruct (IH (d ++ [c]) (<[Z.to_nat (Z.of_nat (length d)) := clean c]> buf))
        as (buf' & E & Hbuf & Hl & Hdr).
      * rewrite <- app_assoc, Forall_app. by split; [|apply Forall_cons].
      * rewrite length_insert, length_app. simpl. lia.
      * done.
      * rewrite Nat2Z.id, length_app, fmap_app. simpl. rewrite Nat.add_1_r.
        rewrite (take_S_r _ _ (clean c)) by (apply list_lookup_insert_eq; lia).
        rewrite take_insert_ge by lia. by rewrite Hb.
      * exists buf'. rewrite E. rewrite drop_insert_lt in Hdr by lia. rewrite length_app in *. cbn [length].
        rewrite <- app_assoc in Hbuf. rewrite length_insert in Hl. simpl in *.
        by replace (length d + 1 + length s)%nat with (length d + S (length s))%nat by lia.
    + rewrite wr_ok by lia. cbn [mbind outcome_bind length].
      rewrite (proj2 (Nat.ltb_ge _ _)) by lia.
      eexists. split; [done|]. rewrite length_insert. split; [|split; [done|apply drop_insert_lt; lia]].
      replace (length d) with (pred size) in Hb by lia. replace (pred size) with (length d) by lia.
      rewrite take_app_length, Nat2Z.id, insert_take_drop by lia.
      replace (pred size) with (length d) in Hb by lia. rewrite Hb.
      apply str_of_app, Forall_fmap. eapply Forall_impl; [exact Ht|]. apply clean_nonzero.
Qed.

(** What is to become of a character: printable ASCII, from the space to the tilde, stays
    but for the double quote, the quote and the backquote; all others become spaces. *)
Definition escaped (c : Z) : Z :=
  if (32 <=? c) && (c <=? 126) && negb ((c =? 34) || (c =? 39) || (c =? 96)) then c else 32.

Lemma clean_escaped c : char_ok c → clean c = escaped c.
Proof.
  unfold char_ok. intros Hc. assert (schar c = if c <? 128 then c else c - 256) as Hsc.
  { unfold schar. change (2 ^ 7) with 128. change (2 ^ 8) with 256. destruct (Z.ltb_spec c 128).
    - rewrite Z.mod_small; lia.
    - replace (c + 128) with (c - 128 + 1 * 256) by lia. rewrite Z_mod_plus_full, Z.mod_small; lia. }
  unfold clean, escaped, allowed, forbidden. rewrite Hsc. cbn [existsb]. destruct (Z.ltb_spec c 128).
  - destruct (Z.ltb_spec c 32), (Z.ltb_spec 126 c), (Z.leb_spec 32 c), (Z.leb_spec c 126); try lia; try done.
    by destruct (c =? 34), (c =? 39), (c =? 96).
  - by rewrite (proj2 (Z.ltb_lt (c - 256) 32)), (proj2 (Z.leb_gt c 126)), andb_false_r by lia.
Qed.

Lemma escaped_spec c : escaped c = if decide (32 <= c <= 126 ∧ c ≠ 34 ∧ c ≠ 39 ∧ c ≠ 96) then c else 32.
Proof.
  unfold escaped. destruct (Z.leb_spec 32 c), (Z.leb_spec c 126), (Z.eqb_spec c 34), (Z.eqb_spec c 39), (Z.eqb_spec c 96);
    cbn [negb andb orb]; case_decide; lia || done.
Qed.

(** C36: [ewf_secure_escape_input] leaves in the buffer, terminated, the input character by
    character, cut to the buffer: a character from the space (32) to the tilde (126) that
    is not the double quote (34), the quote (39) or the backquote (96) as it is, any other
    one as a space.  The bytes behind the given size stay as they were, and the call
    succeeds exactly when all of the input fits. *)
Theorem ewf_secure_escape_input_safe s r buf size :
  Forall (λ c, 0 < c < 256) s → (0 < size <= length buf)%nat → Z.of_nat size < 2 ^ 32 →
  ∃ buf' out, ewf_secure_escape_input (s ++ 0 :: r) buf (Z.of_nat size)
    = Ret (if (length s <? size)%nat then 0 else -1, buf') ∧
    str_of buf' = Some out ∧ length buf' = length buf ∧ drop size buf' = drop size buf ∧
    Forall (λ o, 32 <= o <= 126 ∧ o ≠ 34 ∧ o ≠ 39 ∧ o ≠ 96) out ∧
    Forall2 (λ c o, o = if decide (32 <= c <= 126 ∧ c ≠ 34 ∧ c ≠ 39 ∧ c ≠ 96) then c else 32) (take (size - 1) s) out.
Proof.
  intros Hs Hsz Hz. assert (text s) as Ht by (eapply Forall_impl; [exact Hs|]; intros c ?; cbn in *; lia).
  destruct (escape_loop_ok [] s r buf size Ht ltac:(simpl; lia) Hz (take_0 _)) as (buf' & E & Hb & Hl & Hd).
  rewrite <- Nat.sub_1_r in Hb. cbn [app] in Hb.
  exists buf', (clean <$> take (size - 1) s). split_and!; try done.
  - apply Forall_fmap. eapply Forall_impl; [exact (Forall_take _ _ _ Hs)|]. intros c Hc. unfold compose.
    rewrite clean_escaped, escaped_spec by exact Hc. case_decide; lia.
  - apply Forall2_fmap_r, Forall2_same_length_lookup. split; [done|]. intros i x y Hx Hy.
    assert (y = x) as -> by congruence. apply (Forall_lookup_1 _ _ _ _ (Forall_take _ _ _ Hs)) in Hx.
    unfold compose. rewrite clean_escaped by exact Hx. apply escaped_spec.
Qed.

Lemma ewf_secure_escape_input_safe_witness :
  ∃ buf' out, ewf_secure_escape_input (lit "a'b" ++ [0]) (local_buf 8) 8 = Ret (0, buf') ∧
    str_of buf' = Some out ∧ length buf' = 8%nat ∧ drop 8 buf' = [] ∧
    Forall (λ o, 32 <= o <= 126 ∧ o ≠ 34 ∧ o ≠ 39 ∧ o ≠ 96) out ∧
    Forall2 (λ c o, o = if decide (32 <= c <= 126 ∧ c ≠ 34 ∧ c ≠ 39 ∧ c ≠ 96) then c else 32) (lit "a'b") out.
Proof.
  apply (ewf_secure_escape_input_safe (lit "a'b") [] (local_buf 8) 8).
  - apply (bool_decide_unpack _). by vm_compute.
  - simpl. lia.
  - done.
Defined.

(** *** Accessors *)
Section accessors.
Context {H : Type} `{Hdf H} (pcre_match : bytes → bytes → option bool).
Implicit Types h : H.

Definition var_value (n : bytes) : bytes := lit "Var." ++ n ++ lit ".Value".

Lemma var_value_name n : text n → (length n < 245)%nat →
  print_name 256 (var_value n) = Ret (NBU_SUCCESS, var_value n).
Proof.
  intros Ht Hl. apply print_name_fits; [|done|].
  - unfold var_value. rewrite !length_app. simpl. lia.
  - unfold var_value. rewrite !Forall_app. split_and!; [by repeat constructor|done|by repeat constructor].
Qed.

Lemma set_ok n v (ow : bool) h :
  text n → (length n < 245)%nat →
  _ewf_hdf_set (Some n) (Some v) ow h
  = match (if ow then None else hdf_get h (var_value n)) with
    | Some _ => Ret (EWF_ERROR, h)
    | None => Ret (EWF_SUCCESS, hdf_set h (var_value n) v)
    end.
Proof.
  intros Ht Hl. unfold _ewf_hdf_set. fold (var_value n). rewrite var_value_name by done.
  run. change (NBU_SUCCESS =? NBU_ERROR) with false.
  unfold mbind, cmd_bind, hdf_get_value, hdf_set_value, mret, cmd_ret.
  destruct ow; [done|]. by destruct (hdf_get h (var_value n)).
Qed.

(** The page variables: a value set by [ewf_hdf_set] can be read back and is
    never overwritten by a second [ewf_hdf_set], [ewf_hdf_owset] always replaces
    it, and no other name of the data set is touched. *)
Theorem ewf_hdf_set_semantics n v v' h h1 :
  text n → (length n < 245)%nat → hdf_get h (var_value n) = None →
  ewf_hdf_set (Some n) (Some v) h = Ret (EWF_SUCCESS, h1) →
  hdf_get h1 (var_value n) = Some v ∧
  ewf_hdf_set (Some n) (Some v') h1 = Ret (EWF_ERROR, h1) ∧
  (∃ h2, ewf_hdf_owset (Some n) (Some v') h1 = Ret (EWF_SUCCESS, h2) ∧
         hdf_get h2 (var_value n) = Some v' ∧
         ∀ k, k ≠ var_value n → hdf_get h2 k = hdf_get h k).
Proof.
  intros Ht Hl Hn. unfold ewf_hdf_set, ewf_hdf_owset. rewrite set_ok, Hn by done. intros [= <-].
  rewrite !set_ok, hdf_get_set by done. split_and!; try done. eexists. split; [done|].
  rewrite hdf_get_set. split; [done|]. intros k Hk. by rewrite !hdf_get_other by done.
Qed.

Definition query (n : bytes) : bytes := lit "Query." ++ n.
Definition regex (n : bytes) : bytes := lit "Env.Var." ++ n ++ lit ".Regex".
Definition var_error (n : bytes) : bytes := lit "Var." ++ n ++ lit ".Error".

Lemma get_ok n h : text n → (length n < 100)%nat → ewf_hdf_get n h = Ret (hdf_get h (query n), h).
Proof.
  intros Ht Hl. unfold ewf_hdf_get, ewf_hdf_get_default. fold (query n).
  rewrite (print_name_fits 128 (query n)); [|unfold query; rewrite length_app; simpl; lia|done|].
  2: { unfold query. rewrite Forall_app. split; [by repeat constructor|done]. }
  unfold mbind, cmd_bind, lift, hdf_get_value. by destruct (hdf_get h (query n)).
Qed.

(** A value passes when it has no pattern or matches it. *)
Definition valid (n v : bytes) h : bool :=
  match hdf_get h (regex n) with
  | None => true
  | Some p => match pcre_match p v with Some true => true | _ => false end
  end.

Lemma validate_ok n v h : text n → (length n < 100)%nat →
  ewf_hdf_validate pcre_match n (Some v) h
  = Ret (if valid n v h then EWF_SUCCESS else EWF_ERROR, h).
Proof.
  intros Ht Hl. unfold ewf_hdf_validate. fold (regex n).
  rewrite (print_name_fits 128 (regex n)); [|unfold regex; rewrite !length_app; simpl; lia|done|].
  2: { unfold regex. rewrite !Forall_app. split_and!; [by repeat constructor|done|by repeat constructor]. }
  unfold mbind, cmd_bind, lift, hdf_get_value, valid. destruct (hdf_get h (regex n)) as [p|]; [|done].
  cbn. by destruct (pcre_match p v) as [[]|].
Qed.

Lemma sget_ok n h : text n → (length n < 100)%nat →
  ewf_hdf_sget pcre_match n h
  = match hdf_get h (query n) with
    | None => Ret (None, h)
    | Some v =>
        if valid n v h then Ret (Some v, h)
        else Ret (None, hdf_set (hdf_set h (var_error n) (lit "value")) (lit "Form.Status") (lit "-1"))
    end.
Proof.
  intros Ht Hl. unfold ewf_hdf_sget. erewrite cmd_bind_Ret; [|by apply get_ok].
  destruct (hdf_get h (query n)) as [v|]; [|done].
  erewrite cmd_bind_Ret; [|by apply validate_ok]. destruct (valid n v h); [done|].
  change (EWF_ERROR =? EWF_ERROR) with true. cbn iota. fold (var_error n).
  rewrite (print_name_fits 128 (var_error n)); [|unfold var_error; rewrite !length_app; simpl; lia|done|].
  2: { unfold var_error. rewrite !Forall_app. split_and!; [by repeat constructor|done|by repeat constructor]. }
  done.
Qed.

Lemma sget_default_ok n dfl h : text n → (length n < 100)%nat →
  ewf_hdf_sget_default pcre_match n dfl h
  = Ret (match hdf_get h (query n) with Some v => if valid n v h then Some v else dfl | None => dfl end, h).
Proof.
  intros Ht Hl. unfold ewf_hdf_sget_default, ewf_hdf_get_default. fold (query n).
  rewrite (print_name_fits 128 (query n)); [|unfold query; rewrite length_app; simpl; lia|done|].
  2: { unfold query. rewrite Forall_app. split; [by repeat constructor|done]. }
  unfold mbind at 1, cmd_bind at 1. unfold mbind at 1, cmd_bind at 1, lift, hdf_get_value.
  unfold mbind at 1, cmd_bind at 1. destruct (hdf_get h (query n)) as [v|]; [|done].
  cbv beta iota. unfold mret at 1, cmd_ret at 1. cbv beta iota.
  erewrite cmd_bind_Ret; [|by apply validate_ok]. by destruct (valid n v h).
Qed.

(** C37: the accessors of request values and the page's patterns.  A value whose field has
    no pattern passes unchecked.  A value that matches the pattern of its field passes.  A
    value that does not, or whose pattern does not compile, is withheld: [ewf_hdf_sget]
    answers NULL and flags the error on the field and on the form, and changes nothing
    else; [ewf_hdf_sget_default] answers the default value and flags nothing.  A field
    that the request does not have gives NULL or the default value.  The name of the
    field has less than 100 characters. *)
Theorem ewf_hdf_sget_validates n dfl h :
  text n → (length n < 100)%nat →
  match hdf_get h (lit "Query." ++ n), hdf_get h (lit "Env.Var." ++ n ++ lit ".Regex") with
  | None, _ =>
      ewf_hdf_sget pcre_match n h = Ret (None, h) ∧ ewf_hdf_sget_default pcre_match n dfl h = Ret (dfl, h)
  | Some v, None =>
      ewf_hdf_sget pcre_match n h = Ret (Some v, h) ∧ ewf_hdf_sget_default pcre_match n dfl h = Ret (Some v, h)
  | Some v, Some p =>
      if decide (pcre_match p v = Some true)
      then ewf_hdf_sget pcre_match n h = Ret (Some v, h) ∧ ewf_hdf_sget_default pcre_match n dfl h = Ret (Some v, h)
      else ewf_hdf_sget_default pcre_match n dfl h = Ret (dfl, h) ∧
           ∃ h', ewf_hdf_sget pcre_match n h = Ret (None, h') ∧
             hdf_get h' (lit "Var." ++ n ++ lit ".Error") = Some (lit "value") ∧
             hdf_get h' (lit "Form.Status") = Some (lit "-1") ∧
             ∀ k, k ≠ lit "Var." ++ n ++ lit ".Error" → k ≠ lit "Form.Status" → hdf_get h' k = hdf_get h k
  end.
Proof.
  intros Ht Hl. rewrite sget_ok, sget_default_ok by done. fold (query n) (regex n).
  destruct (hdf_get h (query n)) as [v|]; [|done]. unfold valid. destruct (hdf_get h (regex n)) as [p|]; [|done].
  case_decide as Hm; [by rewrite Hm|].
  assert ((match pcre_match p v with Some true => true | _ => false end) = false) as -> by by destruct (pcre_match p v) as [[]|].
  split; [done|]. eexists. split; [done|]. fold (var_error n). split_and!.
  - rewrite hdf_get_other by done. apply hdf_get_set.
  - apply hdf_get_set.
  - intros k Hk1 Hk2. by rewrite !hdf_get_other by congruence.
Qed.

End accessors.

Lemma ewf_hdf_set_semantics_witness :
  ∃ h1 : gmap bytes bytes,
    hdf_get h1 (var_value (lit "x")) = Some (lit "1") ∧
    ewf_hdf_set (Some (lit "x")) (Some (lit "2")) h1 = Ret (EWF_ERROR, h1) ∧
    (∃ h2, ewf_hdf_owset (Some (lit "x")) (Some (lit "2")) h1 = Ret (EWF_SUCCESS, h2) ∧
           hdf_get h2 (var_value (lit "x")) = Some (lit "2") ∧
           ∀ k, k ≠ var_value (lit "x") → hdf_get h2 k = hdf_get (∅ : gmap bytes bytes) k).
Proof.
  eexists. apply (ewf_hdf_set_semantics (lit "x") (lit "1") (lit "2") (∅ : gmap bytes bytes)).
  - by repeat constructor.
  - simpl. lia.
  - done.
  - exact (set_ok (lit "x") (lit "1") false (∅ : gmap bytes bytes)
             ltac:(by repeat constructor) ltac:(simpl; lia)).
Defined.

Lemma ewf_hdf_sget_validates_witness :
  let h : gmap bytes bytes := <[lit "Env.Var." ++ lit "ip" ++ lit ".Regex" := lit "^[0-9]+$"]> {[lit "Query." ++ lit "ip" := lit "x"]} in
  ewf_hdf_sget_default (λ _ _, Some false) (lit "ip") (Some (lit "1")) h = Ret (Some (lit "1"), h) ∧
  ∃ h', ewf_hdf_sget (λ _ _, Some false) (lit "ip") h = Ret (None, h') ∧
    hdf_get h' (lit "Var." ++ lit "ip" ++ lit ".Error") = Some (lit "value") ∧
    hdf_get h' (lit "Form.Status") = Some (lit "-1") ∧
    ∀ k, k ≠ lit "Var." ++ lit "ip" ++ lit ".Error" → k ≠ lit "Form.Status" → hdf_get h' k = hdf_get h k.
Proof.
  intros h. exact (ewf_hdf_sget_validates (λ _ _, Some false) (lit "ip") (Some (lit "1")) h
    ltac:(by repeat constructor) ltac:(simpl; lia)).
Defined.
