(* ===== verification/EwfSession.v ===== *)
(** libewf's sessions: [src/efixo/efixo-libewf/src/src/core/ewf_session.c].

    The list holds pointers to sessions; the sessions live in a store of their own,
    so that code that keeps a pointer sees the changes made through the list.  A
    session whose pointer the list hands to [free] leaves the store. *)

From stdpp Require Import base tactics list gmap strings.
From S2P Require Import Prelude.
From S2P Require Import Dll.
From S2P Require Import CursorList.
From S2P Require Import CString.
From S2P Require Import NbuList.
From S2P Require Import NbuListSpec.
From S2P Require Import NbuListAlg.
From S2P Require Import NbuString.
From S2P Require Import NbuNet.
From S2P Require Import EwfHdf.
Import NbuList NbuString NbuNet EwfHdf.

Definition SID_LEN : nat := 40.
Definition SESSION_TIMEOUT : Z := 3600.

(** [struct timeval]. *)
Record timeval := Timeval { tv_sec : Z; tv_usec : Z }.

(** [ewf_session_t]; [activated] is a signed one-bit field: 0 or -1. *)
Record session := Session {
  activated : Z;
  id : bytes;
  tv : timeval;
}.

(** Storing an [int] in [int activated:1]. *)
Definition bit1 (z : Z) : Z := - (z mod 2).

Definition set_activated (z : Z) (s : session) : session := Session (bit1 z) (id s) (tv s).
Definition set_tv (t : timeval) (s : session) : session := Session (activated s) (id s) t.

(** The web server's state: the session list and store, how often the clock and
    the random device were read, the request's data set, the cookies answered. *)
Inductive cookie := CookieSet (name value : bytes) | CookieClear (name : bytes).

Record world (H : Type) := World {
  w_heap : heap loc;
  w_list : ptr;
  w_sess : gmap loc session;
  w_fresh : loc;
  w_tick : nat;
  w_draw : nat;
  w_hdf : H;
  w_cookies : list cookie;
}.

Arguments World {H}.
Arguments w_heap {H}.
Arguments w_list {H}.
Arguments w_sess {H}.
Arguments w_fresh {H}.
Arguments w_tick {H}.
Arguments w_draw {H}.
Arguments w_hdf {H}.
Arguments w_cookies {H}.

Section ops.
Context {H : Type}.

(** The clock, and what reading 20 bytes of /dev/random gives: nothing when the
    device cannot be opened or is short. *)
Context (clock : nat → timeval) (random : nat → option bytes).

Abbreviation W := (world H).
Abbreviation M := (cmd W).

Definition set_heap (h : heap loc) (w : W) : W :=
  World h (w_list w) (w_sess w) (w_fresh w) (w_tick w) (w_draw w) (w_hdf w) (w_cookies w).

Definition set_sess (s : gmap loc session) (w : W) : W :=
  World (w_heap w) (w_list w) s (w_fresh w) (w_tick w) (w_draw w) (w_hdf w) (w_cookies w).

Definition set_hdf (d : H) (w : W) : W :=
  World (w_heap w) (w_list w) (w_sess w) (w_fresh w) (w_tick w) (w_draw w) d (w_cookies w).

(** A command of list.c on the session list. *)
Definition on_list {A} (m : cmd (heap loc) A) : M A := zoom w_heap set_heap m.

(** The sessions among what was freed since the log was last read. *)
Definition freed (log : list (event loc)) (s : gmap loc session) : gmap loc session :=
  foldl (λ s e, match e with EvFree (Some p) => delete p s | _ => s end) s log.

(** [nbu_list_delete_backward]: its [free] ends the session. *)
Definition delete_session : M unit := λ w,
  let n := length (h_log (w_heap w)) in
  match nbu_list_delete_backward (w_list w) (w_heap w) with
  | Ret (_, h') => Ret (tt, set_sess (freed (drop n (h_log h')) (w_sess w)) (set_heap h' w))
  | Undef => Undef
  | Abort => Abort
  | NoFuel => NoFuel
  end.

Definition gettimeofday : M timeval := λ w,
  Ret (clock (w_tick w),
       World (w_heap w) (w_list w) (w_sess w) (w_fresh w) (S (w_tick w)) (w_draw w) (w_hdf w)
         (w_cookies w)).

Definition read_random : M (option bytes) := λ w,
  Ret (random (w_draw w),
       World (w_heap w) (w_list w) (w_sess w) (w_fresh w) (w_tick w) (S (w_draw w)) (w_hdf w)
         (w_cookies w)).

Definition load_session (p : loc) : M session := λ w, lift (must (w_sess w !! p)) w.

Definition store_session (p : loc) (f : session → session) : M unit := λ w,
  match w_sess w !! p with
  | Some s => Ret (tt, set_sess (<[p := f s]> (w_sess w)) w)
  | None => Undef
  end.

(** [calloc(1, sizeof(ewf_session_t))]. *)
Definition calloc_session : M (option loc) := λ w,
  let h := w_heap w in
  match h_avail h with
  | O => Ret (None, w)
  | S n =>
      let p := w_fresh w in
      Ret (Some p,
           World (Heap (h_next h) (h_prev h) (h_data h) (h_lst h) (h_fresh h) n (h_log h))
             (w_list w)
             (<[p := Session 0 (replicate (S SID_LEN) 0) (Timeval 0 0)]> (w_sess w))
             (Pos.succ p) (w_tick w) (w_draw w) (w_hdf w) (w_cookies w))
  end.

Definition free_session (p : loc) : M unit := λ w,
  match w_sess w !! p with
  | Some _ => Ret (tt, set_sess (delete p (w_sess w)) w)
  | None => Undef
  end.

(** [nbu_list_for_each_data] over the session list: every datum is a session. *)
Definition for_each_session {A} (body : loc → A → M (A + A)) (acc : A) : M A :=
  l ← (λ w, Ret (w_list w, w));
  on_list (nbu_list_iterator_start l);;
  fuel ← on_list cells;
  for_each fuel (on_list (nbu_list_iterator_is_valid l)) (on_list (nbu_list_get l))
    (on_list (nbu_list_iterator_next l))
    (λ d a, match d with Some p => body p a | None => λ _, Undef end) acc.

Definition ewf_session_list_add (p : loc) : M Z :=
  l ← (λ w, Ret (w_list w, w));
  r ← on_list (nbu_list_insert_end l (Some p));
  mret (if r =? NBU_SUCCESS then EWF_SUCCESS else EWF_ERROR).

Definition same_id (s : session) (session_id : bytes) : outcome bool :=
  r ← nbu_string_ncompare (id s) (Z.of_nat (S SID_LEN)) session_id;
  Ret (r =? NBU_STRING_EQUAL).

Definition ewf_session_list_remove (session_id : option bytes) : M Z :=
  match session_id with
  | None => mret EWF_ERROR
  | Some sid =>
      found ← for_each_session (λ p found,
        s ← load_session p;
        b ← lift (same_id s sid);
        if b : bool then delete_session;; mret (inr true) else mret (inl found)) false;
      mret (if found : bool then EWF_SUCCESS else EWF_ERROR)
  end.

Definition ewf_session_list_get (session_id : option bytes) : M (option loc) :=
  match session_id with
  | None => mret None
  | Some sid =>
      for_each_session (λ p _,
        s ← load_session p;
        b ← lift (same_id s sid);
        mret (if b : bool then inr (Some p) else inl None)) None
  end.

Definition ewf_session_list_size : M Z :=
  l ← (λ w, Ret (w_list w, w));
  on_list (nbu_list_count l).

Definition ewf_session_list_cleaner : M Z :=
  now ← gettimeofday;
  for_each_session (λ p count,
    s ← load_session p;
    if ((activated s =? 0) && (s32 (tv_sec (tv s) + 5) <? tv_sec now))
       || (s32 (tv_sec (tv s) + SESSION_TIMEOUT) <? tv_sec now)
    then delete_session;; mret (inl (count + 1))
    else mret (inl count)) 0.

(** [nbu_string_printf(session->id + 2 * n, 3, "%02x", rdm[n])] for each byte. *)
Fixpoint print_id (idb : bytes) (n : nat) (rdm : bytes) : outcome bytes :=
  match rdm with
  | [] => Ret idb
  | b :: rdm' =>
      m ← padd idb (2 * n);
      m' ← buf_of (nbu_string_printf (Some m) 3 (fmt_02x (u8 b)));
      print_id (take (2 * n) idb ++ m') (S n) rdm'
  end.

Definition ewf_session_create : M (option loc) :=
  now ← gettimeofday;
  session ← calloc_session;
  rdm ← read_random;
  match rdm with
  | None => mret None
  | Some rdm =>
      match session with
      | None => λ _, Undef
      | Some p =>
          s ← load_session p;
          idb ← lift (print_id (id s) 0 rdm);
          idb ← lift (wr idb (Z.of_nat SID_LEN) 0);
          store_session p (λ s, Session (bit1 0) idb now);;
          mret (Some p)
      end
  end.

Definition ewf_session_check (sid : option bytes) : M Z :=
  r ← ewf_session_list_get sid;
  mret (match r with Some _ => EWF_SUCCESS | None => EWF_ERROR end).

End ops.
