(* ===== verification/EwfSessionProofs.v ===== *)
(** What libewf's session list promises: lookup, removal and cleaning by time. *)

From stdpp Require Import base tactics list gmap strings.
From S2P Require Import Prelude.
From S2P Require Import Dll.
From S2P Require Import CursorList.
From S2P Require Import CString.
From S2P Require Import NbuList.
From S2P Require Import NbuListSpec.
From S2P Require Import NbuListAlg.
From S2P Require Import NbuString.
From S2P Require Import NbuNet.
From S2P Require Import EwfHdf.
From S2P Require Import EwfSession.
Import NbuList NbuString NbuNet EwfHdf.

Section specs.
Context {H : Type}.
Context (clock : nat → timeval) (random : nat → option bytes).
Implicit Types w : world H.

(** A session of the store whose id is a text. *)
Definition has_id w (p : loc) (t : bytes) : Prop :=
  ∃ s, w_sess w !! p = Some s ∧ str_of (id s) = Some t ∧ (length t <= SID_LEN)%nat.

(** The state holds the sessions [ps], in list order. *)
Record sessions w (a : loc) (ps : list loc) : Prop := {
  ss_list : w_list w = Ptr a;
  ss_ok : heap_ok (w_heap w);
  ss_il : ∃ ns, is_list (w_heap w) a ns (Some <$> ps);
  ss_nodup : NoDup ps;
  ss_live : Forall (λ p, ∃ t, has_id w p t) ps;
  ss_free : ∃ l, h_lst (w_heap w) !! a = Some l ∧ data_terminator_func l = None;
  ss_fresh : ∀ p, (w_fresh w <= p)%positive → w_sess w !! p = None;
}.

#[local] Instance session_cursor (a : loc) : CursorList (world H) loc (option loc) :=
  zoom_cursor (nbu_cursor a) w_heap set_heap (λ _ _, eq_refl) (λ w, match w with World _ _ _ _ _ _ _ _ => eq_refl end).

(** The rule for loops over the session list; [I] sees the pointers before and
    after the cursor. *)
Lemma for_each_session_rule {A} (body : loc → A → cmd (world H) (A + A)) a ps w acc
    (I : list loc → list loc → A → world H → Prop) (Q : A → world H → Prop) :
  sessions w a ps →
  (∀ pre post acc w w' h', w' = set_heap h' w → nbu_same a (w_heap w) h' →
     I pre post acc w → I pre post acc w') →
  (∀ pre acc w xs, nbu_at a (w_heap w) xs [] → datas_of xs = Some <$> pre →
     I pre [] acc w → Q acc w) →
  (∀ pre n p post acc w xs ys, nbu_at a (w_heap w) xs ((n, Some p) :: ys) →
     datas_of xs = Some <$> pre → datas_of ys = Some <$> post →
     I pre (p :: post) acc w →
     ∃ r w', body p acc w = Ret (r, w') ∧
       match r with
       | inr b => Q b w'
       | inl b => (nbu_behind a (w_heap w') (xs ++ [(n, Some p)]) ys ∧ I (pre ++ [p]) post b w') ∨
                  (nbu_behind a (w_heap w') xs ys ∧ I pre post b w')
       end) →
  I [] ps acc w →
  ∃ b w', for_each_session body acc w = Ret (b, w') ∧ Q b w'.
Proof.
  intros [Hl Hok (ns & Hil) Hnd Hlive Hfree Hfr] Hst Hend Hbody HI.
  destruct (zip_view _ _ _ _ Hil) as (xs & -> & Hxs). rewrite Hxs in Hil.
  destruct (start_spec _ a xs Hok Hil) as (h1 & E1 & Hat & Hs1).
  unfold for_each_session. run. rewrite Hl.
  erewrite cmd_bind_Ret; [|unfold on_list, zoom; by rewrite E1].
  run.
  apply (for_each_rule (session_cursor a)
    (λ d acc, match d with Some p => body p acc | None => λ _, Undef end)
    (λ pre post acc s, ∃ qs rs, datas_of pre = Some <$> qs ∧ datas_of post = Some <$> rs ∧ I qs rs acc s)
    Q) with (post := xs) (pre := @nil (loc * option loc)).
  - intros pre post acc' s s' [Hs1' Hs2'] (qs & rs & ? & ? & HI'). exists qs, rs.
    split_and!; try done. by eapply Hst.
  - intros pre acc' s Hat' (qs & rs & Hqs & Hrs & HI'). destruct rs; [|done].
    exact (Hend qs acc' s pre Hat' Hqs HI').
  - intros pre n d post acc' s Hat' (qs & rs & Hq & Hr & HI').
    destruct rs as [|p rs]; [done|]. injection Hr as -> Hr.
    destruct (Hbody qs n p rs acc' s pre post Hat' Hq Hr HI') as (r & s' & E & Hr').
    exists r, s'. split; [exact E|]. destruct r as [b|b]; [|done].
    destruct Hr' as [[Hb HI'']|[Hb HI'']].
    + exists (pre ++ [(n, Some p)]). split; [exact Hb|]. exists (qs ++ [p]), rs.
      rewrite datas_of_app, Hq, fmap_app. done.
    + exists pre. split; [exact Hb|]. by exists qs, rs.
  - destruct Hat as (_ & Hil1 & _). apply cells_enough in Hil1.
    unfold nodes_of in Hil1. by rewrite length_fmap in Hil1.
  - exact Hat.
  - exists [], ps. split_and!; [done|by symmetry|].
    exact (Hst [] ps acc w _ h1 eq_refl Hs1 HI).
Qed.

Lemma same_avail a (h h' : heap loc) : nbu_same a h h' → h_avail h' = h_avail h.
Proof. by intros [->|(q & l & _ & ->)]. Qed.

(** A world that differs by the cursor of the session list only. *)
Definition same_world (a : loc) w w' : Prop :=
  ∃ h', w' = set_heap h' w ∧ nbu_same a (w_heap w) h'.

Lemma same_world_refl a w : same_world a w w.
Proof. exists (w_heap w). split; [by destruct w|apply nbu_same_refl]. Qed.

Lemma same_world_trans a w w1 h2 :
  same_world a w w1 → nbu_same a (w_heap w1) h2 → same_world a w (set_heap h2 w1).
Proof.
  intros (h1 & -> & Hs1) Hs2. exists h2. split; [done|]. by eapply nbu_same_trans.
Qed.

Lemma same_world_sessions a w w' ps : same_world a w w' → sessions w a ps → sessions w' a ps.
Proof.
  intros (h' & -> & Hs) [Hl Hok (ns & Hil) Hnd Hlive (l & Hl' & Ht) Hfr].
  destruct (nbu_same_spec a _ _ _ _ Hs Hok Hil) as (Hok' & Hil' & _).
  split; try done; [by exists ns|].
  destruct (nbu_same_hdr _ _ _ _ Hs Hl') as (p & Hp). by eexists.
Qed.

Lemma same_id_ok s sid t t' :
  str_of (id s) = Some t → (length t <= SID_LEN)%nat → str_of sid = Some t' →
  same_id s sid = Ret (bytes_eqb t t').
Proof.
  intros H1 H2 H3. unfold same_id. unfold SID_LEN in *.
  rewrite (ncompare_ok _ _ t t' _ H1 H3) by (unfold INT_MAX; lia). by destruct (bytes_eqb t t').
Qed.

(** The id of a live session, as a function. *)
Definition id_of w (p : loc) : bytes :=
  match w_sess w !! p with Some s => default [] (str_of (id s)) | None => [] end.

Lemma has_id_of w p t : has_id w p t → id_of w p = t.
Proof. intros (s & E & Ht & _). unfold id_of. by rewrite E, Ht. Qed.

Definition find_id w (t : bytes) (ps : list loc) : option loc :=
  list_find (λ p, id_of w p = t) ps ≫= λ q, Some q.2.

Lemma get_spec w a ps sid t :
  sessions w a ps → str_of sid = Some t →
  ∃ w', ewf_session_list_get (Some sid) w = Ret (find_id w t ps, w') ∧ same_world a w w'.
Proof.
  intros Hss Ht. cbn [ewf_session_list_get].
  edestruct (for_each_session_rule
    (λ p _, s ← load_session p; b ← lift (same_id s sid);
            mret (if b : bool then inr (Some p) else inl None)) a ps w None
    (λ pre post acc w1, acc = None ∧ same_world a w w1 ∧ pre ++ post = ps ∧
                        Forall (λ p, id_of w p ≠ t) pre)
    (λ acc w1, acc = find_id w t ps ∧ same_world a w w1)) as (r & w' & E & -> & Hs); [done|..].
  - intros pre post acc w1 w2 h' -> Hs (-> & Hw & He & Hf). split_and!; try done.
    by eapply same_world_trans.
  - intros pre acc w1 xs _ _ (-> & Hw & He & Hf). rewrite app_nil_r in He. subst. split; [|done].
    unfold find_id. by rewrite (proj2 (list_find_None _ _) Hf).
  - intros pre n p post acc w1 xs ys Hat Hx Hy (-> & Hw & He & Hf).
    pose proof (ss_live _ _ _ Hss) as Hlive. rewrite <- He, Forall_app, Forall_cons in Hlive.
    destruct Hlive as (_ & (tp & s & Es & Htp & Hlp) & _).
    assert (id_of w p = tp) as Eid by (unfold id_of; by rewrite Es, Htp).
    destruct Hw as (h1 & -> & Hs1). cbn in Hat.
    unfold load_session, mbind, cmd_bind. cbn [w_sess set_heap]. rewrite Es. cbn [must lift].
    rewrite (same_id_ok s sid tp t Htp Hlp Ht). cbn [lift].
    destruct (bytes_eqb tp t) eqn:Eb.
    + eexists _, _. split; [reflexivity|]. simpl. apply bytes_eqb_eq in Eb. split; [|by exists h1].
      unfold find_id. subst ps. rewrite list_find_app_r by by apply list_find_None.
      simpl. rewrite decide_True by congruence. done.
    + eexists _, _. split; [reflexivity|]. simpl. left. apply bytes_eqb_neq in Eb. split.
      { exact (nbu_visit_law a h1 xs (n, Some p) ys Hat). }
      split_and!; [done|by exists h1|by rewrite <- app_assoc|].
      apply Forall_app. split; [done|]. by apply Forall_singleton; rewrite Eid.
  - split_and!; try done. apply same_world_refl.
  - eauto.
Qed.

(** *** Deletion *)

(** The fields of the world the list operations leave alone. *)
Definition frame w w' : Prop :=
  w_list w' = w_list w ∧ w_fresh w' = w_fresh w ∧ w_tick w' = w_tick w ∧
  w_draw w' = w_draw w ∧ w_hdf w' = w_hdf w ∧ w_cookies w' = w_cookies w.

Definition no_terminator (a : loc) w : Prop :=
  ∃ l, h_lst (w_heap w) !! a = Some l ∧ data_terminator_func l = None.

Lemma delete_session_spec w a xs n p ys :
  w_list w = Ptr a → no_terminator a w → nbu_at a (w_heap w) xs ((n, Some p) :: ys) →
  ∃ w', delete_session w = Ret (tt, w') ∧ nbu_behind a (w_heap w') xs ys ∧
        w_sess w' = delete p (w_sess w) ∧ no_terminator a w' ∧ frame w w' ∧
        h_avail (w_heap w') = h_avail (w_heap w).
Proof.
  intros Hl (l & Hl' & Ht) Hat.
  destruct (delete_backward_at _ a xs n (Some p) ys l Hat Hl')
    as (h' & l' & E & Hb & Hlog & Hav & Hh & Ht').
  unfold delete_session. rewrite Hl, E. eexists. split; [done|]. cbn. split_and!.
  - done.
  - rewrite Hlog, drop_app_length. unfold disposal. rewrite Ht. done.
  - exists l'. split; [done|congruence].
  - done.
  - done.
Qed.

(** Sessions of a store from which some were deleted. *)
Lemma sessions_after w w' a ps qs xs :
  sessions w a ps → heap_ok (w_heap w') → is_list (w_heap w') a (nodes_of xs) (datas_of xs) →
  datas_of xs = Some <$> qs → no_terminator a w' → frame w w' →
  qs `sublist_of` ps →
  (∀ p, p ∈ qs → w_sess w' !! p = w_sess w !! p) →
  (∀ p, w_sess w !! p = None → w_sess w' !! p = None) →
  sessions w' a qs.
Proof.
  intros [Hl Hok _ Hnd Hlive _ Hfr] Hok' Hil' Hxs Hnt (Fl & Ff & _) Hsub Hsame Hnone. split; try done.
  - congruence.
  - exists (nodes_of xs). by rewrite <- Hxs.
  - by eapply sublist_NoDup.
  - apply Forall_forall. intros p Hp. assert (p ∈ ps) as Hp' by (by eapply elem_of_sublist).
    eapply Forall_forall in Hlive as (t & s & Hs & Ht); [|exact Hp'].
    exists t, s. by rewrite Hsame.
  - intros p Hp. apply Hnone, Hfr. by rewrite Ff in Hp.
Qed.

Lemma frame_refl w : frame w w.
Proof. by split_and!. Qed.

Lemma frame_same a w w' : same_world a w w' → frame w w'.
Proof. by intros (h' & -> & _). Qed.

Lemma frame_trans w1 w2 w3 : frame w1 w2 → frame w2 w3 → frame w1 w3.
Proof. intros (?&?&?&?&?&?) (?&?&?&?&?&?). split_and!; congruence. Qed.

(** The session under the cursor leaves the list and the store. *)
Lemma delete_at_spec w a pre n p post xs ys :
  sessions w a (pre ++ p :: post) → nbu_at a (w_heap w) xs ((n, Some p) :: ys) →
  datas_of xs = Some <$> pre → datas_of ys = Some <$> post →
  ∃ w', delete_session w = Ret (tt, w') ∧ sessions w' a (pre ++ post) ∧
        w_sess w' = delete p (w_sess w) ∧ frame w w'.
Proof.
  intros Hss Hat Hx Hy.
  destruct (delete_session_spec w a xs n p ys (ss_list _ _ _ Hss) (ss_free _ _ _ Hss) Hat)
    as (w' & E & (Hok & Hil & _) & Hws & Hnt & Hfr & _).
  exists w'. split_and!; [done| |done|done].
  pose proof (ss_nodup _ _ _ Hss) as Hnd. rewrite <- Permutation_middle in Hnd. apply NoDup_cons in Hnd as [Hnd _].
  eapply (sessions_after w w' a _ _ (xs ++ ys)); try done.
  - by rewrite datas_of_app, Hx, Hy, fmap_app.
  - apply sublist_app; [done|]. by apply sublist_cons.
  - intros q Hq. rewrite Hws, lookup_delete_ne; [done|]. by intros <-.
  - intros q Hq. rewrite Hws. by apply lookup_delete_None; right.
Qed.

Lemma remove_spec w a ps sid t :
  sessions w a ps → str_of sid = Some t →
  ∃ w', ewf_session_list_remove (Some sid) w
        = Ret (if find_id w t ps is Some _ then EWF_SUCCESS else EWF_ERROR, w') ∧ frame w w' ∧
    match find_id w t ps with
    | None => same_world a w w'
    | Some p => ∃ pre post, ps = pre ++ p :: post ∧ Forall (λ q, id_of w q ≠ t) pre ∧
                  id_of w p = t ∧ sessions w' a (pre ++ post) ∧ w_sess w' = delete p (w_sess w)
    end.
Proof.
  intros Hss Ht. cbn [ewf_session_list_remove].
  edestruct (for_each_session_rule
    (λ p found, s ← load_session p; b ← lift (same_id s sid);
       if b : bool then delete_session;; mret (inr true) else mret (inl found)) a ps w false
    (λ pre post acc w1, acc = false ∧ same_world a w w1 ∧ pre ++ post = ps ∧
                        Forall (λ p, id_of w p ≠ t) pre)
    (λ acc w1, frame w w1 ∧ acc = (if find_id w t ps is Some _ then true else false) ∧
       match find_id w t ps with
       | None => same_world a w w1
       | Some p => ∃ pre post, ps = pre ++ p :: post ∧ Forall (λ q, id_of w q ≠ t) pre ∧
                     id_of w p = t ∧ sessions w1 a (pre ++ post) ∧ w_sess w1 = delete p (w_sess w)
       end)) as (r & w' & E & Hf & -> & HQ); [done|..].
  - intros pre post acc w1 w2 h' -> Hs (-> & Hw & He & Hf). split_and!; try done.
    by eapply same_world_trans.
  - intros pre acc w1 xs _ _ (-> & Hw & He & Hf). rewrite app_nil_r in He. subst.
    unfold find_id. rewrite (proj2 (list_find_None _ _) Hf). split_and!; [by eapply frame_same|done..].
  - intros pre n p post acc w1 xs ys Hat Hx Hy (-> & Hw & He & Hf).
    pose proof (ss_live _ _ _ Hss) as Hlive. rewrite <- He, Forall_app, Forall_cons in Hlive.
    destruct Hlive as (_ & (tp & s & Es & Htp & Hlp) & _).
    assert (id_of w p = tp) as Eid by (unfold id_of; by rewrite Es, Htp).
    pose proof (same_world_sessions _ _ _ _ Hw Hss) as Hss1.
    assert (w_sess w1 = w_sess w) as Ews by (by destruct Hw as (? & -> & _)).
    erewrite cmd_bind_Ret; [|unfold load_session; rewrite Ews, Es; reflexivity].
    rewrite (same_id_ok s sid tp t Htp Hlp Ht). run.
    destruct (bytes_eqb tp t) eqn:Eb.
    + apply bytes_eqb_eq in Eb. assert (find_id w t ps = Some p) as ->.
      { unfold find_id. subst ps. rewrite list_find_app_r by by apply list_find_None.
        simpl. rewrite decide_True by congruence. done. }
      rewrite <- He in Hss1.
      destruct (delete_at_spec w1 a pre n p post xs ys Hss1 Hat Hx Hy) as (w2 & E2 & Hss2 & Hws & Hfr).
      eexists _, _. split; [by run_with E2|]. simpl.
      split_and!; [eapply frame_trans; [by eapply frame_same|done]|done|].
      exists pre, post. rewrite Hws, Ews. by split_and!; [| | congruence | |].
    + apply bytes_eqb_neq in Eb. eexists _, _. split; [reflexivity|]. simpl. left. split.
      { exact (nbu_visit_law a _ xs (n, Some p) ys Hat). }
      split_and!; [done|done|by rewrite <- app_assoc|].
      apply Forall_app. split; [done|]. by apply Forall_singleton; rewrite Eid.
  - split_and!; try done. apply same_world_refl.
  - exists w'. split_and!; try done. run_with E.
    by destruct (find_id w t ps).
Qed.

(** *** Cleaning *)

(** Cleaning by any rule [exp]; [stale_by exp w p]: the session [p] is past its time. *)
Definition stale_by (exp : session → bool) w (p : loc) : Prop :=
  match w_sess w !! p with Some s => exp s = true | None => False end.

#[global] Instance stale_by_dec exp w p : Decision (stale_by exp w p).
Proof. unfold stale_by. destruct (w_sess w !! p); apply _. Defined.

(** The loop invariant: of the pointers [d] visited, those kept are before the
    cursor, the stale ones are gone from the store. *)
Record cleaning (exp : session → bool) w (a : loc) (ps pre post : list loc) (acc : Z) w1 : Prop := {
  cg_split : ∃ d, d ++ post = ps ∧ pre = filter (λ p, ¬ stale_by exp w p) d ∧
    acc = Z.of_nat (length (filter (stale_by exp w) d)) ∧
    ∀ p, w_sess w1 !! p = if decide (p ∈ d ∧ stale_by exp w p) then None else w_sess w !! p;
  cg_frame : frame w w1;
  cg_term : no_terminator a w1;
  cg_avail : h_avail (w_heap w1) = h_avail (w_heap w);
}.

(** The body of a cleaning loop: delete and count, or leave. *)
Definition cleans (exp : session → bool) (body : loc → Z → cmd (world H) (Z + Z)) : Prop :=
  ∀ p acc w s, w_sess w !! p = Some s →
    body p acc w = if exp s then (delete_session;; mret (inl (acc + 1))) w else Ret (inl acc, w).

Lemma cleaning_step exp body w a ps pre n p post acc w1 xs ys :
  cleans exp body → sessions w a ps → nbu_at a (w_heap w1) xs ((n, Some p) :: ys) →
  cleaning exp w a ps pre (p :: post) acc w1 →
  ∃ r w2, body p acc w1 = Ret (@inl Z Z r, w2) ∧
    ((nbu_behind a (w_heap w2) (xs ++ [(n, Some p)]) ys ∧
      cleaning exp w a ps (pre ++ [p]) post r w2) ∨
     (nbu_behind a (w_heap w2) xs ys ∧ cleaning exp w a ps pre post r w2)).
Proof.
  intros Hcl Hss Hat [(d & He & -> & -> & Hst) Hfr Hnt Hav].
  pose proof (ss_live _ _ _ Hss) as Hlive. rewrite <- He, Forall_app, Forall_cons in Hlive.
  destruct Hlive as (_ & (tp & s & Es & _) & _).
  pose proof (ss_nodup _ _ _ Hss) as Hnd. rewrite <- He in Hnd.
  apply NoDup_app in Hnd as (_ & Hd1 & _). assert (p ∉ d) as Hpd by (intros Hx; apply (Hd1 p Hx); set_solver).
  assert (w_sess w1 !! p = Some s) as Es1 by (rewrite Hst, decide_False; tauto).
  rewrite (Hcl p _ w1 s Es1).
  assert (stale_by exp w p ↔ exp s = true) as Hstale by (unfold stale_by; by rewrite Es).
  destruct (exp s) eqn:Ee.
  - destruct (delete_session_spec w1 a xs n p ys) as (w2 & E2 & Hb & Hws & Hnt2 & Hfr2 & Hav2); try done.
    { destruct Hfr as (-> & _). exact (ss_list _ _ _ Hss). }
    eexists _, w2. split; [by run_with E2|]. right. split; [done|]. split.
    + exists (d ++ [p]). rewrite <- app_assoc. split_and!; [done| | |].
      * rewrite filter_app, filter_cons_False, filter_nil, app_nil_r by tauto. done.
      * rewrite filter_app, filter_cons_True, filter_nil, length_app by tauto. simpl. lia.
      * intros q. rewrite Hws. destruct (decide (q = p)) as [->|Hqp].
        { rewrite lookup_delete_eq, decide_True; [done|]. split; [set_solver|tauto]. }
        rewrite lookup_delete_ne, Hst by done. apply decide_ext. set_solver.
    + by eapply frame_trans.
    + done.
    + congruence.
  - eexists _, w1. split; [reflexivity|]. left. split; [exact (nbu_visit_law a _ xs (n, Some p) ys Hat)|].
    assert (¬ stale_by exp w p) as Hns by (rewrite Hstale; done). split; [|done..].
    exists (d ++ [p]). rewrite <- app_assoc. split_and!; [done| | |].
    + by rewrite filter_app, filter_cons_True, filter_nil by tauto.
    + by rewrite filter_app, filter_cons_False, filter_nil, app_nil_r by tauto.
    + intros q. rewrite Hst. apply decide_ext. destruct (decide (q = p)) as [->|]; [tauto|set_solver].
Qed.

(** A cleaning loop removes exactly what its rule says. *)
Lemma clean_loop exp body w a ps :
  cleans exp body → sessions w a ps →
  ∃ w', for_each_session body 0 w = Ret (Z.of_nat (length (filter (stale_by exp w) ps)), w') ∧
    sessions w' a (filter (λ p, ¬ stale_by exp w p) ps) ∧ frame w w' ∧
    h_avail (w_heap w') = h_avail (w_heap w) ∧
    ∀ p, w_sess w' !! p = if decide (p ∈ ps ∧ stale_by exp w p) then None else w_sess w !! p.
Proof.
  intros Hcl Hss.
  destruct (for_each_session_rule body a ps w 0
    (λ pre post acc w1, cleaning exp w a ps pre post acc w1)
    (λ acc w1, acc = Z.of_nat (length (filter (stale_by exp w) ps)) ∧
       sessions w1 a (filter (λ p, ¬ stale_by exp w p) ps) ∧ frame w w1 ∧
       h_avail (w_heap w1) = h_avail (w_heap w) ∧
       ∀ p, w_sess w1 !! p = if decide (p ∈ ps ∧ stale_by exp w p) then None else w_sess w !! p))
    as (r & w' & E & -> & Hs & Hw); [done|..].
  - intros pre post acc w1 w2 h' -> Hsm [Hd Hf Hn Ha]. split; [done|done| |by rewrite <- Ha; exact (same_avail _ _ _ Hsm)].
    destruct Hn as (l & Hl & Htm). destruct (nbu_same_hdr _ _ _ _ Hsm Hl) as (q & Hq). by eexists.
  - intros pre acc w1 xs (Hok & Hil & _) Hxs [(d & He & -> & -> & Hst) Hf Hn Ha].
    rewrite app_nil_r in *. subst d. split_and!; [done| |done..].
    eapply (sessions_after w w1 a ps _ xs); try done.
    + apply sublist_filter.
    + intros p Hp. apply list_elem_of_filter in Hp as [Hp _]. rewrite Hst, decide_False; tauto.
    + intros p Hp. rewrite Hst. by case_decide.
  - intros pre n p post acc w1 xs ys Hat Hx Hy Hc.
    destruct (cleaning_step exp body w a ps pre n p post acc w1 xs ys Hcl Hss Hat Hc) as (r & w2 & E & Hr).
    exists (inl r), w2. split; [exact E|exact Hr].
  - split; [|apply frame_refl|exact (ss_free _ _ _ Hss)|done]. by exists [].
  - exists w'. done.
Qed.

(** A session not activated lives 5 seconds, an activated one [SESSION_TIMEOUT]. *)
Definition expired (now : timeval) (s : session) : bool :=
  ((activated s =? 0) && (s32 (tv_sec (tv s) + 5) <? tv_sec now))
  || (s32 (tv_sec (tv s) + SESSION_TIMEOUT) <? tv_sec now).

Definition stale w (now : timeval) : loc → Prop := stale_by (expired now) w.

#[global] Instance stale_dec w now p : Decision (stale w now p).
Proof. unfold stale. apply _. Defined.

Lemma ticked_sessions w a ps n :
  sessions w a ps →
  sessions (World (w_heap w) (w_list w) (w_sess w) (w_fresh w) n (w_draw w) (w_hdf w) (w_cookies w)) a ps.
Proof. intros [? ? ? ? ? ? ?]. by split. Qed.

(** C23: [ewf_session_list_cleaner] removes exactly the sessions past their time,
    keeps the others in order and unchanged, and returns how many it removed. *)
Theorem ewf_session_list_cleaner_spec w a ps :
  sessions w a ps →
  let now := clock (w_tick w) in
  ∃ w', ewf_session_list_cleaner clock w
        = Ret (Z.of_nat (length (filter (stale w now) ps)), w') ∧
    sessions w' a (filter (λ p, ¬ stale w now p) ps) ∧
    ∀ p, w_sess w' !! p = if decide (p ∈ ps ∧ stale w now p) then None else w_sess w !! p.
Proof.
  intros Hss now. unfold ewf_session_list_cleaner. run. fold now.
  match goal with |- context [for_each_session ?b 0 _] => set (body := b) end.
  assert (cleans (expired now) body) as Hcl.
  { intros p acc w1 s Es. unfold body. erewrite cmd_bind_Ret; [|unfold load_session; rewrite Es; reflexivity].
    unfold expired. by destruct (_ || _). }
  destruct (clean_loop _ _ _ a ps Hcl (ticked_sessions w a ps (S (w_tick w)) Hss)) as (w' & E & Hs & _ & _ & Hw).
  by exists w'.
Qed.

(** *** Creation *)
Definition hex (rdm : bytes) : bytes := concat (fmt_02x <$> rdm).

Lemma fmt_02x_byte b : 0 <= b < 256 → length (fmt_02x b) = 2%nat ∧ text (fmt_02x b).
Proof.
  intros Hb. split.
  - apply Nat.eqb_eq. revert b Hb. apply (forall_bytes (λ b, length (fmt_02x b) =? 2)%nat).
    vm_compute. reflexivity.
  - assert (forallb (λ c, negb (c =? 0)) (fmt_02x b) = true) as Hf.
    { revert b Hb. apply (forall_bytes (λ b, forallb (λ c, negb (c =? 0)) (fmt_02x b))).
      vm_compute. reflexivity. }
    rewrite forallb_forall in Hf. apply List.Forall_forall. intros c Hc.
    specialize (Hf c Hc). zbool. done.
Qed.

Lemma hex_facts rdm : Forall byte_ok rdm → length (hex rdm) = (2 * length rdm)%nat ∧ text (hex rdm).
Proof.
  induction 1 as [|b rdm Hb _ [IH1 IH2]]; [done|]. destruct (fmt_02x_byte b Hb) as [Hl Ht].
  unfold hex in *. cbn [fmap list_fmap concat]. rewrite length_app, Forall_app. cbn [length]. split; [lia|done].
Qed.

Lemma print_id_ok done_ rdm rest :
  Forall byte_ok rdm → length done_ = (2 * (length done_ / 2))%nat → rdm ≠ [] →
  (2 * length rdm < length rest)%nat →
  print_id (done_ ++ rest) (length done_ / 2) rdm
  = Ret (done_ ++ hex rdm ++ 0 :: drop (S (2 * length rdm)) rest).
Proof.
  intros Hr. revert done_ rest. induction Hr as [|b rdm Hb Hr IH]; intros d rest Hd Hne Hlen; [done|].
  cbn [print_id]. rewrite <- Hd. unfold padd. rewrite (proj2 (Nat.leb_le _ _)) by (rewrite length_app; lia).
  rewrite drop_app_length, take_app_length. cbn [mbind outcome_bind]. unfold buf_of.
  rewrite u8_small by done. destruct (fmt_02x_byte b Hb) as [Hl2 Ht2].
  pose proof (printf_exact rest (fmt_02x b) Ht2) as Hp. rewrite Hl2 in Hp. simpl in Hlen.
  change (Z.of_nat 3) with 3 in Hp. rewrite Hp by (unfold INT_MAX; lia). cbn [mbind outcome_bind must].
  destruct rdm as [|b' rdm].
  - cbn [print_id]. unfold hex. cbn [fmap list_fmap concat]. by rewrite app_nil_r.
  - replace (d ++ fmt_02x b ++ 0 :: drop 3 rest) with ((d ++ fmt_02x b) ++ 0 :: drop 3 rest)
      by by simplify_list_eq.
    replace (S (length d / 2)) with (length (d ++ fmt_02x b) / 2)%nat.
    2: { rewrite length_app, Hl2. rewrite Hd, Nat.mul_comm. rewrite Nat.div_mul by lia.
         replace (length d / 2 * 2 + 2)%nat with (S (length d / 2) * 2)%nat by lia.
         by rewrite Nat.div_mul by lia. }
    rewrite IH.
    + unfold hex. cbn [fmap list_fmap concat]. rewrite <- !app_assoc. do 4 f_equal. f_equal. f_equal.
      cbn [length drop]. rewrite drop_drop. f_equal. lia.
    + rewrite length_app, Hl2. rewrite Hd at 1.
      replace (length d + 2)%nat with ((length d / 2 + 1) * 2)%nat by lia.
      rewrite Nat.div_mul by lia. lia.
    + done.
    + simpl in *. rewrite length_drop. lia.
Qed.

Lemma create_spec w k rdm :
  h_avail (w_heap w) = S k → random (w_draw w) = Some rdm → length rdm = 20%nat →
  Forall byte_ok rdm →
  ∃ w', ewf_session_create clock random w = Ret (Some (w_fresh w), w') ∧
    w_sess w' = <[w_fresh w := Session 0 (cstr (hex rdm)) (clock (w_tick w))]> (w_sess w) ∧
    w_fresh w' = Pos.succ (w_fresh w) ∧ w_list w' = w_list w ∧ w_hdf w' = w_hdf w ∧
    w_cookies w' = w_cookies w ∧ w_tick w' = S (w_tick w) ∧ w_draw w' = S (w_draw w) ∧
    h_avail (w_heap w') = k ∧
    (heap_ok (w_heap w) → heap_ok (w_heap w')) ∧ h_lst (w_heap w') = h_lst (w_heap w) ∧
    (∀ a ns ds, is_list (w_heap w) a ns ds → is_list (w_heap w') a ns ds).
Proof.
  intros Hk Hr Hl Hb. unfold ewf_session_create.
  run.
  erewrite cmd_bind_Ret; [|unfold calloc_session; cbn; rewrite Hk; reflexivity].
  erewrite cmd_bind_Ret; [|unfold read_random; cbn; rewrite Hr; reflexivity].
  cbn iota. erewrite cmd_bind_Ret.
  2: { unfold load_session. cbn [w_sess]. rewrite lookup_insert_eq. reflexivity. }
  destruct (hex_facts rdm Hb) as [Hhl Hht]. rewrite Hl in Hhl. change (2 * 20)%nat with SID_LEN in Hhl.
  assert (print_id (replicate (S SID_LEN) 0) 0 rdm = Ret (cstr (hex rdm))) as E.
  { pose proof (print_id_ok [] rdm (replicate (S SID_LEN) 0) Hb eq_refl) as E.
    rewrite Hl in E. apply E; [by intros ->|simpl; lia]. }
  erewrite cmd_bind_Ret; [|exact (f_equal (λ o, lift o _) E)].
  assert (wr (cstr (hex rdm)) (Z.of_nat SID_LEN) 0 = Ret (cstr (hex rdm))) as ->.
  { unfold cstr. rewrite wr_ok by (rewrite length_app, Hhl; unfold SID_LEN; cbn [length]; lia). f_equal.
    rewrite Nat2Z.id, insert_app_r_alt by (rewrite Hhl; lia).
    by rewrite Hhl, Nat.sub_diag. }
  run.
  erewrite cmd_bind_Ret; [|unfold store_session; cbn [w_sess]; rewrite lookup_insert_eq; reflexivity].
  eexists. split; [reflexivity|]. cbn. rewrite insert_insert_eq. split_and!; try done.
  intros a ns ds [H1 H2 H3 H4 H5 H6]. by split.
Qed.

(** The session list is as it was after a creation. *)
Lemma created_sessions w w' a ps s :
  sessions w a ps → w_sess w' = <[w_fresh w := s]> (w_sess w) → w_fresh w' = Pos.succ (w_fresh w) →
  w_list w' = w_list w → (heap_ok (w_heap w) → heap_ok (w_heap w')) →
  h_lst (w_heap w') = h_lst (w_heap w) →
  (∀ a ns ds, is_list (w_heap w) a ns ds → is_list (w_heap w') a ns ds) →
  sessions w' a ps ∧ w_fresh w ∉ ps.
Proof.
  intros [L O (ns & IL) N LV (l & FR & TM) FS] Hws Hf Hl Hok Hlst Hil.
  assert (w_fresh w ∉ ps) as Hnp.
  { intros Hx. eapply Forall_forall in LV as (t & s' & Es & _); [|exact Hx].
    by rewrite (FS (w_fresh w)) in Es by lia. }
  split; [split|done].
  - by rewrite Hl.
  - by apply Hok.
  - exists ns. by apply Hil.
  - done.
  - apply Forall_forall. intros q Hq. assert (q ≠ w_fresh w) by congruence.
    eapply Forall_forall in LV as (t & s' & Es & Hst); [|exact Hq].
    exists t, s'. rewrite Hws, lookup_insert_ne by congruence. done.
  - exists l. by rewrite Hlst.
  - intros q Hq. rewrite Hf in Hq. rewrite Hws, lookup_insert_ne by lia. apply FS. lia.
Qed.

(** A session just created joins the list at its end. *)
Lemma add_spec w a ps p t :
  sessions w a ps → p ∉ ps → has_id w p t → h_avail (w_heap w) ≠ O →
  ∃ w', ewf_session_list_add p w = Ret (EWF_SUCCESS, w') ∧ sessions w' a (ps ++ [p]) ∧
        frame w w' ∧ w_sess w' = w_sess w.
Proof.
  intros [Hl Hok (ns & Hil) Hnd Hlive (l & Hl' & Ht) Hfr] Hp Hid Hav.
  destruct (insert_end_spec _ a ns _ (Some p) Hok Hil Hav) as (h' & E & Hil' & Hg).
  unfold ewf_session_list_add. run. rewrite Hl.
  erewrite cmd_bind_Ret; [|unfold on_list, zoom; by rewrite E].
  eexists. split; [reflexivity|]. split_and!; [|done|done]. split; cbn.
  - done.
  - exact (gr_ok _ _ _ _ Hg).
  - eexists. rewrite fmap_app. exact Hil'.
  - apply NoDup_app. split_and!; [done| |apply NoDup_singleton]. set_solver.
  - apply Forall_app. split; [done|]. apply Forall_singleton. by exists t.
  - eexists. split; [by apply (gr_hdr _ _ _ _ Hg)|]. done.
  - done.
Qed.

End specs.
