(* ===== verification/EwfSmith.v ===== *)
(** libewf's access control: [src/efixo/efixo-libewf/src/src/core/ewf_smith.c],
    the digests of [ewf_crypto.c], and the login page's challenge handler
    ([src/efixo/efixo-www/src/src/wui/login.c]).

    SHA-256 and its HMAC are tropicssl's: [sha256] and [hmac_sha256] give their
    digests.  The web application's [login_alt_method] is a parameter as well. *)

From stdpp Require Import base tactics list gmap strings.
From S2P Require Import Prelude.
From S2P Require Import Dll.
From S2P Require Import CursorList.
From S2P Require Import CString.
From S2P Require Import NbuList.
From S2P Require Import NbuListSpec.
From S2P Require Import NbuString.
From S2P Require Import NbuNet.
From S2P Require Import EwfHdf.
From S2P Require Import EwfSession.
Import NbuList NbuString NbuNet EwfHdf.

Module EwfSmith.

Definition EWF_SMITH_CTL_NOT_ALLOWED : Z := -1000.
Definition EWF_SMITH_CTL_SUCCESS : Z := 0.
Definition EWF_SMITH_CTL_AUTH_OFF : Z := 1.
Definition EWF_SMITH_CTL_PUBLICPAGE : Z := 2.

Definition EWF_SMITH_LOGIN_INVALID_SESSION : Z := -1000.
Definition EWF_SMITH_LOGIN_INVALID_ARGS : Z := -999.
Definition EWF_SMITH_LOGIN_METHOD_NOT_ALLOWED : Z := -998.
Definition EWF_SMITH_LOGIN_ERROR : Z := -1.
Definition EWF_SMITH_LOGIN_SUCCESS : Z := 0.

Inductive ewf_page_access := EWF_ACCESS_PRIVATE | EWF_ACCESS_PUBLIC.

Definition LOGIN_HASH_LEN : nat := 64.
Definition PASSW_HASH_LEN : nat := 64.

Section smith.
Context {H : Type} `{Hdf H}.
Context (clock : nat → timeval) (random : nat → option bytes).
Context (pcre_match : bytes → bytes → option bool).
Context (sha256 : bytes → bytes) (hmac_sha256 : bytes → bytes → bytes).
Context (conf_get : conf_get_fn).
Context (login_alt_method : option (loc → bytes → cmd (world H) Z)).

Abbreviation M := (cmd (world H)).

Definition on_hdf {A} (m : cmd H A) : M A := zoom w_hdf set_hdf m.

Definition add_cookie (c : cookie) : M unit := mod_st (λ w,
  World (w_heap w) (w_list w) (w_sess w) (w_fresh w) (w_tick w) (w_draw w) (w_hdf w)
    (w_cookies w ++ [c])).

(** [calloc(1, n)]. *)
Definition calloc_bytes (n : nat) : M (option bytes) := λ w,
  let h := w_heap w in
  match h_avail h with
  | O => Ret (None, w)
  | S k => Ret (Some (replicate n 0),
                set_heap (Heap (h_next h) (h_prev h) (h_data h) (h_lst h) (h_fresh h) k (h_log h)) w)
  end.

(** *** ewf_crypto.c *)

(** A digest in hexadecimal, in a new string: status and [*result]. *)
Definition ewf_crypto_hmac_sha256_mac (key : bytes) (msg : option bytes) : M (Z * option bytes) :=
  match msg with
  | None => mret (EWF_ERROR, None)
  | Some msg =>
      result ← calloc_bytes 65;
      match result with
      | None => mret (EWF_ERROR, None)
      | Some result =>
          k ← lift (c_str key); m ← lift (c_str msg);
          result ← lift (print_id result 0 (hmac_sha256 k m));
          mret (EWF_SUCCESS, Some result)
      end
  end.

Definition ewf_crypto_sha256_hash (msg : option bytes) : M (Z * option bytes) :=
  match msg with
  | None => mret (EWF_ERROR, None)
  | Some msg =>
      result ← calloc_bytes 65;
      match result with
      | None => mret (EWF_ERROR, None)
      | Some result =>
          m ← lift (c_str msg);
          result ← lift (print_id result 0 (sha256 m));
          mret (EWF_SUCCESS, Some result)
      end
  end.

(** *** ewf_smith.c *)
Definition ewf_smith_hmac (value hmac_key buf : bytes) (buf_size : Z) : M (Z * bytes) :=
  '(r, hash_mac) ← ewf_crypto_hmac_sha256_mac hmac_key (Some value);
  if negb (r =? EWF_SUCCESS) then mret (EWF_ERROR, buf)
  else
    '(_, b) ← lift (nbu_string_copy (Some buf) buf_size hash_mac);
    b ← lift (must b);
    mret (EWF_SUCCESS, b).

(** The status of [ewf_smith_hmac] is computed and dropped, as in the code. *)
Definition ewf_smith_full_hash (value hmac_key buf : bytes) (buf_size : Z) : M (Z * bytes) :=
  '(r, hash) ← ewf_crypto_sha256_hash (Some value);
  if negb (r =? EWF_SUCCESS) then mret (EWF_ERROR, buf)
  else
    hash ← lift (must hash);
    '(_ret, buf) ← ewf_smith_hmac hash hmac_key buf buf_size;
    mret (EWF_SUCCESS, buf).

Definition ewf_smith_check_session : M Z :=
  session_id ← on_hdf (hdf_get_value (lit "Cookie.sid"));
  match session_id with
  | None => mret EWF_ERROR
  | Some session_id =>
      ewf_session ← ewf_session_list_get (Some (cstr session_id));
      match ewf_session with
      | None => mret EWF_ERROR
      | Some p =>
          now ← gettimeofday clock;
          s ← load_session p;
          if s32 (tv_sec (tv s) + SESSION_TIMEOUT) <? tv_sec now then
            ewf_session_list_remove (Some (cstr session_id));;
            mret EWF_ERROR
          else
            store_session p (set_tv now);;
            mret EWF_SUCCESS
      end
  end.

Definition ewf_smith_access_control (access_policy : ewf_page_access) : M Z :=
  '(_, auth) ← lift (ewf_config_get conf_get (lit "web_auth") (local_buf 16) 16);
  r ← lift (nbu_string_matches auth "off");
  if r =? NBU_STRING_EQUAL then mret EWF_SMITH_CTL_AUTH_OFF
  else
    r ← ewf_smith_check_session;
    if r =? EWF_SUCCESS then mret EWF_SMITH_CTL_SUCCESS
    else match access_policy with
         | EWF_ACCESS_PUBLIC => mret EWF_SMITH_CTL_PUBLICPAGE
         | EWF_ACCESS_PRIVATE => mret EWF_SMITH_CTL_NOT_ALLOWED
         end.

(** The comparison with the configured login and password, once the user's digests
    are in [login] and [password]. *)
Definition check_credentials (p : loc) (login password buf : bytes) : M Z :=
  '(_, cfg_login) ← lift (ewf_config_get conf_get (lit "web_login") (local_buf 65) 65);
  s ← load_session p;
  '(r, buf) ← ewf_smith_full_hash cfg_login (id s) buf 256;
  if negb (r =? EWF_SUCCESS) then mret EWF_SMITH_LOGIN_ERROR
  else
    r ← lift (nbu_string_compare (Some login) (Some buf));
    if negb (r =? NBU_SUCCESS) then mret EWF_SMITH_LOGIN_INVALID_ARGS
    else
      '(_, cfg_password) ← lift (ewf_config_get conf_get (lit "web_password") (local_buf 65) 65);
      s ← load_session p;
      '(r, buf) ← ewf_smith_hmac cfg_password (id s) buf 256;
      if negb (r =? EWF_SUCCESS) then mret EWF_SMITH_LOGIN_ERROR
      else
        r ← lift (nbu_string_compare (Some password) (Some buf));
        if negb (r =? NBU_SUCCESS) then mret EWF_SMITH_LOGIN_INVALID_ARGS
        else mret EWF_SMITH_LOGIN_SUCCESS.

Definition ewf_smith_login_passwd (p : loc) : M Z :=
  '(r, hash) ← on_hdf (ewf_hdf_sget_copy pcre_match (lit "hash") (local_buf 129) 129);
  len_hash ← (if r =? EWF_SUCCESS then lift (strlen hash) else mret 0);
  if negb (len_hash =? 0) && negb (len_hash =? Z.of_nat (LOGIN_HASH_LEN + PASSW_HASH_LEN))
  then mret EWF_SMITH_LOGIN_INVALID_ARGS
  else if len_hash =? 0 then
    '(r, buf) ← on_hdf (ewf_hdf_sget_copy pcre_match (lit "login") (local_buf 256) 256);
    if negb (r =? EWF_SUCCESS) then mret EWF_SMITH_LOGIN_INVALID_ARGS
    else
      s ← load_session p;
      '(r, login) ← ewf_smith_full_hash buf (id s) (local_buf 65) 65;
      if negb (r =? EWF_SUCCESS) then mret EWF_SMITH_LOGIN_ERROR
      else
        '(r, buf) ← on_hdf (ewf_hdf_sget_copy pcre_match (lit "password") buf 256);
        if negb (r =? EWF_SUCCESS) then mret EWF_SMITH_LOGIN_INVALID_ARGS
        else
          s ← load_session p;
          '(r, password) ← ewf_smith_full_hash buf (id s) (local_buf 65) 65;
          if negb (r =? EWF_SUCCESS) then mret EWF_SMITH_LOGIN_ERROR
          else check_credentials p login password buf
  else
    login ← lift (buf_of (nbu_string_copy (Some (local_buf 65)) 65 (Some hash)));
    rest ← lift (padd hash LOGIN_HASH_LEN);
    password ← lift (buf_of (nbu_string_copy (Some (local_buf 65)) 65 (Some rest)));
    check_credentials p login password (local_buf 256).

(** [goto error_login]. *)
Definition error_login (p : loc) (local_init : bool) (ret : Z) : M Z :=
  (if local_init then free_session p else mret tt);; mret ret.

Definition ewf_smith_login : M Z :=
  zsid ← on_hdf (hdf_get_value (lit "Query.zsid"));
  let given := match zsid with Some (c :: z) => Some (c :: z) | _ => None end in
  zombie ← match given with
           | Some z =>
               s ← ewf_session_list_get (Some (cstr z));
               mret (match s with Some p => inl (p, false) | None => inr EWF_SMITH_LOGIN_INVALID_SESSION end)
           | None =>
               s ← ewf_session_create clock random;
               mret (match s with Some p => inl (p, true) | None => inr EWF_SMITH_LOGIN_ERROR end)
           end;
  match zombie with
  | inr ret => mret ret
  | inl (p, local_init) =>
      method ← on_hdf (hdf_get_value (lit "Query.method"));
      let method := default (lit "passwd") method in
      '(_, auth) ← lift (ewf_config_get conf_get (lit "web_auth") (local_buf 16) 16);
      all ← lift (nbu_string_matches auth "all");
      same ← (if all =? NBU_STRING_EQUAL then mret NBU_STRING_EQUAL
              else lift (nbu_string_compare (Some (cstr method)) (Some auth)));
      if negb (all =? NBU_STRING_EQUAL) && negb (same =? NBU_STRING_EQUAL)
      then error_login p local_init EWF_SMITH_LOGIN_METHOD_NOT_ALLOWED
      else
        is_passwd ← lift (nbu_string_matches (cstr method) "passwd");
        ret ← (if is_passwd =? NBU_STRING_EQUAL then ewf_smith_login_passwd p
               else match login_alt_method with
                    | Some f => f p method
                    | None => mret EWF_SMITH_LOGIN_METHOD_NOT_ALLOWED
                    end);
        if ret =? EWF_SMITH_LOGIN_SUCCESS then
          added ← (if local_init : bool then ewf_session_list_add p else mret EWF_SUCCESS);
          if negb (added =? EWF_SUCCESS) then error_login p local_init EWF_SMITH_LOGIN_ERROR
          else
            now ← gettimeofday clock;
            store_session p (set_activated 1);;
            store_session p (set_tv now);;
            s ← load_session p;
            sid ← lift (c_str (id s));
            add_cookie (CookieSet (lit "sid") sid);;
            mret EWF_SMITH_LOGIN_SUCCESS
        else
          (if negb local_init then
             ewf_session_list_remove (cstr <$> given);; mret tt
           else mret tt);;
          error_login p local_init ret
  end.

Definition ewf_smith_logout : M Z :=
  session_id ← on_hdf (hdf_get_value (lit "Cookie.sid"));
  match session_id with
  | None => mret EWF_ERROR
  | Some sid =>
      r ← ewf_session_list_remove (Some (cstr sid));
      if r =? EWF_SUCCESS then add_cookie (CookieClear (lit "sid"));; mret EWF_SUCCESS
      else mret EWF_ERROR
  end.

(** *** The login page's AJAX handler, on a box with the autologin button
    ([CIBOX] not defined): [nbd_status_get] answers the button's state. *)
Definition login_ajax_handler (autologin : option bytes) : M unit :=
  action ← on_hdf (ewf_hdf_sget pcre_match (lit "action"));
  is_challenge ← match action with
                 | None => mret false
                 | Some a => r ← lift (nbu_string_matches (cstr a) "challenge"); mret (r =? NBU_STRING_EQUAL)
                 end;
  if is_challenge : bool then
    on_hdf (ewf_hdf_set (Some (lit "action")) action);;
    session ← ewf_session_create clock random;
    match session with
    | None => mret tt
    | Some p =>
        r ← ewf_session_list_add p;
        if r =? EWF_SUCCESS then
          s ← load_session p;
          sid ← lift (c_str (id s));
          on_hdf (ewf_hdf_set (Some (lit "challenge")) (Some sid));; mret tt
        else free_session p
    end
  else
    match autologin with
    | Some b => on_hdf (ewf_hdf_set (Some (lit "autologin")) (Some b));; mret tt
    | None => mret tt
    end.

End smith.

End EwfSmith.
