(* ===== verification/EwfSmithProofs.v ===== *)
(** What libewf's access control guarantees, and where it does not. *)

From stdpp Require Import base tactics list gmap strings.
From S2P Require Import Prelude.
From S2P Require Import Dll.
From S2P Require Import CursorList.
From S2P Require Import CString.
From S2P Require Import NbuList.
From S2P Require Import NbuListSpec.
From S2P Require Import NbuListAlg.
From S2P Require Import NbuListRefine.
From S2P Require Import NbuString.
From S2P Require Import NbuNet.
From S2P Require Import EwfHdf.
From S2P Require Import EwfSession.
From S2P Require Import EwfSessionProofs.
From S2P Require Import EwfSmith.
Import NbuList NbuString NbuNet EwfHdf EwfSmith.

Section specs.
Context {H : Type} `{Hdf H}.
Context (clock : nat → timeval) (random : nat → option bytes).
Context (pcre_match : bytes → bytes → option bool).
Context (sha256 : bytes → bytes) (hmac_sha256 : bytes → bytes → bytes).
Context (conf_get : conf_get_fn).
Context (login_alt_method : option (loc → bytes → cmd (world H) Z)).
Implicit Types w : world H.

(** The text the configuration gives for a name in a buffer of [n] bytes. *)
Definition config (name : bytes) (n : nat) (t : bytes) : Prop :=
  ∃ r m, ewf_config_get conf_get name (local_buf n) (Z.of_nat n) = Ret (r, m) ∧
         str_of m = Some t.

Definition cookie_sid w : option bytes := hdf_get (w_hdf w) (lit "Cookie.sid").

(** A session whose last use is more than [SESSION_TIMEOUT] seconds ago. *)
Definition timed_out (now : timeval) (s : session) : bool :=
  s32 (tv_sec (tv s) + SESSION_TIMEOUT) <? tv_sec now.

Lemma find_id_elem w t ps p : find_id w t ps = Some p → p ∈ ps ∧ id_of w p = t.
Proof.
  unfold find_id. destruct (list_find _ ps) as [[i q]|] eqn:E; [|done]. intros [= <-].
  apply list_find_Some in E as (Hi & Hq & _). split; [by eapply list_elem_of_lookup_2|done].
Qed.

(** The session a request is made in. *)
Definition request_session w (ps : list loc) : option loc :=
  match cookie_sid w with Some sid => find_id w sid ps | None => None end.

Definition in_session w (ps : list loc) : bool :=
  match request_session w ps with
  | Some p => match w_sess w !! p with
              | Some s => negb (timed_out (clock (w_tick w)) s)
              | None => false
              end
  | None => false
  end.

Lemma on_hdf_get w k : on_hdf (hdf_get_value k) w = Ret (hdf_get (w_hdf w) k, w).
Proof. by destruct w. Qed.

Lemma check_session_spec w a ps :
  sessions w a ps → (∀ sid, cookie_sid w = Some sid → text sid) →
  ∃ w' ps', ewf_smith_check_session clock w
        = Ret (if in_session w ps then EWF_SUCCESS else EWF_ERROR, w') ∧ sessions w' a ps'.
Proof.
  intros Hss Ht. unfold ewf_smith_check_session, in_session, request_session.
  erewrite cmd_bind_Ret; [|apply on_hdf_get]. fold (cookie_sid w).
  destruct (cookie_sid w) as [sid|]; [|by exists w, ps]. specialize (Ht sid eq_refl).
  destruct (get_spec w a ps (cstr sid) sid Hss (str_of_cstr _ Ht)) as (w1 & E1 & Hsw).
  run_with E1.
  pose proof (same_world_sessions _ _ _ _ Hsw Hss) as Hss1.
  destruct (find_id w sid ps) as [p|] eqn:Ef; [|by exists w1, ps].
  destruct (find_id_elem _ _ _ _ Ef) as [Hp Hid].
  pose proof (ss_live _ _ _ Hss) as Hlive. eapply Forall_forall in Hlive as (t & s & Es & _); [|exact Hp].
  assert (w_sess w1 = w_sess w ∧ w_tick w1 = w_tick w) as [Ews Etk] by (by destruct Hsw as (? & -> & _)).
  run. rewrite Etk.
  set (w2 := World (w_heap w1) _ _ _ _ _ _ _).
  assert (sessions w2 a ps) as Hss2 by (destruct Hss1; by split).
  assert (w_sess w2 !! p = Some s) as Es2 by (unfold w2; cbn; by rewrite Ews).
  erewrite cmd_bind_Ret; [|unfold load_session; rewrite Es2; reflexivity].
  rewrite Es. unfold timed_out. destruct (_ <? _); cbn [negb].
  - destruct (remove_spec w2 a ps (cstr sid) sid Hss2 (str_of_cstr _ Ht)) as (w3 & E3 & _ & Hr).
    run_with E3.
    destruct (find_id w2 sid ps).
    + destruct Hr as (pre & post & _ & _ & _ & Hss3 & _). by exists w3, (pre ++ post).
    + exists w3, ps. split; [done|]. by eapply same_world_sessions.
  - erewrite cmd_bind_Ret; [|unfold store_session; rewrite Es2; reflexivity].
    eexists _, ps. split; [reflexivity|]. destruct Hss2 as [? ? ? ? Hl2 ? Hf2]. split; try done.
    + apply Forall_forall. intros q Hq. eapply Forall_forall in Hl2 as (t' & s' & Es' & Ht' & Hl'); [|exact Hq].
      exists t'. destruct (decide (q = p)) as [->|Hqp].
      * exists (set_tv (clock (w_tick w)) s'). cbn. rewrite lookup_insert_eq. by simplify_eq.
      * exists s'. cbn. by rewrite lookup_insert_ne.
    + intros q Hq. cbn. rewrite lookup_insert_ne; [by apply Hf2|]. intros <-.
      by rewrite (Hf2 p Hq) in Es2.
Qed.

(** The decision of the access control. *)
Definition decision (auth : bytes) w (ps : list loc) (policy : ewf_page_access) : Z :=
  if bytes_eqb auth (lit "off") then EWF_SMITH_CTL_AUTH_OFF
  else if in_session w ps then EWF_SMITH_CTL_SUCCESS
  else match policy with
       | EWF_ACCESS_PUBLIC => EWF_SMITH_CTL_PUBLICPAGE
       | EWF_ACCESS_PRIVATE => EWF_SMITH_CTL_NOT_ALLOWED
       end.

Lemma access_control_ok w a ps auth policy :
  sessions w a ps → config (lit "web_auth") 16 auth →
  (∀ sid, cookie_sid w = Some sid → text sid) →
  ∃ w' ps', ewf_smith_access_control clock conf_get policy w
    = Ret (decision auth w ps policy, w') ∧ sessions w' a ps'.
Proof.
  intros Hss (r & m & Ec & Hm) Ht. unfold ewf_smith_access_control, decision.
  change (Z.of_nat 16) with 16 in Ec. rewrite Ec. run.
  cbv beta iota. rewrite (matches_ok m auth) by (done || by repeat constructor).
  run.
  destruct (bytes_eqb auth (lit "off")); [by exists w, ps|].
  change (NBU_STRING_DIFFERENT =? NBU_STRING_EQUAL) with false. cbn iota.
  destruct (check_session_spec w a ps Hss Ht) as (w' & ps' & E & Hss').
  run_with E. exists w', ps'. split; [|done].
  destruct (in_session w ps); [done|]. by destruct policy.
Qed.

(** C4: the decision of [ewf_smith_access_control]: access is granted when
    authentication is off, when the request's cookie names a session of the list
    used within [SESSION_TIMEOUT] seconds, or when the page is public; otherwise
    it is refused.  The session list stays well formed. *)
Theorem ewf_smith_access_control_spec w a ps auth policy :
  sessions w a ps → config (lit "web_auth") 16 auth →
  (∀ sid, cookie_sid w = Some sid → text sid) →
  ∃ w' ps', ewf_smith_access_control clock conf_get policy w
    = Ret (if bytes_eqb auth (lit "off") then EWF_SMITH_CTL_AUTH_OFF
           else if in_session w ps then EWF_SMITH_CTL_SUCCESS
           else match policy with
                | EWF_ACCESS_PUBLIC => EWF_SMITH_CTL_PUBLICPAGE
                | EWF_ACCESS_PRIVATE => EWF_SMITH_CTL_NOT_ALLOWED
                end, w') ∧ sessions w' a ps'.
Proof. apply access_control_ok. Qed.

Lemma on_hdf_ok {A} (m : cmd H A) w x d :
  m (w_hdf w) = Ret (x, d) → on_hdf m w = Ret (x, set_hdf d w).
Proof. intros E. unfold on_hdf, zoom. by rewrite E. Qed.

Lemma sessions_hdf w a ps d : sessions w a ps → sessions (set_hdf d w) a ps.
Proof. intros [? ? ? ? ? ? ?]. by split. Qed.

(** Setting a page variable leaves the other names alone. *)
Lemma on_hdf_set w n v k :
  text n → (length n < 245)%nat → k ≠ var_value n →
  ∃ r d, on_hdf (ewf_hdf_set (Some n) (Some v)) w = Ret (r, set_hdf d w) ∧
         hdf_get d k = hdf_get (w_hdf w) k.
Proof.
  intros Ht Hl Hk. pose proof (set_ok n v false (w_hdf w) Ht Hl) as Hs. cbn iota in Hs.
  destruct (hdf_get (w_hdf w) (var_value n)); (eexists _, _; split; [by eapply on_hdf_ok|]).
  - done.
  - by rewrite hdf_get_other by done.
Qed.

(** The challenge handler: a new session joins the list and its id is answered. *)
Lemma challenge_spec w a ps k rdm al :
  sessions w a ps → h_avail (w_heap w) = S (S k) →
  random (w_draw w) = Some rdm → length rdm = 20%nat → Forall byte_ok rdm →
  hdf_get (w_hdf w) (query (lit "action")) = Some (lit "challenge") →
  hdf_get (w_hdf w) (regex (lit "action")) = None →
  hdf_get (w_hdf w) (var_value (lit "challenge")) = None →
  ∃ w', login_ajax_handler clock random pcre_match al w = Ret (tt, w') ∧
    sessions w' a (ps ++ [w_fresh w]) ∧
    w_sess w' = <[w_fresh w := Session 0 (cstr (hex rdm)) (clock (w_tick w))]> (w_sess w) ∧
    w_tick w' = S (w_tick w) ∧
    hdf_get (w_hdf w') (var_value (lit "challenge")) = Some (hex rdm).
Proof.
  intros Hss Hav Hr Hl Hb Hq Hre Hc. unfold login_ajax_handler.
  erewrite cmd_bind_Ret.
  2: { apply on_hdf_ok. rewrite sget_ok by (by repeat constructor || simpl; lia).
       rewrite Hq. unfold valid. rewrite Hre. reflexivity. }
  erewrite cmd_bind_Ret.
  2: { erewrite cmd_bind_Ret; [reflexivity|]. rewrite (matches_ok _ (lit "challenge")); [reflexivity|..].
       - apply str_of_cstr. by repeat constructor.
       - by repeat constructor. }
  rewrite bytes_eqb_refl. cbv iota. change (NBU_STRING_EQUAL =? NBU_STRING_EQUAL) with true. cbv iota.
  destruct (on_hdf_set (set_hdf (w_hdf w) w) (lit "action") (lit "challenge") (var_value (lit "challenge")))
    as (r1 & d1 & E1 & Hc1); [by repeat constructor|simpl; lia|done|].
  run_with E1. set (w1 := set_hdf d1 _).
  destruct (create_spec clock random w1 (S k) rdm Hav Hr Hl Hb)
    as (w2 & E2 & Hws & Hf2 & Hl2 & Hh2 & _ & Ht2 & _ & Ha2 & Hok2 & Hlst2 & Hil2).
  run_with E2. cbv iota.
  destruct (created_sessions w1 w2 a ps _ (sessions_hdf _ _ _ _ (sessions_hdf _ _ _ _ Hss))
              Hws Hf2 Hl2 Hok2 Hlst2 Hil2) as [Hss2 Hnp].
  change (w_fresh w1) with (w_fresh w) in *. change (w_sess w1) with (w_sess w) in *.
  destruct (hex_facts rdm Hb) as [Hhl Hht]. rewrite Hl in Hhl.
  destruct (add_spec w2 a ps (w_fresh w) (hex rdm) Hss2 Hnp) as (w3 & E3 & Hss3 & Hfr3 & Hws3).
  { eexists. rewrite Hws, lookup_insert_eq. split; [done|]. cbn. split; [by apply str_of_cstr|].
    rewrite Hhl. done. }
  { rewrite Ha2. done. }
  run_with E3. change (EWF_SUCCESS =? EWF_SUCCESS) with true. cbv iota.
  erewrite cmd_bind_Ret.
  2: { unfold load_session. rewrite Hws3, Hws, lookup_insert_eq. reflexivity. }
  erewrite cmd_bind_Ret; [|cbn [id]; rewrite (c_str_cstr _ Hht); reflexivity].
  destruct Hfr3 as (Fl & Ff & Ft & Fd & Fh & Fc).
  erewrite cmd_bind_Ret.
  2: { apply on_hdf_ok. unfold ewf_hdf_set. rewrite set_ok by (by repeat constructor || simpl; lia).
       rewrite Fh, Hh2. change (w_hdf w1) with d1. rewrite Hc1. cbn [w_hdf set_hdf]. rewrite Hc. reflexivity. }
  eexists. split; [reflexivity|]. split_and!; cbn.
  - by apply sessions_hdf.
  - by rewrite Hws3.
  - by rewrite Ft, Ht2.
  - by rewrite hdf_get_set.
Qed.

(** C25: a session that was never activated opens every private page.  Anyone can
    call the public login page's challenge handler; sending the id it answers as
    the cookie of the next request, within the timeout, makes
    [ewf_smith_access_control] grant a private page although no password was
    given: [ewf_smith_check_session] does not look at [activated]. *)
Theorem challenge_grants_private_page w a ps k rdm al auth d2 :
  sessions w a ps → h_avail (w_heap w) = S (S k) →
  random (w_draw w) = Some rdm → length rdm = 20%nat → Forall byte_ok rdm →
  hdf_get (w_hdf w) (query (lit "action")) = Some (lit "challenge") →
  hdf_get (w_hdf w) (regex (lit "action")) = None →
  hdf_get (w_hdf w) (var_value (lit "challenge")) = None →
  config (lit "web_auth") 16 auth → auth ≠ lit "off" →
  Forall (λ p, id_of w p ≠ hex rdm) ps →
  tv_sec (clock (S (w_tick w))) <= s32 (tv_sec (clock (w_tick w)) + SESSION_TIMEOUT) →
  hdf_get d2 (lit "Cookie.sid") = Some (hex rdm) →
  ∃ w1 w2, login_ajax_handler clock random pcre_match al w = Ret (tt, w1) ∧
    hdf_get (w_hdf w1) (var_value (lit "challenge")) = Some (hex rdm) ∧
    activated <$> w_sess w1 !! w_fresh w = Some 0 ∧
    ewf_smith_access_control clock conf_get EWF_ACCESS_PRIVATE (set_hdf d2 w1)
    = Ret (EWF_SMITH_CTL_SUCCESS, w2).
Proof.
  intros Hss Hav Hr Hl Hb Hq Hre Hc (r & m & Ec & Hm) Hauth Hids Htm Hd2.
  destruct (challenge_spec w a ps k rdm al) as (w1 & E1 & Hss1 & Hws1 & Htk & Hch); try done.
  destruct (hex_facts rdm Hb) as [_ Hht].
  destruct (check_session_spec (set_hdf d2 w1) a (ps ++ [w_fresh w])) as (w2 & ps2 & E2 & _).
  { by apply sessions_hdf. }
  { intros sid. unfold cookie_sid. cbn [w_hdf set_hdf]. rewrite Hd2. by intros [= <-]. }
  assert (in_session (set_hdf d2 w1) (ps ++ [w_fresh w]) = true) as Hin.
  { unfold in_session, request_session, cookie_sid. cbn [w_hdf set_hdf]. rewrite Hd2.
    assert (find_id (set_hdf d2 w1) (hex rdm) (ps ++ [w_fresh w]) = Some (w_fresh w)) as ->.
    { unfold find_id. rewrite list_find_app_r.
      - simpl. rewrite decide_True; [done|]. unfold id_of. cbn. rewrite Hws1, lookup_insert_eq. cbn.
        by rewrite str_of_cstr.
      - apply list_find_None, Forall_forall. intros q Hqin. eapply Forall_forall in Hids; [|exact Hqin].
        pose proof (ss_fresh _ _ _ Hss (w_fresh w) ltac:(lia)) as Hn.
        pose proof (ss_live _ _ _ Hss) as Hlv. eapply Forall_forall in Hlv as (t & s & Es & _); [|exact Hqin].
        unfold id_of in *. cbn. rewrite Hws1, lookup_insert_ne by congruence. done. }
    cbn. rewrite Hws1, lookup_insert_eq, Htk. unfold timed_out. cbn.
    rewrite (proj2 (Z.ltb_ge _ _)) by done. done. }
  rewrite Hin in E2. exists w1, w2. split_and!; try done.
  - rewrite Hws1, lookup_insert_eq. done.
  - unfold ewf_smith_access_control. change (Z.of_nat 16) with 16 in Ec. rewrite Ec.
    run. cbv beta iota.
    rewrite (matches_ok m auth) by (done || by repeat constructor).
    run.
    rewrite (proj2 (bytes_eqb_neq _ _)) by done.
    change (NBU_STRING_DIFFERENT =? NBU_STRING_EQUAL) with false. cbv iota.
    by run_with E2.
Qed.

(** C24: after a successful [ewf_smith_logout] the cookie's id names no session
    any more, provided ids are distinct: the next request is not in a session. *)
Theorem ewf_smith_logout_ends_session w a ps sid :
  sessions w a ps → cookie_sid w = Some sid → text sid →
  (∀ p q, p ∈ ps → q ∈ ps → id_of w p = id_of w q → p = q) →
  find_id w sid ps ≠ None →
  ∃ w' ps', ewf_smith_logout w = Ret (EWF_SUCCESS, w') ∧ sessions w' a ps' ∧
    find_id w' sid ps' = None ∧ S (length ps') = length ps ∧
    w_cookies w' = w_cookies w ++ [CookieClear (lit "sid")].
Proof.
  intros Hss Hck Ht Hinj Hf. unfold ewf_smith_logout.
  erewrite cmd_bind_Ret; [|apply on_hdf_get]. fold (cookie_sid w). rewrite Hck.
  destruct (remove_spec w a ps (cstr sid) sid Hss (str_of_cstr _ Ht)) as (w1 & E1 & Hfr & Hr).
  run_with E1.
  destruct (find_id w sid ps) as [p|] eqn:Ef; [|done].
  destruct Hr as (pre & post & -> & Hpre & Hid & Hss1 & Hws).
  change (EWF_SUCCESS =? EWF_SUCCESS) with true. cbv iota.
  eexists _, (pre ++ post). split; [reflexivity|]. cbn. split_and!.
  - destruct Hss1. by split.
  - unfold find_id. rewrite (proj2 (list_find_None _ _)); [done|]. apply Forall_forall. intros q Hq.
    pose proof (ss_nodup _ _ _ Hss) as Hnd. rewrite <- Permutation_middle in Hnd.
    apply NoDup_cons in Hnd as [Hnd _]. assert (q ≠ p) as Hqp by congruence.
    unfold id_of. cbn. rewrite Hws, lookup_delete_ne by done. fold (id_of w q). intros Hiq.
    apply Hqp, Hinj; [set_solver|set_solver|congruence].
  - rewrite !length_app. simpl. lia.
  - by destruct Hfr as (_ & _ & _ & _ & _ & ->).
Qed.

(** *** Credentials *)

(** The world after one more allocation. *)
Definition spend w : world H :=
  let h := w_heap w in
  set_heap (Heap (h_next h) (h_prev h) (h_data h) (h_lst h) (h_fresh h) (pred (h_avail h)) (h_log h)) w.

Definition digest_ok (d : bytes) : Prop := length d = 32%nat ∧ Forall byte_ok d.

Lemma print_digest d : digest_ok d → print_id (replicate 65 0) 0 d = Ret (cstr (hex d)).
Proof.
  intros [Hl Hb]. pose proof (print_id_ok [] d (replicate 65 0) Hb eq_refl) as E.
  rewrite Hl in E. apply E; [by intros ->|simpl; lia].
Qed.

Lemma calloc_bytes_ok w n k : h_avail (w_heap w) = S k →
  calloc_bytes n w = Ret (Some (replicate n 0), spend w).
Proof. intros E. unfold calloc_bytes, spend. by rewrite E. Qed.

Lemma crypto_hmac_ok w m v key kt k :
  str_of m = Some v → str_of key = Some kt → digest_ok (hmac_sha256 kt v) →
  h_avail (w_heap w) = S k →
  ewf_crypto_hmac_sha256_mac hmac_sha256 key (Some m) w
  = Ret ((EWF_SUCCESS, Some (cstr (hex (hmac_sha256 kt v)))), spend w).
Proof.
  intros Hm Hk Hd Ha. unfold ewf_crypto_hmac_sha256_mac.
  erewrite cmd_bind_Ret; [|by eapply calloc_bytes_ok]. cbv iota. unfold c_str. rewrite Hk, Hm.
  run. run.
  by rewrite print_digest by done.
Qed.

Lemma crypto_sha256_ok w m v k :
  str_of m = Some v → digest_ok (sha256 v) → h_avail (w_heap w) = S k →
  ewf_crypto_sha256_hash sha256 (Some m) w = Ret ((EWF_SUCCESS, Some (cstr (hex (sha256 v)))), spend w).
Proof.
  intros Hm Hd Ha. unfold ewf_crypto_sha256_hash.
  erewrite cmd_bind_Ret; [|by eapply calloc_bytes_ok]. cbv iota. unfold c_str. rewrite Hm.
  run. by rewrite print_digest by done.
Qed.

Lemma hmac_ok w m v key kt buf size k :
  str_of m = Some v → str_of key = Some kt → digest_ok (hmac_sha256 kt v) →
  h_avail (w_heap w) = S k → 64 < size <= Z.of_nat (length buf) → size <= INT_MAX →
  ∃ buf', ewf_smith_hmac hmac_sha256 m key buf size w = Ret ((EWF_SUCCESS, buf'), spend w) ∧
    str_of buf' = Some (hex (hmac_sha256 kt v)) ∧ length buf' = length buf.
Proof.
  intros Hm Hk Hd Ha Hs Hi. unfold ewf_smith_hmac.
  destruct (hex_facts _ (proj2 Hd)) as [Hl Ht]. rewrite (proj1 Hd) in Hl.
  destruct (copy_ok buf size (cstr (hex (hmac_sha256 kt v))) (hex (hmac_sha256 kt v)))
    as (buf' & E & [Hb Hlb _]); [lia|done|by apply str_of_cstr|].
  exists buf'. rewrite take_ge in Hb by lia. split_and!; [|done|done].
  erewrite cmd_bind_Ret; [|by eapply crypto_hmac_ok].
  cbv beta iota. change (negb (EWF_SUCCESS =? EWF_SUCCESS)) with false. cbv iota.
  rewrite E. done.
Qed.

Lemma full_hash_ok w m v key kt buf size k :
  str_of m = Some v → str_of key = Some kt → digest_ok (sha256 v) →
  digest_ok (hmac_sha256 kt (hex (sha256 v))) →
  h_avail (w_heap w) = S (S k) → 64 < size <= Z.of_nat (length buf) → size <= INT_MAX →
  ∃ buf', ewf_smith_full_hash sha256 hmac_sha256 m key buf size w
          = Ret ((EWF_SUCCESS, buf'), spend (spend w)) ∧
    str_of buf' = Some (hex (hmac_sha256 kt (hex (sha256 v)))) ∧ length buf' = length buf.
Proof.
  intros Hm Hk Hd Hd2 Ha Hs Hi. unfold ewf_smith_full_hash.
  destruct (hmac_ok (spend w) (cstr (hex (sha256 v))) (hex (sha256 v)) key kt buf size k)
    as (buf' & E & Hb & Hl); try done.
  { apply str_of_cstr. by apply hex_facts, Hd. }
  { cbn. by rewrite Ha. }
  exists buf'. split_and!; [|done|done].
  erewrite cmd_bind_Ret; [|by eapply crypto_sha256_ok].
  cbv beta iota. change (negb (EWF_SUCCESS =? EWF_SUCCESS)) with false. cbv iota.
  run. by run_with E.
Qed.

(** What the user must know of the session's challenge: the digests expected. *)
Definition expected_login (sid cfg_login : bytes) : bytes := hex (hmac_sha256 sid (hex (sha256 cfg_login))).
Definition expected_password (sid cfg_password : bytes) : bytes := hex (hmac_sha256 sid cfg_password).

Context (sha_ok : ∀ m, digest_ok (sha256 m)) (hmac_ok' : ∀ k m, digest_ok (hmac_sha256 k m)).

Lemma credentials_ok w p s sid login password buf tl tp cl cp k :
  w_sess w !! p = Some s → str_of (id s) = Some sid →
  config (lit "web_login") 65 cl → config (lit "web_password") 65 cp →
  str_of login = Some tl → str_of password = Some tp → length buf = 256%nat →
  h_avail (w_heap w) = S (S (S k)) →
  ∃ w', check_credentials sha256 hmac_sha256 conf_get p login password buf w
    = Ret (if bytes_eqb tl (expected_login sid cl) && bytes_eqb tp (expected_password sid cp)
           then EWF_SMITH_LOGIN_SUCCESS else EWF_SMITH_LOGIN_INVALID_ARGS, w') ∧ w_sess w' = w_sess w.
Proof.
  intros Hs Hid (r1 & m1 & Ec1 & Hm1) (r2 & m2 & Ec2 & Hm2) Hl Hp Hb Ha.
  unfold check_credentials. change (Z.of_nat 65) with 65 in Ec1, Ec2. rewrite Ec1.
  run. cbv beta iota.
  erewrite cmd_bind_Ret; [|unfold load_session; rewrite Hs; reflexivity].
  destruct (full_hash_ok w m1 cl (id s) sid buf 256 (S k)) as (b1 & E1 & Hb1 & Hl1); try done; [lia|].
  run_with E1. cbv beta iota.
  change (negb (EWF_SUCCESS =? EWF_SUCCESS)) with false. cbv iota. fold (expected_login sid cl) in Hb1.
  cbn [nbu_string_compare]. rewrite (compare_loop_ok login b1 tl _ Hl Hb1).
  run.
  destruct (bytes_eqb tl (expected_login sid cl)); cbn [andb]; [|by eexists].
  change (negb (NBU_STRING_EQUAL =? NBU_SUCCESS)) with false. cbv iota. rewrite Ec2.
  run. cbv beta iota.
  erewrite cmd_bind_Ret; [|unfold load_session; cbn; rewrite Hs; reflexivity].
  destruct (hmac_ok (spend (spend w)) m2 cp (id s) sid b1 256 k) as (b2 & E2 & Hb2 & Hl2); try done.
  { cbn. by rewrite Ha. }
  { lia. }
  run_with E2. cbv beta iota.
  change (negb (EWF_SUCCESS =? EWF_SUCCESS)) with false. cbv iota.
  fold (expected_password sid cp) in Hb2.
  rewrite (compare_loop_ok password b2 tp _ Hp Hb2). run.
  by destruct (bytes_eqb tp (expected_password sid cp)); eexists.
Qed.

(** C16: the challenge login.  With a hash of 128 characters in the request,
    [ewf_smith_login_passwd] succeeds exactly when its halves are the HMACs, keyed
    by the session id, of the configured login's digest and of the stored password
    digest; otherwise it answers EWF_SMITH_LOGIN_INVALID_ARGS. *)
Theorem ewf_smith_login_passwd_challenge w p s sid hash cl cp k :
  w_sess w !! p = Some s → str_of (id s) = Some sid →
  config (lit "web_login") 65 cl → config (lit "web_password") 65 cp →
  hdf_get (w_hdf w) (query (lit "hash")) = Some hash → text hash → length hash = 128%nat →
  valid pcre_match (lit "hash") hash (w_hdf w) = true →
  h_avail (w_heap w) = S (S (S k)) →
  ∃ w', ewf_smith_login_passwd pcre_match sha256 hmac_sha256 conf_get p w
    = Ret (if bytes_eqb (take 64 hash) (expected_login sid cl)
              && bytes_eqb (drop 64 hash) (expected_password sid cp)
           then EWF_SMITH_LOGIN_SUCCESS else EWF_SMITH_LOGIN_INVALID_ARGS, w').
Proof.
  intros Hs Hid Hcl Hcp Hq Ht Hlen Hv Ha. unfold ewf_smith_login_passwd.
  destruct (copy_ok (local_buf 129) 129 (cstr hash) hash) as (hb & Eh & [Hhb Hlb Hrest]);
    [simpl; lia|done|by apply str_of_cstr|].
  rewrite take_ge in Hhb by (rewrite Hlen; done).
  erewrite cmd_bind_Ret.
  2: { apply on_hdf_ok. unfold ewf_hdf_sget_copy. erewrite cmd_bind_Ret.
       2: { rewrite sget_ok by (by repeat constructor || simpl; lia). rewrite Hq, Hv. reflexivity. }
       cbv iota. rewrite Eh. reflexivity. }
  cbv beta iota. change (EWF_SUCCESS =? EWF_SUCCESS) with true. cbv iota.
  rewrite (strlen_ok _ _ Hhb), Hlen. run.
  change (negb (Z.of_nat 128 =? 0) && negb (Z.of_nat 128 =? Z.of_nat (LOGIN_HASH_LEN + PASSW_HASH_LEN)))
    with false. cbv iota. change (Z.of_nat 128 =? 0) with false. cbv iota.
  destruct (copy_ok (local_buf 65) 65 hb hash) as (lb & El & [Hltx _ _]); [simpl; lia|done|done|].
  unfold buf_of. rewrite El. run.
  destruct (str_of_split _ _ Hhb) as [r ->].
  assert (length hash = LOGIN_HASH_LEN + 64)%nat as Hl64 by (rewrite Hlen; done).
  unfold padd. rewrite (proj2 (Nat.leb_le _ _)) by (rewrite length_app; lia).
  run.
  assert (str_of (drop LOGIN_HASH_LEN (hash ++ 0 :: r)) = Some (drop 64 hash)) as Hd.
  { rewrite drop_app_le by lia. apply str_of_app. by apply Forall_drop. }
  destruct (copy_ok (local_buf 65) 65 _ _ ltac:(simpl; lia) ltac:(done) Hd) as (pb & Ep & [Hptx _ _]).
  rewrite Ep. run.
  rewrite take_ge in Hptx by (rewrite length_drop, Hlen; done).
  destruct (credentials_ok (set_hdf (w_hdf w) w) p s sid lb pb (local_buf 256) _ _ cl cp k
              Hs Hid Hcl Hcp Hltx Hptx eq_refl Ha) as (w' & E & _).
  exists w'. exact E.
Qed.

End specs.

(** *** A concrete server: one session in the list, activated at second 1000 *)
Definition demo_heap : heap loc :=
  Heap (<[1 := Ptr 2]> (<[2 := Ptr 1]> ∅))%positive (<[1 := Ptr 2]> (<[2 := Ptr 1]> ∅))%positive
    (<[1 := None]> (<[2 := Some 7]> ∅))%positive (<[1 := Lst 1 4 None Null]> ∅)%positive
    3%positive 50 [].

Definition demo_world (d : gmap bytes bytes) : world (gmap bytes bytes) :=
  World demo_heap (Ptr 1) (<[7%positive := Session (-1) (cstr (lit "ab")) (Timeval 1000 0)]> ∅)
    8%positive 0 0 d [].

Lemma demo_sessions d : sessions (demo_world d) 1%positive [7%positive].
Proof.
  split.
  - done.
  - intros x Hx. cbn in *. by rewrite !lookup_insert_ne by lia.
  - exists [2%positive]. split.
    + apply (bool_decide_unpack _). by vm_compute.
    + right. split; [apply (bool_decide_unpack _); by vm_compute|]. cbn. unfold linked. by repeat split.
    + by repeat constructor.
    + done.
    + by repeat constructor.
    + eexists. by split.
  - apply NoDup_singleton.
  - apply Forall_singleton. exists (lit "ab"), (Session (-1) (cstr (lit "ab")) (Timeval 1000 0)).
    split_and!; [done|done|]. unfold SID_LEN. simpl. lia.
  - by eexists.
  - intros p Hp. cbn in *. by rewrite lookup_insert_ne by lia.
Qed.

(** The second [n] of a clock that starts at 2000, a constant random device, and a
    configuration that asks for authentication. *)
Definition demo_clock (n : nat) : timeval := Timeval (2000 + Z.of_nat n) 0.
Definition demo_random (n : nat) : option bytes := Some (replicate 20 (Z.of_nat n)).
Definition demo_conf : conf_get_fn := Some (λ name value,
  if bytes_eqb name (lit "web_auth") then '(r, b) ← nbu_string_copy (Some value) 16 (Some (cstr (lit "all"))); b ← must b; Ret (r, b)
  else Ret (EWF_ERROR, value)).

Lemma demo_auth : config demo_conf (lit "web_auth") 16 (lit "all").
Proof. eexists _, _. split; vm_compute; reflexivity. Qed.

Lemma ewf_session_list_cleaner_spec_witness :
  ∃ w', ewf_session_list_cleaner (λ _, Timeval 9000 0) (demo_world ∅) = Ret (1, w') ∧
    sessions w' 1%positive (filter (λ p, ¬ stale (demo_world ∅) (Timeval 9000 0) p) [7%positive]) ∧
    ∀ p, w_sess w' !! p = if decide (p ∈ [7%positive] ∧ stale (demo_world ∅) (Timeval 9000 0) p) then None
                          else w_sess (demo_world ∅) !! p.
Proof.
  exact (ewf_session_list_cleaner_spec (λ _, Timeval 9000 0) (demo_world ∅) 1%positive [7%positive]
           (demo_sessions ∅)).
Defined.

Lemma ewf_smith_access_control_spec_witness :
  ∃ w' ps', ewf_smith_access_control demo_clock demo_conf EWF_ACCESS_PRIVATE
              (demo_world {[lit "Cookie.sid" := lit "ab"]})
    = Ret (EWF_SMITH_CTL_SUCCESS, w') ∧ sessions w' 1%positive ps'.
Proof.
  destruct (ewf_smith_access_control_spec demo_clock demo_conf
           (demo_world {[lit "Cookie.sid" := lit "ab"]}) 1%positive [7%positive] (lit "all")
           EWF_ACCESS_PRIVATE) as (w' & ps' & E & Hs).
  - apply demo_sessions.
  - apply demo_auth.
  - intros sid [= <-]. by repeat constructor.
  - exists w', ps'. split; [|done]. rewrite E. do 2 f_equal.
Defined.

Definition challenge_request : gmap bytes bytes := {[query (lit "action") := lit "challenge"]}.

Lemma challenge_grants_private_page_witness :
  ∃ w1 w2, login_ajax_handler demo_clock demo_random (λ _ _, None) None (demo_world challenge_request)
           = Ret (tt, w1) ∧
    hdf_get (w_hdf w1) (var_value (lit "challenge")) = Some (hex (replicate 20 0)) ∧
    activated <$> w_sess w1 !! 8%positive = Some 0 ∧
    ewf_smith_access_control demo_clock demo_conf EWF_ACCESS_PRIVATE
      (set_hdf {[lit "Cookie.sid" := hex (replicate 20 0)]} w1) = Ret (EWF_SMITH_CTL_SUCCESS, w2).
Proof.
  apply (challenge_grants_private_page demo_clock demo_random (λ _ _, None) demo_conf
           (demo_world challenge_request) 1%positive [7%positive] 48 (replicate 20 0) None (lit "all"));
    try done.
  - apply demo_sessions.
  - by apply (bool_decide_unpack _).
  - apply demo_auth.
  - by repeat constructor.
Defined.

Lemma ewf_smith_logout_ends_session_witness :
  ∃ w' ps', ewf_smith_logout (demo_world {[lit "Cookie.sid" := lit "ab"]}) = Ret (EWF_SUCCESS, w') ∧
    sessions w' 1%positive ps' ∧ find_id w' (lit "ab") ps' = None ∧ S (length ps') = 1%nat ∧
    w_cookies w' = [CookieClear (lit "sid")].
Proof.
  apply (ewf_smith_logout_ends_session (demo_world {[lit "Cookie.sid" := lit "ab"]}) 1%positive
           [7%positive] (lit "ab")).
  - apply demo_sessions.
  - done.
  - by repeat constructor.
  - intros p q Hp Hq _. set_solver.
  - done.
Defined.

(** Constant digests satisfy what the code relies on. *)
Definition demo_digest (m : bytes) : bytes := replicate 32 (u8 (Z.of_nat (length m))).

Lemma demo_digest_ok m : digest_ok (demo_digest m).
Proof.
  split; [done|]. apply Forall_replicate. apply u8_range.
Qed.

Definition demo_login : bytes :=
  expected_login demo_digest (λ _ m, demo_digest m) (lit "ab") (lit "admin")
  ++ expected_password (λ _ m, demo_digest m) (lit "ab") [].

Lemma ewf_smith_login_passwd_challenge_witness :
  ∃ w', ewf_smith_login_passwd (λ _ _, None) demo_digest (λ _ m, demo_digest m) demo_conf 7%positive
          (demo_world {[query (lit "hash") := demo_login]})
    = Ret (EWF_SMITH_LOGIN_SUCCESS, w').
Proof.
  apply (ewf_smith_login_passwd_challenge (λ _ _, None) demo_digest (λ _ m, demo_digest m) demo_conf
           demo_digest_ok (λ _ m, demo_digest_ok m)
           (demo_world {[query (lit "hash") := demo_login]}) 7%positive
           (Session (-1) (cstr (lit "ab")) (Timeval 1000 0)) (lit "ab") demo_login (lit "admin") [] 47);
    try done.
  - eexists _, _. split; vm_compute; reflexivity.
  - eexists _, _. split; vm_compute; reflexivity.
  - apply (bool_decide_unpack _). by vm_compute.
Defined.
