(* ===== verification/EwfDispatch.v ===== *)
(** From a request to its page: [core/ewf_request.c], [core/ewf_dispatcher.c],
    [core/ewf_controller.c], [core/ewf_renderer.c] and the rest of [ewf_utils.c] under
    [src/efixo/efixo-libewf/src/src].

    A handler of a page is an index in the table [code].  ClearSilver's [cgi_parse] and
    [hdf_read_file] are parameters; what [cgi_redirect] and [cgi_display] send is kept
    in the order of the calls. *)

From stdpp Require Import base tactics list gmap strings.
From S2P Require Import Prelude.
From S2P Require Import CString.
From S2P Require Import NbuList.
From S2P Require Import NbuString.
From S2P Require Import NbuNet.
From S2P Require Import EwfHdf.
From S2P Require Import EwfSession.
From S2P Require Import EwfSmith.
Import NbuList NbuString NbuNet EwfHdf EwfSmith.

Module EwfDispatch.

Inductive request_type := display_request | form_request | ajax_request.

#[export] Instance request_type_dec : EqDecision request_type.
Proof. solve_decision. Defined.

Record ewf_request_t := Request { type : request_type; uri : option bytes }.

Record ewf_page_t := Page {
  name : bytes;
  access_policy : ewf_page_access;
  display_handler : option nat;
  form_handler : option nat;
  ajax_handler : option nat;
}.

Inductive sent := Redirect (uri : bytes) | Display (template : bytes).

Inductive content_type := CONTENT_TYPE_AUTO | CONTENT_TYPE_HTML | CONTENT_TYPE_XML.

(** The server's state: sessions and request data, the table of the pages, the error
    page, the renderer's two flags, what was sent. *)
Record web (H : Type) := Web {
  wb_w : world H;
  htable_page : list (bytes * ewf_page_t);
  ewf_page_error : option ewf_page_t;
  force_raw_out : bool;
  force_content_type : content_type;
  wb_sent : list sent;
}.

Arguments Web {H}.
Arguments wb_w {H}.
Arguments htable_page {H}.
Arguments ewf_page_error {H}.
Arguments force_raw_out {H}.
Arguments force_content_type {H}.
Arguments wb_sent {H}.

Definition APP_ERROR_112 : Z := 112.
Definition APP_ERROR_115 : Z := 115.
Definition HTTP_ERROR_404 : Z := 404.

(** The path of a URI: the text before the query string. *)
Fixpoint strip_query (m : bytes) : outcome bytes :=
  match m with
  | [] => Undef
  | c :: m' =>
      if c =? 0 then Ret m
      else if c =? 63 then Ret (0 :: m')
      else m' ← strip_query m'; Ret (c :: m')
  end.

(** Is the index page wanted? *)
Definition wants_index (uri : bytes) : outcome bool :=
  c0 ← rd uri 0;
  if c0 =? 0 then Ret true
  else if c0 =? 47 then c1 ← rd uri 1; Ret (c1 =? 0)
  else Ret false.

Definition page_key (uri : bytes) : outcome bytes :=
  b ← wants_index uri;
  pgname ← buf_of (nbu_string_copy (Some (local_buf 128)) 128
                     (Some (if b : bool then cstr (lit "/index") else uri)));
  pgname ← strip_query pgname;
  c_str pgname.

Section web.
Context {H : Type} `{Hdf H}.
Context (clock : nat → timeval) (conf_get : conf_get_fn).

(** ClearSilver: the data set of a POST request, a data set with a file's values, and
    the children of [Query]. *)
Context (cgi_parse : H → H) (hdf_read_file : bytes → H → H).
Context (query_tree : H → list (option bytes * option bytes)).

(** [ewf_config_env.dir_webapproot], and the slots of the table [hcreate_r] makes. *)
Context (dir_webapproot : bytes) (page_slots : nat).

Abbreviation W := (web H).
Abbreviation M := (cmd W).

Definition set_world (w : world H) (s : W) : W :=
  Web w (htable_page s) (ewf_page_error s) (force_raw_out s) (force_content_type s) (wb_sent s).
Definition set_pages (t : list (bytes * ewf_page_t)) (s : W) : W :=
  Web (wb_w s) t (ewf_page_error s) (force_raw_out s) (force_content_type s) (wb_sent s).
Definition set_page_error (p : option ewf_page_t) (s : W) : W :=
  Web (wb_w s) (htable_page s) p (force_raw_out s) (force_content_type s) (wb_sent s).
Definition set_flags (raw : bool) (ty : content_type) (s : W) : W :=
  Web (wb_w s) (htable_page s) (ewf_page_error s) raw ty (wb_sent s).
Definition send (x : sent) (s : W) : W :=
  Web (wb_w s) (htable_page s) (ewf_page_error s) (force_raw_out s) (force_content_type s) (wb_sent s ++ [x]).

Definition web_state : M W := get_st.
Definition on_web {X} (m : cmd (world H) X) : M X := zoom wb_w set_world m.
Definition on_cgi {X} (m : cmd H X) : M X := on_web (on_hdf m).

(** *** ewf_utils.c *)
Definition ewf_utils_client_ip : M (option bytes) := on_cgi (hdf_get_value (lit "CGI.RemoteAddress")).
Definition ewf_utils_client_referer : M (option bytes) := on_cgi (hdf_get_value (lit "HTTP.Referer")).
Definition ewf_utils_redirect (uri : bytes) : M unit := mod_st (send (Redirect uri)).

(** How far the referer goes before a character that is no digit, letter or
    underscore; [char] is signed. *)
Fixpoint strip_loop (value : bytes) : outcome nat :=
  match value with
  | [] => Undef
  | c :: value' =>
      let d := schar c in
      if c =? 0 then Ret O
      else if (d <? 48) || ((57 <? d) && (d <? 95)) || ((95 <? d) && (d <? 97)) || (122 <? d) then Ret O
      else n ← strip_loop value'; Ret (S n)
  end.

Definition ewf_utils_check_referer : M Z :=
  value ← on_cgi (hdf_get_value (lit "CGI.ServerName"));
  value ← lift (must value);
  '(_, buf) ← lift (print_name 65 (lit "http://" ++ value ++ lit "/"));
  value ← on_cgi (hdf_get_value (lit "HTTP.Referer"));
  value ← lift (must value);
  n ← lift (strip_loop (cstr value));
  r ← lift (strncmp (cstr buf) (cstr value) n);
  mret (if r =? 0 then EWF_SUCCESS else EWF_ERROR).

(** *** ewf_request.c *)
Definition ewf_request_type : M request_type :=
  val ← on_cgi (hdf_get_value (lit "HTTP.XRequestedHandler"));
  r ← match val with Some v => lift (nbu_string_matches (cstr v) "ajax") | None => mret NBU_STRING_DIFFERENT end;
  if r =? NBU_STRING_EQUAL then mret ajax_request
  else
    val ← on_cgi (hdf_get_value (lit "CGI.RequestMethod"));
    r ← match val with Some v => lift (nbu_string_matches (cstr v) "POST") | None => mret NBU_STRING_DIFFERENT end;
    if r =? NBU_STRING_EQUAL then mret form_request
    else mret display_request.

(** [cgi] is the data set [cgi_init] makes of the environment. *)
Definition ewf_request_init (cgi : H) : M ewf_request_t :=
  mod_st (λ s, set_world (set_hdf cgi (wb_w s)) s);;
  ty ← ewf_request_type;
  u ← on_cgi (hdf_get_value (lit "CGI.RequestURI"));
  mret (Request ty (Some (default (lit "/") u))).

(** *** ewf_renderer.c *)
Definition ewf_renderer_force_raw_output : M unit := mod_st (λ s, set_flags true (force_content_type s) s).
Definition ewf_renderer_force_content_type_output (ty : content_type) : M unit :=
  mod_st (λ s, set_flags (force_raw_out s) ty s).

(** The type of the answer, and the template's extension. *)
Definition answer_type (ty : content_type) (request : ewf_request_t) : bytes * bytes :=
  match ty with
  | CONTENT_TYPE_HTML => (lit "text/html", lit "html")
  | CONTENT_TYPE_XML => (lit "text/xml", lit "xml")
  | CONTENT_TYPE_AUTO =>
      if decide (type request = ajax_request) then (lit "text/xml", lit "xml") else (lit "text/html", lit "html")
  end.

Definition ewf_renderer (request : ewf_request_t) (page : ewf_page_t) : M unit :=
  s ← web_state;
  if force_raw_out s then mod_st (λ s, set_flags false (force_content_type s) s)
  else
    let '(ty, ext) := answer_type (force_content_type s) request in
    mod_st (λ s, set_flags false CONTENT_TYPE_AUTO s);;
    on_cgi (hdf_set_value (lit "cgiout.ContentType") ty);;
    '(_, buf) ← lift (print_name 256 (dir_webapproot ++ lit "/fcgiroot/tpl" ++ name page ++ lit "." ++ ext));
    mod_st (send (Display buf)).

Section handlers.
Context (code : nat → M unit).

(** The application's hooks. *)
Context (pre_dispatch : option (ewf_request_t → M unit))
        (pre_render : option (ewf_request_t → ewf_page_t → M unit)).

(** *** ewf_controller.c *)
Definition ewf_hdf_read_file (file : bytes) : M unit := on_cgi (mod_st (hdf_read_file file)).

(** The page to show instead. *)
Definition ewf_controller_error (request : ewf_request_t) (page : ewf_page_t) (errnum : Z) : M ewf_page_t :=
  (if errnum =? APP_ERROR_112 then
     on_cgi (hdf_set_value (lit "Var.error.method.Value")
               (if decide (type request = ajax_request) then lit "ajax" else lit "display"))
   else if errnum =? APP_ERROR_115 then
     if decide (type request ≠ ajax_request) then
       '(_, buf) ← lift (print_name 128 (lit "/login?page_ref=" ++ name page));
       ewf_utils_redirect buf
     else mret tt
   else mret tt);;
  on_cgi (hdf_set_int_value (lit "Var.error.Value") errnum);;
  s ← web_state;
  lift (must (ewf_page_error s)).

(** [hdf_get_int_value(cgi->hdf, "Form.Status", 0)]. *)
Definition form_status : M Z :=
  v ← on_cgi (hdf_get_value (lit "Form.Status"));
  mret (match v with Some v => s32 (st_val (strtol v 10)) | None => 0 end).

(** The page's handlers. *)
Definition run_page (request : ewf_request_t) (page : ewf_page_t) : M ewf_page_t :=
  '(_, buf) ← lift (print_name 256 (lit "rgx/" ++ name page ++ lit ".hdf"));
  ewf_hdf_read_file buf;;
  disp_handler ← (if decide (type request = ajax_request) then mret (ajax_handler page)
                  else
                    (if decide (type request = form_request) then
                       match form_handler page with
                       | Some f =>
                           on_cgi (mod_st cgi_parse);;
                           code f;;
                           st ← form_status;
                           (if st =? -1 then
                              s ← web_state;
                              on_cgi (ewf_hdf_copy_cgi_query_tree (query_tree (w_hdf (wb_w s))));;
                              mret tt
                            else mret tt)
                       | None => mret tt
                       end
                     else mret tt);;
                    mret (display_handler page));
  match disp_handler with
  | Some h => code h;; mret page
  | None => ewf_controller_error request page APP_ERROR_112
  end.

(** The texts of the language, and the page. *)
Definition finish (request : ewf_request_t) (page : ewf_page_t) : M unit :=
  (match pre_render with Some f => f request page | None => mret tt end);;
  '(_, lang) ← lift (ewf_config_get conf_get (lit "web_lang") (local_buf 8) 8);
  lang ← lift (c_str lang);
  '(_, buf) ← lift (print_name 256 (lit "lng/" ++ lang ++ lit "/text.hdf"));
  ewf_hdf_read_file buf;;
  '(_, buf) ← lift (print_name 256 (lit "lng/" ++ lang ++ lit "/" ++ name page ++ lit ".hdf"));
  ewf_hdf_read_file buf;;
  ewf_renderer request page.

Definition ewf_controller (request : ewf_request_t) (page : ewf_page_t) : M unit :=
  ret ← on_web (ewf_smith_access_control clock conf_get (access_policy page));
  if EWF_SMITH_CTL_SUCCESS <=? ret then
    login ← (if (ret =? EWF_SMITH_CTL_SUCCESS) || (ret =? EWF_SMITH_CTL_AUTH_OFF) then
               on_cgi (hdf_set_value (lit "User.authenticated")
                         (if ret =? EWF_SMITH_CTL_SUCCESS then lit "1" else lit "-1"));;
               lift (nbu_string_matches (cstr (name page)) "/login")
             else mret NBU_STRING_DIFFERENT);
    if login =? NBU_STRING_EQUAL then ewf_utils_redirect (lit "/index")
    else page ← run_page request page; finish request page
  else
    on_cgi (hdf_set_value (lit "User.authenticated") (lit "0"));;
    page ← ewf_controller_error request page APP_ERROR_115;
    finish request page.

(** *** ewf_dispatcher.c *)
Definition ewf_dispatcher_getpage (request : ewf_request_t) : M (option ewf_page_t) :=
  match uri request with
  | None => mret None
  | Some u =>
      key ← lift (page_key (cstr u));
      s ← web_state;
      mret (hsearch (htable_page s) key)
  end.

Definition ewf_dispatcher_error (request : ewf_request_t) (errnum : Z) : M unit :=
  on_cgi (hdf_set_int_value (lit "Var.error.Value") errnum);;
  (if errnum =? HTTP_ERROR_404
   then on_cgi (hdf_set_value (lit "Var.error.uri.Value") (default (lit "NULL") (uri request)))
   else mret tt);;
  s ← web_state;
  page ← lift (must (ewf_page_error s));
  ewf_controller request page.

Definition ewf_dispatcher_request (request : ewf_request_t) : M unit :=
  (match pre_dispatch with Some f => f request | None => mret tt end);;
  page ← ewf_dispatcher_getpage request;
  match page with
  | Some page => ewf_controller request page
  | None => ewf_dispatcher_error request HTTP_ERROR_404
  end.

End handlers.

Definition ewf_dispatcher_registerpage (page : ewf_page_t) : M Z :=
  s ← web_state;
  match hsearch (htable_page s) (name page) with
  | Some _ => mret EWF_SUCCESS
  | None =>
      if (length (htable_page s) <? page_slots)%nat
      then mod_st (set_pages (htable_page s ++ [(name page, page)]));; mret EWF_SUCCESS
      else mret EWF_ERROR
  end.

Definition ewf_page_register (page : ewf_page_t) : M unit := ewf_dispatcher_registerpage page;; mret tt.

Definition ewf_dispatcher_checkup : M Z :=
  p ← ewf_dispatcher_getpage (Request display_request (Some (lit "/error")));
  mod_st (set_page_error p);;
  match p with
  | Some (Page _ _ (Some _) _ (Some _)) => mret EWF_SUCCESS
  | _ => mret EWF_ERROR
  end.

End web.

End EwfDispatch.
