(* ===== verification/EwfDispatchProofs.v ===== *)
(** What the dispatcher and the controller guarantee: which page a URI gets, and that a
    private page's handlers run only for whom access control lets in. *)

From stdpp Require Import base tactics list gmap strings.
From S2P Require Import Prelude.
From S2P Require Import Dll.
From S2P Require Import CString.
From S2P Require Import NbuList.
From S2P Require Import NbuString.
From S2P Require Import NbuNet.
From S2P Require Import EwfHdf.
From S2P Require Import EwfSession.
From S2P Require Import EwfSessionProofs.
From S2P Require Import EwfSmith.
From S2P Require Import EwfSmithProofs.
From S2P Require Import EwfDispatch.
Import NbuList NbuString NbuNet EwfHdf EwfSmith EwfDispatch.

(** ** The page of a URI *)

(** The text before the first question mark. *)
Fixpoint before_query (t : bytes) : bytes :=
  match t with
  | [] => []
  | c :: t => if c =? 63 then [] else c :: before_query t
  end.

Definition path (u : bytes) : bytes :=
  if bytes_eqb u [] || bytes_eqb u (lit "/") then lit "/index" else before_query (take 127 u).

Lemma before_query_text t : text t → text (before_query t).
Proof.
  induction 1 as [|c t Hc Ht IH]; simpl; [constructor |]. destruct (c =? 63); [constructor | by constructor].
Qed.

Lemma strip_query_ok m t :
  str_of m = Some t → ∃ m', strip_query m = Ret m' ∧ str_of m' = Some (before_query t).
Proof.
  revert t. induction m as [|c m IH]; intros t Ht; [done |]. simpl in *.
  destruct (Z.eqb_spec c 0) as [->|Hc]; [simplify_eq; by eexists |].
  destruct (str_of m) as [t'|]; [| done]. simplify_eq/=.
  destruct (Z.eqb_spec c 63) as [->|Hq]; [by eexists |].
  destruct (IH t' eq_refl) as (m' & -> & Hm'). eexists. split; [done |]. simpl.
  by rewrite (proj2 (Z.eqb_neq _ _)), Hm'.
Qed.

Lemma wants_index_ok u :
  text u → wants_index (cstr u) = Ret (bytes_eqb u [] || bytes_eqb u (lit "/")).
Proof.
  intros Hu. destruct Hu as [|c u Hc Hu]; [done |]. unfold wants_index, cstr.
  rewrite (rd_ok _ 0 c) by done. cbn [mbind outcome_bind]. rewrite (proj2 (Z.eqb_neq _ _)) by done.
  change (lit "/") with [47]. destruct (Z.eqb_spec c 47) as [->|Hn].
  - destruct Hu as [|c' u Hc' Hu]; [done |]. rewrite (rd_ok _ 1 c') by done. cbn.
    by rewrite (proj2 (Z.eqb_neq _ _)).
  - cbn. by rewrite (proj2 (Z.eqb_neq _ _)).
Qed.

Lemma page_key_ok u : text u → page_key (cstr u) = Ret (path u).
Proof.
  intros Hu. unfold page_key, path. rewrite (wants_index_ok u Hu). cbn [mbind outcome_bind].
  set (t := if bytes_eqb u [] || bytes_eqb u (lit "/") then lit "/index" else u).
  assert (str_of (if bytes_eqb u [] || bytes_eqb u (lit "/") then cstr (lit "/index") else cstr u) = Some t) as Ht.
  { unfold t. destruct (_ || _); apply str_of_cstr; [by repeat constructor | done]. }
  destruct (copy_ok (local_buf 128) 128 _ t ltac:(simpl; lia) ltac:(done) Ht) as (b & E & [Hb _ _]).
  unfold buf_of. rewrite E. cbn [mbind outcome_bind must].
  destruct (strip_query_ok b _ Hb) as (b' & -> & Hb'). cbn [mbind outcome_bind]. unfold c_str. rewrite Hb'.
  unfold t. by destruct (_ || _).
Qed.

(** ** Who gets a page *)
Section specs.
Context {H : Type} `{Hdf H}.
Context (clock : nat → timeval) (conf_get : conf_get_fn).
Context (cgi_parse : H → H) (hdf_read_file : bytes → H → H).
Context (query_tree : H → list (option bytes * option bytes)) (dir_webapproot : bytes).
Context (pre_dispatch : option (ewf_request_t → cmd (web H) unit))
        (pre_render : option (ewf_request_t → ewf_page_t → cmd (web H) unit)).
Implicit Types s : web H.

Abbreviation controller code := (ewf_controller clock conf_get cgi_parse hdf_read_file query_tree dir_webapproot code pre_render).
Abbreviation dispatch code :=
  (ewf_dispatcher_request clock conf_get cgi_parse hdf_read_file query_tree dir_webapproot code pre_dispatch pre_render).
Abbreviation handlers code := (run_page cgi_parse hdf_read_file query_tree code).
Abbreviation ending := (finish conf_get hdf_read_file dir_webapproot pre_render).

(** The request's data, with a value set. *)
Definition vars s : H := w_hdf (wb_w s).
Definition with_var (n v : bytes) s : web H := set_world (set_hdf (hdf_set (vars s) n v) (wb_w s)) s.

Lemma on_web_ok {X} (m : cmd (world H) X) s x w :
  m (wb_w s) = Ret (x, w) → on_web m s = Ret (x, set_world w s).
Proof. intros E. unfold on_web, zoom. by rewrite E. Qed.

Lemma vars_with n v k s :
  hdf_get (vars (with_var n v s)) k = if decide (n = k) then Some v else hdf_get (vars s) k.
Proof. case_decide; [subst; apply hdf_get_set | by apply hdf_get_other]. Qed.

Lemma sessions_with n v s l ps : sessions (wb_w s) l ps → sessions (wb_w (with_var n v s)) l ps.
Proof. apply sessions_hdf. Qed.

(** What access control decides for a page. *)
Definition granted (auth : bytes) (s : web H) (ps : list loc) (page : ewf_page_t) : bool :=
  bytes_eqb auth (lit "off") || in_session clock (wb_w s) ps ||
  match access_policy page with EWF_ACCESS_PUBLIC => true | EWF_ACCESS_PRIVATE => false end.

(** Refused: what the visitor is told. *)
Definition login_redirect (request : ewf_request_t) (page : ewf_page_t) : list sent :=
  if decide (type request = ajax_request) then []
  else [Redirect (take 127 (lit "/login?page_ref=" ++ name page))].

Lemma controller_error_115 request page s ep :
  text (name page) → ewf_page_error s = Some ep →
  ∃ s', ewf_controller_error request page APP_ERROR_115 s = Ret (ep, s') ∧
    wb_w s' = wb_w (with_var (lit "Var.error.Value") (lit "115") s) ∧
    wb_sent s' = wb_sent s ++ login_redirect request page.
Proof.
  intros Ht He. unfold ewf_controller_error, login_redirect.
  change (APP_ERROR_115 =? APP_ERROR_112) with false. change (APP_ERROR_115 =? APP_ERROR_115) with true. cbv iota.
  destruct (decide (type request = ajax_request)) as [Ha|Ha].
  - rewrite decide_False by (intros Hx; by apply Hx). run.
    run. run.
    cbn [ewf_page_error set_world]. rewrite He. eexists. split; [reflexivity |]. by rewrite app_nil_r.
  - rewrite decide_True by done. erewrite cmd_bind_Ret.
    2: { rewrite print_name_ok by (lia || (unfold INT_MAX; lia) || (apply Forall_app; split; [by repeat constructor | done])).
         run. reflexivity. }
    run. run.
    cbn [ewf_page_error set_world send]. rewrite He. eexists. split; [reflexivity |]. done.
Qed.

(** Compute on a known decision of the access control. *)
Ltac verdict :=
  unfold EWF_SMITH_CTL_SUCCESS, EWF_SMITH_CTL_AUTH_OFF, EWF_SMITH_CTL_NOT_ALLOWED, EWF_SMITH_CTL_PUBLICPAGE;
  cbn [Z.leb Z.eqb Z.compare Pos.eqb orb]; cbv iota.

(** *** What an admitted request runs *)

(** The patterns of the page's fields, read before its handlers run. *)
Definition with_patterns (page : ewf_page_t) s : web H :=
  set_world (set_hdf (hdf_read_file (take 255 (lit "rgx/" ++ name page ++ lit ".hdf")) (vars s)) (wb_w s)) s.

(** The form handler runs on the parsed request; when it reports an error, the fields are
    copied back for the page. *)
Definition submit (handler : cmd (web H) unit) : cmd (web H) unit :=
  on_cgi (mod_st cgi_parse);;
  handler;;
  s ← web_state;
  if s32 (st_val (strtol (default [] (hdf_get (vars s) (lit "Form.Status"))) 10)) =? -1
  then on_cgi (ewf_hdf_copy_cgi_query_tree (query_tree (vars s)));; mret tt
  else mret tt.

(** The handlers of the page that a request of each type runs, in order, and the page
    that is shown: an Ajax request the Ajax handler alone, a form the form handler and
    then the display handler. *)
Definition visit (code : nat → cmd (web H) unit) (request : ewf_request_t) (page : ewf_page_t) : cmd (web H) ewf_page_t :=
  let shown h := match h with
                 | Some h => code h;; mret page
                 | None => ewf_controller_error request page APP_ERROR_112
                 end in
  match type request, form_handler page with
  | ajax_request, _ => shown (ajax_handler page)
  | display_request, _ | form_request, None => shown (display_handler page)
  | form_request, Some f => submit (code f);; shown (display_handler page)
  end.

Lemma form_status_ok s :
  form_status s = Ret (s32 (st_val (strtol (default [] (hdf_get (vars s) (lit "Form.Status"))) 10)), s).
Proof.
  unfold form_status, vars. destruct s as [w ? ? ? ? ?], w. unfold mbind, cmd_bind, on_cgi, on_web, zoom, on_hdf, zoom, hdf_get_value.
  cbn. by destruct (hdf_get _ _).
Qed.

Lemma run_page_ok code request page s :
  text (name page) → handlers code request page s = visit code request page (with_patterns page s).
Proof.
  intros Ht. unfold run_page.
  assert (text (lit "rgx/" ++ name page ++ lit ".hdf")) as Hn.
  { apply Forall_app. split; [by repeat constructor|]. apply Forall_app. split; [done|by repeat constructor]. }
  rewrite print_name_ok by (done || lia || (unfold INT_MAX; lia)).
  run. cbv beta iota. run. change (set_world _ s) with (with_patterns page s).
  generalize (with_patterns page s). clear s. intros s. unfold visit.
  destruct (type request) eqn:Et; rewrite ?decide_False, ?decide_True by done.
  - by repeat run.
  - destruct (form_handler page) as [f|]; [|by repeat run]. unfold submit.
    do 2 (rewrite !cmd_bind_assoc; apply cmd_bind_ext; intros ? ?). clear s. rewrite !cmd_bind_assoc.
    erewrite cmd_bind_Ret; [|apply form_status_ok]. unfold web_state. erewrite (cmd_bind_Ret get_st); [|reflexivity].
    case_match; [|reflexivity].
    rewrite !cmd_bind_assoc. erewrite (cmd_bind_Ret get_st); [|reflexivity]. rewrite !cmd_bind_assoc.
    apply cmd_bind_ext. reflexivity.
  - by run.
Qed.

(** The login page is not shown to whom has a session, or needs none. *)
Definition sent_home (auth : bytes) (s : web H) (ps : list loc) (page : ewf_page_t) : bool :=
  (bytes_eqb auth (lit "off") || in_session clock (wb_w s) ps) && bytes_eqb (name page) (lit "/login").

(** What a request for [page] comes to, from [s] to [s1], whatever the handlers are. *)
Definition guarded (run : (nat → cmd (web H) unit) → outcome (unit * web H))
    (auth : bytes) (s s1 : web H) (ps : list loc) request page ep : Prop :=
  if sent_home auth s ps page
  then wb_sent s1 = wb_sent s ++ [Redirect (lit "/index")] ∧ ∀ code, run code = Ret (tt, s1)
  else if granted auth s ps page
  then wb_sent s1 = wb_sent s ∧
       ∀ code, run code = (p ← visit code request page; ending request p) (with_patterns page s1)
  else (∀ code, run code = ending request ep s1) ∧
       hdf_get (vars s1) (lit "User.authenticated") = Some (lit "0") ∧
       hdf_get (vars s1) (lit "Var.error.Value") = Some (lit "115") ∧
       wb_sent s1 = wb_sent s ++ login_redirect request page.

(** Past the access control: the login page sends home, every other page runs. *)
Lemma known_visitor code request page s v :
  text (name page) →
  (login ← (on_cgi (hdf_set_value (lit "User.authenticated") v);; lift (nbu_string_matches (cstr (name page)) "/login"));
   if login =? NBU_STRING_EQUAL then ewf_utils_redirect (lit "/index")
   else page ← handlers code request page; ending request page) s
  = if bytes_eqb (name page) (lit "/login")
    then Ret (tt, send (Redirect (lit "/index")) (with_var (lit "User.authenticated") v s))
    else (p ← visit code request page; ending request p) (with_patterns page (with_var (lit "User.authenticated") v s)).
Proof.
  intros Ht. erewrite cmd_bind_Ret.
  2: { run. rewrite (matches_ok _ (name page)) by (by apply str_of_cstr || by repeat constructor). reflexivity. }
  destruct (bytes_eqb (name page) (lit "/login")); [reflexivity|].
  change (NBU_STRING_DIFFERENT =? NBU_STRING_EQUAL) with false. cbv iota.
  unfold mbind, cmd_bind. by rewrite run_page_ok.
Qed.

Lemma controller_guards s l ps auth request page ep :
  sessions (wb_w s) l ps → config conf_get (lit "web_auth") 16 auth →
  (∀ sid, cookie_sid (wb_w s) = Some sid → text sid) →
  text (name page) → ewf_page_error s = Some ep →
  ∃ s1 ps', sessions (wb_w s1) l ps' ∧
    guarded (λ code, controller code request page s) auth s s1 ps request page ep.
Proof.
  intros Hss Hc Hck Ht He.
  destruct (access_control_ok clock conf_get (wb_w s) l ps auth (access_policy page) Hss Hc Hck) as (w' & ps' & E & Hss').
  set (s0 := set_world w' s).
  assert (∀ v, let s1 := with_var (lit "User.authenticated") v s0 in
    (∀ code, controller code request page s =
       if bytes_eqb (name page) (lit "/login") then Ret (tt, send (Redirect (lit "/index")) s1)
       else (p ← visit code request page; ending request p) (with_patterns page s1)) →
    ∃ s1 ps', sessions (wb_w s1) l ps' ∧
      if bytes_eqb (name page) (lit "/login")
      then wb_sent s1 = wb_sent s ++ [Redirect (lit "/index")] ∧ ∀ code, controller code request page s = Ret (tt, s1)
      else wb_sent s1 = wb_sent s ∧ ∀ code, controller code request page s
             = (p ← visit code request page; ending request p) (with_patterns page s1)) as Hknown.
  { intros v s1 Hr. destruct (bytes_eqb (name page) (lit "/login"));
      [exists (send (Redirect (lit "/index")) s1), ps' | exists s1, ps']; split; try done; by apply (sessions_with _ v s0). }
  unfold decision in E. unfold guarded, sent_home, granted. destruct (bytes_eqb auth (lit "off")); cbn [orb andb].
  { apply (Hknown (lit "-1")). intros code. unfold ewf_controller. erewrite cmd_bind_Ret; [|by apply on_web_ok].
    verdict. by apply known_visitor. }
  destruct (in_session clock (wb_w s) ps); cbn [orb andb].
  { apply (Hknown (lit "1")). intros code. unfold ewf_controller. erewrite cmd_bind_Ret; [|by apply on_web_ok].
    verdict. by apply known_visitor. }
  destruct (access_policy page) eqn:Ep.
  - destruct (controller_error_115 request page (with_var (lit "User.authenticated") (lit "0") s0) ep Ht He)
      as (s1 & E1 & Hw1 & Hs1).
    exists s1, ps'. rewrite Hw1. split; [by apply sessions_with, sessions_with |].
    unfold vars. rewrite Hw1.
    fold (vars (with_var (lit "Var.error.Value") (lit "115") (with_var (lit "User.authenticated") (lit "0") s0))).
    split_and!; [|by rewrite !vars_with, decide_False, decide_True|by rewrite !vars_with, decide_True|exact Hs1].
    intros code. unfold ewf_controller. rewrite Ep. erewrite cmd_bind_Ret; [|by apply on_web_ok].
    verdict. run. by run_with E1.
  - exists s0, ps'. split; [done |]. split; [done |]. intros code.
    unfold ewf_controller. rewrite Ep. erewrite cmd_bind_Ret; [|by apply on_web_ok].
    verdict. erewrite cmd_bind_Ret; [|reflexivity].
    change (NBU_STRING_DIFFERENT =? NBU_STRING_EQUAL) with false. cbv iota.
    unfold mbind, cmd_bind. by rewrite run_page_ok.
Qed.

(** C5: a page's handlers run only for whom access control lets in.  The request for a
    URI gets the page registered under its path.
    - A visitor who has a session in time, or needs none because authentication is off,
      is sent to /index when the page is the login page, and no handler runs.
    - Otherwise, when the visitor is let in (authentication off, a session in time, or a
      public page), the page's patterns are read and exactly the handlers of the request
      run: the Ajax handler alone for an Ajax request, the form handler and then the
      display handler for a form, the display handler for the rest, error 112 without
      one; then the page is shown.
    - Otherwise no handler runs, whatever they are: the error page is shown with error
      115, and the visitor is sent to the login page, unless the request is an Ajax one,
      which gets no redirection. *)
Theorem ewf_dispatcher_guards_pages s0 s l ps auth request u page ep :
  match pre_dispatch with Some f => f request | None => mret tt end s0 = Ret (tt, s) →
  sessions (wb_w s) l ps → config conf_get (lit "web_auth") 16 auth →
  (∀ sid, cookie_sid (wb_w s) = Some sid → text sid) →
  uri request = Some u → text u → hsearch (htable_page s) (path u) = Some page →
  text (name page) → ewf_page_error s = Some ep →
  ∃ s1 ps', sessions (wb_w s1) l ps' ∧
    if sent_home auth s ps page
    then wb_sent s1 = wb_sent s ++ [Redirect (lit "/index")] ∧
         ∀ code, dispatch code request s0 = Ret (tt, s1)
    else if granted auth s ps page
    then wb_sent s1 = wb_sent s ∧
         ∀ code, dispatch code request s0
                 = (p ← visit code request page; ending request p) (with_patterns page s1)
    else (∀ code, dispatch code request s0 = ending request ep s1) ∧
         hdf_get (vars s1) (lit "User.authenticated") = Some (lit "0") ∧
         hdf_get (vars s1) (lit "Var.error.Value") = Some (lit "115") ∧
         wb_sent s1 = wb_sent s ++ login_redirect request page.
Proof.
  intros Hpre Hss Hc Hck Hu Hut Hpg Ht He.
  destruct (controller_guards s l ps auth request page ep Hss Hc Hck Ht He) as (s1 & ps' & Hss1 & Hg).
  assert (∀ code, dispatch code request s0 = controller code request page s) as Ed.
  { intros code. unfold ewf_dispatcher_request. run_with Hpre.
    erewrite cmd_bind_Ret.
    2: { unfold ewf_dispatcher_getpage. rewrite Hu, (page_key_ok u Hut).
         run. run.
         rewrite Hpg. reflexivity. }
    done. }
  exists s1, ps'. split; [done |]. unfold guarded in Hg.
  destruct (sent_home auth s ps page); [|destruct (granted auth s ps page)].
  - destruct Hg as [Hs Hg]. split; [done |]. intros code. by rewrite Ed.
  - destruct Hg as [Hs Hg]. split; [done |]. intros code. by rewrite Ed.
  - destruct Hg as (Hg & Hr). split; [| done]. intros code. by rewrite Ed.
Qed.

(** The check of the referer looks at its scheme only: a referer that begins with
    [http:] passes whatever host it names, and without a referer the code reads through
    a NULL pointer. *)
Theorem ewf_utils_check_referer_scheme_only s server rest :
  hdf_get (vars s) (lit "CGI.ServerName") = Some server → text server →
  (hdf_get (vars s) (lit "HTTP.Referer") = Some (lit "http:" ++ rest) →
   ewf_utils_check_referer s = Ret (EWF_SUCCESS, s)) ∧
  (hdf_get (vars s) (lit "HTTP.Referer") = None → ewf_utils_check_referer s = Undef).
Proof.
  intros Hs Ht.
  assert (∀ k, on_cgi (hdf_get_value k) s = Ret (hdf_get (vars s) k, s)) as Hget
    by (intros k; destruct s as [w ? ? ? ? ?]; by destruct w).
  assert (text (lit "http://" ++ server ++ lit "/")) as Ht'
    by (apply Forall_app; split; [by repeat constructor |]; apply Forall_app; split; [done | by repeat constructor]).
  unfold ewf_utils_check_referer. erewrite cmd_bind_Ret; [|apply Hget]. rewrite Hs.
  run. rewrite print_name_ok by (done || lia || (unfold INT_MAX; lia)).
  run. cbv beta iota. erewrite cmd_bind_Ret; [|apply Hget].
  split; intros ->; [| done]. by repeat (run).
Qed.
End specs.

(** *** A concrete server *)
Definition demo_page : ewf_page_t := Page (lit "/state") EWF_ACCESS_PRIVATE (Some 1%nat) None None.
Definition demo_error : ewf_page_t := Page (lit "/error") EWF_ACCESS_PUBLIC (Some 2%nat) None (Some 2%nat).

Definition demo_login : ewf_page_t := Page (lit "/login") EWF_ACCESS_PUBLIC (Some 3%nat) (Some 4%nat) None.

Definition demo_web (q : gmap bytes bytes) : web (gmap bytes bytes) :=
  Web (demo_world q) [(lit "/state", demo_page); (lit "/login", demo_login); (lit "/error", demo_error)] (Some demo_error) false CONTENT_TYPE_AUTO [].

(** Without a cookie the visitor is sent to the login page; with one, the page runs. *)
Lemma ewf_dispatcher_guards_pages_witness :
  (∃ s1, ∀ code, ewf_dispatcher_request demo_clock demo_conf (λ h, h) (λ _ h, h) (λ _, []) [] code None None
       (Request display_request (Some (lit "/state?x=1"))) (demo_web ∅)
     = finish demo_conf (λ _ h, h) [] None (Request display_request (Some (lit "/state?x=1"))) demo_error s1) ∧
  (∃ s1, ∀ code, ewf_dispatcher_request demo_clock demo_conf (λ h, h) (λ _ h, h) (λ _, []) [] code None None
       (Request display_request (Some (lit "/state?x=1"))) (demo_web {[lit "Cookie.sid" := lit "ab"]})
     = (code 1%nat;; finish demo_conf (λ _ h, h) [] None (Request display_request (Some (lit "/state?x=1"))) demo_page) s1) ∧
  (∃ s1, wb_sent s1 = [Redirect (lit "/index")] ∧
     ∀ code, ewf_dispatcher_request demo_clock demo_conf (λ h, h) (λ _ h, h) (λ _, []) [] code None None
       (Request display_request (Some (lit "/login"))) (demo_web {[lit "Cookie.sid" := lit "ab"]}) = Ret (tt, s1)).
Proof.
  split_and!.
  - destruct (ewf_dispatcher_guards_pages demo_clock demo_conf (λ h, h) (λ _ h, h) (λ _, []) [] None None
      (demo_web ∅) (demo_web ∅) 1%positive [7%positive] (lit "all")
      (Request display_request (Some (lit "/state?x=1"))) (lit "/state?x=1") demo_page demo_error)
      as (s1 & ps' & _ & Hx & _).
    + reflexivity.
    + apply demo_sessions.
    + apply demo_auth.
    + intros sid Hsid. discriminate Hsid.
    + reflexivity.
    + by repeat constructor.
    + reflexivity.
    + by repeat constructor.
    + reflexivity.
    + exists s1. exact Hx.
  - destruct (ewf_dispatcher_guards_pages demo_clock demo_conf (λ h, h) (λ _ h, h) (λ _, []) [] None None
      (demo_web {[lit "Cookie.sid" := lit "ab"]}) (demo_web {[lit "Cookie.sid" := lit "ab"]}) 1%positive [7%positive] (lit "all")
      (Request display_request (Some (lit "/state?x=1"))) (lit "/state?x=1") demo_page demo_error)
      as (s1 & ps' & _ & _ & Hx).
    + reflexivity.
    + apply demo_sessions.
    + apply demo_auth.
    + intros sid [= <-]. by repeat constructor.
    + reflexivity.
    + by repeat constructor.
    + reflexivity.
    + by repeat constructor.
    + reflexivity.
    + eexists. intros code. rewrite Hx. apply cmd_bind_assoc.
  - destruct (ewf_dispatcher_guards_pages demo_clock demo_conf (λ h, h) (λ _ h, h) (λ _, []) [] None None
      (demo_web {[lit "Cookie.sid" := lit "ab"]}) (demo_web {[lit "Cookie.sid" := lit "ab"]}) 1%positive [7%positive] (lit "all")
      (Request display_request (Some (lit "/login"))) (lit "/login") demo_login demo_error)
      as (s1 & ps' & _ & Hs & Hx).
    + reflexivity.
    + apply demo_sessions.
    + apply demo_auth.
    + intros sid [= <-]. by repeat constructor.
    + reflexivity.
    + by repeat constructor.
    + reflexivity.
    + by repeat constructor.
    + reflexivity.
    + exists s1. split; [exact Hs | exact Hx].
Defined.

Lemma ewf_utils_check_referer_scheme_only_witness :
  ewf_utils_check_referer
    (demo_web (<[lit "CGI.ServerName" := lit "192.168.1.1"]> {[lit "HTTP.Referer" := lit "http:" ++ lit "//evil.example/"]}))
  = Ret (EWF_SUCCESS,
         demo_web (<[lit "CGI.ServerName" := lit "192.168.1.1"]> {[lit "HTTP.Referer" := lit "http:" ++ lit "//evil.example/"]})).
Proof.
  apply (ewf_utils_check_referer_scheme_only
    (demo_web (<[lit "CGI.ServerName" := lit "192.168.1.1"]> {[lit "HTTP.Referer" := lit "http:" ++ lit "//evil.example/"]}))
    (lit "192.168.1.1") (lit "//evil.example/")); [reflexivity | by repeat constructor | reflexivity].
Defined.
