(* ===== verification/EtkFifo.v ===== *)
(** libetk's ring buffer: [src/efixo/efixo-libetk/src/src/fifo.c],
    [include/etk/fifo.h] and [include/etk/math.h].

    All indices are [unsigned int] and wrap around.  [malloc] is given as the block
    it returns for a size, or nothing. *)

From stdpp Require Import base tactics list.
From S2P Require Import Prelude.
From S2P Require Import CString.

Module EtkFifo.

Record fifo := Fifo {
  buffer : option bytes;
  size : Z;
  in_ : Z;
  out : Z;
}.

Abbreviation M := (cmd fifo).

(** *** math.h *)
Definition clz (n : Z) : Z := 32 - (if n =? 0 then 0 else Z.log2 n + 1).

(** [__builtin_clz(0)] and a shift of 32 or more are undefined. *)
Definition roundup_pow_of_two (n : Z) : outcome Z :=
  let m := u32 (n - 1) in
  if m =? 0 then Undef
  else let k := clz m + 1 in if k <? 32 then Ret (Z.shiftl 1 k) else Undef.

Definition is_power_of_2 (n : Z) : bool := negb (n =? 0) && (Z.land n (u32 (n - 1)) =? 0).

(** *** fifo.h and fifo.c *)
Definition _fifo_init (buf : option bytes) (sz : Z) : M unit := put_st (Fifo buf sz 0 0).

Definition fifo_init (buf : option bytes) (sz : Z) : M unit :=
  if negb (is_power_of_2 sz) then mret tt else _fifo_init buf sz.

Definition fifo_alloc (malloc : Z → option bytes) (sz : Z) : M Z :=
  sz ← (if negb (is_power_of_2 sz) then lift (roundup_pow_of_two sz) else mret sz);
  match malloc sz with
  | None => _fifo_init None 0;; mret (-1)
  | Some b => _fifo_init (Some b) sz;; mret 0
  end.

Definition fifo_free : M unit := _fifo_init None 0.

Definition fifo_initialized : M bool := f ← get_st; mret (if buffer f is Some _ then true else false).
Definition fifo_reset : M unit := mod_st (λ f, Fifo (buffer f) (size f) 0 0).
Definition fifo_reset_out : M unit := mod_st (λ f, Fifo (buffer f) (size f) (in_ f) (in_ f)).
Definition fifo_size (f : fifo) : Z := size f.
Definition fifo_len (f : fifo) : Z := u32 (in_ f - out f).
Definition fifo_is_empty (f : fifo) : bool := in_ f =? out f.
Definition fifo_is_full (f : fifo) : bool := fifo_len f =? fifo_size f.
Definition fifo_avail (f : fifo) : Z := u32 (fifo_size f - fifo_len f).
Definition __fifo_add_out (off : Z) : M unit :=
  mod_st (λ f, Fifo (buffer f) (size f) (in_ f) (u32 (out f + off))).
Definition __fifo_add_in (off : Z) : M unit :=
  mod_st (λ f, Fifo (buffer f) (size f) (u32 (in_ f + off)) (out f)).
Definition __fifo_off (f : fifo) (off : Z) : Z := Z.land off (u32 (size f - 1)).

Definition fifo_skip (len : Z) : M unit :=
  f ← get_st;
  if len <? fifo_len f then __fifo_add_out len else fifo_reset_out.

Definition __FIFO_GET (f : fifo) (off shift : Z) : outcome Z :=
  b ← must (buffer f);
  v ← rd b (__fifo_off f (u32 (out f + off)));
  Ret (Z.shiftl v shift).

Definition __FIFO_PUT (off val shift : Z) : M unit :=
  f ← get_st;
  b ← lift (must (buffer f));
  b ← lift (wr b (__fifo_off f (u32 (in_ f + off))) (u8 (Z.shiftr val shift)));
  put_st (Fifo (Some b) (size f) (in_ f) (out f)).

Definition __fifo_peek_n (recsize : Z) (f : fifo) : outcome Z :=
  l ← __FIFO_GET f 0 0;
  if negb (u32 (recsize - 1) =? 0) then h ← __FIFO_GET f 1 8; Ret (Z.lor l h) else Ret l.

Definition __fifo_poke_n (recsize n : Z) : M unit :=
  __FIFO_PUT 0 n 0;;
  if negb (u32 (recsize - 1) =? 0) then __FIFO_PUT 1 n 8 else mret tt.

(** [from] is the memory the caller gives: at least [len] bytes. *)
Definition __fifo_in_data (from : bytes) (len off : Z) : M unit :=
  f ← get_st;
  let off := __fifo_off f (u32 (in_ f + off)) in
  let l := Z.min len (u32 (size f - off)) in
  s1 ← lift (mem_read (Some from) 0 l);
  b ← lift (mem_write (buffer f) off s1);
  s2 ← lift (mem_read (Some from) l (len - l));
  b ← lift (mem_write b 0 s2);
  put_st (Fifo b (size f) (in_ f) (out f)).

(** The memory [to] after the copy. *)
Definition __fifo_out_data (f : fifo) (to : bytes) (len off : Z) : outcome bytes :=
  let off := __fifo_off f (u32 (out f + off)) in
  let l := Z.min len (u32 (size f - off)) in
  s1 ← mem_read (buffer f) off l;
  to ← mem_write (Some to) 0 s1;
  s2 ← mem_read (buffer f) 0 (len - l);
  to ← mem_write to l s2;
  must to.

Definition __fifo_in_n (from : bytes) (len recsize : Z) : M Z :=
  f ← get_st;
  if fifo_avail f <? u32 (len + recsize) then mret (u32 (len + 1))
  else __fifo_in_data from len recsize;; mret 0.

Definition fifo_in (from : bytes) (len : Z) : M Z :=
  f ← get_st;
  let len := Z.min (fifo_avail f) len in
  __fifo_in_data from len 0;;
  __fifo_add_in len;;
  mret len.

Definition __fifo_in_rec (from : bytes) (n recsize : Z) : M Z :=
  ret ← __fifo_in_n from n recsize;
  (if ret =? 0 then
     (if negb (recsize =? 0) then __fifo_poke_n recsize n else mret tt);;
     __fifo_add_in (u32 (n + recsize))
   else mret tt);;
  mret ret.

Definition __fifo_in_generic (from : bytes) (len recsize : Z) : M Z := __fifo_in_rec from len recsize.

(** Both branches of [__builtin_constant_p] do the same. *)
Definition fifo_in_rec (from : bytes) (n recsize : Z) : M Z := __fifo_in_rec from n recsize.

Definition __fifo_out_n (to : bytes) (len recsize : Z) : M (Z * bytes) :=
  f ← get_st;
  if fifo_len f <? u32 (len + recsize) then mret (len, to)
  else
    to ← lift (__fifo_out_data f to len recsize);
    __fifo_add_out (u32 (len + recsize));;
    mret (0, to).

Definition fifo_out (to : bytes) (len : Z) : M (Z * bytes) :=
  f ← get_st;
  let len := Z.min (fifo_len f) len in
  to ← lift (__fifo_out_data f to len 0);
  __fifo_add_out len;;
  mret (len, to).

Definition fifo_out_peek (to : bytes) (len offset : Z) : M (Z * bytes) :=
  f ← get_st;
  let len := Z.min (fifo_len f) (u32 (len + offset)) in
  to ← lift (__fifo_out_data f to len offset);
  mret (len, to).

(** Result, memory and [*total]. *)
Definition __fifo_out_rec (to : bytes) (n recsize : Z) : M (Z * bytes * Z) :=
  if recsize =? 0 then
    '(r, to) ← __fifo_out_n to n recsize;
    mret (r, to, n)
  else
    f ← get_st;
    l ← lift (__fifo_peek_n recsize f);
    if n <? l then mret (l, to, l)
    else
      '(r, to) ← __fifo_out_n to l recsize;
      mret (r, to, l).

Definition __fifo_out_generic (to : bytes) (len recsize : Z) : M (Z * bytes * Z) :=
  __fifo_out_rec to len recsize.

Definition fifo_out_rec (to : bytes) (n recsize : Z) : M (Z * bytes * Z) := __fifo_out_rec to n recsize.

Definition __fifo_peek_generic (recsize : Z) : M Z :=
  f ← get_st;
  if recsize =? 0 then mret (fifo_avail f) else lift (__fifo_peek_n recsize f).

(** With a constant [recsize]. *)
Definition fifo_peek_rec (recsize : Z) : M Z :=
  f ← get_st;
  if recsize =? 0 then mret (fifo_len f) else lift (__fifo_peek_n recsize f).

Definition __fifo_skip_rec (recsize : Z) : M unit :=
  f ← get_st;
  if negb (recsize =? 0) then
    l ← lift (__fifo_peek_n recsize f);
    if u32 (l + recsize) <=? fifo_len f then __fifo_add_out (u32 (l + recsize)) else fifo_reset_out
  else fifo_reset_out.

Definition __fifo_skip_generic (recsize : Z) : M unit := __fifo_skip_rec recsize.
Definition fifo_skip_rec (recsize : Z) : M unit := __fifo_skip_rec recsize.

Definition fifo_avail_rec (f : fifo) (recsize : Z) : Z :=
  let l := u32 (fifo_size f - fifo_len f) in if recsize <? l then l - recsize else 0.

(** [struct fifo_serialized] with its trailing buffer. *)
Record fifo_serialized := Serialized {
  s_size : Z;
  s_in : Z;
  s_out : Z;
  s_buffer : bytes;
}.

(** [None] when [malloc] fails; the length is [sizeof(struct fifo_serialized)],
    12 bytes, and the buffer. *)
Definition fifo_serialize (malloc : Z → option bytes) (f : fifo) : outcome (Z * option fifo_serialized) :=
  let len := u32 (12 + size f) in
  match malloc len with
  | None => Ret (0, None)
  | Some _ =>
      b ← mem_read (buffer f) 0 (size f);
      Ret (len, Some (Serialized (size f) (in_ f) (out f) b))
  end.

Definition fifo_unserialize (malloc : Z → option bytes) (s : fifo_serialized) : M Z :=
  r ← fifo_alloc malloc (s_size s);
  if negb (r =? 0) then mret (-1)
  else
    f ← get_st;
    from ← lift (mem_read (Some (s_buffer s)) 0 (s_size s));
    b ← lift (mem_write (buffer f) 0 from);
    put_st (Fifo b (s_size s) (s_in s) (s_out s));;
    mret 0.

End EtkFifo.
