(* ===== verification/EtkFifoProofs.v ===== *)
(** The ring buffer of libetk is a bounded byte queue: every operation of
    [EtkFifo] refines one of a list of at most [size] bytes, whatever the value of
    the free-running 32-bit indices.  On top of it, the record operations refine a
    queue of records. *)

From stdpp Require Import base tactics list.
From S2P Require Import Prelude.
From S2P Require Import CString.
From S2P Require Import EtkFifo.
Import EtkFifo.

(** ** The ring

    [ring_pos sz s j] is the slot of the [j]-th byte from index [s]. *)
Definition ring_pos (sz s j : Z) : nat := Z.to_nat ((s + j) mod sz).

Definition ring_get (sz : Z) (b : bytes) (s : Z) (n : nat) : bytes :=
  (λ j, b !!! ring_pos sz s (Z.of_nat j)) <$> seq 0 n.

(** The bytes in the queue, oldest first. *)
Definition contents (f : fifo) : bytes :=
  match buffer f with
  | Some b => ring_get (size f) b (out f) (Z.to_nat (fifo_len f))
  | None => []
  end.

(** An allocated fifo of [2 ^ k] bytes. *)
Record fifo_ok (k : Z) (f : fifo) : Prop := {
  ok_k : 0 <= k <= 31;
  ok_size : size f = 2 ^ k;
  ok_buffer : ∃ b, buffer f = Some b ∧ Z.of_nat (length b) = size f;
  ok_in : 0 <= in_ f < 2 ^ 32;
  ok_out : 0 <= out f < 2 ^ 32;
  ok_len : fifo_len f <= size f;
}.

Section ring.
Context (k : Z) (Hk : 0 <= k <= 31).

Lemma pow_pos : 0 < 2 ^ k.
Proof. apply Z.pow_pos_nonneg; lia. Qed.

Lemma pow_le : 2 ^ k <= 2 ^ 31.
Proof. apply Z.pow_le_mono_r; lia. Qed.

Lemma u32_mod_pow x : u32 x mod 2 ^ k = x mod 2 ^ k.
Proof.
  unfold u32. apply Z.mod_mod_divide.
  exists (2 ^ (32 - k)). rewrite <- Z.pow_add_r by lia. f_equal; lia.
Qed.

Lemma u32_add_mod x y : (u32 x + y) mod 2 ^ k = (x + y) mod 2 ^ k.
Proof. rewrite Z.add_mod, u32_mod_pow, <- Z.add_mod; pose proof pow_pos; lia. Qed.

Lemma fifo_off_mod f x : size f = 2 ^ k → __fifo_off f (u32 x) = x mod 2 ^ k.
Proof.
  intros E. unfold __fifo_off. rewrite E. pose proof pow_pos. pose proof pow_le.
  rewrite (u32_small (2 ^ k - 1)) by lia.
  change (2 ^ k - 1) with (Z.pred (2 ^ k)).
  rewrite <- (Z.ones_equiv k), Z.land_ones by lia. apply u32_mod_pow.
Qed.

Lemma room o : 0 <= o < 2 ^ k → u32 (2 ^ k - o) = 2 ^ k - o.
Proof. intros. apply u32_small. pose proof pow_le. lia. Qed.

Lemma ring_pos_lt s j : (ring_pos (2 ^ k) s j < Z.to_nat (2 ^ k))%nat.
Proof.
  unfold ring_pos. pose proof pow_pos. pose proof (Z.mod_pos_bound (s + j) (2 ^ k)). lia.
Qed.

Lemma ring_pos_shift s d j : ring_pos (2 ^ k) (s + d) j = ring_pos (2 ^ k) s (d + j).
Proof. unfold ring_pos. by rewrite Z.add_assoc. Qed.

Lemma ring_pos_u32 s j : ring_pos (2 ^ k) (u32 s) j = ring_pos (2 ^ k) s j.
Proof. unfold ring_pos. by rewrite u32_add_mod. Qed.

Lemma ring_pos_period s j : ring_pos (2 ^ k) s (j + 2 ^ k) = ring_pos (2 ^ k) s j.
Proof.
  unfold ring_pos. f_equal. rewrite Z.add_assoc.
  rewrite <- (Z.mul_1_l (2 ^ k)) at 1. apply Z_mod_plus_full.
Qed.

(** A slot seen from its distance to the start. *)
Lemma ring_pos_split s j :
  0 <= j < 2 ^ k →
  let o := s mod 2 ^ k in
  ring_pos (2 ^ k) s j = Z.to_nat (if j <? 2 ^ k - o then o + j else o + j - 2 ^ k).
Proof.
  intros Hj o. unfold ring_pos. f_equal. pose proof pow_pos.
  pose proof (Z.mod_pos_bound s (2 ^ k)).
  rewrite Z.add_mod, (Z.mod_small j) by lia. fold o.
  destruct (Z.ltb_spec j (2 ^ k - o)); [apply Z.mod_small; lia |].
  symmetry. apply Z.mod_unique with 1; lia.
Qed.

Lemma ring_get_length sz b s n : length (ring_get sz b s n) = n.
Proof. unfold ring_get. by rewrite length_fmap, length_seq. Qed.

Lemma ring_get_lookup sz b s n i :
  (i < n)%nat → ring_get sz b s n !! i = Some (b !!! ring_pos sz s (Z.of_nat i)).
Proof.
  intros Hi. unfold ring_get. rewrite list_lookup_fmap, lookup_seq_lt by done. done.
Qed.

(** *** memcpy out of the ring *)
Lemma ring_get_copy b s n :
  Z.of_nat (length b) = 2 ^ k → 0 <= n <= 2 ^ k →
  let o := s mod 2 ^ k in let l := Z.min n (2 ^ k - o) in
  take (Z.to_nat l) (drop (Z.to_nat o) b) ++ take (Z.to_nat (n - l)) b
  = ring_get (2 ^ k) b s (Z.to_nat n).
Proof.
  intros Hb Hn o l. pose proof pow_pos. pose proof (Z.mod_pos_bound s (2 ^ k)). fold o in H0.
  assert (Hl : length (take (Z.to_nat l) (drop (Z.to_nat o) b)) = Z.to_nat l)
    by (rewrite length_take, length_drop; lia).
  apply list_eq_same_length with (n := Z.to_nat n).
  - by rewrite ring_get_length.
  - rewrite length_app, Hl, length_take. lia.
  - intros i x y Hi Hx Hy. rewrite ring_get_lookup in Hy by done.
    rewrite ring_pos_split in Hy by lia. fold o in Hy. injection Hy as <-.
    apply symmetry, list_lookup_total_correct.
    destruct (decide (i < Z.to_nat l)%nat).
    + rewrite lookup_app_l, lookup_take_lt, lookup_drop in Hx by lia.
      destruct (Z.ltb_spec (Z.of_nat i) (2 ^ k - o)); [| lia].
      rewrite <- Hx. f_equal. lia.
    + rewrite lookup_app_r, Hl, lookup_take_lt in Hx by lia.
      destruct (Z.ltb_spec (Z.of_nat i) (2 ^ k - o)); [lia |].
      rewrite <- Hx. f_equal. lia.
Qed.
End ring.

(** ** Copies in and out of a fifo *)
Section data.
Context (k : Z) (f : fifo) (b : bytes).
Context (Hk : 0 <= k <= 31) (Hsz : size f = 2 ^ k).
Context (Hb : buffer f = Some b) (Hlb : Z.of_nat (length b) = 2 ^ k).

Lemma fifo_out_data_spec to len off :
  0 <= len <= 2 ^ k → len <= Z.of_nat (length to) →
  __fifo_out_data f to len off
  = Ret (ring_get (2 ^ k) b (out f + off) (Z.to_nat len) ++ drop (Z.to_nat len) to).
Proof.
  intros Hlen Hto. unfold __fifo_out_data. pose proof (pow_pos k Hk).
  rewrite (fifo_off_mod k Hk) by done. rewrite Hsz, Hb.
  pose proof (Z.mod_pos_bound (out f + off) (2 ^ k)) as Ho.
  pose proof (ring_get_copy k Hk b (out f + off) len Hlb Hlen) as Hcopy. simpl in Hcopy.
  set (o := (out f + off) mod 2 ^ k) in *. rewrite (room k Hk) by lia.
  set (l := Z.min len (2 ^ k - o)) in *. simpl.
  rewrite (mem_read_Ret b o l) by lia. simpl.
  set (s1 := take (Z.to_nat l) (drop (Z.to_nat o) b)) in *.
  assert (Hs1 : length s1 = Z.to_nat l) by (unfold s1; rewrite length_take, length_drop; lia).
  destruct (mem_write_Ret to 0 s1) as (t1 & -> & Ht1 & E1 & _); [lia.. |]. simpl.
  rewrite (mem_read_Ret b 0 (len - l)) by lia. simpl. rewrite drop_0.
  set (s2 := take (Z.to_nat (len - l)) b) in *.
  assert (Hs2 : length s2 = Z.to_nat (len - l)) by (unfold s2; rewrite length_take; lia).
  destruct (mem_write_Ret t1 l s2) as (t2 & -> & Ht2 & E2 & _); [lia.. |]. simpl.
  f_equal. rewrite <- Hcopy, E2, E1. simpl. rewrite <- Hs1.
  rewrite take_app_length, <- (assoc app). f_equal. f_equal.
  rewrite drop_app_ge by lia. rewrite drop_drop. f_equal. lia.
Qed.

(** The buffer after [len] bytes of [from] went to the ring at index [s]. *)
Definition ring_put_rel (from : bytes) (s len : Z) (b b' : bytes) : Prop :=
  length b' = length b ∧
  ∀ j, 0 <= j < 2 ^ k →
    b' !! ring_pos (2 ^ k) s j = if j <? len then from !! Z.to_nat j else b !! ring_pos (2 ^ k) s j.

Lemma fifo_in_data_spec from len off :
  0 <= len <= 2 ^ k → len <= Z.of_nat (length from) →
  ∃ b', __fifo_in_data from len off f = Ret (tt, Fifo (Some b') (size f) (in_ f) (out f)) ∧
    ring_put_rel from (in_ f + off) len b b'.
Proof.
  intros Hlen Hfrom. unfold __fifo_in_data, ring_put_rel, mbind, cmd_bind, get_st, lift, put_st.
  pose proof (pow_pos k Hk).
  rewrite (fifo_off_mod k Hk) by done. rewrite Hsz, Hb.
  pose proof (Z.mod_pos_bound (in_ f + off) (2 ^ k)) as Ho.
  pose proof (ring_pos_split k Hk (in_ f + off)) as Hpos. simpl in Hpos.
  set (o := (in_ f + off) mod 2 ^ k) in *. rewrite (room k Hk) by lia.
  set (l := Z.min len (2 ^ k - o)) in *.
  rewrite (mem_read_Ret from 0 l) by lia. rewrite drop_0.
  set (s1 := take (Z.to_nat l) from).
  assert (Hs1 : length s1 = Z.to_nat l) by (unfold s1; rewrite length_take; lia).
  destruct (mem_write_Ret b o s1) as (b1 & -> & Hb1 & _ & E1); [lia.. |].
  rewrite (mem_read_Ret from l (len - l)) by lia.
  set (s2 := take (Z.to_nat (len - l)) (drop (Z.to_nat l) from)).
  assert (Hs2 : length s2 = Z.to_nat (len - l)) by (unfold s2; rewrite length_take, length_drop; lia).
  destruct (mem_write_Ret b1 0 s2) as (b2 & -> & Hb2 & _ & E2); [lia.. |].
  exists b2. split; [done |]. split; [lia |]. intros j Hj.
  rewrite Hpos by done. rewrite E2, E1, Hs1, Hs2.
  destruct (Z.ltb_spec j (2 ^ k - o)), (Z.ltb_spec j len); repeat case_decide; try lia; try done.
  - unfold s1. rewrite lookup_take_lt by lia. f_equal. lia.
  - unfold s2. rewrite lookup_take_lt, lookup_drop by lia. f_equal. lia.
Qed.
End data.

(** ** Queue operations on the ring *)
Section queue.
Context (k : Z) (f : fifo) (Hf : fifo_ok k f).

Lemma fifo_len_range : 0 <= fifo_len f <= 2 ^ k.
Proof. destruct Hf. pose proof (u32_range (in_ f - out f)). unfold fifo_len in *. lia. Qed.

Lemma contents_length : length (contents f) = Z.to_nat (fifo_len f).
Proof. destruct Hf as [? ? (b & Hb & ?) ? ? ?]. unfold contents. rewrite Hb. apply ring_get_length. Qed.

Lemma contents_length_le : Z.of_nat (length (contents f)) <= 2 ^ k.
Proof. rewrite contents_length. pose proof fifo_len_range. lia. Qed.

Lemma fifo_len_contents : fifo_len f = Z.of_nat (length (contents f)).
Proof. rewrite contents_length. pose proof fifo_len_range. lia. Qed.

Lemma fifo_avail_contents : fifo_avail f = 2 ^ k - Z.of_nat (length (contents f)).
Proof.
  unfold fifo_avail, fifo_size. rewrite fifo_len_contents. pose proof contents_length_le.
  destruct Hf as [Hk -> _ _ _ _]. pose proof (pow_le k Hk). apply u32_small. lia.
Qed.

(** [in] is [out] and the bytes in the queue further. *)
Lemma ring_pos_in j : ring_pos (2 ^ k) (in_ f) j = ring_pos (2 ^ k) (out f) (fifo_len f + j).
Proof.
  destruct Hf as [Hk _ _ _ _ _]. unfold ring_pos, fifo_len. f_equal.
  replace (out f + (u32 (in_ f - out f) + j)) with (u32 (in_ f - out f) + (out f + j)) by lia.
  rewrite u32_add_mod by done. f_equal. lia.
Qed.

(** The new bytes at [in] are the tail of the queue. *)
Lemma push_spec b b' data n :
  buffer f = Some b → 0 <= n <= fifo_avail f → n = Z.of_nat (length data) →
  ring_put_rel k data (in_ f) n b b' →
  let f' := Fifo (Some b') (size f) (u32 (in_ f + n)) (out f) in
  fifo_ok k f' ∧ contents f' = contents f ++ data.
Proof.
  intros Hb Hn Hd [Hlb' Hput] f'. pose proof fifo_len_range as Hlen.
  rewrite fifo_avail_contents, <- fifo_len_contents in Hn.
  pose proof ring_pos_in as Hin.
  destruct Hf as [Hk Hsz (b0 & Hb0 & Hlb) Hi Ho _]. simplify_eq. pose proof (pow_le k Hk).
  set (n := Z.of_nat (length data)) in *.
  assert (Hlen' : fifo_len f' = fifo_len f + n).
  { unfold fifo_len, f', u32 in *; simpl in *. rewrite Zminus_mod_idemp_l.
    replace (in_ f + n - out f) with ((in_ f - out f) + n) by lia.
    rewrite <- Zplus_mod_idemp_l. apply Z.mod_small. lia. }
  split.
  - constructor; unfold f'; simpl; [done | done | | apply u32_range | done |].
    + exists b'. split; [done |]. lia.
    + fold f'. rewrite Hlen', Hsz. lia.
  - unfold contents. rewrite Hlen'. unfold f'; simpl. rewrite Hb, Hsz in *.
    rewrite (Z2Nat.inj_add _ n) by lia.
    apply list_eq_same_length with (n := (Z.to_nat (fifo_len f) + Z.to_nat n)%nat).
    { rewrite length_app, ring_get_length. lia. }
    { apply ring_get_length. }
    intros i x y Hi' Hx Hy. rewrite ring_get_lookup in Hx by done.
    injection Hx as <-.
    destruct (decide (i < Z.to_nat (fifo_len f))%nat) as [Hl|Hl].
    + rewrite lookup_app_l, ring_get_lookup in Hy by (rewrite ?ring_get_length; lia).
      injection Hy as <-. rewrite !list_lookup_total_alt. f_equal.
      rewrite <- (ring_pos_period k).
      replace (Z.of_nat i + 2 ^ k) with (fifo_len f + (2 ^ k - fifo_len f + Z.of_nat i)) by lia.
      rewrite <- Hin, Hput by lia.
      by destruct (Z.ltb_spec (2 ^ k - fifo_len f + Z.of_nat i) n); [lia |].
    + rewrite lookup_app_r, ring_get_length in Hy by (rewrite ?ring_get_length; lia).
      apply list_lookup_total_correct. rewrite <- Hy.
      replace (Z.of_nat i) with (fifo_len f + (Z.of_nat i - fifo_len f)) by lia.
      rewrite <- Hin, Hput by lia.
      destruct (Z.ltb_spec (Z.of_nat i - fifo_len f) n); [f_equal |]; lia.
Qed.

Lemma pop_spec n :
  0 <= n <= fifo_len f →
  let f' := Fifo (buffer f) (size f) (in_ f) (u32 (out f + n)) in
  fifo_ok k f' ∧ contents f' = drop (Z.to_nat n) (contents f).
Proof.
  intros Hn f'. pose proof fifo_len_range as Hlen.
  destruct Hf as [Hk Hsz (b & Hb & Hlb) Hi Ho _]. pose proof (pow_le k Hk).
  assert (Hlen' : fifo_len f' = fifo_len f - n).
  { unfold fifo_len, f', u32 in *; simpl in *. rewrite Zminus_mod_idemp_r.
    replace (in_ f - (out f + n)) with ((in_ f - out f) - n) by lia.
    rewrite <- Zminus_mod_idemp_l. apply Z.mod_small. lia. }
  split.
  - constructor; unfold f'; simpl; [done | done | | done | apply u32_range |].
    + by exists b.
    + fold f'. rewrite Hlen', Hsz. lia.
  - unfold contents. rewrite Hlen'. unfold f'; simpl. rewrite Hb, Hsz.
    apply list_eq. intros i. rewrite lookup_drop.
    destruct (decide (i < Z.to_nat (fifo_len f - n))%nat).
    + rewrite !ring_get_lookup by lia. do 2 f_equal.
      rewrite (ring_pos_u32 k Hk), ring_pos_shift. f_equal. lia.
    + rewrite !lookup_ge_None_2; [done | rewrite ring_get_length; lia ..].
Qed.

Lemma contents_sub b off n :
  buffer f = Some b → 0 <= off → 0 <= n → off + n <= fifo_len f →
  ring_get (2 ^ k) b (out f + off) (Z.to_nat n) = take (Z.to_nat n) (drop (Z.to_nat off) (contents f)).
Proof.
  intros Hb Ho Hn Hlen. unfold contents. destruct Hf as [_ -> _ _ _ _]. rewrite Hb.
  apply list_eq. intros i. destruct (decide (i < Z.to_nat n)%nat).
  - rewrite lookup_take_lt, lookup_drop, !ring_get_lookup by lia. do 2 f_equal.
    rewrite ring_pos_shift. f_equal. lia.
  - rewrite !lookup_ge_None_2; [done | |]; rewrite ?length_take, ?length_drop, ring_get_length; lia.
Qed.

(** *** The operations *)
Lemma fifo_in_spec from len :
  0 <= len → len <= Z.of_nat (length from) →
  let n := Z.min (2 ^ k - Z.of_nat (length (contents f))) len in
  ∃ f', fifo_in from len f = Ret (n, f') ∧ fifo_ok k f' ∧
    contents f' = contents f ++ take (Z.to_nat n) from.
Proof.
  intros Hlen Hfrom n. pose proof contents_length_le as Hc.
  unfold fifo_in, mbind, cmd_bind, get_st. rewrite fifo_avail_contents. fold n.
  pose proof Hf as [Hk Hsz (b & Hb & Hlb) _ _ _]. rewrite Hsz in Hlb.
  destruct (fifo_in_data_spec k f b Hk Hsz Hb Hlb from n 0) as (b' & -> & Hput); [lia.. |].
  unfold __fifo_add_in, mod_st. simpl. eexists; split; [done |].
  apply (push_spec b); [done | rewrite fifo_avail_contents; lia | rewrite length_take; lia |].
  destruct Hput as [? Hput]. split; [done |]. intros j Hj.
  rewrite Z.add_0_r in Hput. rewrite Hput by done.
  destruct (Z.ltb_spec j n); [| done]. by rewrite lookup_take_lt by lia.
Qed.

Lemma fifo_out_spec to len :
  0 <= len → len <= Z.of_nat (length to) →
  let n := Z.min (Z.of_nat (length (contents f))) len in
  ∃ f', fifo_out to len f
        = Ret ((n, take (Z.to_nat n) (contents f) ++ drop (Z.to_nat n) to), f') ∧
    fifo_ok k f' ∧ contents f' = drop (Z.to_nat n) (contents f).
Proof.
  intros Hlen Hto n. pose proof contents_length_le as Hc.
  unfold fifo_out, mbind, cmd_bind, get_st, lift. rewrite fifo_len_contents. fold n.
  pose proof Hf as [Hk Hsz (b & Hb & Hlb) _ _ _]. rewrite Hsz in Hlb.
  rewrite (fifo_out_data_spec k f b) by (done || lia).
  rewrite contents_sub, drop_0 by (done || rewrite ?fifo_len_contents; lia).
  unfold __fifo_add_out, mod_st. simpl. eexists; split; [done |].
  apply pop_spec. rewrite fifo_len_contents. lia.
Qed.

Lemma fifo_reset_out_spec :
  ∃ f', fifo_reset_out f = Ret (tt, f') ∧ fifo_ok k f' ∧ contents f' = [].
Proof.
  destruct Hf as [Hk Hsz (b & Hb & Hlb) Hi Ho _]. unfold fifo_reset_out, mod_st.
  eexists; split; [done |]. pose proof (pow_pos k Hk). split.
  - constructor; simpl; try done; [by exists b |]. unfold fifo_len; simpl.
    rewrite Z.sub_diag, Hsz. change (u32 0) with 0. lia.
  - unfold contents, fifo_len; simpl. by rewrite Hb, Z.sub_diag.
Qed.

Lemma fifo_reset_spec :
  ∃ f', fifo_reset f = Ret (tt, f') ∧ fifo_ok k f' ∧ contents f' = [].
Proof.
  destruct Hf as [Hk Hsz (b & Hb & Hlb) Hi Ho _]. unfold fifo_reset, mod_st.
  eexists; split; [done |]. pose proof (pow_pos k Hk). split.
  - constructor; simpl; try done; [by exists b |]. unfold fifo_len; simpl. rewrite Hsz. change (u32 (0 - 0)) with 0. lia.
  - unfold contents, fifo_len; simpl. by rewrite Hb.
Qed.

Lemma fifo_skip_spec len :
  0 <= len →
  ∃ f', fifo_skip len f = Ret (tt, f') ∧ fifo_ok k f' ∧
    contents f' = drop (Z.to_nat len) (contents f).
Proof.
  intros Hlen. unfold fifo_skip, mbind, cmd_bind, get_st. rewrite fifo_len_contents.
  destruct (Z.ltb_spec len (Z.of_nat (length (contents f)))).
  - eexists; split; [done |]. apply pop_spec. rewrite fifo_len_contents. lia.
  - destruct fifo_reset_out_spec as (f' & -> & ? & E). eexists; split; [done |].
    split; [done |]. by rewrite E, drop_ge by lia.
Qed.
End queue.

(** ** The byte queue

    A bounded queue is the list of its bytes; [cap] is its capacity. *)
Inductive byte_op :=
| OpIn (from : bytes) (len : Z)
| OpOut (to : bytes) (len : Z)
| OpSkip (len : Z)
| OpReset
| OpResetOut.

(** What an operation gives back: the count, and the caller's memory. *)
Definition op_result : Type := Z * bytes.

(** The caller's object holds [len] bytes. *)
Definition op_ok (op : byte_op) : Prop :=
  match op with
  | OpIn m len | OpOut m len => 0 <= len <= Z.of_nat (length m)
  | OpSkip len => 0 <= len
  | _ => True
  end.

Definition exec_op (op : byte_op) : M op_result :=
  match op with
  | OpIn from len => n ← fifo_in from len; mret (n, from)
  | OpOut to len => fifo_out to len
  | OpSkip len => fifo_skip len;; mret (0, [])
  | OpReset => fifo_reset;; mret (0, [])
  | OpResetOut => fifo_reset_out;; mret (0, [])
  end.

Definition queue_op (cap : Z) (op : byte_op) (q : bytes) : op_result * bytes :=
  match op with
  | OpIn from len =>
      let n := Z.min (cap - Z.of_nat (length q)) len in ((n, from), q ++ take (Z.to_nat n) from)
  | OpOut to len =>
      let n := Z.to_nat (Z.min (Z.of_nat (length q)) len) in
      ((Z.of_nat n, take n q ++ drop n to), drop n q)
  | OpSkip len => ((0, []), drop (Z.to_nat len) q)
  | OpReset | OpResetOut => ((0, []), [])
  end.

Fixpoint exec_ops (ops : list byte_op) : M (list op_result) :=
  match ops with
  | [] => mret []
  | op :: ops => r ← exec_op op; rs ← exec_ops ops; mret (r :: rs)
  end.

Fixpoint queue_ops (cap : Z) (ops : list byte_op) (q : bytes) : list op_result * bytes :=
  match ops with
  | [] => ([], q)
  | op :: ops =>
      let '(r, q) := queue_op cap op q in
      let '(rs, q) := queue_ops cap ops q in (r :: rs, q)
  end.

Lemma exec_op_refines k f op :
  fifo_ok k f → op_ok op →
  ∃ f', exec_op op f = Ret ((queue_op (2 ^ k) op (contents f)).1, f') ∧ fifo_ok k f' ∧
    contents f' = (queue_op (2 ^ k) op (contents f)).2.
Proof.
  intros Hf Hop. destruct op as [from len|to len|len| |]; simpl in *.
  - destruct (fifo_in_spec k f Hf from len) as (f' & E & Hf' & Hc); [lia.. |].
    unfold mbind, cmd_bind. rewrite E. by exists f'.
  - destruct (fifo_out_spec k f Hf to len) as (f' & E & Hf' & Hc); [lia.. |].
    rewrite E, Z2Nat.id by lia. by exists f'.
  - destruct (fifo_skip_spec k f Hf len) as (f' & E & Hf' & Hc); [lia.. |].
    unfold mbind, cmd_bind. rewrite E. by exists f'.
  - destruct (fifo_reset_spec k f Hf) as (f' & E & Hf' & Hc).
    unfold mbind, cmd_bind. rewrite E. by exists f'.
  - destruct (fifo_reset_out_spec k f Hf) as (f' & E & Hf' & Hc).
    unfold mbind, cmd_bind. rewrite E. by exists f'.
Qed.

(** C2: any sequence of [fifo_in], [fifo_out], [fifo_skip], [fifo_reset] and
    [fifo_reset_out] on an allocated fifo behaves as on a queue of at most [size]
    bytes: it never fails, every count and every byte given back is the queue's, and
    the free-running 32-bit indices may wrap around any number of times. *)
Theorem fifo_refines_byte_queue k f ops :
  fifo_ok k f → Forall op_ok ops →
  ∃ f', exec_ops ops f = Ret ((queue_ops (2 ^ k) ops (contents f)).1, f') ∧ fifo_ok k f' ∧
    contents f' = (queue_ops (2 ^ k) ops (contents f)).2.
Proof.
  revert f. induction ops as [|op ops IH]; intros f Hf Hops; simpl; [by exists f |].
  inversion_clear Hops as [|? ? Hop Hops'].
  destruct (exec_op_refines k f op Hf Hop) as (f1 & E1 & Hf1 & Hc1).
  destruct (IH f1 Hf1 Hops') as (f2 & E2 & Hf2 & Hc2).
  unfold mbind, cmd_bind, mret, cmd_ret. rewrite E1, E2. exists f2. rewrite Hc1 in *.
  destruct (queue_op _ _ _) as [r q]; simpl in *. by destruct (queue_ops _ _ _).
Qed.

(** Eight bytes of ring, both indices two bytes before the wrap. *)
Definition sample_fifo : fifo := Fifo (Some (replicate 8 0)) 8 (2 ^ 32 - 2) (2 ^ 32 - 2).

Lemma sample_fifo_ok : fifo_ok 3 sample_fifo.
Proof. constructor; simpl; try lia; [by exists (replicate 8 0) | vm_compute; discriminate]. Qed.

Lemma fifo_refines_byte_queue_witness :
  ∃ f', exec_ops [OpIn [1; 2; 3; 4; 5] 5; OpOut [0; 0; 0] 3; OpIn [6; 7; 8; 9; 10; 11; 12] 7;
                  OpSkip 1; OpOut (replicate 8 0) 8] sample_fifo
        = Ret ([(5, [1; 2; 3; 4; 5]); (3, [1; 2; 3]); (6, [6; 7; 8; 9; 10; 11; 12]); (0, []);
                (7, [5; 6; 7; 8; 9; 10; 11; 0])], f') ∧
        fifo_ok 3 f' ∧ contents f' = [].
Proof.
  apply (fifo_refines_byte_queue 3 sample_fifo); [apply sample_fifo_ok |].
  repeat constructor; simpl; lia.
Defined.

(** ** Records

    A record of [n] bytes is stored as its length on [recsize] bytes, 1 or 2, low
    byte first, and its data. *)
Definition rec_header (recsize n : Z) : bytes :=
  if recsize =? 1 then [u8 n] else [u8 n; u8 (Z.shiftr n 8)].

Definition rec_bytes (recsize : Z) (r : bytes) : bytes :=
  rec_header recsize (Z.of_nat (length r)) ++ r.

Definition recs_bytes (recsize : Z) (q : list bytes) : bytes := concat (rec_bytes recsize <$> q).

(** The length of the record fits its header. *)
Definition rec_fits (recsize : Z) (n : Z) : Prop :=
  (recsize = 1 ∧ 0 <= n < 2 ^ 8) ∨ (recsize = 2 ∧ 0 <= n < 2 ^ 16).

Lemma rec_header_length recsize n :
  recsize = 1 ∨ recsize = 2 → Z.of_nat (length (rec_header recsize n)) = recsize.
Proof. by intros [-> | ->]. Qed.

Lemma low_high_byte n : 0 <= n < 2 ^ 16 → Z.lor (u8 n) (Z.shiftl (u8 (Z.shiftr n 8)) 8) = n.
Proof.
  intros Hn. apply Z.bits_inj'. intros i Hi. unfold u8.
  rewrite Z.lor_spec, <- !Z.land_ones, Z.land_spec, Z.shiftl_spec by lia.
  destruct (Z.ltb_spec i 8).
  - rewrite Z.ones_spec_low, (Z.testbit_neg_r _ (i - 8)) by lia. by rewrite andb_true_r, orb_false_r.
  - rewrite Z.ones_spec_high, andb_false_r by lia. simpl.
    rewrite Z.land_spec, Z.shiftr_spec by lia. replace (i - 8 + 8) with i by lia.
    destruct (Z.ltb_spec i 16).
    + rewrite Z.ones_spec_low by lia. apply andb_true_r.
    + rewrite Z.ones_spec_high, andb_false_r by lia. symmetry.
      apply Z.testbit_false; [lia |]. rewrite Z.div_small; [done |].
      split; [lia |]. apply Z.lt_le_trans with (2 ^ 16); [lia |]. apply Z.pow_le_mono_r; lia.
Qed.

Section records.
Context (k : Z) (Hk : 0 <= k <= 31).

Lemma ring_pos_inj s i j :
  0 <= i < 2 ^ k → 0 <= j < 2 ^ k → ring_pos (2 ^ k) s i = ring_pos (2 ^ k) s j → i = j.
Proof.
  intros Hi Hj. rewrite !(ring_pos_split k Hk) by done. pose proof (pow_pos k Hk).
  pose proof (Z.mod_pos_bound s (2 ^ k)).
  destruct (Z.ltb_spec i (2 ^ k - s mod 2 ^ k)), (Z.ltb_spec j (2 ^ k - s mod 2 ^ k)); lia.
Qed.

(** One more byte before those already put. *)
Lemma ring_put_cons v data s n b b' :
  Z.of_nat (length b) = 2 ^ k → 0 <= n < 2 ^ k →
  ring_put_rel k data (s + 1) n b b' →
  ring_put_rel k (v :: data) s (n + 1) b (<[ring_pos (2 ^ k) s 0 := v]> b').
Proof.
  intros Hb Hn [Hl Hput]. split; [by rewrite length_insert |]. intros j Hj.
  pose proof (ring_pos_lt k Hk s 0). destruct (decide (j = 0)) as [->|Hj0].
  - destruct (Z.ltb_spec 0 (n + 1)); [| lia]. rewrite list_lookup_insert_eq; [done | lia].
  - rewrite list_lookup_insert_ne by (intros E; apply ring_pos_inj in E; lia).
    replace j with (1 + (j - 1)) at 1 4 by lia. rewrite <- ring_pos_shift, Hput by lia.
    rewrite ring_pos_shift. replace (1 + (j - 1)) with j by lia.
    destruct (Z.ltb_spec (j - 1) n), (Z.ltb_spec j (n + 1)); try lia; [| done].
    replace (Z.to_nat j) with (S (Z.to_nat (j - 1))) by lia. done.
Qed.

Lemma ring_put_ext data data' s n b b' :
  (∀ j, 0 <= j < n → data !! Z.to_nat j = data' !! Z.to_nat j) →
  ring_put_rel k data s n b b' → ring_put_rel k data' s n b b'.
Proof.
  intros E [? Hput]. split; [done |]. intros j Hj. rewrite Hput by done.
  destruct (Z.ltb_spec j n); [apply E; lia | done].
Qed.

Lemma fifo_put_spec f b off v shift :
  size f = 2 ^ k → buffer f = Some b → Z.of_nat (length b) = 2 ^ k →
  __FIFO_PUT off v shift f
  = Ret (tt, Fifo (Some (<[ring_pos (2 ^ k) (in_ f) off := u8 (Z.shiftr v shift)]> b)) (size f) (in_ f) (out f)).
Proof.
  intros Hsz Hb Hl. unfold __FIFO_PUT, mbind, cmd_bind, get_st, lift. rewrite Hb; simpl.
  rewrite (fifo_off_mod k Hk) by done. unfold wr. pose proof (pow_pos k Hk).
  pose proof (Z.mod_pos_bound (in_ f + off) (2 ^ k)).
  destruct (Z.leb_spec 0 ((in_ f + off) mod 2 ^ k)); [| lia].
  by destruct (Z.ltb_spec ((in_ f + off) mod 2 ^ k) (Z.of_nat (length b))); [| lia].
Qed.

(** [__FIFO_GET] on a byte of the queue. *)
Lemma fifo_get_spec f off shift c :
  fifo_ok k f → 0 <= off → contents f !! Z.to_nat off = Some c →
  __FIFO_GET f off shift = Ret (Z.shiftl c shift).
Proof.
  intros Hf Ho Hc. pose proof (lookup_lt_Some _ _ _ Hc) as Hlt.
  rewrite (contents_length k) in Hlt by done. unfold contents in Hc.
  destruct Hf as [_ Hsz (b & Hb & Hlb) _ _ _]. rewrite Hb in Hc.
  rewrite ring_get_lookup in Hc by done. rewrite Hsz in Hc, Hlb. injection Hc as Hc.
  unfold __FIFO_GET. rewrite Hb. simpl. rewrite (fifo_off_mod k Hk) by done.
  unfold rd. pose proof (pow_pos k Hk). pose proof (Z.mod_pos_bound (out f + off) (2 ^ k)).
  destruct (Z.ltb_spec ((out f + off) mod 2 ^ k) 0); [lia |].
  rewrite <- Hc. unfold ring_pos. rewrite (Z2Nat.id off) by lia.
  rewrite (list_lookup_lookup_total_lt b) by lia. done.
Qed.
End records.

(** *** The record operations *)
Section record_ops.
Context (k recsize : Z) (f : fifo) (Hf : fifo_ok k f) (Hr : recsize = 1 ∨ recsize = 2).

Lemma fifo_in_rec_full from n :
  0 <= n → n + recsize < 2 ^ 32 → 2 ^ k - Z.of_nat (length (contents f)) < n + recsize →
  fifo_in_rec from n recsize f = Ret (n + 1, f).
Proof.
  intros Hn Hlt Hfull. unfold fifo_in_rec, __fifo_in_rec, __fifo_in_n, mbind, cmd_bind, get_st.
  rewrite (fifo_avail_contents k) by done. rewrite (u32_small (n + recsize)), (u32_small (n + 1)) by lia.
  destruct (Z.ltb_spec (2 ^ k - Z.of_nat (length (contents f))) (n + recsize)); [| lia].
  simpl. by destruct (Z.eqb_spec (n + 1) 0); [lia |].
Qed.

(** The header goes before the data. *)
Lemma fifo_poke_spec f1 b b1 data n :
  size f1 = 2 ^ k → in_ f1 = in_ f → out f1 = out f → buffer f1 = Some b1 →
  Z.of_nat (length b) = 2 ^ k → 0 <= n → n + recsize <= 2 ^ k →
  ring_put_rel k data (in_ f + recsize) n b b1 →
  ∃ b2, __fifo_poke_n recsize n f1 = Ret (tt, Fifo (Some b2) (size f1) (in_ f) (out f)) ∧
    ring_put_rel k (rec_header recsize n ++ data) (in_ f) (n + recsize) b b2.
Proof.
  intros Hsz Hin Hout Hb1 Hl Hn Hfit Hput. pose proof (ok_k _ _ Hf) as Hk.
  assert (Hl1 : Z.of_nat (length b1) = 2 ^ k) by (destruct Hput; lia).
  unfold __fifo_poke_n, mbind, cmd_bind.
  rewrite (fifo_put_spec k Hk f1 b1) by done. rewrite Hin, Hout, Z.shiftr_0_r.
  unfold rec_header. destruct Hr as [-> | ->]; simpl.
  - eexists; split; [done |]. apply ring_put_cons; [done | done | lia | done].
  - rewrite (fifo_put_spec k Hk _ (<[ring_pos (2 ^ k) (in_ f) 0:=u8 n]> b1)) by (simpl; rewrite ?length_insert; done).
    simpl. eexists; split; [done |]. replace (n + 2) with (n + 1 + 1) by lia.
    rewrite list_insert_insert_ne by (intros E; apply ring_pos_inj in E; lia).
    apply ring_put_cons; [done | done | lia |].
    replace (ring_pos (2 ^ k) (in_ f) 1) with (ring_pos (2 ^ k) (in_ f + 1) 0) by (by rewrite ring_pos_shift).
    apply ring_put_cons; [done | done | lia |]. by replace (in_ f + 1 + 1) with (in_ f + 2) by lia.
Qed.

Lemma fifo_in_rec_spec from n :
  0 <= n <= Z.of_nat (length from) → n + recsize <= 2 ^ k - Z.of_nat (length (contents f)) →
  ∃ f', fifo_in_rec from n recsize f = Ret (0, f') ∧ fifo_ok k f' ∧
    contents f' = contents f ++ rec_header recsize n ++ take (Z.to_nat n) from.
Proof.
  intros Hn Hfit. pose proof Hf as [Hk Hsz (b & Hb & Hlb) _ _ _]. rewrite Hsz in Hlb.
  pose proof (pow_le k Hk).
  unfold fifo_in_rec, __fifo_in_rec, __fifo_in_n, mbind, cmd_bind, get_st.
  rewrite (fifo_avail_contents k) by done. rewrite (u32_small (n + recsize)) by lia.
  destruct (Z.ltb_spec (2 ^ k - Z.of_nat (length (contents f))) (n + recsize)); [lia |].
  destruct (fifo_in_data_spec k f b Hk Hsz Hb Hlb from n recsize) as (b1 & -> & Hput); [lia.. |].
  simpl. destruct (Z.eqb_spec recsize 0); [lia |]. simpl.
  destruct (fifo_poke_spec (Fifo (Some b1) (size f) (in_ f) (out f)) b b1 from n)
    as (b2 & -> & Hput2); simpl; try done; [lia.. |].
  eexists; split; [done |]. simpl.
  apply (push_spec k f Hf b); [done | | |].
  - rewrite (fifo_avail_contents k) by done. lia.
  - rewrite length_app, Nat2Z.inj_add, rec_header_length, length_take by done. lia.
  - revert Hput2. apply ring_put_ext. intros j Hj.
    pose proof (rec_header_length recsize n Hr).
    destruct (decide (j < recsize)).
    + by rewrite !lookup_app_l by lia.
    + rewrite !lookup_app_r by lia. rewrite lookup_take_lt; [done | lia].
Qed.

Lemma fifo_peek_n_spec n rest :
  rec_fits recsize n → contents f = rec_header recsize n ++ rest → __fifo_peek_n recsize f = Ret n.
Proof.
  intros Hn Hc. pose proof (ok_k _ _ Hf) as Hk. unfold __fifo_peek_n, rec_header in *.
  destruct Hn as [[-> Hn] | [-> Hn]]; simpl in Hc.
  - rewrite (fifo_get_spec k Hk f 0 0 (u8 n)) by (rewrite ?Hc; done || lia).
    simpl. by rewrite u8_small.
  - rewrite (fifo_get_spec k Hk f 0 0 (u8 n)) by (rewrite ?Hc; done || lia).
    rewrite (fifo_get_spec k Hk f 1 8 (u8 (Z.shiftr n 8))) by (rewrite ?Hc; done || lia).
    simpl. f_equal. by apply low_high_byte.
Qed.

Lemma fifo_out_n_spec to n rest data :
  contents f = rec_header recsize n ++ data ++ rest → n = Z.of_nat (length data) →
  n <= Z.of_nat (length to) →
  ∃ f', __fifo_out_n to n recsize f = Ret ((0, data ++ drop (Z.to_nat n) to), f') ∧
    fifo_ok k f' ∧ contents f' = rest.
Proof.
  intros Hc Hn Hto. pose proof (rec_header_length recsize n Hr) as Hh.
  pose proof (contents_length_le k f Hf) as Hle. pose proof (fifo_len_contents k f Hf) as Hlen.
  rewrite Hc, !length_app in Hle, Hlen.
  pose proof Hf as [Hk Hsz (b & Hb & Hlb) _ _ _]. rewrite Hsz in Hlb. pose proof (pow_le k Hk).
  unfold __fifo_out_n, mbind, cmd_bind, get_st, lift. rewrite (u32_small (n + recsize)) by lia.
  destruct (Z.ltb_spec (fifo_len f) (n + recsize)); [lia |].
  rewrite (fifo_out_data_spec k f b) by (done || lia).
  rewrite (contents_sub k) by (done || lia). rewrite Hc.
  rewrite (drop_app_length' _ _ (Z.to_nat recsize)), (take_app_length' data) by lia.
  eexists; split; [done |].
  destruct (pop_spec k f Hf (n + recsize)) as [? ->]; [lia |]. split; [done |].
  rewrite Hc, (assoc app). apply drop_app_length'. rewrite length_app. lia.
Qed.
End record_ops.

(** ** The record queue *)
Inductive rec_op :=
| RecIn (from : bytes) (n : Z)
| RecPeek
| RecOut (to : bytes) (n : Z)
| RecSkip.

(** The value returned, the caller's memory and [*total]. *)
Definition rec_result : Type := Z * bytes * Z.

Definition exec_rec (recsize : Z) (op : rec_op) : M rec_result :=
  match op with
  | RecIn from n => r ← fifo_in_rec from n recsize; mret (r, from, 0)
  | RecPeek => r ← fifo_peek_rec recsize; mret (r, [], 0)
  | RecOut to n => fifo_out_rec to n recsize
  | RecSkip => fifo_skip_rec recsize;; mret (0, [], 0)
  end.

(** The free bytes beside the queued records. *)
Definition rec_room (cap recsize : Z) (q : list bytes) : Z :=
  cap - Z.of_nat (length (recs_bytes recsize q)).

(** The operation on a list of records; [None] when it is not one of a record queue:
    data shorter than announced, a length that does not fit the header, a small
    [to], or a read of an empty queue. *)
Definition queue_rec (cap recsize : Z) (op : rec_op) (q : list bytes) : option (rec_result * list bytes) :=
  match op, q with
  | RecIn from n, _ =>
      guard (0 <= n <= Z.of_nat (length from) ∧ n < 2 ^ (8 * recsize));;
      Some (if n + recsize <=? rec_room cap recsize q then ((0, from, 0), q ++ [take (Z.to_nat n) from])
            else ((n + 1, from, 0), q))
  | RecPeek, r :: _ => Some ((Z.of_nat (length r), [], 0), q)
  | RecOut to n, r :: q' =>
      guard (0 <= n <= Z.of_nat (length to));;
      let l := Z.of_nat (length r) in
      Some (if n <? l then ((l, to, l), q) else ((0, r ++ drop (length r) to, l), q'))
  | RecSkip, r :: q' => Some ((0, [], 0), q')
  | _, [] => None
  end.

Fixpoint exec_recs (recsize : Z) (ops : list rec_op) : M (list rec_result) :=
  match ops with
  | [] => mret []
  | op :: ops => r ← exec_rec recsize op; rs ← exec_recs recsize ops; mret (r :: rs)
  end.

Fixpoint queue_recs (cap recsize : Z) (ops : list rec_op) (q : list bytes)
    : option (list rec_result * list bytes) :=
  match ops with
  | [] => Some ([], q)
  | op :: ops =>
      '(r, q) ← queue_rec cap recsize op q;
      '(rs, q) ← queue_recs cap recsize ops q;
      Some (r :: rs, q)
  end.

(** [f] holds the records [q]. *)
Definition holds (k recsize : Z) (f : fifo) (q : list bytes) : Prop :=
  fifo_ok k f ∧ contents f = recs_bytes recsize q ∧
  Forall (λ r, rec_fits recsize (Z.of_nat (length r))) q.

Lemma recs_bytes_snoc recsize q r :
  recs_bytes recsize (q ++ [r]) = recs_bytes recsize q ++ rec_bytes recsize r.
Proof. unfold recs_bytes. rewrite fmap_app, concat_app. simpl. by rewrite app_nil_r. Qed.

Section rec_refine.
Context (k recsize : Z) (f : fifo) (q : list bytes).
Context (Hr : recsize = 1 ∨ recsize = 2) (Hq : holds k recsize f q).

Lemma rec_in_refines from n :
  0 <= n <= Z.of_nat (length from) → n < 2 ^ (8 * recsize) →
  ∃ f', fifo_in_rec from n recsize f
        = Ret (if n + recsize <=? rec_room (2 ^ k) recsize q then 0 else n + 1, f') ∧
    holds k recsize f' (if n + recsize <=? rec_room (2 ^ k) recsize q
                        then q ++ [take (Z.to_nat n) from] else q).
Proof.
  intros Hn Hlt. destruct Hq as (Hf & Hc & Hfit). unfold rec_room. rewrite <- Hc.
  assert (Hn' : rec_fits recsize n).
  { unfold rec_fits. destruct Hr as [-> | ->]; simpl in Hlt; lia. }
  assert (n < 2 ^ 16) by (unfold rec_fits in Hn'; lia).
  destruct (Z.leb_spec (n + recsize) (2 ^ k - Z.of_nat (length (contents f)))).
  - destruct (fifo_in_rec_spec k recsize f Hf Hr from n) as (f' & -> & Hf' & Hc'); [done.. |].
    exists f'. split; [done |]. split; [done |].
    assert (Hl : Z.of_nat (length (take (Z.to_nat n) from)) = n) by (rewrite length_take; lia).
    split.
    + rewrite Hc', recs_bytes_snoc, Hc. unfold rec_bytes. by rewrite Hl.
    + apply Forall_app. split; [done |]. constructor; [| done]. by rewrite Hl.
  - rewrite (fifo_in_rec_full k) by (done || lia). by exists f.
Qed.

Lemma rec_peek_refines r q' : q = r :: q' → __fifo_peek_n recsize f = Ret (Z.of_nat (length r)).
Proof.
  intros ->. destruct Hq as (Hf & Hc & Hfit). inversion_clear Hfit.
  apply (fifo_peek_n_spec k recsize f Hf) with (rest := r ++ recs_bytes recsize q'); [done.. |].
  rewrite Hc. unfold recs_bytes, rec_bytes. simpl. by rewrite <- (assoc app).
Qed.

Lemma rec_out_refines r q' to n :
  q = r :: q' → 0 <= n <= Z.of_nat (length to) →
  let l := Z.of_nat (length r) in
  ∃ f', fifo_out_rec to n recsize f
        = Ret (if n <? l then (l, to, l) else (0, r ++ drop (length r) to, l), f') ∧
    holds k recsize f' (if n <? l then q else q').
Proof.
  intros E Hn l. unfold fifo_out_rec, __fifo_out_rec.
  destruct (Z.eqb_spec recsize 0); [lia |]. unfold mbind, cmd_bind, get_st, lift.
  rewrite (rec_peek_refines r q' E). fold l. destruct (Z.ltb_spec n l); [by exists f |].
  destruct Hq as (Hf & Hc & Hfit). rewrite E in Hc, Hfit. inversion_clear Hfit.
  destruct (fifo_out_n_spec k recsize f Hf Hr to l (recs_bytes recsize q') r) as (f' & -> & Hf' & Hc');
    [| done | lia |].
  { rewrite Hc. unfold recs_bytes, rec_bytes. simpl. by rewrite <- (assoc app). }
  exists f'. unfold l. rewrite Nat2Z.id. done.
Qed.

Lemma rec_skip_refines r q' :
  q = r :: q' → ∃ f', fifo_skip_rec recsize f = Ret (tt, f') ∧ holds k recsize f' q'.
Proof.
  intros E. unfold fifo_skip_rec, __fifo_skip_rec, mbind, cmd_bind, get_st, lift.
  rewrite (rec_peek_refines r q' E). destruct Hq as (Hf & Hc & Hfit).
  pose proof (contents_length_le k f Hf) as Hle.
  pose proof (pow_le k (ok_k _ _ Hf)).
  rewrite E in Hc, Hfit. inversion_clear Hfit. rewrite Hc in Hle.
  unfold recs_bytes in Hc, Hle. simpl in Hc, Hle. unfold rec_bytes at 1 in Hc. unfold rec_bytes at 1 in Hle.
  set (l := Z.of_nat (length r)) in *. pose proof (rec_header_length recsize l Hr) as Hh.
  rewrite !length_app in Hle. destruct (Z.eqb_spec recsize 0); [lia |]. simpl.
  rewrite (u32_small (l + recsize)) by lia. rewrite (fifo_len_contents k f Hf), Hc, !length_app.
  match goal with |- context [?a <=? ?b] => destruct (Z.leb_spec a b); [| lia] end.
  eexists; split; [done |].
  destruct (pop_spec k f Hf (l + recsize)) as [Hf' Hc'].
  { rewrite (fifo_len_contents k f Hf), Hc, !length_app. lia. }
  split; [done |]. split; [| done]. rewrite Hc', Hc. apply drop_app_length'. rewrite length_app. lia.
Qed.

End rec_refine.

Lemma exec_rec_refines k recsize f q op res q' :
  recsize = 1 ∨ recsize = 2 → holds k recsize f q →
  queue_rec (2 ^ k) recsize op q = Some (res, q') →
  ∃ f', exec_rec recsize op f = Ret (res, f') ∧ holds k recsize f' q'.
Proof.
  intros Hr Hq E. destruct op as [from n| |to n|]; unfold queue_rec in E.
  - rewrite option_guard_decide in E. case_decide as Hn; [| done]. destruct Hn as [Hn Hlt].
    destruct (rec_in_refines k recsize f q Hr Hq from n Hn Hlt) as (f' & Ei & Hh). exists f'.
    unfold exec_rec, mbind, cmd_bind. rewrite Ei. destruct (_ <=? _); by simplify_eq.
  - destruct q as [|r q0]; [done |]. simplify_eq. exists f. split; [| done].
    unfold exec_rec, fifo_peek_rec, mbind, cmd_bind, get_st, lift.
    destruct (Z.eqb_spec recsize 0); [lia |].
    by rewrite (rec_peek_refines k recsize f (r :: q0) Hr Hq r q0).
  - destruct q as [|r q0]; [done |]. rewrite option_guard_decide in E. case_decide as Hn; [| done].
    destruct (rec_out_refines k recsize f (r :: q0) Hr Hq r q0 to n eq_refl Hn) as (f' & Eo & Hh).
    exists f'. simpl. rewrite Eo. destruct (n <? _); by simplify_eq.
  - destruct q as [|r q0]; [done |]. simplify_eq.
    destruct (rec_skip_refines k recsize f (r :: q') Hr Hq r q') as (f' & Es & Hh); [done |].
    exists f'. unfold exec_rec, mbind, cmd_bind. by rewrite Es.
Qed.

(** C17: with a header of one or two bytes, any sequence of [fifo_in_rec],
    [fifo_peek_rec], [fifo_out_rec] and [fifo_skip_rec] behaves as on a queue of
    records: records come out whole, in order, with the length they had; a record
    that has no room is refused with a value greater than its length and changes
    nothing; a record longer than the caller's buffer stays in the queue. *)
Theorem fifo_rec_refines_record_queue k recsize f q ops res q' :
  recsize = 1 ∨ recsize = 2 → holds k recsize f q →
  queue_recs (2 ^ k) recsize ops q = Some (res, q') →
  ∃ f', exec_recs recsize ops f = Ret (res, f') ∧ holds k recsize f' q'.
Proof.
  intros Hr. revert f q res. induction ops as [|op ops IH]; intros f q res Hq E; simpl in E.
  { simplify_eq. by exists f. }
  destruct (queue_rec _ _ _ _) as [[r q1]|] eqn:E1; [| done]. simpl in E.
  destruct (queue_recs _ _ _ _) as [[rs q2]|] eqn:E2; [| done]. simpl in E. simplify_eq.
  destruct (exec_rec_refines k recsize f q _ _ _ Hr Hq E1) as (f1 & Ef1 & Hq1).
  destruct (IH f1 q1 rs Hq1 E2) as (f2 & Ef2 & Hq2).
  exists f2. simpl. unfold mbind, cmd_bind. by rewrite Ef1, Ef2.
Qed.

Lemma fifo_rec_refines_record_queue_witness :
  ∃ f', exec_recs 2 [RecIn [10; 11; 12] 3; RecIn [13] 1; RecPeek; RecIn [14] 1; RecOut [0] 1;
                     RecOut [0; 0; 0; 0] 4; RecSkip; RecIn [] 0] sample_fifo
        = Ret ([(0, [10; 11; 12], 0); (0, [13], 0); (3, [], 0); (2, [14], 0); (3, [0], 3);
                (0, [10; 11; 12; 0], 3); (0, [], 0); (0, [], 0)], f') ∧
        holds 3 2 f' [[]].
Proof.
  apply (fifo_rec_refines_record_queue 3 2 sample_fifo []); [by right | | by vm_compute].
  split; [apply sample_fifo_ok |]. split; [by vm_compute | constructor].
Defined.

(** ** Allocation *)

(** A [malloc] that never gives a block of another size. *)
Definition malloc_ok (malloc : Z → option bytes) : Prop :=
  ∀ n b, 0 <= n → malloc n = Some b → Z.of_nat (length b) = n.

Lemma is_power_of_2_pow k : 0 <= k <= 31 → is_power_of_2 (2 ^ k) = true.
Proof.
  intros Hk. pose proof (pow_pos k Hk). pose proof (pow_le k Hk). unfold is_power_of_2.
  destruct (Z.eqb_spec (2 ^ k) 0); [lia |]. simpl.
  rewrite u32_small by lia. change (2 ^ k - 1) with (Z.pred (2 ^ k)).
  rewrite <- Z.ones_equiv, Z.land_ones by lia. rewrite Z_mod_same_full. done.
Qed.

Lemma is_power_of_2_spec n :
  0 <= n < 2 ^ 32 → is_power_of_2 n = true ↔ ∃ k, 0 <= k <= 31 ∧ n = 2 ^ k.
Proof.
  intros Hn. split; [| intros (k & Hk & ->); by apply is_power_of_2_pow].
  unfold is_power_of_2. destruct (Z.eqb_spec n 0); [done |]. simpl. intros E. zbool.
  rewrite u32_small in E by lia. pose proof (Z.log2_spec n) as Hl. rewrite Z.pow_succ_r in Hl by apply Z.log2_nonneg.
  pose proof (Z.log2_nonneg n). exists (Z.log2 n).
  assert (Z.log2 n < 32) by (apply Z.log2_lt_pow2; lia). split; [lia |].
  destruct (decide (n = 2 ^ Z.log2 n)) as [|Hne]; [done | exfalso].
  assert (Ht : Z.testbit (Z.land n (n - 1)) (Z.log2 n) = true).
  { rewrite Z.land_spec, Z.bit_log2 by lia. simpl.
    rewrite <- (Z.log2_unique (n - 1) (Z.log2 n)); [apply Z.bit_log2; lia | lia |].
    rewrite Z.pow_succ_r by lia. lia. }
  by rewrite E, Z.bits_0 in Ht.
Qed.

Lemma fifo_fresh_ok k b :
  0 <= k <= 31 → Z.of_nat (length b) = 2 ^ k → fifo_ok k (Fifo (Some b) (2 ^ k) 0 0).
Proof.
  intros Hk Hb. pose proof (pow_pos k Hk). constructor; simpl; try lia; [by exists b |].
  unfold fifo_len; simpl. change (u32 (0 - 0)) with 0. lia.
Qed.

Lemma fifo_alloc_pow malloc k f :
  0 <= k <= 31 → fifo_alloc malloc (2 ^ k) f
  = match malloc (2 ^ k) with
    | Some b => Ret (0, Fifo (Some b) (2 ^ k) 0 0)
    | None => Ret (-1, Fifo None 0 0 0)
    end.
Proof.
  intros Hk. unfold fifo_alloc, mbind, cmd_bind. rewrite is_power_of_2_pow by done. simpl.
  by destruct (malloc (2 ^ k)).
Qed.

(** [fifo_alloc] of a power of two gives an empty fifo of that size, or -1 and an
    empty descriptor when [malloc] fails. *)
Theorem fifo_alloc_power_of_two malloc n f :
  malloc_ok malloc → 0 <= n < 2 ^ 32 → is_power_of_2 n = true →
  (∃ k f', fifo_alloc malloc n f = Ret (0, f') ∧ n = 2 ^ k ∧ fifo_ok k f' ∧ contents f' = []) ∨
  (malloc n = None ∧ fifo_alloc malloc n f = Ret (-1, Fifo None 0 0 0)).
Proof.
  intros Hm Hn Hp. apply is_power_of_2_spec in Hp as (k & Hk & ->); [| done].
  rewrite fifo_alloc_pow by done. destruct (malloc (2 ^ k)) as [b|] eqn:E; [left | by right].
  eexists k, _. split; [done |]. split; [done |]. split; [| done].
  apply fifo_fresh_ok; [done |]. apply Hm; [lia | done].
Qed.

(** A [malloc] that has memory. *)
Definition zero_malloc (n : Z) : option bytes := Some (replicate (Z.to_nat n) 0).

Lemma zero_malloc_ok : malloc_ok zero_malloc.
Proof. intros n b Hn [= <-]. rewrite length_replicate. lia. Qed.

Lemma fifo_alloc_power_of_two_witness :
  (∃ k f', fifo_alloc zero_malloc 16 sample_fifo = Ret (0, f') ∧ 16 = 2 ^ k ∧ fifo_ok k f' ∧ contents f' = []) ∨
  (zero_malloc 16 = None ∧ fifo_alloc zero_malloc 16 sample_fifo = Ret (-1, Fifo None 0 0 0)).
Proof. apply fifo_alloc_power_of_two; [apply zero_malloc_ok | lia | done]. Defined.

(** Rounding up to a power of two is wrong: for a size that is not a power of two,
    [roundup_pow_of_two] gives at least [2 ^ 17] up to a size of [2 ^ 16], and at most
    [2 ^ 16] above it.  [fifo_alloc] of such a size either takes too much memory or
    succeeds with a fifo that is smaller than asked. *)
Theorem fifo_alloc_rounds_wrong malloc n f :
  0 < n < 2 ^ 32 → is_power_of_2 n = false →
  ∃ sz, roundup_pow_of_two n = Ret sz ∧ sz ≠ 2 ^ Z.log2_up n ∧
    (if n <=? 2 ^ 16 then 2 ^ 17 <= sz else sz <= 2 ^ 16) ∧
    (∀ b, malloc sz = Some b → fifo_alloc malloc n f = Ret (0, Fifo (Some b) sz 0 0)).
Proof.
  intros Hn Hp. assert (3 <= n).
  { assert (n ≠ 1 ∧ n ≠ 2) by (split; intros ->; discriminate Hp). lia. }
  set (L := Z.log2 (n - 1)). assert (0 < L) by (apply Z.log2_pos; lia).
  assert (L < 32) by (apply Z.log2_lt_pow2; lia).
  assert (Hr : roundup_pow_of_two n = Ret (2 ^ (32 - L))).
  { unfold roundup_pow_of_two, clz. rewrite u32_small by lia.
    destruct (Z.eqb_spec (n - 1) 0); [lia |]. fold L.
    destruct (Z.ltb_spec (32 - (L + 1) + 1) 32); [| lia].
    rewrite Z.shiftl_1_l. do 2 f_equal. lia. }
  exists (2 ^ (32 - L)). split; [done |]. split; [| split].
  - rewrite Z.log2_up_eqn by lia. change (Z.pred n) with (n - 1). fold L.
    intros E. apply Z.pow_inj_r in E; lia.
  - destruct (Z.leb_spec n (2 ^ 16)).
    + assert (L < 16) by (apply Z.log2_lt_pow2; lia). apply Z.pow_le_mono_r; lia.
    + assert (16 <= L) by (apply Z.log2_le_pow2; lia). apply Z.pow_le_mono_r; lia.
  - intros b Hb. unfold fifo_alloc, mbind, cmd_bind. rewrite Hp, Hr. simpl. by rewrite Hb.
Qed.

Lemma fifo_alloc_rounds_wrong_witness :
  ∃ sz, roundup_pow_of_two 100000 = Ret sz ∧ sz ≠ 2 ^ Z.log2_up 100000 ∧
    (if 100000 <=? 2 ^ 16 then 2 ^ 17 <= sz else sz <= 2 ^ 16) ∧
    (∀ b, zero_malloc sz = Some b → fifo_alloc zero_malloc 100000 sample_fifo = Ret (0, Fifo (Some b) sz 0 0)).
Proof. apply fifo_alloc_rounds_wrong; [lia | done]. Defined.

(** ** Serialization *)

(** a fifo read back from its serialized form is the fifo that was serialized, in a
    block of its own; the serialized block is the 12-byte header and the ring. *)
Theorem fifo_serialize_roundtrip malloc k f f0 blk1 blk2 :
  malloc_ok malloc → fifo_ok k f →
  malloc (12 + size f) = Some blk1 → malloc (size f) = Some blk2 →
  ∃ s, fifo_serialize malloc f = Ret (12 + size f, Some s) ∧
    fifo_unserialize malloc s f0 = Ret (0, f).
Proof.
  intros Hm [Hk Hsz (b & Hb & Hlb) Hi Ho Hl] M1 M2.
  pose proof (pow_pos k Hk). pose proof (pow_le k Hk). rewrite Hsz in *.
  assert (Hblk : Z.of_nat (length blk2) = 2 ^ k) by (apply Hm; [lia | done]).
  unfold fifo_serialize. rewrite Hsz, Hb, u32_small, M1 by lia.
  rewrite mem_read_Ret by lia. simpl. rewrite drop_0, take_ge by lia.
  eexists; split; [done |].
  unfold fifo_unserialize, mbind, cmd_bind. simpl. rewrite fifo_alloc_pow, M2 by done. simpl.
  unfold lift. rewrite mem_read_Ret by lia. rewrite drop_0, take_ge by lia.
  destruct (mem_write_Ret blk2 0 b) as (b' & -> & _ & E & _); [lia.. |].
  unfold put_st, mret, cmd_ret. rewrite E. simpl. rewrite drop_ge, app_nil_r by lia.
  destruct f; simpl in *; by subst.
Qed.

Lemma fifo_serialize_roundtrip_witness :
  ∃ s, fifo_serialize zero_malloc sample_fifo = Ret (20, Some s) ∧
    fifo_unserialize zero_malloc s (Fifo None 0 0 0) = Ret (0, sample_fifo).
Proof.
  apply (fifo_serialize_roundtrip zero_malloc 3 sample_fifo _ (replicate 20 0) (replicate 8 0));
    [apply zero_malloc_ok | apply sample_fifo_ok | done | done].
Defined.

(** ** Peeking *)

(** [fifo_out_peek] at an offset writes past the caller's buffer: it copies
    [len + offset] bytes where the buffer has [len]. *)
Theorem fifo_out_peek_overflows k f to len offset :
  fifo_ok k f → len = Z.of_nat (length to) → 0 < offset → len + offset <= fifo_len f →
  fifo_out_peek to len offset f = Undef.
Proof.
  intros Hf Hlen Ho Hle. pose proof (fifo_len_range k f Hf).
  destruct Hf as [Hk Hsz (b & Hb & Hlb) _ _ _]. pose proof (pow_le k Hk). pose proof (pow_pos k Hk).
  unfold fifo_out_peek, mbind, cmd_bind, get_st, lift. rewrite u32_small, Z.min_r by lia.
  unfold __fifo_out_data. rewrite (fifo_off_mod k Hk) by done. rewrite Hb, Hsz in *.
  pose proof (Z.mod_pos_bound (out f + offset) (2 ^ k)).
  set (o := (out f + offset) mod 2 ^ k) in *. rewrite (room k Hk) by lia.
  set (l := Z.min (len + offset) (2 ^ k - o)) in *.
  rewrite (mem_read_Ret b o l) by lia. simpl.
  set (s1 := take (Z.to_nat l) (drop (Z.to_nat o) b)).
  assert (Hs1 : length s1 = Z.to_nat l) by (unfold s1; rewrite length_take, length_drop; lia).
  destruct (decide (l <= len)).
  - destruct (mem_write_Ret to 0 s1) as (t & -> & Ht & _); [lia.. |]. simpl.
    rewrite (mem_read_Ret b 0) by lia. simpl. rewrite drop_0.
    unfold mem_write. rewrite length_take.
    destruct (Nat.eqb_spec (Z.to_nat (len + offset - l) `min` length b)%nat 0); [lia |].
    by match goal with |- context [?a <=? ?b] => destruct (Z.leb_spec a b); [lia |] end.
  - unfold mem_write. rewrite Hs1. destruct (Nat.eqb_spec (Z.to_nat l) 0); [lia |].
    by match goal with |- context [?a <=? ?b] => destruct (Z.leb_spec a b); [lia |] end.
Qed.

Lemma fifo_out_peek_overflows_witness :
  fifo_out_peek [0; 0] 2 1 (Fifo (Some [1; 2; 3; 4; 5; 6; 7; 8]) 8 3 0) = Undef.
Proof.
  apply (fifo_out_peek_overflows 3); [| done | lia | vm_compute; discriminate].
  constructor; simpl; try lia; [by eexists | vm_compute; discriminate].
Defined.
