(* ===== verification/EtkList.v ===== *)
(** libetk's kernel-style list: [src/efixo/efixo-libetk/src/include/etk/list.h].

    A [struct list_head] is embedded in its owner; its address stands for both
    ([list_entry] is a cast).  The heap has one map per field: an address without
    an entry is not allocated, and reading or writing through it, through NULL or
    through the poison of a removed entry is undefined.  The iteration macros are
    loops over any store [T] that says how to advance; their fuel bounds the number
    of turns. *)

From stdpp Require Import base tactics list gmap.
From S2P Require Import Prelude.
From S2P Require Import Dll.

Module EtkList.

(** [struct list_head], field by field. *)
Record heap := Heap {
  next : gmap loc ptr;
  prev : gmap loc ptr;
}.

Abbreviation M := (cmd heap).

Definition load_next (p : ptr) : M ptr := λ h, lift (l ← deref p; must (next h !! l)) h.
Definition load_prev (p : ptr) : M ptr := λ h, lift (l ← deref p; must (prev h !! l)) h.

Definition store_next (p v : ptr) : M unit := λ h,
  match p with
  | Ptr l => if next h !! l is Some _ then Ret (tt, Heap (<[l := v]> (next h)) (prev h)) else Undef
  | _ => Undef
  end.

Definition store_prev (p v : ptr) : M unit := λ h,
  match p with
  | Ptr l => if prev h !! l is Some _ then Ret (tt, Heap (next h) (<[l := v]> (prev h))) else Undef
  | _ => Undef
  end.

Definition INIT_LIST_HEAD (list : ptr) : M unit :=
  store_next list list;; store_prev list list.

Definition __list_add (new prev next : ptr) : M unit :=
  store_prev next new;;
  store_next new next;;
  store_prev new prev;;
  store_next prev new.

Definition list_add (new head : ptr) : M unit :=
  n ← load_next head; __list_add new head n.

Definition list_add_tail (new head : ptr) : M unit :=
  p ← load_prev head; __list_add new p head.

Definition __list_del (prev next : ptr) : M unit :=
  store_prev next prev;; store_next prev next.

Definition list_del (entry : ptr) : M unit :=
  p ← load_prev entry; n ← load_next entry;
  __list_del p n;;
  store_next entry Poison1;;
  store_prev entry Poison2.

Definition list_del_init (entry : ptr) : M unit :=
  p ← load_prev entry; n ← load_next entry;
  __list_del p n;;
  INIT_LIST_HEAD entry.

Definition list_replace (old new : ptr) : M unit :=
  n ← load_next old;
  store_next new n;;
  n ← load_next new; store_prev n new;;
  p ← load_prev old;
  store_prev new p;;
  p ← load_prev new; store_next p new.

Definition list_replace_init (old new : ptr) : M unit :=
  list_replace old new;; INIT_LIST_HEAD old.

(** A local [struct list_head], gone when the block is left. *)
Definition with_local {A} (body : ptr → M A) : M A := λ h,
  let t := fresh (dom (next h) ∪ dom (prev h)) in
  match body (Ptr t) (Heap (<[t := Null]> (next h)) (<[t := Null]> (prev h))) with
  | Ret (a, h') => Ret (a, Heap (delete t (next h')) (delete t (prev h')))
  | Undef => Undef
  | Abort => Abort
  | NoFuel => NoFuel
  end.

Definition list_swap (a b : ptr) : M unit :=
  n ← load_next a;
  if decide (n = b) then list_replace a b;; list_add b a
  else
    p ← load_prev a;
    if decide (p = b) then list_replace b a;; list_add a b
    else
      with_local (λ tmp,
        n ← load_next b; store_next tmp n;;
        p ← load_prev b; store_prev tmp p;;
        list_replace a b;;
        list_replace tmp a).

Definition list_move (list head : ptr) : M unit :=
  p ← load_prev list; n ← load_next list;
  __list_del p n;;
  list_add list head.

Definition list_move_tail (list head : ptr) : M unit :=
  p ← load_prev list; n ← load_next list;
  __list_del p n;;
  list_add_tail list head.

Definition list_is_last (list head : ptr) : M bool :=
  n ← load_next list; mret (bool_decide (n = head)).

Definition list_empty (head : ptr) : M bool :=
  n ← load_next head; mret (bool_decide (n = head)).

Definition __list_splice (list head : ptr) : M unit :=
  first ← load_next list;
  last ← load_prev list;
  at_ ← load_next head;
  store_prev first head;;
  store_next head first;;
  store_next last at_;;
  store_prev at_ last.

Definition list_splice (list head : ptr) : M unit :=
  e ← list_empty list;
  if e : bool then mret tt else __list_splice list head.

Definition list_splice_init (list head : ptr) : M unit :=
  e ← list_empty list;
  if e : bool then mret tt else __list_splice list head;; INIT_LIST_HEAD list.

(** *** Iteration

    [adv] reads the next entry, [next] or [prev]; [put] assigns the loop variable,
    which may live in the store.  A body answers [inl] to go on and [inr] to leave
    the loop. *)
Section iteration.
Context {T A : Type} (adv : ptr → cmd T ptr) (put : ptr → cmd T unit).
Context (body : ptr → A → cmd T (A + A)).

(** [list_for_each_entry_from]: from the current entry. *)
Fixpoint list_for_each_from (fuel : nat) (pos head : ptr) (acc : A) : cmd T A :=
  match fuel with
  | O => λ _, NoFuel
  | S f =>
      if decide (pos = head) then mret acc
      else
        r ← body pos acc;
        match r with
        | inr a => mret a
        | inl a => n ← adv pos; put n;; list_for_each_from f n head a
        end
  end.

(** [list_for_each], [list_for_each_prev] and their entry forms, and
    [list_for_each_entry_continue] when [start] is an entry. *)
Definition list_for_each (fuel : nat) (start head : ptr) (acc : A) : cmd T A :=
  p ← adv start; put p;; list_for_each_from fuel p head acc.

(** [list_for_each_entry_safe_from]: the next entry is read before the body runs. *)
Fixpoint list_for_each_safe_from (fuel : nat) (pos n head : ptr) (acc : A) : cmd T A :=
  match fuel with
  | O => λ _, NoFuel
  | S f =>
      if decide (pos = head) then mret acc
      else
        r ← body pos acc;
        match r with
        | inr a => mret a
        | inl a => put n;; n' ← adv n; list_for_each_safe_from f n n' head a
        end
  end.

Definition list_for_each_safe (fuel : nat) (start head : ptr) (acc : A) : cmd T A :=
  p ← adv start; put p;; n ← adv p; list_for_each_safe_from fuel p n head acc.

End iteration.

End EtkList.
