(* ===== verification/EtkListProofs.v ===== *)
(** libetk's list refines a set of sequences.

    The abstract state is a finite map from heads to sequences of entries and a set
    of cells that are allocated but on no list.  [rep] relates it to the heap; each
    operation of the header is a total function on the abstract state where the
    caller keeps its side of the contract, and the refinement holds for any sequence
    of operations over any number of lists. *)

From stdpp Require Import base tactics list gmap.
From S2P Require Import Prelude.
From S2P Require Import Dll.
From S2P Require Import EtkList.
Import EtkList.

(** ** The abstract state *)
Record lists := Lists {
  on : gmap loc (list loc);      (* head, entries *)
  off : gset loc;                (* cells on no list *)
}.

Definition cells (r : loc) (ns : list loc) : list loc := r :: ns.

(** [x] is an entry of some list. *)
Definition entry (s : lists) (x : loc) : Prop := map_Exists (λ _ ns, x ∈ ns) (on s).

#[export] Instance entry_dec s x : Decision (entry s x).
Proof. unfold entry. apply _. Defined.

(** Two entries that follow each other, in either order. *)
Fixpoint adjacent (a b : loc) (ns : list loc) : bool :=
  match ns with
  | x :: ((y :: _) as tl) =>
      bool_decide (x = a ∧ y = b ∨ x = b ∧ y = a) || adjacent a b tl
  | _ => false
  end.

Definition ren (o n x : loc) : loc := if decide (x = o) then n else x.
Definition swp (a b x : loc) : loc :=
  if decide (x = a) then b else if decide (x = b) then a else x.

(** ** The operations *)
Inductive op :=
| Init (r : loc)
| Add (x r : loc)
| AddTail (x r : loc)
| Del (x : loc)
| DelInit (x : loc)
| Replace (x y : loc)
| ReplaceInit (x y : loc)
| Swap (a b : loc)
| Move (x r : loc)
| MoveTail (x r : loc)
| Splice (r1 r2 : loc)
| SpliceInit (r1 r2 : loc).

Definition exec (o : op) : M unit :=
  match o with
  | Init r => INIT_LIST_HEAD (Ptr r)
  | Add x r => list_add (Ptr x) (Ptr r)
  | AddTail x r => list_add_tail (Ptr x) (Ptr r)
  | Del x => list_del (Ptr x)
  | DelInit x => list_del_init (Ptr x)
  | Replace x y => list_replace (Ptr x) (Ptr y)
  | ReplaceInit x y => list_replace_init (Ptr x) (Ptr y)
  | Swap a b => list_swap (Ptr a) (Ptr b)
  | Move x r => list_move (Ptr x) (Ptr r)
  | MoveTail x r => list_move_tail (Ptr x) (Ptr r)
  | Splice r1 r2 => list_splice (Ptr r1) (Ptr r2)
  | SpliceInit r1 r2 => list_splice_init (Ptr r1) (Ptr r2)
  end.

Fixpoint exec_all (os : list op) : M unit :=
  match os with
  | [] => mret tt
  | o :: os => exec o;; exec_all os
  end.

Definition without (x : loc) (m : gmap loc (list loc)) : gmap loc (list loc) :=
  filter (λ y, y ≠ x) <$> m.

Definition s_init (r : loc) (s : lists) : option lists :=
  if decide (r ∈ off s) then Some (Lists (<[r := []]> (on s)) (off s ∖ {[r]})) else None.

Definition s_add (f : loc → list loc → list loc) (x r : loc) (s : lists) : option lists :=
  ns ← on s !! r;
  if decide (x ∈ off s) then Some (Lists (<[r := f x ns]> (on s)) (off s ∖ {[x]})) else None.

Definition s_del (x : loc) (s : lists) : option lists :=
  if decide (entry s x) then Some (Lists (without x (on s)) (off s ∪ {[x]})) else None.

(** An entry, or a head, gives its place to a cell that is on no list. *)
Definition s_replace (x y : loc) (s : lists) : option lists :=
  if decide (y ∈ off s) then
    if decide (entry s x) then Some (Lists (fmap (M:=list) (ren x y) <$> on s) (off s ∖ {[y]} ∪ {[x]}))
    else
      ns ← on s !! x;
      Some (Lists (<[y := ns]> (delete x (on s))) (off s ∖ {[y]} ∪ {[x]}))
  else None.

Definition s_swap (a b : loc) (s : lists) : option lists :=
  if decide (entry s a ∧ entry s b ∧ a ≠ b ∧ map_Forall (λ _ ns, adjacent a b ns = false) (on s))
  then Some (Lists (fmap (M:=list) (swp a b) <$> on s) (off s)) else None.

Definition s_splice (r1 r2 : loc) (s : lists) : option lists :=
  l1 ← on s !! r1; l2 ← on s !! r2;
  if decide (r1 = r2) then None
  else if decide (l1 = []) then Some s
  else Some (Lists (<[r2 := l1 ++ l2]> (delete r1 (on s))) (off s ∪ {[r1]})).

Definition snoc (x : loc) (ns : list loc) : list loc := ns ++ [x].

Definition spec (o : op) (s : lists) : option lists :=
  match o with
  | Init r => s_init r s
  | Add x r => s_add cons x r s
  | AddTail x r => s_add snoc x r s
  | Del x => s_del x s
  | DelInit x => s ← s_del x s; s_init x s
  | Replace x y => s_replace x y s
  | ReplaceInit x y => s ← s_replace x y s; s_init x s
  | Swap a b => s_swap a b s
  | Move x r => s ← s_del x s; s_add cons x r s
  | MoveTail x r => s ← s_del x s; s_add snoc x r s
  | Splice r1 r2 => s_splice r1 r2 s
  | SpliceInit r1 r2 =>
      s' ← s_splice r1 r2 s;
      if decide (on s !! r1 = Some []) then Some s' else s_init r1 s'
  end.

Fixpoint spec_all (os : list op) (s : lists) : option lists :=
  match os with
  | [] => Some s
  | o :: os => s ← spec o s; spec_all os s
  end.

(** ** Representation *)
Definition alloc (h : heap) (x : loc) : Prop := is_Some (next h !! x) ∧ is_Some (prev h !! x).

Definition ring (h : heap) (r : loc) (ns : list loc) : Prop := is_dll (next h) (prev h) r ns.

Record rep (h : heap) (s : lists) : Prop := {
  rep_ring r ns : on s !! r = Some ns → ring h r ns;
  rep_disj r1 n1 r2 n2 x :
    on s !! r1 = Some n1 → on s !! r2 = Some n2 →
    x ∈ cells r1 n1 → x ∈ cells r2 n2 → r1 = r2;
  rep_alloc x : x ∈ off s → alloc h x;
  rep_off x r ns : x ∈ off s → on s !! r = Some ns → x ∉ cells r ns;
}.

(** [h'] differs from [h] only in fields of the cells of [X], and frees nothing. *)
Definition keeps (X : list loc) (h h' : heap) : Prop :=
  (∀ x, x ∉ X → next h' !! x = next h !! x ∧ prev h' !! x = prev h !! x) ∧
  (∀ x, alloc h x → alloc h' x).

Lemma ring_keeps X h h' r ns :
  keeps X h h' → (∀ x, x ∈ cells r ns → x ∉ X) → ring h r ns → ring h' r ns.
Proof. intros [Hk _] HX. apply is_dll_ext. intros x Hx. by apply Hk, HX. Qed.

Lemma ring_alloc h r ns x : ring h r ns → x ∈ cells r ns → alloc h x.
Proof. apply is_dll_alloc. Qed.

(** The rings outside [m], with cells [C], become one ring; the cells it gains come
    from [off], the cells it loses may go there. *)
Lemma rep_change h h' s m (C X : list loc) r' ns' (off' : gset loc) :
  rep h s → m ⊆ on s →
  (∀ r ns x, m !! r = Some ns → x ∈ cells r ns → x ∉ C) → (∀ x, x ∈ C → alloc h x) →
  keeps X h h' → ring h' r' ns' →
  (∀ x, x ∈ X → x ∈ C ∨ x ∈ off s) →
  (∀ x, x ∈ cells r' ns' → x ∈ C ∨ x ∈ off s) →
  (∀ x, x ∈ off' → (x ∈ C ∨ x ∈ off s) ∧ x ∉ cells r' ns') →
  rep h' (Lists (<[r' := ns']> m) off').
Proof.
  intros Hrep Hm HC HCa Hk Hring HX Hin Hoff.
  assert (∀ r ns, m !! r = Some ns → on s !! r = Some ns) as Hms.
  { intros r ns Hr. by eapply lookup_weaken. }
  assert (∀ r ns x, m !! r = Some ns → x ∈ cells r ns → ¬ (x ∈ C ∨ x ∈ off s)) as Hother.
  { intros r ns x Hr Hx [Hx'|Hx']; [by eapply HC|]. by eapply (rep_off _ _ Hrep); [|apply Hms|]. }
  assert (∀ r ns, <[r' := ns']> m !! r = Some ns → (r = r' ∧ ns = ns') ∨ m !! r = Some ns) as Hinv.
  { intros r ns. rewrite lookup_insert. case_decide; naive_solver. }
  split; simpl.
  - intros r ns [[-> ->]|Hr]%Hinv; [done|].
    eapply ring_keeps; [done| |by eapply rep_ring, Hms].
    intros x Hx HXx. by eapply (Hother r ns x), HX.
  - intros r1 n1 r2 n2 x [[-> ->]|H1]%Hinv [[-> ->]|H2]%Hinv Hx1 Hx2; [done|..].
    + exfalso. by eapply (Hother r2 n2 x), Hin.
    + exfalso. by eapply (Hother r1 n1 x), Hin.
    + by eapply (rep_disj _ _ Hrep); [by apply Hms|by apply Hms|..].
  - intros x [Hx _]%Hoff. apply Hk. destruct Hx as [Hx|Hx]; [by apply HCa|by eapply rep_alloc].
  - intros x r ns [Hx Hx']%Hoff [[-> ->]|Hr]%Hinv; [done|]. intros Hx2. by eapply (Hother r ns x).
Qed.

(** One ring becomes another. *)
Lemma rep_change1 h h' s r ns (X : list loc) r' ns' (off' : gset loc) :
  rep h s → on s !! r = Some ns → keeps X h h' → ring h' r' ns' →
  (∀ x, x ∈ X → x ∈ cells r ns ∨ x ∈ off s) →
  (∀ x, x ∈ cells r' ns' → x ∈ cells r ns ∨ x ∈ off s) →
  (∀ x, x ∈ off' → (x ∈ cells r ns ∨ x ∈ off s) ∧ x ∉ cells r' ns') →
  rep h' (Lists (<[r' := ns']> (delete r (on s))) off').
Proof.
  intros Hrep Hr. apply (rep_change h h' s _ (cells r ns)); [done|apply delete_subseteq|..].
  - intros r2 n2 x [Hne H2]%lookup_delete_Some Hx Hx'. apply Hne.
    by eapply (rep_disj _ _ Hrep).
  - intros x Hx. eapply ring_alloc; [by eapply rep_ring|done].
Qed.

(** ** Running the accesses *)
Lemma link_next_ok h l p : next h !! l = Some p → load_next (Ptr l) h = Ret (p, h).
Proof. intros E. unfold load_next. simpl. by rewrite E. Qed.

Lemma link_prev_ok h l p : prev h !! l = Some p → load_prev (Ptr l) h = Ret (p, h).
Proof. intros E. unfold load_prev. simpl. by rewrite E. Qed.

Lemma set_next_ok h l v :
  is_Some (next h !! l) → store_next (Ptr l) v h = Ret (tt, Heap (<[l := v]> (next h)) (prev h)).
Proof. intros [p E]. unfold store_next. by rewrite E. Qed.

Lemma set_prev_ok h l v :
  is_Some (prev h !! l) → store_prev (Ptr l) v h = Ret (tt, Heap (next h) (<[l := v]> (prev h))).
Proof. intros [p E]. unfold store_prev. by rewrite E. Qed.

Lemma is_Some_insert {A} (m : gmap loc A) i j v :
  is_Some (m !! j) → is_Some (<[i := v]> m !! j).
Proof. intros H. rewrite lookup_insert. case_decide; [eauto|done]. Qed.

Create HintDb links discriminated.
#[export] Hint Resolve is_Some_insert : links.

Ltac side :=
  cbn [next prev];
  first [by rewrite lookup_insert_eq | by rewrite lookup_insert_ne by done | by eauto 10 with links].
Ltac step_with L := erewrite cmd_bind_Ret; [|apply L; side].

(** ** The surgeries as heap transformers *)
Definition ins (a b n : loc) (h : heap) : heap :=
  Heap (<[a := Ptr n]> (<[n := Ptr b]> (next h))) (<[n := Ptr a]> (<[b := Ptr n]> (prev h))).

Definition cut (a b : loc) (h : heap) : heap :=
  Heap (<[a := Ptr b]> (next h)) (<[b := Ptr a]> (prev h)).

Definition set_cell (x : loc) (p q : ptr) (h : heap) : heap :=
  Heap (<[x := p]> (next h)) (<[x := q]> (prev h)).

Lemma __list_add_ok h n a b :
  alloc h n → alloc h a → alloc h b →
  __list_add (Ptr n) (Ptr a) (Ptr b) h = Ret (tt, ins a b n h).
Proof.
  intros [??] [??] [??]. unfold __list_add.
  step_with set_prev_ok. step_with set_next_ok. step_with set_prev_ok.
  by rewrite set_next_ok by side.
Qed.

Lemma __list_del_ok h a b :
  alloc h a → alloc h b → __list_del (Ptr a) (Ptr b) h = Ret (tt, cut a b h).
Proof.
  intros [??] [??]. unfold __list_del. step_with set_prev_ok.
  by rewrite set_next_ok by side.
Qed.

Lemma INIT_LIST_HEAD_ok h r :
  alloc h r → INIT_LIST_HEAD (Ptr r) h = Ret (tt, set_cell r (Ptr r) (Ptr r) h).
Proof.
  intros [??]. unfold INIT_LIST_HEAD. step_with set_next_ok.
  by rewrite set_prev_ok by side.
Qed.

Lemma keeps_refl X h : keeps X h h.
Proof. by split. Qed.

Lemma keeps_trans X h1 h2 h3 : keeps X h1 h2 → keeps X h2 h3 → keeps X h1 h3.
Proof.
  intros [H1 A1] [H2 A2]. split; [|by eauto].
  intros x Hx. destruct (H1 x Hx) as [<- <-]. by apply H2.
Qed.

Lemma keeps_upd X h x y p q :
  x ∈ X → y ∈ X → keeps X h (Heap (<[x := p]> (next h)) (<[y := q]> (prev h))).
Proof.
  intros Hx Hy. split; simpl.
  - intros z Hz. rewrite !lookup_insert_ne by (intros ->; done). done.
  - intros z [??]. split; simpl; auto with links.
Qed.

Lemma keeps_mono X Y h h' : (∀ x, x ∈ X → x ∈ Y) → keeps X h h' → keeps Y h h'.
Proof. intros HXY [H1 H2]. split; [|done]. intros x Hx. apply H1. naive_solver. Qed.

Lemma keeps_set_cell X h x p q : x ∈ X → keeps X h (set_cell x p q h).
Proof. intros Hx. by apply keeps_upd. Qed.

Lemma keeps_cut X h a b : a ∈ X → b ∈ X → keeps X h (cut a b h).
Proof. intros. by apply keeps_upd. Qed.

Lemma keeps_ins X h a b n : a ∈ X → b ∈ X → n ∈ X → keeps X h (ins a b n h).
Proof.
  intros Ha Hb Hn. eapply keeps_trans; [apply (keeps_upd X h n b (Ptr b) (Ptr n)); done|].
  by apply (keeps_upd X (Heap _ _) a n).
Qed.

(** The neighbours of a place in a ring. *)
Definition before (r : loc) (l : list loc) : loc := default r (last l).
Definition after (r : loc) (l : list loc) : loc := default r (head l).

Lemma before_in r l : before r l ∈ cells r l.
Proof.
  unfold before, cells. destruct (last l) as [x|] eqn:E; [|by left].
  apply last_Some in E as [l' ->]. simpl. set_solver.
Qed.

Lemma after_in r l : after r l ∈ cells r l.
Proof. unfold after, cells. destruct l; simpl; set_solver. Qed.

Lemma cells_split r l1 l2 :
  ∃ P Q, r :: l1 = P ++ [before r l1] ∧ l2 ++ [r] = after r l2 :: Q.
Proof.
  assert (∃ P, r :: l1 = P ++ [before r l1]) as [P HP].
  { unfold before. destruct l1 as [|x l1 _] using rev_ind; [by exists []|].
    rewrite last_snoc. by exists (r :: l1). }
  assert (∃ Q, l2 ++ [r] = after r l2 :: Q) as [Q HQ].
  { unfold after. destruct l2 as [|x l2]; simpl; [by exists []|]. by exists (l2 ++ [r]). }
  by exists P, Q.
Qed.

Lemma ring_insert h r l1 l2 n :
  ring h r (l1 ++ l2) → n ∉ cells r (l1 ++ l2) →
  ring (ins (before r l1) (after r l2) n h) r (l1 ++ n :: l2).
Proof.
  intros [Hnd Hc] Hn. destruct (cells_split r l1 l2) as (P & Q & HP & HQ).
  set (a := before r l1) in *. set (b := after r l2) in *.
  assert (r :: (l1 ++ l2) ++ [r] = P ++ a :: b :: Q) as E.
  { rewrite <- app_assoc, HQ. change (r :: l1 ++ b :: Q) with ((r :: l1) ++ b :: Q).
    by rewrite HP, <- app_assoc. }
  assert (r :: (l1 ++ n :: l2) ++ [r] = P ++ a :: n :: b :: Q) as E'.
  { rewrite <- app_assoc. cbn [app]. rewrite HQ.
    change (r :: l1 ++ n :: b :: Q) with ((r :: l1) ++ n :: b :: Q). by rewrite HP, <- app_assoc. }
  assert (b ≠ n) as Hbn.
  { intros <-. apply Hn. pose proof (after_in r l2) as Hb. unfold cells in *. fold b in Hb. set_solver. }
  split.
  - assert (r :: l1 ++ n :: l2 ≡ₚ n :: r :: l1 ++ l2) as -> by solve_Permutation.
    by apply NoDup_cons.
  - rewrite E'. rewrite E in Hc. cbn [ins next prev]. rewrite (insert_insert_ne (prev h) n b) by done.
    by eapply chain_insert.
Qed.

Lemma ring_place h r l1 x l2 :
  ring h r (l1 ++ x :: l2) →
  next h !! x = Some (Ptr (after r l2)) ∧ prev h !! x = Some (Ptr (before r l1)).
Proof.
  intros Hr. destruct (cells_split r l1 l2) as (P & Q & HP & HQ).
  assert (r :: (l1 ++ x :: l2) ++ [r] = P ++ before r l1 :: x :: after r l2 :: Q) as E.
  { rewrite <- app_assoc. cbn [app]. rewrite HQ.
    change (r :: l1 ++ x :: after r l2 :: Q) with ((r :: l1) ++ x :: after r l2 :: Q).
    by rewrite HP, <- app_assoc. }
  split.
  - change (P ++ before r l1 :: x :: after r l2 :: Q)
      with (P ++ [before r l1] ++ x :: after r l2 :: Q) in E. rewrite app_assoc in E.
    by destruct (is_dll_next _ _ _ _ _ _ _ _ Hr E).
  - by destruct (is_dll_next _ _ _ _ _ _ _ _ Hr E).
Qed.

Lemma ring_remove h r l1 x l2 :
  ring h r (l1 ++ x :: l2) → ring (cut (before r l1) (after r l2) h) r (l1 ++ l2).
Proof.
  intros [Hnd Hc]. destruct (cells_split r l1 l2) as (P & Q & HP & HQ).
  set (a := before r l1) in *. set (b := after r l2) in *.
  assert (r :: (l1 ++ l2) ++ [r] = P ++ a :: b :: Q) as E.
  { rewrite <- app_assoc, HQ. change (r :: l1 ++ b :: Q) with ((r :: l1) ++ b :: Q).
    by rewrite HP, <- app_assoc. }
  assert (r :: (l1 ++ x :: l2) ++ [r] = P ++ a :: x :: b :: Q) as E'.
  { rewrite <- app_assoc. cbn [app]. rewrite HQ.
    change (r :: l1 ++ x :: b :: Q) with ((r :: l1) ++ x :: b :: Q). by rewrite HP, <- app_assoc. }
  split.
  - assert (r :: l1 ++ x :: l2 ≡ₚ x :: r :: l1 ++ l2) as Hp by solve_Permutation.
    rewrite Hp in Hnd. by apply NoDup_cons in Hnd as [_ Hnd].
  - rewrite E. rewrite E' in Hc. by eapply chain_remove.
Qed.

Lemma list_replace_run h o y f g :
  next h !! o = Some (Ptr f) → prev h !! o = Some (Ptr g) → f ≠ o → y ≠ o →
  alloc h y → alloc h f → alloc h g →
  list_replace (Ptr o) (Ptr y) h = Ret (tt, ins g f y h).
Proof.
  intros Hn Hp Hf Hy [??] [??] [??]. unfold list_replace.
  step_with link_next_ok. step_with set_next_ok.
  step_with link_next_ok. step_with set_prev_ok.
  step_with link_prev_ok. step_with set_prev_ok.
  step_with link_prev_ok.
  by rewrite set_next_ok by side.
Qed.

(** The head of an empty list. *)
Lemma list_replace_run_empty h o y :
  next h !! o = Some (Ptr o) → y ≠ o → alloc h y → alloc h o →
  list_replace (Ptr o) (Ptr y) h =
  Ret (tt, Heap (<[y := Ptr y]> (<[y := Ptr o]> (next h))) (<[y := Ptr y]> (<[o := Ptr y]> (prev h)))).
Proof.
  intros Hn Hy [??] [??]. unfold list_replace.
  step_with link_next_ok. step_with set_next_ok.
  step_with link_next_ok. step_with set_prev_ok.
  step_with link_prev_ok. step_with set_prev_ok.
  step_with link_prev_ok.
  by rewrite set_next_ok by side.
Qed.

Lemma ends_of l : l ≠ [] → ∃ f g : loc, head l = Some f ∧ last l = Some g ∧ f ∈ l ∧ g ∈ l.
Proof.
  intros Hl. destruct l as [|f l] using list_ind; [done|].
  destruct (last (f :: l)) as [g|] eqn:E; [|by apply last_None in E].
  exists f, g. split_and!; [done|done|by left|]. apply last_Some in E as [l' ->]. set_solver.
Qed.

Lemma ring_replace h o y l :
  l ≠ [] → ring h o l → y ∉ cells o l → ring (ins (before o l) (after o l) y h) y l.
Proof.
  intros Hl [Hnd Hc] Hy. destruct (ends_of l Hl) as (f & g & Hf & Hg & Hfl & Hgl).
  unfold before, after, ring. rewrite Hf, Hg. cbn [default]. unfold cells in Hy.
  assert (f ≠ y ∧ g ≠ y) as [Hfy Hgy] by set_solver.
  apply (is_dll_close _ _ _ _ f g); try done; cbn [ins next prev].
  - apply NoDup_cons in Hnd as [_ Hnd]. apply NoDup_cons. split; [set_solver|done].
  - eapply chain_inner; [exact Hnd|exact Hc|..]; cbn.
    + intros x Hx Hxg. rewrite !lookup_insert_ne; [done|set_solver|]. intros ->. by rewrite Hg in Hxg.
    + intros x Hx Hxf. rewrite !lookup_insert_ne; [done| |set_solver]. intros ->. by rewrite Hf in Hxf.
  - split; [by rewrite lookup_insert_ne, lookup_insert_eq|].
    by rewrite lookup_insert_ne, lookup_insert_eq.
  - split; by rewrite lookup_insert_eq.
Qed.

Lemma ring_alloc_nbrs h o l : ring h o l → alloc h (before o l) ∧ alloc h (after o l).
Proof. intros Hr. split; (eapply ring_alloc; [done|]); [apply before_in|apply after_in]. Qed.

(** A cell takes the place of the root of a ring. *)
Lemma list_replace_ok h o y l :
  ring h o l → alloc h y → y ∉ cells o l →
  ∃ h', list_replace (Ptr o) (Ptr y) h = Ret (tt, h') ∧ ring h' y l ∧ keeps (y :: cells o l) h h' ∧
    (l ≠ [] → h' = ins (before o l) (after o l) y h).
Proof.
  intros Hr Hy Hin. destruct (is_dll_root _ _ _ _ Hr) as [En Ep].
  assert (y ≠ o) as Hyo by (unfold cells in Hin; set_solver).
  destruct (decide (l = [])) as [->|Hl].
  - eexists. rewrite list_replace_run_empty; [|done|done|done|by eapply ring_alloc; [|left]].
    split_and!; [done| | |done].
    + split; [apply NoDup_singleton|]. cbn. split; [|done]. split; by rewrite lookup_insert_eq.
    + eapply keeps_trans; [apply (keeps_upd _ h y o (Ptr o) (Ptr y)); set_solver|].
      apply (keeps_upd _ (Heap _ _) y y (Ptr y) (Ptr y)); set_solver.
  - exists (ins (before o l) (after o l) y h). destruct (ring_alloc_nbrs _ _ _ Hr).
    destruct (ends_of l Hl) as (f & g & Hf & Hg & Hfl & Hgl). split_and!; [|by apply ring_replace| |done].
    + apply list_replace_run; try done. unfold after. rewrite Hf. simpl. intros ->.
      destruct Hr as [Hnd _]. by apply NoDup_cons in Hnd as [? _].
    + apply keeps_ins; [right; apply before_in|right; apply after_in|by left].
Qed.

Definition spliced (r2 f g at_ : loc) (h : heap) : heap :=
  Heap (<[g := Ptr at_]> (<[r2 := Ptr f]> (next h))) (<[at_ := Ptr g]> (<[f := Ptr r2]> (prev h))).

Lemma ring_splice h r1 l1 r2 l2 f g :
  ring h r1 l1 → ring h r2 l2 → head l1 = Some f → last l1 = Some g →
  (∀ x, x ∈ cells r1 l1 → x ∉ cells r2 l2) →
  ring (spliced r2 f g (after r2 l2) h) r2 (l1 ++ l2).
Proof.
  intros [Hnd1 Hc1] [Hnd2 Hc2] Hf Hg Hdisj. unfold cells in Hdisj.
  destruct (cells_split r2 l1 l2) as (_ & Q & _ & HQ). pose proof (after_in r2 l2) as Hb.
  set (b := after r2 l2) in *. unfold cells in Hb.
  assert (f ∈ l1 ∧ g ∈ l1) as [Hfl Hgl].
  { destruct (ends_of l1) as (f' & g' & ? & ? & ? & ?); [by intros ->|]. split; congruence. }
  assert (b ≠ f) as Hbf by (intros ->; apply (Hdisj f); set_solver).
  assert (g ≠ r2) as Hgr by (intros ->; apply (Hdisj r2); set_solver).
  pose proof (proj1 (last_Some _ _) Hg) as [l1' Hl1].
  assert (r2 :: (l1 ++ l2) ++ [r2] = (r2 :: l1') ++ g :: b :: Q) as E.
  { rewrite <- app_assoc, HQ. by rewrite Hl1, <- !app_assoc. }
  split.
  - apply NoDup_cons in Hnd1 as [_ Hnd1]. apply NoDup_cons in Hnd2 as [Hr2 Hnd2]. apply NoDup_cons.
    split; [set_solver|]. apply NoDup_app. split_and!; [done|set_solver|done].
  - rewrite E. apply chain_mid. cbn [spliced next prev]. split_and!.
    + replace ((r2 :: l1') ++ [g]) with (r2 :: l1) by by rewrite Hl1.
      destruct l1 as [|f' l1]; [done|]. injection Hf as ->. rewrite chain_cons2. split.
      * split; [by rewrite lookup_insert_ne, lookup_insert_eq|].
        by rewrite lookup_insert_ne, lookup_insert_eq.
      * eapply chain_inner; [exact Hnd1|exact Hc1|..]; cbn [spliced next prev].
        -- intros x Hx Hxg. rewrite Hg in Hxg. rewrite !lookup_insert_ne; [done| |congruence].
           intros ->. apply (Hdisj x); set_solver.
        -- intros x Hx Hxf. rewrite !lookup_insert_ne; [done|simpl in Hxf; congruence|].
           intros Hbx. apply (Hdisj b); set_solver.
    + split; by rewrite lookup_insert_eq.
    + assert (chain (next h) (prev h) (b :: Q)) as HcQ.
      { rewrite HQ in Hc2. clear -Hc2. by destruct Hc2. }
      assert (NoDup (b :: Q)) as HndQ.
      { rewrite <- HQ. assert (l2 ++ [r2] ≡ₚ r2 :: l2) as -> by solve_Permutation. done. }
      eapply chain_ext; [| |exact HcQ].
      * intros x Hx. rewrite <- HQ, sources_snoc in Hx. rewrite !lookup_insert_ne; [done|..].
        -- intros ->. by apply NoDup_cons in Hnd2 as [? _].
        -- intros ->. apply (Hdisj x); set_solver.
      * intros x Hx. unfold targets in Hx. simpl in Hx. apply NoDup_cons in HndQ as [HbQ _].
        assert (x ∈ l2 ++ [r2]) as Hx2 by (rewrite HQ; by right).
        rewrite !lookup_insert_ne; [done| |by intros ->]. intros ->. apply (Hdisj x); set_solver.
Qed.

(** ** One operation *)
Lemma INIT_LIST_HEAD_sim h s s' r :
  rep h s → s_init r s = Some s' → ∃ h', INIT_LIST_HEAD (Ptr r) h = Ret (tt, h') ∧ rep h' s'.
Proof.
  intros Hrep E. unfold s_init in E. case_decide as Hr; [|done]. simplify_eq.
  rewrite INIT_LIST_HEAD_ok by by eapply rep_alloc. eexists. split; [done|].
  apply (rep_change h _ s _ [] [r]); [done|done|..].
  - intros ??? _ _. apply not_elem_of_nil.
  - by intros x ?%elem_of_nil.
  - by apply keeps_set_cell; left.
  - split; [apply NoDup_singleton|]. cbn. split; [|done]. split; by rewrite lookup_insert_eq.
  - intros x ->%list_elem_of_singleton. by right.
  - intros x ->%list_elem_of_singleton. by right.
  - intros x [? ?]%elem_of_difference. unfold cells. split; [by right|]. set_solver.
Qed.

Lemma rep_set_off h s x p q : rep h s → x ∈ off s → rep (set_cell x p q h) s.
Proof.
  intros Hrep Hx. assert (keeps [x] h (set_cell x p q h)) as Hk by by apply keeps_set_cell; left.
  split; [|apply (rep_disj _ _ Hrep)| |apply (rep_off _ _ Hrep)].
  - intros r ns Hr. eapply ring_keeps; [done| |by eapply rep_ring].
    intros y Hy ->%list_elem_of_singleton. by eapply (rep_off _ _ Hrep).
  - intros y Hy. by apply Hk, (rep_alloc _ _ Hrep).
Qed.

(** A cell goes in between two neighbours of a ring. *)
Lemma lists_insert h s r l1 l2 x :
  rep h s → on s !! r = Some (l1 ++ l2) → x ∈ off s →
  rep (ins (before r l1) (after r l2) x h) (Lists (<[r := l1 ++ x :: l2]> (on s)) (off s ∖ {[x]})) ∧
  __list_add (Ptr x) (Ptr (before r l1)) (Ptr (after r l2)) h =
  Ret (tt, ins (before r l1) (after r l2) x h).
Proof.
  intros Hrep Hr Hx. pose proof (rep_ring _ _ Hrep _ _ Hr) as Hring.
  pose proof (rep_off _ _ Hrep _ _ _ Hx Hr) as Hx'.
  assert (before r l1 ∈ cells r (l1 ++ l2)) as Hb.
  { pose proof (before_in r l1). unfold cells in *. set_solver. }
  assert (after r l2 ∈ cells r (l1 ++ l2)) as Ha.
  { pose proof (after_in r l2). unfold cells in *. set_solver. }
  split.
  - rewrite <- insert_delete_eq.
    apply (rep_change1 h _ s r (l1 ++ l2) (x :: cells r (l1 ++ l2))); [done|done|..].
    + apply keeps_ins; [by right|by right|by left].
    + by apply ring_insert.
    + intros y [->|Hy]%elem_of_cons; auto.
    + unfold cells. set_solver.
    + intros y [Hy Hne]%elem_of_difference. pose proof (rep_off _ _ Hrep _ _ _ Hy Hr).
      unfold cells in *. set_solver.
  - apply __list_add_ok; [by eapply rep_alloc|by eapply ring_alloc..].
Qed.

Lemma list_add_sim h s s' x r :
  rep h s → s_add cons x r s = Some s' →
  ∃ h', list_add (Ptr x) (Ptr r) h = Ret (tt, h') ∧ rep h' s'.
Proof.
  intros Hrep E. unfold s_add in E. destruct (on s !! r) as [ns|] eqn:Hr; [|done]. cbn in E.
  case_decide as Hx; [|done]. simplify_eq. destruct (lists_insert h s r [] ns x Hrep Hr Hx) as [H1 H2].
  eexists. split; [|exact H1]. unfold list_add.
  destruct (is_dll_root _ _ _ _ (rep_ring _ _ Hrep _ _ Hr)) as [En _].
  erewrite cmd_bind_Ret; [|by apply link_next_ok]. exact H2.
Qed.

Lemma list_add_tail_sim h s s' x r :
  rep h s → s_add snoc x r s = Some s' →
  ∃ h', list_add_tail (Ptr x) (Ptr r) h = Ret (tt, h') ∧ rep h' s'.
Proof.
  intros Hrep E. unfold s_add in E. destruct (on s !! r) as [ns|] eqn:Hr; [|done]. cbn in E.
  case_decide as Hx; [|done]. simplify_eq. rewrite <- (app_nil_r ns) in Hr.
  destruct (lists_insert h s r ns [] x Hrep Hr Hx) as [H1 H2].
  eexists. split; [|exact H1]. unfold list_add_tail.
  destruct (is_dll_root _ _ _ _ (rep_ring _ _ Hrep _ _ Hr)) as [_ Ep]. rewrite app_nil_r in Ep.
  erewrite cmd_bind_Ret; [|by apply link_prev_ok]. exact H2.
Qed.

(** An entry is on one list only. *)
Lemma entry_split h s x :
  rep h s → entry s x →
  ∃ r l1 l2, on s !! r = Some (l1 ++ x :: l2) ∧ x ∉ l1 ∧ x ∉ l2 ∧ x ≠ r ∧ x ∉ off s ∧
    (∀ r' ns', on s !! r' = Some ns' → r' ≠ r → x ∉ cells r' ns').
Proof.
  intros Hrep (r & ns & Hr & Hx). apply list_elem_of_split in Hx as (l1 & l2 & ->).
  exists r, l1, l2. pose proof (rep_ring _ _ Hrep _ _ Hr) as [Hnd _].
  assert (r :: l1 ++ x :: l2 ≡ₚ x :: r :: l1 ++ l2) as Hp by solve_Permutation.
  rewrite Hp in Hnd. apply NoDup_cons in Hnd as [Hnd _].
  assert (x ∈ cells r (l1 ++ x :: l2)) as Hin by (unfold cells; set_solver).
  split_and!; [done|set_solver..| |].
  - intros Hoff. by eapply (rep_off _ _ Hrep).
  - intros r' ns' Hr' Hne Hx'. apply Hne. by eapply (rep_disj _ _ Hrep).
Qed.

(** A function on every sequence that only matters for the one that holds [x]. *)
Lemma fmap_one (f : list loc → list loc) (m : gmap loc (list loc)) r ns :
  m !! r = Some ns → (∀ r' ns', m !! r' = Some ns' → r' ≠ r → f ns' = ns') →
  f <$> m = <[r := f ns]> m.
Proof.
  intros Hr H. apply map_eq. intros r'. rewrite lookup_fmap, lookup_insert.
  case_decide as E; [subst; by rewrite Hr|]. destruct (m !! r') as [ns'|] eqn:Hr'; [|done].
  cbn. by rewrite (H r' ns').
Qed.

Lemma filter_ne_id (x : loc) (l : list loc) : x ∉ l → filter (λ y, y ≠ x) l = l.
Proof.
  induction l as [|y l IH]; [done|]. intros [Hy Hl]%not_elem_of_cons.
  rewrite filter_cons_True by done. by rewrite IH.
Qed.

Lemma without_split h s x r l1 l2 :
  rep h s → on s !! r = Some (l1 ++ x :: l2) → entry s x →
  without x (on s) = <[r := l1 ++ l2]> (on s).
Proof.
  intros Hrep Hr He. destruct (entry_split h s x Hrep He) as (r' & k1 & k2 & Hr' & _ & _ & _ & _ & Hu).
  assert (r = r') as <-.
  { apply dec_stable. intros Hne. by apply (Hu r _ Hr); [|unfold cells; set_solver]. }
  pose proof (rep_ring _ _ Hrep _ _ Hr) as [Hnd _]. apply NoDup_cons in Hnd as [_ Hnd].
  apply NoDup_app in Hnd as (_ & H1 & H2). apply NoDup_cons in H2 as [H2 _].
  unfold without. rewrite (fmap_one _ _ r _ Hr).
  - f_equal. rewrite filter_app, filter_cons_False by naive_solver.
    rewrite !filter_ne_id; [done|done|]. intros Hx. apply (H1 x Hx). by left.
  - intros r2 ns2 Hr2 Hne. apply filter_ne_id. specialize (Hu r2 ns2 Hr2 Hne). unfold cells in Hu.
    set_solver.
Qed.

(** The entry's neighbours are tied together; then [k] goes on. *)
Lemma unlink_sim {B} (k : M B) h s s' x :
  rep h s → s_del x s = Some s' →
  ∃ h', (p ← load_prev (Ptr x); n ← load_next (Ptr x); __list_del p n;; k) h = k h' ∧ rep h' s' ∧
    x ∈ off s'.
Proof.
  intros Hrep E. unfold s_del in E. case_decide as He; [|done]. simplify_eq.
  destruct (entry_split h s x Hrep He) as (r & l1 & l2 & Hr & Hl1 & Hl2 & Hxr & Hxo & Hu).
  pose proof (rep_ring _ _ Hrep _ _ Hr) as Hring. destruct (ring_place _ _ _ _ _ Hring) as [En Ep].
  assert (before r l1 ∈ cells r (l1 ++ x :: l2)) as Hb.
  { pose proof (before_in r l1). unfold cells in *. set_solver. }
  assert (after r l2 ∈ cells r (l1 ++ x :: l2)) as Ha.
  { pose proof (after_in r l2). unfold cells in *. set_solver. }
  exists (cut (before r l1) (after r l2) h). split_and!; [| |set_solver].
  - erewrite cmd_bind_Ret; [|by apply link_prev_ok]. erewrite cmd_bind_Ret; [|by apply link_next_ok].
    erewrite cmd_bind_Ret; [done|]. apply __list_del_ok; by eapply ring_alloc.
  - rewrite (without_split h s x r l1 l2) by done. rewrite <- insert_delete_eq.
    apply (rep_change1 h _ s r (l1 ++ x :: l2) (cells r (l1 ++ x :: l2))); [done|done|..].
    + by apply keeps_cut.
    + by eapply ring_remove.
    + auto.
    + unfold cells. set_solver.
    + intros y [Hy| ->%elem_of_singleton]%elem_of_union; unfold cells in *.
      * split; [by right|]. pose proof (rep_off _ _ Hrep _ _ _ Hy Hr) as Hyo. unfold cells in Hyo. set_solver.
      * split; [left; set_solver|set_solver].
Qed.

(** Renaming one entry. *)
Lemma ren_id x y (l : list loc) : x ∉ l → ren x y <$> l = l.
Proof.
  induction l as [|z l IH]; [done|]. intros [Hz Hl]%not_elem_of_cons. cbn.
  rewrite IH by done. unfold ren. by rewrite decide_False.
Qed.

Lemma ren_split h s x y r l1 l2 :
  rep h s → on s !! r = Some (l1 ++ x :: l2) → x ∉ l1 → x ∉ l2 →
  (∀ r' ns', on s !! r' = Some ns' → r' ≠ r → x ∉ cells r' ns') →
  fmap (M:=list) (ren x y) <$> on s = <[r := l1 ++ y :: l2]> (on s).
Proof.
  intros Hrep Hr Hl1 Hl2 Hu. rewrite (fmap_one _ _ r _ Hr).
  - f_equal. rewrite fmap_app, fmap_cons, !ren_id by done. unfold ren. by rewrite decide_True.
  - intros r' ns' Hr' Hne. apply ren_id. specialize (Hu _ _ Hr' Hne). unfold cells in Hu. set_solver.
Qed.

Lemma list_replace_entry_sim h s x y r l1 l2 :
  rep h s → y ∈ off s → entry s x → on s !! r = Some (l1 ++ x :: l2) →
  let h' := ins (before r l1) (after r l2) y h in
  list_replace (Ptr x) (Ptr y) h = Ret (tt, h') ∧
  rep h' (Lists (fmap (M:=list) (ren x y) <$> on s) (off s ∖ {[y]} ∪ {[x]})).
Proof.
  intros Hrep Hy He Hr h'. pose proof (rep_ring _ _ Hrep _ _ Hr) as Hring.
  pose proof (rep_off _ _ Hrep _ _ _ Hy Hr) as Hyr.
  assert (x ∈ cells r (l1 ++ x :: l2)) as Hxin by (unfold cells; set_solver).
  destruct (entry_split h s x Hrep He) as (r' & k1 & k2 & Hr' & _ & _ & _ & Hxo & Hu).
  assert (r = r') as <-. { apply dec_stable. intros Hne. by apply (Hu r _ Hr). }
  clear k1 k2 Hr'. destruct (Hring) as [Hnd _].
  assert (r :: l1 ++ x :: l2 ≡ₚ x :: r :: l1 ++ l2) as Hp by solve_Permutation.
  rewrite Hp in Hnd. apply NoDup_cons in Hnd as [Hnd _].
  pose proof (is_dll_rotate _ _ _ _ _ _ Hring) as Hrot.
  destruct (list_replace_ok h x y (l2 ++ r :: l1)) as (h2 & E & Hring' & Hk & Hh2); [done| | |].
  { by eapply rep_alloc. }
  { unfold cells in *. set_solver. }
  assert (h2 = h') as ->.
  { rewrite Hh2 by (by destruct l2). unfold h'. f_equal.
    - unfold before. rewrite last_app_cons, last_cons. by destruct (last l1).
    - unfold after. by destruct l2. }
  split; [done|]. rewrite (ren_split h s x y r l1 l2) by (done || set_solver).
  rewrite <- insert_delete_eq.
  apply (rep_change1 h _ s r (l1 ++ x :: l2) (y :: cells x (l2 ++ r :: l1))); [done|done|done|..].
  - by apply is_dll_rotate.
  - unfold cells. set_solver.
  - unfold cells. set_solver.
  - intros z [[Hz Hzy]%elem_of_difference| ->%elem_of_singleton]%elem_of_union.
    + split; [by right|]. pose proof (rep_off _ _ Hrep _ _ _ Hz Hr). unfold cells in *. set_solver.
    + split; [by left|]. assert (x ≠ y) by (intros ->; done). unfold cells. set_solver.
Qed.

Lemma list_replace_sim h s s' x y :
  rep h s → s_replace x y s = Some s' →
  ∃ h', list_replace (Ptr x) (Ptr y) h = Ret (tt, h') ∧ rep h' s' ∧ x ∈ off s'.
Proof.
  intros Hrep E. unfold s_replace in E. case_decide as Hy; [|done]. case_decide as He.
  - simplify_eq. destruct (entry_split h s x Hrep He) as (r & l1 & l2 & Hr & _).
    destruct (list_replace_entry_sim h s x y r l1 l2 Hrep Hy He Hr) as [H1 H2].
    eexists. split_and!; [exact H1|exact H2|set_solver].
  - destruct (on s !! x) as [ns|] eqn:Hx; [|done]. cbn in E. simplify_eq.
    pose proof (rep_off _ _ Hrep _ _ _ Hy Hx) as Hyr.
    pose proof (rep_ring _ _ Hrep _ _ Hx) as Hring.
    destruct (list_replace_ok h x y ns) as (h2 & E & Hring' & Hk & _); [done|by eapply rep_alloc|done|].
    exists h2. split_and!; [done| |set_solver].
    apply (rep_change1 h _ s x ns (y :: cells x ns)); [done|done|done|done|..].
    + unfold cells. set_solver.
    + unfold cells. set_solver.
    + destruct Hring as [Hnd _]. apply NoDup_cons in Hnd as [Hxns _].
      intros z [[Hz Hzy]%elem_of_difference| ->%elem_of_singleton]%elem_of_union.
      * split; [by right|]. pose proof (rep_off _ _ Hrep _ _ _ Hz Hx). unfold cells in *. set_solver.
      * split; [left; by left|]. unfold cells in *. set_solver.
Qed.

Lemma __list_splice_sim h s r1 r2 l1 l2 :
  rep h s → on s !! r1 = Some l1 → on s !! r2 = Some l2 → r1 ≠ r2 → l1 ≠ [] →
  ∃ h', __list_splice (Ptr r1) (Ptr r2) h = Ret (tt, h') ∧
    rep h' (Lists (<[r2 := l1 ++ l2]> (delete r1 (on s))) (off s ∪ {[r1]})).
Proof.
  intros Hrep H1 H2 Hne Hl1. pose proof (rep_ring _ _ Hrep _ _ H1) as R1.
  pose proof (rep_ring _ _ Hrep _ _ H2) as R2. destruct (ends_of l1 Hl1) as (f & g & Hf & Hg & Hfl & Hgl).
  assert (∀ x, x ∈ cells r1 l1 → x ∉ cells r2 l2) as Hdisj.
  { intros x Hx Hx'. apply Hne. by eapply (rep_disj _ _ Hrep). }
  destruct (is_dll_root _ _ _ _ R1) as [En1 Ep1]. rewrite Hf in En1. rewrite Hg in Ep1.
  destruct (is_dll_root _ _ _ _ R2) as [En2 _]. fold (after r2 l2) in En2.
  assert (f ∈ cells r1 l1 ∧ g ∈ cells r1 l1) as [Hf' Hg'] by (split; by right).
  destruct (ring_alloc _ _ _ _ R1 Hf'), (ring_alloc _ _ _ _ R1 Hg').
  destruct (ring_alloc _ _ _ r2 R2 ltac:(by left)), (ring_alloc _ _ _ _ R2 (after_in r2 l2)).
  exists (spliced r2 f g (after r2 l2) h). split.
  - unfold __list_splice. step_with link_next_ok. step_with link_prev_ok. step_with link_next_ok.
    step_with set_prev_ok. step_with set_next_ok. step_with set_next_ok.
    by rewrite set_prev_ok by side.
  - rewrite <- insert_delete_eq.
    apply (rep_change h _ s _ (cells r1 l1 ++ cells r2 l2) (cells r1 l1 ++ cells r2 l2)); [done|..].
    + etrans; [apply delete_subseteq|apply delete_subseteq].
    + intros r ns x [Hr2 [Hr1 Hr]%lookup_delete_Some]%lookup_delete_Some Hx [Hx'|Hx']%elem_of_app.
      * apply Hr1. by eapply (rep_disj _ _ Hrep).
      * apply Hr2. by eapply (rep_disj _ _ Hrep).
    + intros x [Hx|Hx]%elem_of_app; [apply (ring_alloc _ _ _ _ R1 Hx)|apply (ring_alloc _ _ _ _ R2 Hx)].
    + eapply keeps_trans; [apply (keeps_upd _ h r2 f (Ptr f) (Ptr r2))|apply (keeps_upd _ (Heap _ _) g (after r2 l2))];
        apply elem_of_app; auto using after_in. right. by left.
    + by eapply ring_splice.
    + auto.
    + unfold cells. set_solver.
    + intros x [Hx| ->%elem_of_singleton]%elem_of_union.
      * split; [by right|]. pose proof (rep_off _ _ Hrep _ _ _ Hx H1). pose proof (rep_off _ _ Hrep _ _ _ Hx H2).
        unfold cells in *. set_solver.
      * split; [left; unfold cells; set_solver|]. destruct R1 as [Hnd _]. apply NoDup_cons in Hnd as [? _].
        specialize (Hdisj r1 ltac:(by left)). unfold cells in *. set_solver.
Qed.

(** ** Swapping *)
Lemma adjacent_mid a b l1 l2 :
  adjacent a b (l1 ++ a :: b :: l2) = true ∧ adjacent a b (l1 ++ b :: a :: l2) = true.
Proof.
  assert (∀ x y, x = a ∧ y = b ∨ x = b ∧ y = a → adjacent a b (l1 ++ x :: y :: l2) = true) as H; [|auto].
  intros x y Hxy. induction l1 as [|z l1 IH].
  - cbn. by rewrite bool_decide_true.
  - destruct l1 as [|w l1]; cbn in *; rewrite IH; by rewrite orb_true_r.
Qed.

Lemma entry_place h s x :
  rep h s → entry s x →
  ∃ n p, next h !! x = Some (Ptr n) ∧ prev h !! x = Some (Ptr p) ∧ alloc h n ∧ alloc h p ∧ n ≠ x.
Proof.
  intros Hrep He. destruct (entry_split h s x Hrep He) as (r & l1 & l2 & Hr & _ & Hl2 & Hxr & _).
  pose proof (rep_ring _ _ Hrep _ _ Hr) as Hring. destruct (ring_place _ _ _ _ _ Hring) as [En Ep].
  pose proof (after_in r l2) as Ha. pose proof (before_in r l1) as Hb. unfold cells in *.
  exists (after r l2), (before r l1). split_and!; [done|done|eapply ring_alloc; [done|]..|].
  - unfold cells. set_solver.
  - unfold cells. set_solver.
  - set_solver.
Qed.

Lemma not_adjacent_place h s a b n p :
  rep h s → entry s a → entry s b → map_Forall (λ _ ns, adjacent a b ns = false) (on s) →
  next h !! a = Some (Ptr n) → prev h !! a = Some (Ptr p) → n ≠ b ∧ p ≠ b.
Proof.
  intros Hrep Ha Hb Hadj Hn Hp. destruct (entry_split h s a Hrep Ha) as (r & l1 & l2 & Hr & _).
  pose proof (rep_ring _ _ Hrep _ _ Hr) as Hring. destruct (ring_place _ _ _ _ _ Hring) as [En Ep].
  simplify_eq. specialize (Hadj r _ Hr). cbn in Hadj.
  assert (r ≠ b) as Hrb.
  { intros ->. destruct (entry_split h s b Hrep Hb) as (r' & k1 & k2 & Hr' & _ & _ & Hne & _ & Hu).
    apply (Hu b _ Hr); [done|by left]. }
  split.
  - destruct l2 as [|y l2]; cbn; [done|]. intros ->.
    by rewrite (proj1 (adjacent_mid a b l1 l2)) in Hadj.
  - unfold before. destruct (last l1) as [y|] eqn:El; [|done]. cbn. intros ->.
    apply last_Some in El as [k ->]. rewrite <- app_assoc in Hadj. cbn in Hadj.
    by rewrite (proj2 (adjacent_mid a b k l2)) in Hadj.
Qed.

Lemma adjacent_sym a b ns : adjacent a b ns = adjacent b a ns.
Proof.
  induction ns as [|x [|y ns] IH]; [done..|]. cbn in *. rewrite IH. f_equal.
  apply bool_decide_ext. tauto.
Qed.

Lemma list_replace_place_sim h s x y n p :
  rep h s → y ∈ off s → entry s x → next h !! x = Some (Ptr n) → prev h !! x = Some (Ptr p) →
  list_replace (Ptr x) (Ptr y) h = Ret (tt, ins p n y h) ∧
  rep (ins p n y h) (Lists (fmap (M:=list) (ren x y) <$> on s) (off s ∖ {[y]} ∪ {[x]})).
Proof.
  intros Hrep Hy He Hn Hp. destruct (entry_split h s x Hrep He) as (r & l1 & l2 & Hr & _).
  destruct (ring_place _ _ _ _ _ (rep_ring _ _ Hrep _ _ Hr)) as [En Ep]. simplify_eq.
  by apply list_replace_entry_sim.
Qed.

Lemma entry_ren s x y z O :
  entry s z → z ≠ x → entry (Lists (fmap (M:=list) (ren x y) <$> on s) O) z.
Proof.
  intros (r & ns & Hr & Hz) Hne. exists r, (ren x y <$> ns). cbn. rewrite lookup_fmap, Hr. split; [done|].
  apply list_elem_of_fmap. exists z. split; [|done]. unfold ren. by rewrite decide_False.
Qed.

Lemma entry_ren_new s x y O :
  entry s x → entry (Lists (fmap (M:=list) (ren x y) <$> on s) O) y.
Proof.
  intros (r & ns & Hr & Hz). exists r, (ren x y <$> ns). cbn. rewrite lookup_fmap, Hr. split; [done|].
  apply list_elem_of_fmap. exists x. split; [|done]. unfold ren. by rewrite decide_True.
Qed.

(** A new cell, and a cell given up. *)
Lemma rep_local h s t :
  rep h s → next h !! t = None → prev h !! t = None →
  rep (Heap (<[t := Null]> (next h)) (<[t := Null]> (prev h))) (Lists (on s) (off s ∪ {[t]})).
Proof.
  intros Hrep Hn Hp. assert (∀ x, alloc h x → x ≠ t) as Ht by (intros x [[? ?] _] ->; congruence).
  split; cbn; [|apply (rep_disj _ _ Hrep)|..].
  - intros r ns Hr. pose proof (rep_ring _ _ Hrep _ _ Hr) as Hring.
    eapply is_dll_ext; [|exact Hring]. intros x Hx. cbn.
    assert (x ≠ t) by by eapply Ht, ring_alloc. by rewrite !lookup_insert_ne.
  - intros x [Hx| ->%elem_of_singleton]%elem_of_union.
    + destruct (rep_alloc _ _ Hrep _ Hx). split; cbn; auto with links.
    + split; cbn; rewrite lookup_insert_eq; eauto.
  - intros x r ns [Hx| ->%elem_of_singleton]%elem_of_union Hr; [by eapply rep_off|].
    intros Hx. apply (Ht t); [|done]. eapply ring_alloc; [by eapply rep_ring|done].
Qed.

Lemma rep_forget h m O t :
  rep h (Lists m (O ∪ {[t]})) → t ∉ O →
  rep (Heap (delete t (next h)) (delete t (prev h))) (Lists m O).
Proof.
  intros Hrep Ht. split; cbn.
  - intros r ns Hr. eapply is_dll_ext; [|by eapply (rep_ring _ _ Hrep)]. intros x Hx. cbn.
    assert (x ≠ t). { intros ->. eapply (rep_off _ _ Hrep t r ns); cbn; [set_solver|done|done]. }
    by rewrite !lookup_delete_ne.
  - apply (rep_disj _ _ Hrep).
  - intros x Hx. assert (x ≠ t) by (intros ->; done).
    destruct (rep_alloc _ _ Hrep x) as [??]; [cbn; set_solver|].
    split; cbn; by rewrite lookup_delete_ne.
  - intros x r ns Hx Hr. eapply (rep_off _ _ Hrep); cbn; [set_solver|done].
Qed.

(** Three replacements through a third cell are one exchange. *)
Lemma ren_ren_ren a b t l :
  a ≠ b → t ∉ l → t ≠ a → t ≠ b →
  ren t a <$> (ren a b <$> (ren b t <$> l)) = swp a b <$> (l : list loc).
Proof.
  intros Hab Ht Hta Htb. induction l as [|x l IH]; [done|].
  apply not_elem_of_cons in Ht as [Hx Ht]. cbn. f_equal; [|by apply IH].
  unfold ren, swp. repeat case_decide; congruence.
Qed.

(** What the code leaves is what three replacements would leave. *)
Lemma swap_heap a b t na pa nb pb h :
  a ≠ b → t ≠ a → t ≠ b → t ≠ na → t ≠ pa → t ≠ nb → t ≠ pb →
  nb ≠ a → pb ≠ a → na ≠ b → pa ≠ b →
  let h1 := set_cell t (Ptr nb) (Ptr pb) h in
  ins pb nb a (ins pa na b (ins pb nb t h1)) = ins pb nb a (ins pa na b h1).
Proof.
  intros. unfold h1, ins, set_cell. cbn [next prev].
  f_equal; apply map_eq; intros k; rewrite !lookup_insert; repeat case_decide; congruence.
Qed.

(** The body of the last branch, on a heap where [t] is allocated. *)
Lemma swap_run h a b t na pa nb pb :
  next h !! a = Some (Ptr na) → prev h !! a = Some (Ptr pa) →
  next h !! b = Some (Ptr nb) → prev h !! b = Some (Ptr pb) →
  alloc h t → alloc h na → alloc h pa → alloc h nb → alloc h pb →
  a ≠ b → t ≠ a → t ≠ b → na ≠ t → pa ≠ t → nb ≠ t → na ≠ a →
  (n ← load_next (Ptr b); store_next (Ptr t) n;;
   p ← load_prev (Ptr b); store_prev (Ptr t) p;;
   list_replace (Ptr a) (Ptr b);; list_replace (Ptr t) (Ptr a)) h
  = Ret (tt, ins pb nb a (ins pa na b (set_cell t (Ptr nb) (Ptr pb) h))).
Proof.
  intros Ena Epa Enb Epb [??] [??] [??] [??] [??] Hab Hta Htb Hna Hpa Hnb Hnaa.
  step_with link_next_ok. step_with set_next_ok. step_with link_prev_ok. step_with set_prev_ok.
  change (Heap _ _) with (set_cell t (Ptr nb) (Ptr pb) h). set (h1 := set_cell _ _ _ h).
  assert (∀ x, x ≠ t → next h1 !! x = next h !! x ∧ prev h1 !! x = prev h !! x) as Hh1.
  { intros x Hx. cbn. by rewrite !lookup_insert_ne. }
  destruct (Hh1 a ltac:(done)) as [E1 E2].
  assert (∀ x, is_Some (next h !! x) → is_Some (prev h !! x) → alloc h1 x) as Hal
    by (split; cbn; auto with links).
  erewrite cmd_bind_Ret; [|apply (list_replace_run h1 a b na pa); try congruence; apply Hal; eauto].
  assert (keeps [pa; na; b] h1 (ins pa na b h1)) as [Hk Hk'].
  { apply keeps_ins; set_solver. }
  apply list_replace_run; try done; try (apply Hk', Hal; eauto).
  - cbn. by rewrite !lookup_insert_ne, lookup_insert_eq by done.
  - cbn. by rewrite !lookup_insert_ne, lookup_insert_eq by done.
Qed.

(** Three replacements on the abstract side. *)
Lemma swap_rep h m O a b t na pa nb pb :
  let s := Lists m (O ∪ {[t]}) in
  rep h s → entry s a → entry s b → a ≠ b →
  next h !! a = Some (Ptr na) → prev h !! a = Some (Ptr pa) →
  next h !! b = Some (Ptr nb) → prev h !! b = Some (Ptr pb) →
  t ∉ O → t ≠ a → t ≠ b → na ≠ t → pa ≠ t → nb ≠ t → pb ≠ t → nb ≠ a → pb ≠ a →
  rep (ins pb nb a (ins pa na b (ins pb nb t h))) (Lists (fmap (M:=list) (swp a b) <$> m) (O ∪ {[t]})).
Proof.
  intros s Hrep Ha Hb Hab Ena Epa Enb Epb HtO Hta Htb Hnat Hpat Hnbt Hpbt Hnba Hpba.
  destruct (list_replace_place_sim h s b t nb pb Hrep) as [_ Hrep2]; [cbn; set_solver|done..|].
  destruct (list_replace_place_sim _ _ a b na pa Hrep2) as [_ Hrep3];
    [cbn; set_solver|by apply entry_ren|by cbn; rewrite !lookup_insert_ne..|].
  assert (next (ins pa na b (ins pb nb t h)) !! t = Some (Ptr nb)) as E5.
  { cbn. rewrite !lookup_insert, !decide_False by congruence. by rewrite decide_True. }
  assert (prev (ins pa na b (ins pb nb t h)) !! t = Some (Ptr pb)) as E6.
  { cbn. rewrite !lookup_insert. rewrite decide_False, decide_False by congruence. by rewrite decide_True. }
  destruct (list_replace_place_sim _ _ t a nb pb Hrep3) as [_ Hrep4]; [cbn; set_solver| |done|done|].
  { apply entry_ren; [|done]. by apply entry_ren_new. }
  cbn [on off] in Hrep4. rewrite <- !map_fmap_compose in Hrep4.
  replace (fmap (M:=list) (swp a b) <$> m) with
    (fmap (ren t a) ∘ (fmap (ren a b) ∘ fmap (M:=list) (ren b t)) <$> m).
  - eapply eq_rect; [exact Hrep4|]. f_equal.
    destruct (entry_split h s a Hrep Ha) as (? & ? & ? & _ & _ & _ & _ & HaO & _).
    destruct (entry_split h s b Hrep Hb) as (? & ? & ? & _ & _ & _ & _ & HbO & _).
    cbn [off s] in HaO, HbO. apply not_elem_of_union in HaO as [HaO _], HbO as [HbO _].
    apply set_eq. intros y. set_unfold. clear -HaO HbO HtO.
    destruct (decide (y = a)), (decide (y = b)), (decide (y = t)); subst; tauto.
  - apply map_fmap_ext. intros r ns Hr. cbn. apply ren_ren_ren; [done| |done|done].
    pose proof (rep_off _ _ Hrep t r ns ltac:(cbn; set_solver) Hr). unfold cells in *. set_solver.
Qed.

Lemma list_swap_sim h s s' a b :
  rep h s → s_swap a b s = Some s' → ∃ h', list_swap (Ptr a) (Ptr b) h = Ret (tt, h') ∧ rep h' s'.
Proof.
  intros Hrep E. unfold s_swap in E. case_decide as Hc; [|done]. destruct Hc as (Ha & Hb & Hab & Hadj).
  simplify_eq.
  destruct (entry_place h s a Hrep Ha) as (na & pa & Ena & Epa & Aan & Aap & Hnaa).
  destruct (entry_place h s b Hrep Hb) as (nb & pb & Enb & Epb & Abn & Abp & _).
  destruct (not_adjacent_place h s a b na pa) as [Hna Hpa]; [done..|].
  destruct (not_adjacent_place h s b a nb pb) as [Hnb Hpb]; [done|done|done| |done|done|].
  { intros r ns Hr. rewrite adjacent_sym. by apply (Hadj r). }
  unfold list_swap. step_with link_next_ok. rewrite decide_False by congruence.
  step_with link_prev_ok. rewrite decide_False by congruence.
  unfold with_local. set (t := fresh _).
  assert (t ∉ dom (next h) ∪ dom (prev h)) as Ht by apply is_fresh. clearbody t.
  apply not_elem_of_union in Ht as [Htn%not_elem_of_dom Htp%not_elem_of_dom].
  assert (∀ x, alloc h x → t ≠ x ∧ x ≠ t) as Hal by (intros x [[? ?] _]; split; intros ->; congruence).
  destruct (Hal a) as [??]; [split; eauto|]. destruct (Hal b) as [??]; [split; eauto|].
  destruct (Hal na Aan), (Hal pa Aap), (Hal nb Abn), (Hal pb Abp).
  assert (t ∉ off s) as Htoff. { intros Hx. by apply (Hal t); [eapply rep_alloc|]. }
  pose proof (rep_local h s t Hrep Htn Htp) as Hrep0.
  pose proof (rep_set_off _ _ t (Ptr nb) (Ptr pb) Hrep0 ltac:(cbn; set_solver)) as Hrep1.
  set (h0 := Heap (<[t := Null]> (next h)) (<[t := Null]> (prev h))) in *.
  assert (∀ x, alloc h x → alloc h0 x) as Hal0 by (intros x [??]; split; cbn; auto with links).
  assert (alloc h0 t) as At by (split; cbn; rewrite lookup_insert_eq; eauto).
  rewrite (swap_run h0 a b t na pa nb pb)
    by first [done|by apply Hal0|by cbn; rewrite lookup_insert_ne].
  eexists. split; [done|]. rewrite <- swap_heap by done.
  apply (rep_forget _ _ (off s)); [|done].
  apply swap_rep; try done; cbn; by rewrite !lookup_insert_ne.
Qed.

(** ** Every operation *)
Lemma list_empty_ok h r ns : ring h r ns → list_empty (Ptr r) h = Ret (bool_decide (ns = []), h).
Proof.
  intros Hring. destruct (is_dll_root _ _ _ _ Hring) as [En _]. unfold list_empty.
  erewrite cmd_bind_Ret; [|by apply link_next_ok]. unfold mret, cmd_ret. do 2 f_equal.
  apply bool_decide_ext. destruct ns as [|f ns]; [by split|]. cbn. split; [|done].
  intros [= ->]. destruct Hring as [Hnd _]. apply NoDup_cons in Hnd as [Hnd _]. set_solver.
Qed.

Lemma list_splice_sim h s s' r1 r2 :
  rep h s → s_splice r1 r2 s = Some s' →
  ∃ h', list_splice (Ptr r1) (Ptr r2) h = Ret (tt, h') ∧ rep h' s'.
Proof.
  intros Hrep E. unfold s_splice in E. destruct (on s !! r1) as [l1|] eqn:H1; [|done].
  cbn in E. destruct (on s !! r2) as [l2|] eqn:H2; [|done]. cbn in E. case_decide as Hne; [done|].
  unfold list_splice. erewrite cmd_bind_Ret; [|by eapply list_empty_ok, rep_ring].
  case_decide as Hl1; simplify_eq; [by exists h|]. rewrite bool_decide_false by done.
  by eapply __list_splice_sim.
Qed.

Lemma list_splice_init_sim h s s' r1 r2 :
  rep h s → spec (SpliceInit r1 r2) s = Some s' →
  ∃ h', list_splice_init (Ptr r1) (Ptr r2) h = Ret (tt, h') ∧ rep h' s'.
Proof.
  intros Hrep E. cbn [spec] in E. destruct (s_splice r1 r2 s) as [s1|] eqn:E1; [|done]. cbn in E.
  unfold s_splice in E1. destruct (on s !! r1) as [l1|] eqn:H1; [|done].
  cbn in E1. destruct (on s !! r2) as [l2|] eqn:H2; [|done]. cbn in E1. destruct (decide (r1 = r2)) as [|Hne]; [done|].
  unfold list_splice_init. erewrite cmd_bind_Ret; [|by eapply list_empty_ok, rep_ring].
  destruct (decide (l1 = [])) as [->|Hl1]; simplify_eq.
  - rewrite decide_True in E by done. simplify_eq. by exists h.
  - rewrite bool_decide_false by done. rewrite decide_False in E by congruence.
    destruct (__list_splice_sim h s r1 r2 l1 l2) as (h1 & E1 & Hrep1); [done..|].
    erewrite cmd_bind_Ret by exact E1. by eapply INIT_LIST_HEAD_sim.
Qed.

Lemma exec_sim o h s s' :
  rep h s → spec o s = Some s' → ∃ h', exec o h = Ret (tt, h') ∧ rep h' s'.
Proof.
  intros Hrep. destruct o as [r|x r|x r|x|x|x y|x y|a b|x r|x r|r1 r2|r1 r2]; cbn [exec spec].
  - by apply INIT_LIST_HEAD_sim.
  - by apply list_add_sim.
  - by apply list_add_tail_sim.
  - intros E. unfold list_del. destruct (unlink_sim (store_next (Ptr x) Poison1;; store_prev (Ptr x) Poison2)
      h s s' x Hrep E) as (h1 & -> & Hrep1 & Hx). destruct (rep_alloc _ _ Hrep1 x Hx).
    step_with set_next_ok. rewrite set_prev_ok by side. eexists. split; [done|].
    by apply (rep_set_off h1 s' x Poison1 Poison2).
  - intros E. destruct (s_del x s) as [s1|] eqn:E1; [|done]. unfold list_del_init.
    destruct (unlink_sim (INIT_LIST_HEAD (Ptr x)) h s s1 x Hrep E1) as (h1 & -> & Hrep1 & _).
    by eapply INIT_LIST_HEAD_sim.
  - intros E. destruct (list_replace_sim h s s' x y Hrep E) as (h1 & ? & ? & _). eauto.
  - intros E. destruct (s_replace x y s) as [s1|] eqn:E1; [|done]. unfold list_replace_init.
    destruct (list_replace_sim h s s1 x y Hrep E1) as (h1 & Er & Hrep1 & _).
    erewrite cmd_bind_Ret by exact Er. by eapply INIT_LIST_HEAD_sim.
  - by apply list_swap_sim.
  - intros E. destruct (s_del x s) as [s1|] eqn:E1; [|done]. unfold list_move.
    destruct (unlink_sim (list_add (Ptr x) (Ptr r)) h s s1 x Hrep E1) as (h1 & -> & Hrep1 & _).
    by eapply list_add_sim.
  - intros E. destruct (s_del x s) as [s1|] eqn:E1; [|done]. unfold list_move_tail.
    destruct (unlink_sim (list_add_tail (Ptr x) (Ptr r)) h s s1 x Hrep E1) as (h1 & -> & Hrep1 & _).
    by eapply list_add_tail_sim.
  - by apply list_splice_sim.
  - by apply list_splice_init_sim.
Qed.

(** C3: whatever sequence of operations is run on any number of lists, moves between
    lists, exchanges, replacements of entries or heads and splices included, as long
    as the caller keeps the contract of each (a cell inserted is on no list, a cell
    removed is on one, cells exchanged are not neighbours), no operation follows a
    bad pointer and the heap holds the sequences that the operations describe. *)
Theorem etk_list_refines_sequences os h s s' :
  rep h s → spec_all os s = Some s' → ∃ h', exec_all os h = Ret (tt, h') ∧ rep h' s'.
Proof.
  revert h s. induction os as [|o os IH]; intros h s Hrep E; cbn in *.
  - simplify_eq. eauto.
  - destruct (spec o s) as [s1|] eqn:E1; [|done]. cbn in E.
    destruct (exec_sim o h s s1 Hrep E1) as (h1 & Ho & Hrep1).
    erewrite cmd_bind_Ret by exact Ho. by eapply IH.
Qed.

(** [n] cells on no list. *)
Definition raw_cells (xs : list loc) : heap :=
  Heap (list_to_map ((λ x, (x, Null)) <$> xs)) (list_to_map ((λ x, (x, Null)) <$> xs)).

Lemma raw_cells_rep xs : rep (raw_cells xs) (Lists ∅ (list_to_set xs)).
Proof.
  split; cbn; [by intros ?? ?%lookup_empty_Some|by intros ????? ?%lookup_empty_Some| |by intros ??? _ ?%lookup_empty_Some].
  intros x Hx%elem_of_list_to_set. unfold alloc. cbn.
  assert (is_Some ((list_to_map ((λ x, (x, Null)) <$> xs) : gmap loc ptr) !! x)) as H; [|done].
  induction xs as [|y xs IH]; [by apply elem_of_nil in Hx|]. cbn. rewrite lookup_insert.
  case_decide; [eauto|]. apply IH. apply elem_of_cons in Hx as [->|]; done.
Qed.

Lemma etk_list_refines_sequences_witness :
  let os := [Init 1; Init 2; Add 3 1; AddTail 4 1; AddTail 5 1; AddTail 6 2; Swap 3 5; Move 4 2;
             Replace 6 7; DelInit 5; SpliceInit 2 1; Del 7]%positive in
  ∃ h', exec_all os (raw_cells [1; 2; 3; 4; 5; 6; 7]%positive) = Ret (tt, h') ∧
    rep h' (Lists (<[1 := [4; 3]]> (<[2 := []]> (<[5 := []]> ∅))) {[6; 7]})%positive.
Proof.
  intros os. apply (etk_list_refines_sequences os _ (Lists ∅ (list_to_set [1; 2; 3; 4; 5; 6; 7]%positive))).
  - apply raw_cells_rep.
  - vm_compute. reflexivity.
Defined.

(** ** Iteration *)
Definition local_pos {T} (_ : ptr) : cmd T unit := mret tt.

(** What a loop over [ps] computes when its body leaves the store alone. *)
Fixpoint scan {A} (f : ptr → A → A + A) (ps : list ptr) (acc : A) : A :=
  match ps with
  | [] => acc
  | p :: ps => match f p acc with inl a => scan f ps a | inr a => a end
  end.

Section scan.
Context {A : Type} (adv : ptr → M ptr) (body : ptr → A → M (A + A)) (f : ptr → A → A + A) (h : heap) (r : loc).

Lemma list_for_each_from_scan ns fuel acc :
  (∀ p a, body p a h = Ret (f p a, h)) → (length ns < fuel)%nat → r ∉ ns →
  (∀ l1 x l2, ns = l1 ++ x :: l2 → adv (Ptr x) h = Ret (Ptr (after r l2), h)) →
  list_for_each_from adv local_pos body fuel (Ptr (after r ns)) (Ptr r) acc h
  = Ret (scan f (Ptr <$> ns) acc, h).
Proof.
  intros Hb. revert fuel acc. induction ns as [|x ns IH]; intros [|fuel] acc Hf Hr Ha; cbn in Hf; [lia| |lia|];
    cbn [list_for_each_from].
  - by rewrite decide_True.
  - change (after r (x :: ns)) with x. rewrite decide_False by (intros [= ->]; set_solver). erewrite cmd_bind_Ret by apply Hb. cbn [fmap list_fmap scan].
    destruct (f (Ptr x) acc) as [a|a]; [|done].
    erewrite cmd_bind_Ret; [|exact (Ha [] x ns eq_refl)]. run. apply IH; [lia|set_solver|].
    intros l1 y l2 ->. by apply (Ha (x :: l1)).
Qed.
End scan.

Lemma ring_reverse h r ns : ring h r ns → is_dll (prev h) (next h) r (reverse ns).
Proof.
  intros [Hnd Hc]. split; [by rewrite reverse_Permutation|].
  assert (∀ l, chain (next h) (prev h) l → chain (prev h) (next h) (reverse l)) as Hrev.
  { clear. intros l. induction l as [|a [|b l] IH]; [done..|]. intros [[Ha Hb] Hc].
    rewrite reverse_cons, reverse_cons. rewrite <- app_assoc. cbn [app].
    apply chain_app. rewrite <- reverse_cons. split; [by apply IH|]. by split. }
  apply Hrev in Hc. rewrite reverse_cons, reverse_app in Hc. done.
Qed.

(** The iteration macros, forwards and backwards, visit exactly the entries of the
    list in order, stop where the body breaks, leave the heap alone and end within one
    turn more than there are entries. *)
Theorem list_for_each_visits {A} h r ns (body : ptr → A → M (A + A)) f fuel acc :
  ring h r ns → (∀ p a, body p a h = Ret (f p a, h)) → (length ns < fuel)%nat →
  list_for_each load_next local_pos body fuel (Ptr r) (Ptr r) acc h
  = Ret (scan f (Ptr <$> ns) acc, h) ∧
  list_for_each load_prev local_pos body fuel (Ptr r) (Ptr r) acc h
  = Ret (scan f (Ptr <$> reverse ns) acc, h).
Proof.
  intros Hring Hb Hf.
  assert (∀ m m' l, is_dll m m' r l → r ∉ l ∧ m !! r = Some (Ptr (after r l)) ∧
    ∀ l1 x l2, l = l1 ++ x :: l2 → m !! x = Some (Ptr (after r l2))) as Hnext.
  { intros m m' l Hd. split_and!.
    - destruct Hd as [Hnd _]. by apply NoDup_cons in Hnd as [? _].
    - by destruct (is_dll_root _ _ _ _ Hd).
    - intros l1 x l2 ->. by destruct (ring_place (Heap m m') r l1 x l2 Hd). }
  split; unfold list_for_each.
  - destruct (Hnext _ _ _ Hring) as (Hr & Er & Hx).
    erewrite cmd_bind_Ret by by apply link_next_ok. run.
    apply list_for_each_from_scan; [done|done|done|]. intros. by apply link_next_ok, (Hx l1).
  - destruct (Hnext _ _ _ (ring_reverse _ _ _ Hring)) as (Hr & Er & Hx).
    erewrite cmd_bind_Ret by by apply link_prev_ok. run.
    apply list_for_each_from_scan; [done|by rewrite length_reverse|done|].
    intros. by apply link_prev_ok, (Hx l1).
Qed.

(** Three entries behind a head, for the witnesses. *)
Definition three : heap :=
  Heap (list_to_map [(1, Ptr 2); (2, Ptr 3); (3, Ptr 4); (4, Ptr 1)])%positive
       (list_to_map [(1, Ptr 4); (2, Ptr 1); (3, Ptr 2); (4, Ptr 3)])%positive.

Lemma three_ring : ring three 1 [2; 3; 4]%positive.
Proof. split; [apply (bool_decide_unpack _); by vm_compute|]. repeat split. Qed.

Lemma three_rep : rep three (Lists {[1%positive := [2; 3; 4]%positive]} ∅).
Proof.
  split; cbn.
  - intros r ns [<- <-]%lookup_singleton_Some. apply three_ring.
  - intros r1 n1 r2 n2 x [<- _]%lookup_singleton_Some [<- _]%lookup_singleton_Some _ _. done.
  - by intros x ?%elem_of_empty.
  - by intros x r ns ?%elem_of_empty.
Qed.

Lemma list_for_each_visits_witness :
  let body p acc := mret (if decide (p = Ptr 3%positive) then inr (acc ++ [p]) else inl (acc ++ [p])) in
  list_for_each load_next local_pos body 4 (Ptr 1%positive) (Ptr 1%positive) [] three
  = Ret ([Ptr 2%positive; Ptr 3%positive], three) ∧
  list_for_each load_prev local_pos body 4 (Ptr 1%positive) (Ptr 1%positive) [] three
  = Ret ([Ptr 4%positive; Ptr 3%positive], three).
Proof.
  intros body.
  exact (list_for_each_visits three 1%positive [2; 3; 4]%positive body
    (λ p acc, if decide (p = Ptr 3%positive) then inr (acc ++ [p]) else inl (acc ++ [p])) 4 []
    three_ring (λ p a, eq_refl) ltac:(cbn; lia)).
Defined.

(** Removing the entries that [sel] picks, inside [list_for_each_safe]. *)
Definition drop_if (sel : loc → bool) (p : ptr) (u : unit) : M (unit + unit) :=
  match p with
  | Ptr x => if sel x then list_del p;; mret (inl tt) else mret (inl tt)
  | _ => λ _, Undef
  end.

Definition kept (sel : loc → bool) : list loc → list loc := filter (λ x, sel x = false).
Definition dropped (sel : loc → bool) : list loc → list loc := filter (λ x, sel x = true).

Lemma list_del_one h s r l1 x l2 :
  rep h s → on s !! r = Some (l1 ++ x :: l2) →
  ∃ h', list_del (Ptr x) h = Ret (tt, h') ∧
    rep h' (Lists (<[r := l1 ++ l2]> (on s)) (off s ∪ {[x]})).
Proof.
  intros Hrep Hr. assert (entry s x) as He by (exists r; eexists; split; [exact Hr|set_solver]).
  rewrite <- (without_split h s x r l1 l2) by done.
  apply (exec_sim (Del x) h s); [done|]. cbn. unfold s_del. by rewrite decide_True.
Qed.

Lemma drop_loop sel s0 h s r k ns fuel n :
  rep h s → on s !! r = Some (k ++ ns) → (length ns < fuel)%nat →
  (∃ y, ns = [] ∨ ∃ ns', ns = y :: ns' ∧ n = Ptr (after r ns')) →
  s = Lists (<[r := k ++ ns]> (on s0)) (off s) →
  ∃ h', list_for_each_safe_from load_next local_pos (drop_if sel) fuel
          (Ptr (after r ns)) n (Ptr r) tt h = Ret (tt, h') ∧
    rep h' (Lists (<[r := k ++ kept sel ns]> (on s0)) (off s ∪ list_to_set (dropped sel ns))).
Proof.
  revert h s k fuel n. induction ns as [|x ns IH]; intros h s k [|fuel] n Hrep Hr Hf Hn Hs; cbn in Hf;
    [lia| |lia|]; cbn [list_for_each_safe_from].
  - rewrite decide_True by done. exists h. split; [done|]. cbn. rewrite (right_id_L ∅ (∪)). by rewrite <- Hs.
  - change (after r (x :: ns)) with x.
    destruct (rep_ring _ _ Hrep _ _ Hr) as [Hnd _]. apply NoDup_cons in Hnd as [Hrn _].
    rewrite decide_False by (intros [= ->]; set_solver).
    destruct Hn as (y & [?|(ns' & [= <- <-] & ->)]); [done|].
    assert (∀ h1 s1 k1, rep h1 s1 → s1 = Lists (<[r := k1 ++ ns]> (on s0)) (off s1) →
      ∃ h', (local_pos (Ptr (after r ns));; n' ← load_next (Ptr (after r ns));
             list_for_each_safe_from load_next local_pos (drop_if sel) fuel (Ptr (after r ns)) n' (Ptr r) tt) h1
            = Ret (tt, h') ∧
      rep h' (Lists (<[r := k1 ++ kept sel ns]> (on s0)) (off s1 ∪ list_to_set (dropped sel ns)))) as Hnext.
    { intros h1 s1 k1 Hrep1 Hs1.
      assert (on s1 !! r = Some (k1 ++ ns)) as Hr1 by (rewrite Hs1; cbn; by rewrite lookup_insert_eq).
      run. destruct ns as [|y ns].
      - destruct (is_dll_root _ _ _ _ (rep_ring _ _ Hrep1 _ _ Hr1)) as [En _].
        erewrite cmd_bind_Ret by by apply link_next_ok. apply IH; [done|done|cbn in *; lia|exists x; by left|done].
      - destruct (ring_place _ _ _ _ _ (rep_ring _ _ Hrep1 _ _ Hr1)) as [En _].
        erewrite cmd_bind_Ret by by apply link_next_ok. apply IH; [done|done|cbn in *; lia|exists y; eauto|done]. }
    unfold kept, dropped. rewrite !filter_cons. destruct (sel x) eqn:Ex; cbn [decide].
    + destruct (list_del_one h s r k x ns Hrep Hr) as (h1 & E1 & Hrep1).
      destruct (Hnext h1 _ k Hrep1) as (h' & E & Hrep'). { rewrite Hs. cbn. by rewrite insert_insert_eq. }
      exists h'. split.
      * rewrite (cmd_bind_Ret _ _ h (inl tt) h1); [exact E|]. unfold drop_if. rewrite Ex. by erewrite cmd_bind_Ret by exact E1.
      * rewrite decide_False, decide_True by done. cbn [off] in Hrep'. rewrite list_to_set_cons.
        by rewrite (assoc_L (∪)).
    + destruct (Hnext h s (k ++ [x]) Hrep) as (h' & E & Hrep').
      { rewrite Hs at 1. by rewrite <- app_assoc. }
      exists h'. split; [rewrite (cmd_bind_Ret _ _ h (inl tt) h); [exact E|]; unfold drop_if; by rewrite Ex|]. rewrite decide_True, decide_False by done.
      by rewrite <- app_assoc in Hrep'.
Qed.

(** C31: [list_for_each_safe] may delete the entry it is on: it visits every entry,
    ends, removes exactly the entries selected, poisons them, and leaves the others in
    their order; every other list of the heap is as before. *)
Theorem list_for_each_safe_deletes sel h s r ns fuel :
  rep h s → on s !! r = Some ns → (length ns < fuel)%nat →
  ∃ h', list_for_each_safe load_next local_pos (drop_if sel) fuel (Ptr r) (Ptr r) tt h = Ret (tt, h') ∧
    rep h' (Lists (<[r := kept sel ns]> (on s)) (off s ∪ list_to_set (dropped sel ns))).
Proof.
  intros Hrep Hr Hf. unfold list_for_each_safe.
  destruct (is_dll_root _ _ _ _ (rep_ring _ _ Hrep _ _ Hr)) as [En _].
  erewrite cmd_bind_Ret by by apply link_next_ok. run.
  assert (∃ n, load_next (Ptr (after r ns)) h = Ret (n, h) ∧
    (∃ y, ns = [] ∨ ∃ ns', ns = y :: ns' ∧ n = Ptr (after r ns'))) as (n & E & Hn).
  { destruct ns as [|x ns].
    - eexists. split; [by apply link_next_ok|exists r; by left].
    - destruct (ring_place h r [] x ns (rep_ring _ _ Hrep _ _ Hr)) as [Ex _].
      eexists. split; [by apply link_next_ok|eauto 6]. }
  erewrite cmd_bind_Ret by exact E. apply (drop_loop sel s h s r [] ns fuel n); [done..|].
  cbn. rewrite insert_id by done. by destruct s.
Qed.

Lemma list_for_each_safe_deletes_witness :
  ∃ h', list_for_each_safe load_next local_pos (drop_if (λ x, Pos.eqb x 3)) 4
          (Ptr 1%positive) (Ptr 1%positive) tt three = Ret (tt, h') ∧
    rep h' (Lists {[1%positive := [2; 4]%positive]} {[3%positive]}).
Proof.
  destruct (list_for_each_safe_deletes (λ x, Pos.eqb x 3) three
    (Lists {[1%positive := [2; 3; 4]%positive]} ∅) 1%positive [2; 3; 4]%positive 4
    three_rep eq_refl ltac:(cbn; lia)) as (h' & E & H).
  exists h'. split; [exact E|]. eapply eq_rect; [exact H|]. vm_compute. reflexivity.
Defined.

(** ** Exchanging neighbours *)
Lemma last_not_before (l k1 : list loc) x y k2 z :
  NoDup l → last l = Some z → l = k1 ++ x :: y :: k2 → x ≠ z.
Proof.
  intros Hnd Hl -> ->. rewrite last_app_cons, last_cons_cons in Hl.
  apply NoDup_app in Hnd as (_ & _ & Hnd). apply NoDup_cons in Hnd as [Hnd _]. apply Hnd.
  apply last_Some in Hl as [l' ->]. set_solver.
Qed.

Lemma walk_to_loop h r b path fuel (k : unit) :
  r ∉ path → r ≠ b → next h !! b = Some (Ptr b) →
  (∀ l1 x l2, path = l1 ++ x :: l2 → next h !! x = Some (Ptr (after b l2))) →
  list_for_each_from load_next local_pos (λ _ u, mret (inl u)) fuel (Ptr (after b path)) (Ptr r) k h = NoFuel.
Proof.
  intros Hr Hrb Hb. revert path Hr. induction fuel as [|fuel IH]; intros path Hr Hp; [done|].
  cbn [list_for_each_from]. destruct path as [|x path].
  - change (after b []) with b. rewrite decide_False by (intros [= ->]; done). run. cbn beta iota.
    rewrite (cmd_bind_Ret _ _ h (Ptr b) h) by by apply link_next_ok. run. apply (IH []); [done|].
    intros [|??] ?? ?; done.
  - change (after b (x :: path)) with x. rewrite decide_False by (intros [= ->]; set_solver). run. cbn beta iota.
    erewrite cmd_bind_Ret; [|apply link_next_ok; by apply (Hp [] x path)]. run.
    apply IH; [set_solver|]. intros l1 y l2 ->. by apply (Hp (x :: l1)).
Qed.

Lemma swap_neighbours_run h a b pa :
  next h !! a = Some (Ptr b) → prev h !! a = Some (Ptr pa) →
  alloc h a → alloc h b → alloc h pa → a ≠ b → pa ≠ a →
  list_swap (Ptr a) (Ptr b) h = Ret (tt, ins a b b
    (Heap (<[pa := Ptr b]> (<[b := Ptr b]> (next h))) (<[b := Ptr pa]> (<[b := Ptr b]> (prev h))))).
Proof.
  intros En Ep [??] [??] [??] Hab Hpa.
  unfold list_swap. step_with link_next_ok. rewrite decide_True by done.
  unfold list_replace. erewrite cmd_bind_Ret.
  2: { step_with link_next_ok. step_with set_next_ok. step_with link_next_ok.
       step_with set_prev_ok. step_with link_prev_ok. step_with set_prev_ok.
       step_with link_prev_ok. rewrite set_next_ok by side. reflexivity. }
  unfold list_add. erewrite cmd_bind_Ret.
  2: { apply link_next_ok. cbn. by rewrite !lookup_insert_ne. }
  apply __list_add_ok; split; cbn; auto 10 with links.
Qed.

(** Exchanging two neighbours with [list_swap] corrupts the list: the call returns,
    and a traversal of the list then never ends. *)
Theorem list_swap_neighbours_loops h r l1 a b l2 :
  ring h r (l1 ++ a :: b :: l2) →
  ∃ h', list_swap (Ptr a) (Ptr b) h = Ret (tt, h') ∧
    ∀ fuel, list_for_each load_next local_pos (λ _ u, mret (inl u)) fuel (Ptr r) (Ptr r) tt h' = NoFuel.
Proof.
  intros Hring. destruct (ring_place h r l1 a (b :: l2) Hring) as [En Ep].
  change (after r (b :: l2)) with b in En. set (pa := before r l1) in *.
  assert (pa ∈ cells r l1) as Hpa by apply before_in.
  destruct (Hring) as [Hnd _].
  assert (a ∉ cells r l1 ∧ b ∉ cells r l1 ∧ a ≠ b ∧ r ∉ l1) as (Ha & Hb & Hab & Hrl).
  { clear -Hnd. unfold cells. apply NoDup_cons in Hnd as [Hr Hnd].
    apply NoDup_app in Hnd as (_ & H1 & H2). apply NoDup_cons in H2 as [H2 _]. set_solver. }
  assert (pa ≠ a ∧ pa ≠ b) as [Hpaa Hpab] by (split; intros E; rewrite E in Hpa; done).
  assert (∀ x, x ∈ cells r (l1 ++ a :: b :: l2) → alloc h x) as Hal by (intros x; by apply ring_alloc).
  assert (alloc h pa) by (apply Hal; unfold cells in *; set_solver).
  assert (alloc h a ∧ alloc h b) as [??] by (split; apply Hal; unfold cells; set_solver).
  eexists. split; [by apply (swap_neighbours_run h a b pa)|].
  intros fuel. unfold list_for_each, ins. cbn [next prev].
  set (h' := Heap _ _). assert (∀ x, x ≠ a → x ≠ b → x ≠ pa → next h' !! x = next h !! x) as Hx.
  { intros x ???. cbn. by rewrite !lookup_insert_ne. }
  assert (next h' !! b = Some (Ptr b)) as Hbb by (cbn; by rewrite lookup_insert_ne, lookup_insert_eq).
  assert (next h' !! pa = Some (Ptr b)) as Hpb
    by (cbn; by rewrite lookup_insert_ne, lookup_insert_ne, lookup_insert_eq by done).
  assert (∀ k1 x k2, r :: l1 = k1 ++ x :: k2 → next h' !! x = Some (Ptr (after b k2))) as Hwalk.
  { intros k1 x k2 E. assert (x ∈ cells r l1) as Hxin by (unfold cells; rewrite E; set_solver).
    destruct (cells_split r l1 []) as (P & _ & HP & _). fold pa in HP.
    destruct k2 as [|y k2].
    - rewrite HP in E. apply app_inj_tail in E as [_ <-]. exact Hpb.
    - rewrite Hx; [|by intros ->..|].
      + refine (proj1 (is_dll_next _ _ _ _ k1 x y (k2 ++ a :: b :: l2 ++ [r]) Hring _)).
        change (k1 ++ x :: y :: k2 ++ a :: b :: l2 ++ [r]) with (k1 ++ (x :: y :: k2) ++ a :: b :: l2 ++ [r]).
        rewrite app_assoc, <- E. cbn. by rewrite <- app_assoc.
      + apply (last_not_before (r :: l1) k1 x y k2 pa); [|by rewrite HP, last_snoc|done].
        rewrite app_comm_cons in Hnd. by apply NoDup_app in Hnd as (? & _). }
  erewrite cmd_bind_Ret; [|apply link_next_ok, (Hwalk [] r l1 eq_refl)]. run.
  apply walk_to_loop; [done|unfold cells in Hb; set_solver|done|].
  intros k1 x k2 ->. by apply (Hwalk (r :: k1)).
Qed.

Lemma list_swap_neighbours_loops_witness :
  ∃ h', list_swap (Ptr 2%positive) (Ptr 3%positive) three = Ret (tt, h') ∧
    ∀ fuel, list_for_each load_next local_pos (λ _ u, mret (inl u)) fuel
              (Ptr 1%positive) (Ptr 1%positive) tt h' = NoFuel.
Proof.
  exact (list_swap_neighbours_loops three 1%positive [] 2%positive 3%positive [4%positive] three_ring).
Defined.
