(* ===== verification/EtkDict.v ===== *)
(** libetk's dictionary: [src/efixo/efixo-libetk/src/src/dict.c] and
    [include/etk/dict.h].

    A dictionary is the address of its [head]; an entry is the address of its
    [list].  [calloc] and [strdup] answer NULL when [avail] is used up, and the code
    does not look.  [strings] holds the strings that [strdup] made and that are not
    freed, by their addresses: an entry's key and data are such addresses or NULL, and to
    read or to free any other address is undefined.  Keys and data given by the caller
    are objects. *)

From stdpp Require Import base tactics list gmap.
From S2P Require Import Prelude.
From S2P Require Import Dll.
From S2P Require Import CString.
From S2P Require Import EtkList.
Import EtkList.

Module EtkDict.

Record dict_entry := Entry {
  key : option loc;                   (* [char *] *)
  data : option loc;
}.

Record store := Store {
  links : heap;                       (* every [struct list_head] *)
  entries : gmap loc dict_entry;
  cursor : gmap loc ptr;              (* [dict->entry] *)
  avail : nat;
  strings : gmap loc bytes;
}.

Abbreviation D := (cmd store).

Definition set_links (h : heap) (s : store) : store :=
  Store h (entries s) (cursor s) (avail s) (strings s).
Definition on_links {A} (m : M A) : D A := zoom links set_links m.

Definition set_cursor (dict : loc) (p : ptr) : D unit := λ s,
  Ret (tt, Store (links s) (entries s) (<[dict := p]> (cursor s)) (avail s) (strings s)).

Definition load_entry (p : ptr) : D dict_entry := λ s, lift (l ← deref p; must (entries s !! l)) s.

Definition store_entry (p : ptr) (e : dict_entry) : D unit := λ s,
  match p with
  | Ptr l =>
      if entries s !! l is Some _
      then Ret (tt, Store (links s) (<[l := e]> (entries s)) (cursor s) (avail s) (strings s))
      else Undef
  | _ => Undef
  end.

(** [calloc(1, sizeof(struct dict_entry))]. *)
Definition calloc_entry : D ptr := λ s,
  match avail s with
  | O => Ret (Null, s)
  | S n =>
      let l := fresh (dom (next (links s)) ∪ dom (prev (links s)) ∪ dom (entries s)) in
      Ret (Ptr l, Store (Heap (<[l := Null]> (next (links s))) (<[l := Null]> (prev (links s))))
                    (<[l := Entry None None]> (entries s)) (cursor s) n (strings s))
  end.

Definition free_entry (p : ptr) : D unit := λ s,
  match p with
  | Ptr l =>
      if entries s !! l is Some _
      then Ret (tt, Store (Heap (delete l (next (links s))) (delete l (prev (links s))))
                      (delete l (entries s)) (cursor s) (avail s) (strings s))
      else Undef
  | _ => Undef
  end.

Definition strdup (m : bytes) : D (option loc) := λ s,
  match c_str m with
  | Ret t =>
      match avail s with
      | O => Ret (None, s)
      | S n =>
          let l := fresh (dom (strings s)) in
          Ret (Some l, Store (links s) (entries s) (cursor s) n (<[l := t]> (strings s)))
      end
  | _ => Undef
  end.

(** [free] of a string: nothing for NULL; what is not there, or no more, cannot be freed. *)
Definition free_string (p : option loc) : D unit := λ s,
  match p with
  | None => Ret (tt, s)
  | Some l =>
      if strings s !! l is Some _
      then Ret (tt, Store (links s) (entries s) (cursor s) (avail s) (delete l (strings s)))
      else Undef
  end.

Definition load_string (p : option loc) : D bytes := λ s, lift (l ← must p; must (strings s !! l)) s.

(** [strcmp(entry->key, key) == 0]. *)
Definition same_key (k : option loc) (m : bytes) : D bool :=
  k ← load_string k; t ← lift (c_str m); mret (bytes_eqb k t).

(** More turns than the heap has cells. *)
Definition turns (s : store) : nat := S (size (next (links s))).

Definition advance (p : ptr) : D ptr := on_links (load_next p).

Definition dict_init (dict : loc) : D unit := on_links (INIT_LIST_HEAD (Ptr dict)).

(** [list_del(&entry->list)] and the three calls of [free]. *)
Definition drop_entry (p : ptr) : D unit :=
  on_links (list_del p);;
  e ← load_entry p;
  free_string (key e);;
  free_string (data e);;
  free_entry p.

Definition dict_free (dict : loc) : D unit :=
  s ← get_st;
  list_for_each_safe advance (set_cursor dict)
    (λ p _, drop_entry p;; set_cursor dict Null;; mret (inl tt))
    (turns s) (Ptr dict) (Ptr dict) tt.

Definition dict_put (dict : loc) (k d : bytes) : D unit :=
  s ← get_st;
  found ← list_for_each advance (set_cursor dict)
    (λ p _,
       e ← load_entry p;
       b ← same_key (key e) k;
       if b : bool then
         free_string (data e);;
         d ← strdup d;
         store_entry p (Entry (key e) d);;
         mret (inr true)
       else mret (inl false))
    (turns s) (Ptr dict) (Ptr dict) false;
  if found : bool then mret tt
  else
    p ← calloc_entry;
    set_cursor dict p;;
    e ← load_entry p;
    k ← strdup k; store_entry p (Entry k (data e));;
    d ← strdup d; store_entry p (Entry k d);;
    on_links (list_add_tail p (Ptr dict)).

Definition dict_remove (dict : loc) (k : bytes) : D Z :=
  s ← get_st;
  list_for_each_safe advance (set_cursor dict)
    (λ p ret,
       e ← load_entry p;
       b ← same_key (key e) k;
       if b : bool then drop_entry p;; set_cursor dict Null;; mret (inr 0)
       else mret (inl ret))
    (turns s) (Ptr dict) (Ptr dict) (-1).

(** [key = dict->entry->key, data = dict->entry->data].  At the end of the loop
    [dict->entry] is made from the head, and the two words stand 8 bytes before it: one
    is outside of the [struct dict].  [below] is what the reads give. *)
Definition read_pair (dict : loc) (below : outcome dict_entry) (p : ptr) : D dict_entry :=
  if decide (p = Ptr dict) then lift below else load_entry p.

(** The texts at the two addresses, for the body of the loop. *)
Definition texts (s : store) (e : dict_entry) : option bytes * option bytes :=
  (key e ≫= λ l, strings s !! l, data e ≫= λ l, strings s !! l).

Section for_each.
Context {A : Type} (dict : loc) (below : outcome dict_entry) (body : option bytes * option bytes → A → A + A).

Fixpoint dict_walk (fuel : nat) (p : ptr) (acc : A) : D A :=
  match fuel with
  | O => λ _, NoFuel
  | S f =>
      e ← read_pair dict below p;
      if decide (p = Ptr dict) then mret acc
      else
        s ← get_st;
        match body (texts s e) acc with
        | inr a => mret a
        | inl a => n ← advance p; set_cursor dict n;; dict_walk f n a
        end
  end.

Definition dict_for_each_entry (acc : A) : D A :=
  s ← get_st;
  p ← advance (Ptr dict); set_cursor dict p;; dict_walk (turns s) p acc.

End for_each.

End EtkDict.
