(* ===== verification/EtkDictProofs.v ===== *)
(** libetk's dictionary refines an ordered association list. *)

From stdpp Require Import base tactics list gmap strings.
From S2P Require Import Prelude.
From S2P Require Import Dll.
From S2P Require Import CString.
From S2P Require Import EtkList.
From S2P Require Import EtkListProofs.
From S2P Require Import EtkDict.
Import EtkList EtkDict.

(** ** Specification *)
Abbreviation alist := (list (bytes * bytes)).

(** The data of a key is replaced in place; a new key comes last. *)
Fixpoint al_put (k v : bytes) (al : alist) : alist :=
  match al with
  | [] => [(k, v)]
  | (k', v') :: al => if bytes_eqb k' k then (k', v) :: al else (k', v') :: al_put k v al
  end.

Fixpoint al_remove (k : bytes) (al : alist) : Z * alist :=
  match al with
  | [] => (-1, [])
  | (k', v') :: al =>
      if bytes_eqb k' k then (0, al) else let '(r, al) := al_remove k al in (r, (k', v') :: al)
  end.

Fixpoint al_get (k : bytes) (al : alist) : option bytes :=
  match al with
  | [] => None
  | (k', v) :: al => if bytes_eqb k' k then Some v else al_get k al
  end.

Lemma al_put_new k v al : k ∉ al.*1 → al_put k v al = al ++ [(k, v)].
Proof.
  induction al as [|[k' v'] al IH]; [done|]. intros [Hk Hal]%not_elem_of_cons. cbn in *.
  rewrite (proj2 (bytes_eqb_neq k' k)) by (intros ->; done). by rewrite IH.
Qed.

Lemma al_put_keys k v al : (al_put k v al).*1 = if decide (k ∈ al.*1) then al.*1 else al.*1 ++ [k].
Proof.
  induction al as [|[k' v'] al IH]; [done|]. cbn. destruct (bytes_eqb k' k) eqn:E.
  - apply bytes_eqb_eq in E as ->. rewrite decide_True by by left. done.
  - apply bytes_eqb_neq in E. cbn. rewrite IH.
    repeat case_decide; set_solver.
Qed.

Lemma al_put_NoDup k v al : NoDup al.*1 → NoDup (al_put k v al).*1.
Proof.
  intros Hnd. rewrite al_put_keys. case_decide; [done|].
  apply NoDup_app. split_and!; [done| |apply NoDup_singleton]. set_solver.
Qed.

Lemma al_get_put k v al k' : al_get k' (al_put k v al) = if bytes_eqb k k' then Some v else al_get k' al.
Proof.
  induction al as [|[k1 v1] al IH]; cbn; [done|]. destruct (bytes_eqb k1 k) eqn:E; cbn.
  - apply bytes_eqb_eq in E as ->. by destruct (bytes_eqb k k').
  - rewrite IH. destruct (bytes_eqb k1 k') eqn:E1; [|done]. apply bytes_eqb_eq in E1 as ->.
    destruct (bytes_eqb k k') eqn:E2; [|done]. apply bytes_eqb_eq in E2 as ->.
    by rewrite bytes_eqb_refl in E.
Qed.

(** ** Representation *)

(** [layers M F cs]: the map [M] is [F] and the cells [cs], which are all apart. *)
Fixpoint layers {V} (M F : gmap loc V) (cs : list (loc * V)) : Prop :=
  match cs with
  | [] => M = F
  | (l, v) :: cs => F !! l = None ∧ layers M (<[l := v]> F) cs
  end.

Section layers.
Context {V : Type}.
Implicit Types M F : gmap loc V.

Lemma layers_sub M F cs l v : layers M F cs → F !! l = Some v → M !! l = Some v.
Proof.
  revert F. induction cs as [|[l1 v1] cs IH]; intros F; [by intros ->|]. intros [Hl Hc] E.
  apply (IH _ Hc). rewrite lookup_insert_ne; [done|]. intros ->. congruence.
Qed.

Lemma layers_none M F cs l : layers M F cs → M !! l = None → F !! l = None.
Proof. intros Hc Hl. destruct (F !! l) as [v|] eqn:E; [|done]. by rewrite (layers_sub _ _ _ _ _ Hc E) in Hl. Qed.

Lemma layers_head M F l v cs : layers M F ((l, v) :: cs) → M !! l = Some v.
Proof. intros [_ Hc]. eapply layers_sub; [exact Hc|]. apply lookup_insert_eq. Qed.

Lemma layers_snoc M F cs l v : layers M F cs → M !! l = None → layers (<[l := v]> M) F (cs ++ [(l, v)]).
Proof.
  revert F. induction cs as [|[l1 v1] cs IH]; intros F; cbn; [by intros ->|]. intros [Hl1 Hc] Hl. auto.
Qed.

(** What is outside of the cells may change. *)
Lemma layers_delete M F cs l v : layers M F cs → F !! l = Some v → layers (delete l M) (delete l F) cs.
Proof.
  revert F. induction cs as [|[l1 v1] cs IH]; intros F; cbn; [by intros ->|]. intros [Hl1 Hc] Hl.
  assert (l ≠ l1) by congruence. split; [by rewrite lookup_delete_ne|]. rewrite <- delete_insert_ne by done.
  apply IH; [done|]. by rewrite lookup_insert_ne.
Qed.

Lemma layers_insert M F cs l v : layers M F cs → M !! l = None → layers (<[l := v]> M) (<[l := v]> F) cs.
Proof.
  revert F. induction cs as [|[l1 v1] cs IH]; intros F; cbn; [by intros ->|]. intros [Hl1 Hc] Hl.
  assert (l ≠ l1).
  { intros ->. apply (layers_none _ _ _ _ Hc) in Hl. by rewrite lookup_insert_eq in Hl. }
  split; [by rewrite lookup_insert_ne|]. rewrite insert_insert_ne by done. by apply IH.
Qed.

Lemma layers_update M F cs l v v' : layers M F cs → F !! l = Some v → layers (<[l := v']> M) (<[l := v']> F) cs.
Proof.
  revert F. induction cs as [|[l1 v1] cs IH]; intros F; cbn; [by intros ->|]. intros [Hl1 Hc] Hl.
  assert (l ≠ l1) by congruence. split; [by rewrite lookup_insert_ne|]. rewrite insert_insert_ne by done.
  apply IH; [done|]. by rewrite lookup_insert_ne.
Qed.

(** The first cell goes, or is replaced by a new one. *)
Lemma layers_pop M F l v cs : layers M F ((l, v) :: cs) → layers (delete l M) F cs.
Proof.
  intros [Hl Hc]. apply (layers_delete _ _ _ l v) in Hc; [|apply lookup_insert_eq].
  by rewrite delete_insert_id in Hc.
Qed.

Lemma layers_renew M F l v cs l' v' :
  layers M F ((l, v) :: cs) → delete l M !! l' = None → layers (<[l' := v']> (delete l M)) F ((l', v') :: cs).
Proof. intros Hc%layers_pop Hl'. split; [by eapply layers_none|by apply layers_insert]. Qed.

Lemma layers_set M F l v cs v' : layers M F ((l, v) :: cs) → layers (<[l := v']> M) F ((l, v') :: cs).
Proof.
  intros [Hl Hc]. split; [done|]. apply (layers_update _ _ _ l v v') in Hc; [|apply lookup_insert_eq].
  by rewrite insert_insert_eq in Hc.
Qed.
End layers.

(** An entry with its two strings: their addresses and the texts. *)
Record item := Item { at_ : loc; kl : loc; dl : loc; ik : bytes; iv : bytes }.

Definition item_entry (i : item) : dict_entry := Entry (Some (kl i)) (Some (dl i)).
Definition pairs (its : list item) : alist := (λ i, (ik i, iv i)) <$> its.
Definition entry_cells (its : list item) : list (loc * dict_entry) := (λ i, (at_ i, item_entry i)) <$> its.
Fixpoint string_cells (its : list item) : list (loc * bytes) :=
  match its with [] => [] | i :: its => (kl i, ik i) :: (dl i, iv i) :: string_cells its end.

(** The memory is the entries, their strings, each its own, and the rest [G] and [F]. *)
Definition own (E : gmap loc dict_entry) (S : gmap loc bytes) (G : gmap loc dict_entry) (F : gmap loc bytes)
    (its : list item) : Prop :=
  layers E G (entry_cells its) ∧ layers S F (string_cells its).

Record drep (st : store) (s : lists) (d : loc) (G : gmap loc dict_entry) (F : gmap loc bytes) (its : list item) : Prop := {
  dr_rep : rep (links st) s;
  dr_list : on s !! d = Some (at_ <$> its);
  dr_own : own (entries st) (strings st) G F its;
}.

(** The first entry joins what is left alone. *)
Definition with_entry (i : item) (G : gmap loc dict_entry) : gmap loc dict_entry := <[at_ i := item_entry i]> G.
Definition with_strings (i : item) (F : gmap loc bytes) : gmap loc bytes := <[dl i := iv i]> (<[kl i := ik i]> F).

Lemma own_cons E S G F i its :
  own E S G F (i :: its) ↔
  G !! at_ i = None ∧ F !! kl i = None ∧ <[kl i := ik i]> F !! dl i = None ∧
  own E S (with_entry i G) (with_strings i F) its.
Proof. unfold own. cbn. tauto. Qed.

Lemma own_entry E S G F i its : own E S G F (i :: its) → E !! at_ i = Some (item_entry i).
Proof. intros [HE _]. by eapply layers_head. Qed.

Lemma own_key E S G F i its : own E S G F (i :: its) → S !! kl i = Some (ik i).
Proof. intros [_ HS]. by eapply layers_head. Qed.

Lemma own_data E S G F i its : own E S G F (i :: its) → S !! dl i = Some (iv i).
Proof. intros [_ [_ HS]]. by eapply layers_head. Qed.

Lemma own_snoc E S G F its x a k b v :
  own E S G F its → E !! x = None → S !! a = None → <[a := k]> S !! b = None →
  own (<[x := Entry (Some a) (Some b)]> E) (<[b := v]> (<[a := k]> S)) G F (its ++ [Item x a b k v]).
Proof.
  intros [HE HS] Hx Ha Hb. split.
  - unfold entry_cells. rewrite fmap_app. by apply layers_snoc.
  - assert (string_cells (its ++ [Item x a b k v]) = (string_cells its ++ [(a, k)]) ++ [(b, v)]) as ->.
    { rewrite <- app_assoc. cbn. clear. induction its as [|i its IH]; cbn; [done|]. by rewrite IH. }
    by do 2 (apply layers_snoc; [|done]).
Qed.

(** The data of the first entry is freed and made anew. *)
Lemma own_renew E S G F i its l v :
  own E S G F (i :: its) → delete (dl i) S !! l = None →
  own (<[at_ i := Entry (Some (kl i)) (Some l)]> E) (<[l := v]> (delete (dl i) S)) G F
    (Item (at_ i) (kl i) l (ik i) v :: its).
Proof.
  intros [HE HS] Hl. split; [exact (layers_set _ _ _ _ _ _ HE)|]. destruct HS as [Hk HS]. split; [done|].
  exact (layers_renew _ _ _ _ _ _ _ HS Hl).
Qed.

(** The first entry and its strings are freed. *)
Lemma own_pop E S G F i its :
  own E S G F (i :: its) → own (delete (at_ i) E) (delete (dl i) (delete (kl i) S)) G F its.
Proof.
  intros [HE HS]. split; [exact (layers_pop _ _ _ _ _ HE)|]. exact (layers_pop _ _ _ _ _ (layers_pop _ _ _ _ _ HS)).
Qed.

Lemma own_pop_data E S G F i its : own E S G F (i :: its) → delete (kl i) S !! dl i = Some (iv i).
Proof. intros [_ HS]. exact (layers_head _ _ _ _ _ (layers_pop _ _ _ _ _ HS)). Qed.

(** *** Running *)
Lemma on_links_ok {A} (m : M A) st a h :
  m (links st) = Ret (a, h) → on_links m st = Ret (a, set_links h st).
Proof. intros E. unfold on_links, zoom. by rewrite E. Qed.

Lemma load_entry_ok st x e : entries st !! x = Some e → load_entry (Ptr x) st = Ret (e, st).
Proof. intros E. unfold load_entry. cbn. by rewrite E. Qed.

Lemma set_links_id st : set_links (links st) st = st.
Proof. by destruct st. Qed.

Lemma advance_ok st x p : next (links st) !! x = Some p → advance (Ptr x) st = Ret (p, st).
Proof.
  intros E. unfold advance. erewrite on_links_ok; [|by apply link_next_ok]. by rewrite set_links_id.
Qed.

Lemma same_key_ok st l k m t :
  strings st !! l = Some k → c_str m = Ret t → same_key (Some l) m st = Ret (bytes_eqb k t, st).
Proof.
  intros Hl E. unfold same_key. erewrite cmd_bind_Ret; [|unfold load_string; cbn; by rewrite Hl]. rewrite E. by run.
Qed.

Lemma free_string_ok st l t :
  strings st !! l = Some t →
  free_string (Some l) st = Ret (tt, Store (links st) (entries st) (cursor st) (avail st) (delete l (strings st))).
Proof. intros E. unfold free_string. by rewrite E. Qed.

(** A dictionary has fewer entries than the heap has cells. *)
Lemma turns_enough st s d ns :
  rep (links st) s → on s !! d = Some ns → (length ns < turns st)%nat.
Proof.
  intros Hrep Hd. pose proof (rep_ring _ _ Hrep _ _ Hd) as Hr. unfold turns.
  assert (length (d :: ns) ≤ size (next (links st)))%nat as Hle; [|cbn in Hle; lia].
  rewrite <- size_dom. destruct (Hr) as [Hnd _].
  rewrite <- (size_list_to_set (C:=gset loc) (d :: ns)) by done.
  apply subseteq_size. intros x Hx%elem_of_list_to_set. apply elem_of_dom.
  by destruct (ring_alloc _ _ _ _ Hr Hx).
Qed.

Definition but_cursor (c : gmap loc ptr) (st : store) : store :=
  Store (links st) (entries st) c (avail st) (strings st).

Lemma but_cursor_idemp c c' st : but_cursor c (but_cursor c' st) = but_cursor c st.
Proof. done. Qed.

(** The next cell of an entry or of the head. *)
Lemma next_of h s d k ns :
  rep h s → on s !! d = Some (k ++ ns) →
  ∀ x ns', ns = x :: ns' → next h !! x = Some (Ptr (after d ns')) ∧ x ≠ d.
Proof.
  intros Hrep Hd x ns' ->. pose proof (rep_ring _ _ Hrep _ _ Hd) as Hr. split.
  - by destruct (ring_place _ _ _ _ _ Hr).
  - intros ->. destruct Hr as [Hnd _]. apply NoDup_cons in Hnd as [Hnd _]. set_solver.
Qed.

(** ** [dict_put] *)
Section put.
Context (d : loc) (k v : bytes) (kt vt : bytes).
Hypothesis Hk : c_str k = Ret kt.
Hypothesis Hv : c_str v = Ret vt.

Definition put_body (p : ptr) (_ : bool) : D (bool + bool) :=
  e ← load_entry p;
  b ← same_key (key e) k;
  if b : bool then
    free_string (data e);;
    d ← strdup v;
    store_entry p (Entry (key e) d);;
    mret (inr true)
  else mret (inl false).

Lemma dict_strdup_ok m t st n :
  c_str m = Ret t → avail st = S n →
  ∃ l, strings st !! l = None ∧
    strdup m st = Ret (Some l, Store (links st) (entries st) (cursor st) n (<[l := t]> (strings st))).
Proof.
  intros E En. unfold strdup. rewrite E, En. eexists. split; [|reflexivity]. apply not_elem_of_dom, is_fresh.
Qed.

Lemma put_body_hit st G F i its n a :
  own (entries st) (strings st) G F (i :: its) → ik i = kt → avail st = S n →
  ∃ E S l, put_body (Ptr (at_ i)) a st = Ret (inr true, Store (links st) E (cursor st) n S) ∧
    own E S G F (Item (at_ i) (kl i) l kt vt :: its).
Proof.
  intros Ho Ek En. unfold put_body. erewrite cmd_bind_Ret by by eapply load_entry_ok, own_entry.
  cbn [item_entry key data]. erewrite cmd_bind_Ret by by eapply same_key_ok; [eapply own_key|].
  rewrite (proj2 (bytes_eqb_eq _ _) Ek). erewrite cmd_bind_Ret by by eapply free_string_ok, own_data.
  destruct (dict_strdup_ok v vt (Store (links st) (entries st) (cursor st) (avail st) (delete (dl i) (strings st))) n Hv En)
    as (l & Hl & El). erewrite cmd_bind_Ret by exact El. cbn [links entries cursor strings] in *.
  pose proof (own_entry _ _ _ _ _ _ Ho) as Ex. unfold store_entry, mbind, cmd_bind. cbn [entries]. rewrite Ex.
  do 3 eexists. split; [reflexivity|]. rewrite <- Ek. by apply own_renew.
Qed.

Lemma put_body_miss st G F i its a :
  own (entries st) (strings st) G F (i :: its) → ik i ≠ kt → put_body (Ptr (at_ i)) a st = Ret (inl false, st).
Proof.
  intros Ho Ek. unfold put_body. erewrite cmd_bind_Ret by by eapply load_entry_ok, own_entry.
  cbn [item_entry key data]. erewrite cmd_bind_Ret by by eapply same_key_ok; [eapply own_key|].
  by rewrite (proj2 (bytes_eqb_neq _ _)).
Qed.

(** The loop leaves everything alone, or replaces the data of the key. *)
Lemma put_loop s its k0 fuel st n G F :
  rep (links st) s → on s !! d = Some (k0 ++ (at_ <$> its)) → own (entries st) (strings st) G F its →
  (length its < fuel)%nat → avail st = S n →
  let loop := list_for_each_from advance (set_cursor d) put_body fuel (Ptr (after d (at_ <$> its))) (Ptr d) false st in
  (kt ∉ (pairs its).*1 ∧ ∃ c, loop = Ret (false, but_cursor c st)) ∨
  (kt ∈ (pairs its).*1 ∧ ∃ c E S its', loop = Ret (true, Store (links st) E c n S) ∧
     own E S G F its' ∧ at_ <$> its' = at_ <$> its ∧ pairs its' = al_put kt vt (pairs its)).
Proof.
  intros Hrep Hd Ho Hf Hn. revert k0 fuel st G F Hrep Hd Ho Hf Hn.
  induction its as [|i its IH]; intros k0 [|fuel] st G F Hrep Hd Ho Hf Hn; cbn in Hf; [lia| |lia|];
    cbn [list_for_each_from]; rewrite ?fmap_cons in *.
  - left. split; [apply not_elem_of_nil|]. exists (cursor st). rewrite decide_True by done. by destruct st.
  - destruct (next_of _ _ _ _ _ Hrep Hd (at_ i) _ eq_refl) as [En Hxd]. change (after d (at_ i :: (at_ <$> its))) with (at_ i).
    rewrite decide_False by congruence. destruct (decide (ik i = kt)) as [Ek|Ek].
    + right. split; [cbn; rewrite Ek; by left|].
      destruct (put_body_hit st G F i its n false Ho Ek Hn) as (E & S & l & Eb & Ho').
      exists (cursor st), E, S, (Item (at_ i) (kl i) l kt vt :: its). erewrite cmd_bind_Ret by exact Eb.
      split_and!; [reflexivity|done|done|]. cbn. by rewrite Ek, bytes_eqb_refl.
    + erewrite cmd_bind_Ret by (eapply put_body_miss; eassumption). cbn beta iota.
      erewrite cmd_bind_Ret by (apply advance_ok; eassumption). run.
      pose proof Ho as (Hg & Hk' & Hd' & Ho1)%own_cons.
      destruct (IH (k0 ++ [at_ i]) fuel (but_cursor (<[d := Ptr (after d (at_ <$> its))]> (cursor st)) st) (with_entry i G) (with_strings i F) Hrep)
        as [[Hno (c & E)]|(Hyes & c & E & S & its' & Hrun & Ho' & Hat & Hp)];
        [by rewrite <- app_assoc|exact Ho1|lia|done|..].
      * left. split; [cbn; apply not_elem_of_cons; by split|]. exists c. exact E.
      * right. split; [by right|]. exists c, E, S, (i :: its'). split_and!; [exact Hrun|by apply own_cons|cbn; by rewrite Hat|].
        unfold pairs in *. cbn. rewrite (proj2 (bytes_eqb_neq _ _)) by done. by rewrite Hp.
Qed.
End put.

Lemma calloc_entry_ok st n :
  avail st = S n →
  ∃ l, next (links st) !! l = None ∧ prev (links st) !! l = None ∧ entries st !! l = None ∧
    calloc_entry st = Ret (Ptr l, Store (Heap (<[l := Null]> (next (links st))) (<[l := Null]> (prev (links st))))
                            (<[l := Entry None None]> (entries st)) (cursor st) n (strings st)).
Proof.
  intros Hn. unfold calloc_entry. rewrite Hn. set (l := fresh _).
  assert (l ∉ dom (next (links st)) ∪ dom (prev (links st)) ∪ dom (entries st)) as Hl by apply is_fresh. clearbody l.
  apply not_elem_of_union in Hl as [[H1%not_elem_of_dom H2%not_elem_of_dom]%not_elem_of_union H3%not_elem_of_dom].
  by exists l.
Qed.

Lemma list_add_tail_new h s d ns x :
  rep h s → on s !! d = Some ns → next h !! x = None → prev h !! x = None →
  ∃ h', list_add_tail (Ptr x) (Ptr d) (Heap (<[x := Null]> (next h)) (<[x := Null]> (prev h))) = Ret (tt, h') ∧
    rep h' (Lists (<[d := ns ++ [x]]> (on s)) (off s)) ∧ x ∉ d :: ns.
Proof.
  intros Hrep Hd Hn Hp. pose proof (rep_local h s x Hrep Hn Hp) as Hrep0.
  assert (alloc h x → False) as Hal by (intros [[? ?] _]; congruence).
  destruct (list_add_tail_sim _ _ (Lists (<[d := ns ++ [x]]> (on s)) (off s)) x d Hrep0) as (h' & E & Hrep').
  { unfold s_add. cbn. rewrite Hd. cbn. rewrite decide_True by set_solver. do 2 f_equal.
    assert (x ∉ off s) by (intros Hx; by apply Hal, (rep_alloc _ _ Hrep)). set_solver. }
  exists h'. split_and!; [done|done|]. intros Hx. by apply Hal, (ring_alloc _ _ _ _ (rep_ring _ _ Hrep _ _ Hd)).
Qed.

Lemma dict_put_ok st s d G F its k v kt vt :
  drep st s d G F its → c_str k = Ret kt → c_str v = Ret vt → (3 <= avail st)%nat →
  ∃ st' its', dict_put d k v st = Ret (tt, st') ∧
    drep st' (Lists (<[d := at_ <$> its']> (on s)) (off s)) d G F its' ∧ pairs its' = al_put kt vt (pairs its) ∧
    (avail st <= avail st' + 3)%nat.
Proof.
  intros [Hrep Hd Ho] Hk Hv Hav. destruct (avail st) as [|[|[|n]]] eqn:Hn; [lia..|].
  unfold dict_put. run. destruct (is_dll_root _ _ _ _ (rep_ring _ _ Hrep _ _ Hd)) as [En _].
  pose proof (turns_enough _ _ _ _ Hrep Hd) as Hf. rewrite length_fmap in Hf.
  destruct (put_loop d k v kt vt Hk Hv s its [] (turns st)
    (but_cursor (<[d := Ptr (after d (at_ <$> its))]> (cursor st)) st) (S (S n)) G F)
    as [[Hno (c & Hrun)]|(Hyes & c & E & S & its' & Hrun & Ho' & Hat & Hp)]; [done|done|done|done|done|..].
  - erewrite cmd_bind_Ret.
    2: { unfold list_for_each. erewrite cmd_bind_Ret by (apply advance_ok; eassumption). run. exact Hrun. }
    cbn beta iota. destruct (calloc_entry_ok (but_cursor c st) (S (S n)) Hn) as (l & Hl1 & Hl2 & Hl3 & Ec).
    rewrite but_cursor_idemp. erewrite cmd_bind_Ret by exact Ec. run.
    erewrite cmd_bind_Ret; [|apply load_entry_ok; cbn; apply lookup_insert_eq].
    match goal with |- context [(strdup k ≫= _) ?st0] =>
      destruct (dict_strdup_ok k kt st0 (S n) Hk eq_refl) as (a & Ha & Ea) end.
    erewrite cmd_bind_Ret by exact Ea. erewrite cmd_bind_Ret; [|unfold store_entry; cbn; rewrite lookup_insert_eq; reflexivity].
    match goal with |- context [(strdup v ≫= _) ?st0] =>
      destruct (dict_strdup_ok v vt st0 n Hv eq_refl) as (b & Hb & Eb) end.
    erewrite cmd_bind_Ret by exact Eb. erewrite cmd_bind_Ret; [|unfold store_entry; cbn; rewrite lookup_insert_eq; reflexivity].
    destruct (list_add_tail_new (links st) s d (at_ <$> its) l) as (h' & Et & Hrep' & Hl); [done..|].
    erewrite on_links_ok by exact Et. exists (Store h' (<[l := Entry (Some a) (Some b)]> (entries st)) (<[d := Ptr l]> c) n
      (<[b := vt]> (<[a := kt]> (strings st)))), (its ++ [Item l a b kt vt]).
    split_and!.
    + unfold set_links. cbn. by rewrite !insert_insert_eq.
    + split; cbn [links entries strings on]; rewrite ?fmap_app; [exact Hrep'|by rewrite lookup_insert_eq|by apply own_snoc].
    + unfold pairs. rewrite fmap_app, al_put_new by done. done.
    + cbn. lia.
  - erewrite cmd_bind_Ret.
    2: { unfold list_for_each. erewrite cmd_bind_Ret by (apply advance_ok; eassumption). run. exact Hrun. }
    cbn beta iota. do 2 eexists. split; [reflexivity|]. split_and!; [|exact Hp|cbn; lia].
    rewrite Hat, (insert_id (on s)) by exact Hd. split; cbn [links entries strings on]; [by destruct s|by rewrite Hat|done].
Qed.

(** ** Taking entries out *)
Lemma drop_entry_ok st s d k i ns its G F :
  rep (links st) s → on s !! d = Some (k ++ at_ i :: ns) → own (entries st) (strings st) G F (i :: its) →
  ∃ h' E S, drop_entry (Ptr (at_ i)) st = Ret (tt, Store h' E (cursor st) (avail st) S) ∧ own E S G F its ∧
    rep h' (Lists (<[d := k ++ ns]> (on s)) (off s)).
Proof.
  intros Hrep Hd Ho. destruct (list_del_one _ _ _ _ _ _ Hrep Hd) as (h' & E & Hrep').
  assert (at_ i ∉ off s) as Hx.
  { intros Hx. eapply (rep_off _ _ Hrep); [done|done|]. unfold cells. set_solver. }
  pose proof (own_entry _ _ _ _ _ _ Ho) as Ex.
  exists (Heap (delete (at_ i) (next h')) (delete (at_ i) (prev h'))). do 2 eexists.
  split; [|split; [by eapply own_pop|by apply rep_forget]].
  unfold drop_entry. erewrite cmd_bind_Ret; [|by apply on_links_ok].
  run_with (load_entry_ok (set_links h' st) (at_ i) _ Ex). cbn [item_entry key data].
  erewrite cmd_bind_Ret by (eapply free_string_ok, own_key; exact Ho).
  erewrite cmd_bind_Ret by (eapply free_string_ok, own_pop_data; exact Ho).
  unfold free_entry. cbn. by rewrite Ex.
Qed.

(** *** [dict_remove] *)
Section remove.
Context (d : loc) (k : bytes) (kt : bytes) (Hk : c_str k = Ret kt).

Definition remove_body (p : ptr) (ret : Z) : D (Z + Z) :=
  e ← load_entry p;
  b ← same_key (key e) k;
  if b : bool then drop_entry p;; set_cursor d Null;; mret (inr 0)
  else mret (inl ret).

(** The pointer read ahead: what follows the entry at hand. *)
Definition ahead (ns : list loc) (n : ptr) : Prop :=
  match ns with [] => True | _ :: ns' => n = Ptr (after d ns') end.

Lemma advance_ahead st s k0 ns :
  rep (links st) s → on s !! d = Some (k0 ++ ns) →
  ∃ n, advance (Ptr (after d ns)) st = Ret (n, st) ∧ ahead ns n.
Proof.
  intros Hrep Hd. destruct ns as [|x ns].
  - destruct (is_dll_root _ _ _ _ (rep_ring _ _ Hrep _ _ Hd)) as [En _].
    eexists. split; [by apply advance_ok|done].
  - destruct (next_of _ _ _ _ _ Hrep Hd x ns eq_refl) as [En _].
    eexists. split; [by apply advance_ok|done].
Qed.

Lemma remove_body_miss st G F i its a :
  own (entries st) (strings st) G F (i :: its) → ik i ≠ kt → remove_body (Ptr (at_ i)) a st = Ret (inl a, st).
Proof.
  intros Ho Ek. unfold remove_body. run_with (load_entry_ok st _ _ (own_entry _ _ _ _ _ _ Ho)).
  run_with (same_key_ok st _ _ k kt (own_key _ _ _ _ _ _ Ho) Hk). by rewrite (proj2 (bytes_eqb_neq _ _)).
Qed.

Lemma remove_body_hit st s k0 i ns its G F a :
  rep (links st) s → on s !! d = Some (k0 ++ at_ i :: ns) → own (entries st) (strings st) G F (i :: its) →
  ik i = kt →
  ∃ st', remove_body (Ptr (at_ i)) a st = Ret (inr 0, st') ∧
    rep (links st') (Lists (<[d := k0 ++ ns]> (on s)) (off s)) ∧ own (entries st') (strings st') G F its ∧
    avail st' = avail st.
Proof.
  intros Hrep Hd Ho Ek. destruct (drop_entry_ok st s d k0 i ns its G F Hrep Hd Ho) as (h' & E & S & Ed & Ho' & Hrep').
  unfold remove_body. eexists. run_with (load_entry_ok st _ _ (own_entry _ _ _ _ _ _ Ho)).
  run_with (same_key_ok st _ _ k kt (own_key _ _ _ _ _ _ Ho) Hk). rewrite (proj2 (bytes_eqb_eq _ _) Ek).
  run_with Ed. run. by split_and!.
Qed.

Lemma remove_loop s its k0 fuel st n G F :
  rep (links st) s → on s !! d = Some (k0 ++ (at_ <$> its)) → own (entries st) (strings st) G F its →
  (length its < fuel)%nat → ahead (at_ <$> its) n →
  ∃ st' its', list_for_each_safe_from advance (set_cursor d) remove_body fuel
      (Ptr (after d (at_ <$> its))) n (Ptr d) (-1) st = Ret ((al_remove kt (pairs its)).1, st') ∧
    rep (links st') (Lists (<[d := k0 ++ (at_ <$> its')]> (on s)) (off s)) ∧
    own (entries st') (strings st') G F its' ∧ pairs its' = (al_remove kt (pairs its)).2 ∧
    avail st' = avail st.
Proof.
  intros Hrep Hd Ho Hf Hn. revert k0 fuel st n G F Hrep Hd Ho Hf Hn.
  induction its as [|i its IH]; intros k0 [|fuel] st n G F Hrep Hd Ho Hf Hn; cbn in Hf; [lia| |lia|];
    cbn [list_for_each_safe_from]; rewrite ?fmap_cons in *.
  - rewrite decide_True by done. exists st, []. split_and!; try done. rewrite insert_id by done. by destruct s.
  - destruct (next_of _ _ _ _ _ Hrep Hd (at_ i) _ eq_refl) as [En Hxd]. change (after d (at_ i :: (at_ <$> its))) with (at_ i).
    rewrite decide_False by congruence. cbn [pairs fmap list_fmap al_remove]. fold (pairs its). destruct (bytes_eqb (ik i) kt) eqn:Ek.
    + apply bytes_eqb_eq in Ek.
      destruct (remove_body_hit st s k0 i _ its G F (-1) Hrep Hd Ho Ek) as (st' & E & Hrep' & Ho' & Hav).
      exists st', its. run_with E. cbn [fst snd]. by split_and!.
    + apply bytes_eqb_neq in Ek. run_with (remove_body_miss st G F i its (-1) Ho Ek). cbn beta iota.
      cbn in Hn. rewrite Hn. run. set (st1 := Store _ _ _ _ _).
      assert (on s !! d = Some ((k0 ++ [at_ i]) ++ (at_ <$> its))) as Hd1 by by rewrite <- app_assoc.
      destruct (advance_ahead st1 s (k0 ++ [at_ i]) _ Hrep Hd1) as (n' & En' & Hah). run_with En'.
      pose proof Ho as (Hg & Hk' & Hd' & Ho1)%own_cons.
      destruct (IH (k0 ++ [at_ i]) fuel st1 n' _ _ Hrep Hd1 Ho1) as (st' & its' & E & Hrep' & Ho' & Hp & Hav); [lia|done|].
      destruct (al_remove kt (pairs its)) as [r al2]. cbn [fst snd] in *. exists st', (i :: its').
      split_and!; [exact E|by rewrite <- app_assoc in Hrep'|by apply own_cons|unfold pairs in *; cbn; by rewrite Hp|done].
Qed.
End remove.

Lemma dict_remove_ok st s d G F its k kt :
  drep st s d G F its → c_str k = Ret kt →
  ∃ st' its', dict_remove d k st = Ret ((al_remove kt (pairs its)).1, st') ∧
    drep st' (Lists (<[d := at_ <$> its']> (on s)) (off s)) d G F its' ∧ pairs its' = (al_remove kt (pairs its)).2 ∧
    avail st' = avail st.
Proof.
  intros [Hrep Hd Ho] Hk. unfold dict_remove. run. unfold list_for_each_safe.
  destruct (is_dll_root _ _ _ _ (rep_ring _ _ Hrep _ _ Hd)) as [En _].
  run_with (advance_ok st d _ En). run. set (st1 := Store _ _ _ _ _).
  destruct (advance_ahead d st1 s [] _ Hrep Hd) as (n & En1 & Hah). run_with En1.
  pose proof (turns_enough _ _ _ _ Hrep Hd) as Hf. rewrite length_fmap in Hf.
  destruct (remove_loop d k kt Hk s its [] (turns st) st1 n G F)
    as (st' & its' & E & Hrep' & Ho' & Hp & Hav); [done..|].
  exists st', its'. split_and!; [exact E| |done|done]. split; [done|by cbn; rewrite lookup_insert_eq|done].
Qed.

(** *** [dict_free] *)
Definition free_body (d : loc) (p : ptr) (_ : unit) : D (unit + unit) :=
  drop_entry p;; set_cursor d Null;; mret (inl tt).

Lemma free_loop d s its fuel st n G F :
  rep (links st) s → on s !! d = Some (at_ <$> its) → own (entries st) (strings st) G F its → (length its < fuel)%nat →
  ahead d (at_ <$> its) n →
  ∃ st', list_for_each_safe_from advance (set_cursor d) (free_body d) fuel
      (Ptr (after d (at_ <$> its))) n (Ptr d) tt st = Ret (tt, st') ∧
    rep (links st') (Lists (<[d := []]> (on s)) (off s)) ∧ entries st' = G ∧ strings st' = F.
Proof.
  intros Hrep Hd Ho Hf Hn. revert s fuel st n Hrep Hd Ho Hf Hn.
  induction its as [|i its IH]; intros s [|fuel] st n Hrep Hd Ho Hf Hn; cbn in Hf; [lia| |lia|];
    cbn [list_for_each_safe_from]; rewrite ?fmap_cons in *.
  - rewrite decide_True by done. destruct Ho as [HE HS]. exists st. split_and!; try done.
    rewrite insert_id by done. by destruct s.
  - destruct (next_of _ _ _ [] _ Hrep Hd (at_ i) _ eq_refl) as [En Hxd]. change (after d (at_ i :: (at_ <$> its))) with (at_ i).
    rewrite decide_False by congruence.
    destruct (drop_entry_ok st s d [] i _ its G F Hrep Hd Ho) as (h' & E & S & Ed & Ho' & Hrep').
    assert (free_body d (Ptr (at_ i)) tt st = Ret (inl tt, Store h' E (<[d := Null]> (cursor st)) (avail st) S)) as Eb
      by (unfold free_body; run_with Ed; by run).
    run_with Eb. cbn beta iota.
    cbn in Hn. rewrite Hn. run. cbn [links entries cursor avail strings]. set (st1 := Store h' _ _ _ _).
    destruct (advance_ahead d st1 _ [] (at_ <$> its) Hrep') as (n' & En' & Hah); [by cbn; rewrite lookup_insert_eq|].
    run_with En'.
    destruct (IH _ fuel st1 n' Hrep') as (st' & Erun & Hrep2 & HG & HF);
      [by cbn; rewrite lookup_insert_eq|done|lia|done|].
    exists st'. split_and!; [exact Erun| |done|done].
    cbn [on off] in Hrep2. by rewrite insert_insert_eq in Hrep2.
Qed.

(** ** Sequences of operations *)
Inductive dict_op :=
| DPut (k v : bytes)
| DRemove (k : bytes).

Definition exec_op (d : loc) (o : dict_op) : D Z :=
  match o with
  | DPut k v => dict_put d (cstr k) (cstr v);; mret 0
  | DRemove k => dict_remove d (cstr k)
  end.

Definition spec_op (o : dict_op) (al : alist) : Z * alist :=
  match o with
  | DPut k v => (0, al_put k v al)
  | DRemove k => al_remove k al
  end.

Fixpoint exec_ops (d : loc) (os : list dict_op) : D (list Z) :=
  match os with
  | [] => mret []
  | o :: os => r ← exec_op d o; rs ← exec_ops d os; mret (r :: rs)
  end.

Fixpoint spec_ops (os : list dict_op) (al : alist) : list Z * alist :=
  match os with
  | [] => ([], al)
  | o :: os => let '(r, al) := spec_op o al in let '(rs, al) := spec_ops os al in (r :: rs, al)
  end.

Definition op_text (o : dict_op) : Prop :=
  match o with DPut k v => text k ∧ text v | DRemove k => text k end.

Lemma exec_op_ok d o st s G F its :
  drep st s d G F its → op_text o → (3 <= avail st)%nat →
  ∃ st' its', exec_op d o st = Ret ((spec_op o (pairs its)).1, st') ∧
    drep st' (Lists (<[d := at_ <$> its']> (on s)) (off s)) d G F its' ∧ pairs its' = (spec_op o (pairs its)).2 ∧
    (avail st <= avail st' + 3)%nat.
Proof.
  intros Hr Ho Hav. destruct o as [k v|k]; cbn [exec_op spec_op fst snd].
  - destruct Ho as [Hk Hv]. destruct (dict_put_ok st s d G F its (cstr k) (cstr v) k v Hr)
      as (st1 & its1 & E & ? & ? & ?); [by apply c_str_cstr|by apply c_str_cstr|lia|].
    exists st1, its1. split_and!; [by run_with E|done..].
  - destruct (dict_remove_ok st s d G F its (cstr k) k Hr) as (st1 & its1 & E & ? & ? & ?);
      [by apply c_str_cstr|]. exists st1, its1. split_and!; [done|done|done|lia].
Qed.

Lemma exec_ops_ok d os st s G F its :
  drep st s d G F its → Forall op_text os → (3 * length os <= avail st)%nat →
  ∃ st' its', exec_ops d os st = Ret ((spec_ops os (pairs its)).1, st') ∧
    drep st' (Lists (<[d := at_ <$> its']> (on s)) (off s)) d G F its' ∧ pairs its' = (spec_ops os (pairs its)).2.
Proof.
  intros Hr Hos. revert st s its Hr. induction Hos as [|o os Ho Hos IH]; intros st s its Hr Hav; cbn in Hav.
  - exists st, its. split_and!; [done| |done]. destruct Hr as [Hrep Hd He].
    rewrite insert_id by done. by destruct s.
  - destruct (exec_op_ok d o st s G F its Hr Ho) as (st1 & its1 & E1 & Hr1 & Hp1 & Hav1); [lia|].
    cbn [exec_ops spec_ops]. run_with E1. destruct (spec_op o (pairs its)) as [r al1]. cbn [fst snd] in *. subst al1.
    destruct (IH st1 _ its1 Hr1) as (st2 & its2 & E2 & Hr2 & Hp2); [lia|].
    run_with E2. destruct (spec_ops os (pairs its1)) as [rs al2]. cbn [fst snd on off] in *.
    rewrite insert_insert_eq in Hr2. by exists st2, its2.
Qed.

(** A store with one cell for a head and room for [n] allocations. *)
Definition fresh_store (d : loc) (n : nat) : store := Store (raw_cells [d]) ∅ ∅ n ∅.

Lemma dict_init_ok d n :
  ∃ st, dict_init d (fresh_store d n) = Ret (tt, st) ∧ drep st (Lists {[d := []]} ∅) d ∅ ∅ [] ∧ avail st = n.
Proof.
  destruct (INIT_LIST_HEAD_sim (raw_cells [d]) (Lists ∅ (list_to_set [d])) (Lists {[d := []]} ∅) d)
    as (h & E & Hrep); [apply raw_cells_rep| |].
  { unfold s_init. cbn. rewrite decide_True by set_solver. do 2 f_equal. set_solver. }
  eexists. split; [by apply on_links_ok|]. split_and!; [|done..].
  split; [done|by cbn; rewrite lookup_singleton_eq|done].
Qed.

Lemma dict_free_ok st s d G F its :
  drep st s d G F its →
  ∃ st', dict_free d st = Ret (tt, st') ∧ drep st' (Lists (<[d := []]> (on s)) (off s)) d G F [] ∧
    entries st' = G ∧ strings st' = F.
Proof.
  intros [Hrep Hd Ho]. unfold dict_free. run. unfold list_for_each_safe.
  destruct (is_dll_root _ _ _ _ (rep_ring _ _ Hrep _ _ Hd)) as [En _].
  run_with (advance_ok st d _ En). run. set (st1 := Store _ _ _ _ _).
  destruct (advance_ahead d st1 s [] _ Hrep Hd) as (n & En1 & Hah). run_with En1.
  pose proof (turns_enough _ _ _ _ Hrep Hd) as Hf. rewrite length_fmap in Hf.
  destruct (free_loop d s its (turns st) st1 n G F) as (st' & E & Hrep' & HG & HF); [done..|].
  exists st'. split_and!; [exact E| |done|done].
  split; [done|by cbn; rewrite lookup_insert_eq|done].
Qed.

(** C22: a new dictionary behaves as an ordered association list under any sequence of
    puts and removals for which memory is left: a put replaces the data of a present
    key in place and appends a new key, a removal answers 0 and takes the key out, or
    -1 and changes nothing.  No address is read or freed that is not there, none twice;
    after every operation the memory holds exactly the entries of the dictionary and the
    two strings of each ([drep] with nothing else, [∅]), so that what was replaced or
    removed has been freed, once, and nothing else has; after [dict_free] it holds
    nothing. *)
Theorem dict_refines_alist d os n :
  Forall op_text os → (3 * length os <= n)%nat →
  ∃ st1 st2 st3 its s,
    dict_init d (fresh_store d n) = Ret (tt, st1) ∧
    exec_ops d os st1 = Ret ((spec_ops os []).1, st2) ∧
    drep st2 s d ∅ ∅ its ∧ pairs its = (spec_ops os []).2 ∧
    dict_free d st2 = Ret (tt, st3) ∧ entries st3 = ∅ ∧ strings st3 = ∅ ∧
    drep st3 (Lists (<[d := []]> (on s)) (off s)) d ∅ ∅ [].
Proof.
  intros Hos Hn. destruct (dict_init_ok d n) as (st1 & E1 & Hr1 & Hav).
  destruct (exec_ops_ok d os st1 _ ∅ ∅ [] Hr1 Hos) as (st2 & its & E2 & Hr2 & Hp); [lia|].
  destruct (dict_free_ok _ _ _ _ _ _ Hr2) as (st3 & E3 & Hr3 & HG & HF).
  exists st1, st2, st3, its. eexists. split_and!; [exact E1|exact E2|exact Hr2|exact Hp|exact E3|exact HG|exact HF|exact Hr3].
Qed.

Lemma dict_refines_alist_witness :
  let os := [DPut (lit "ssid") (lit "NEUF"); DPut (lit "key") (lit "a"); DRemove (lit "key");
             DRemove (lit "key"); DPut (lit "ssid") (lit "SFR")] in
  spec_ops os [] = ([0; 0; 0; -1; 0], [(lit "ssid", lit "SFR")]) ∧
  ∃ st1 st2 st3 its s,
    dict_init 1 (fresh_store 1 15) = Ret (tt, st1) ∧
    exec_ops 1 os st1 = Ret ([0; 0; 0; -1; 0], st2) ∧
    drep st2 s 1 ∅ ∅ its ∧ pairs its = [(lit "ssid", lit "SFR")] ∧
    dict_free 1 st2 = Ret (tt, st3) ∧ entries st3 = ∅ ∧ strings st3 = ∅ ∧
    drep st3 (Lists (<[1%positive := []]> (on s)) (off s)) 1 ∅ ∅ [].
Proof.
  intros os. split; [reflexivity|].
  refine (dict_refines_alist 1%positive os 15 _ _).
  - repeat constructor; apply (bool_decide_unpack _); vm_compute; exact I.
  - cbn. lia.
Defined.

(** ** Iteration *)
Fixpoint scan_pairs {A} (body : option bytes * option bytes → A → A + A) (al : alist) (acc : A) : A :=
  match al with
  | [] => acc
  | kv :: al => match body (Some kv.1, Some kv.2) acc with inl a => scan_pairs body al a | inr a => a end
  end.

Lemma texts_ok st G F i its :
  own (entries st) (strings st) G F (i :: its) → texts st (item_entry i) = (Some (ik i), Some (iv i)).
Proof. intros Ho. unfold texts. cbn. by rewrite (own_key _ _ _ _ _ _ Ho), (own_data _ _ _ _ _ _ Ho). Qed.

Lemma dict_walk_ok {A} d below e0 (body : option bytes * option bytes → A → A + A) s its k0 fuel st acc G F :
  below = Ret e0 → rep (links st) s → on s !! d = Some (k0 ++ (at_ <$> its)) → own (entries st) (strings st) G F its →
  (length its < fuel)%nat →
  ∃ c, dict_walk d below body fuel (Ptr (after d (at_ <$> its))) acc st = Ret (scan_pairs body (pairs its) acc, but_cursor c st).
Proof.
  intros ->. revert k0 fuel st acc G F. induction its as [|i its IH];
    intros k0 [|fuel] st acc G F Hrep Hd Ho Hf; cbn in Hf; [lia| |lia|]; cbn [dict_walk]; rewrite ?fmap_cons in *.
  - exists (cursor st). unfold read_pair. rewrite decide_True by done. run. rewrite decide_True by done. by destruct st.
  - destruct (next_of _ _ _ _ _ Hrep Hd (at_ i) _ eq_refl) as [En Hxd]. change (after d (at_ i :: (at_ <$> its))) with (at_ i).
    unfold read_pair. rewrite decide_False by congruence.
    run_with (load_entry_ok st _ _ (own_entry _ _ _ _ _ _ Ho)). rewrite decide_False by congruence.
    run. rewrite (texts_ok _ _ _ _ _ Ho). cbn [pairs fmap list_fmap scan_pairs fst snd]. fold (pairs its).
    destruct (body _ acc) as [a|a]; [|exists (cursor st); by destruct st].
    run_with (advance_ok st _ _ En). run. pose proof Ho as (_ & _ & _ & Ho1)%own_cons.
    destruct (IH (k0 ++ [at_ i]) fuel (but_cursor (<[d := Ptr (after d (at_ <$> its))]> (cursor st)) st) a (with_entry i G) (with_strings i F) Hrep)
      as (c & E); [by rewrite <- app_assoc|exact Ho1|lia|]. exists c. exact E.
Qed.

Lemma dict_walk_undef {A} d (body : option bytes * option bytes → A → A + A) s its k0 fuel st acc G F :
  (∀ e a, ∃ a', body e a = inl a') →
  rep (links st) s → on s !! d = Some (k0 ++ (at_ <$> its)) → own (entries st) (strings st) G F its → (length its < fuel)%nat →
  dict_walk d Undef body fuel (Ptr (after d (at_ <$> its))) acc st = Undef.
Proof.
  intros Hb. revert k0 fuel st acc G F. induction its as [|i its IH];
    intros k0 [|fuel] st acc G F Hrep Hd Ho Hf; cbn in Hf; [lia| |lia|]; cbn [dict_walk]; rewrite ?fmap_cons in *.
  - unfold read_pair. by rewrite decide_True.
  - destruct (next_of _ _ _ _ _ Hrep Hd (at_ i) _ eq_refl) as [En Hxd].
    change (after d (at_ i :: (at_ <$> its))) with (at_ i). unfold read_pair.
    rewrite decide_False by congruence. run_with (load_entry_ok st _ _ (own_entry _ _ _ _ _ _ Ho)).
    rewrite decide_False by congruence. run. rewrite (texts_ok _ _ _ _ _ Ho).
    destruct (Hb (Some (ik i), Some (iv i)) acc) as [a' ->]. run_with (advance_ok st _ _ En). run.
    pose proof Ho as (_ & _ & _ & Ho1)%own_cons.
    eapply (IH (k0 ++ [at_ i])); [done|by rewrite <- app_assoc|exact Ho1|lia].
Qed.

(** [dict_for_each_entry] ends and hands the pairs to its body in the order of the
    keys' first insertion, as long as the words before the [struct dict] can be read;
    when it is not left early it reads them on every run, and by the rules of C that
    read is undefined. *)
Theorem dict_for_each_entry_reads_outside {A} d st s its G F (body : option bytes * option bytes → A → A + A) acc e0 :
  drep st s d G F its →
  (∃ c, dict_for_each_entry d (Ret e0) body acc st = Ret (scan_pairs body (pairs its) acc, but_cursor c st)) ∧
  ((∀ e a, ∃ a', body e a = inl a') → dict_for_each_entry d Undef body acc st = Undef).
Proof.
  intros [Hrep Hd Ho]. unfold dict_for_each_entry.
  destruct (is_dll_root _ _ _ _ (rep_ring _ _ Hrep _ _ Hd)) as [En _].
  pose proof (turns_enough _ _ _ _ Hrep Hd) as Hf. rewrite length_fmap in Hf. split.
  - run. run_with (advance_ok st d _ En). run. set (st1 := Store _ _ _ _ _).
    destruct (dict_walk_ok d (Ret e0) e0 body s its [] (turns st) st1 acc G F) as (c & E); [done..|].
    exists c. exact E.
  - intros Hb. run. run_with (advance_ok st d _ En). run.
    by apply (dict_walk_undef d body s its [] _ _ _ G F).
Qed.

(** The dictionary of one entry, at the address 2. *)
Definition one_pair : store :=
  Store (Heap (list_to_map [(1, Ptr 2); (2, Ptr 1)]) (list_to_map [(1, Ptr 2); (2, Ptr 1)]))%positive
    {[2%positive := Entry (Some 1%positive) (Some 2%positive)]} ∅ 0
    (<[2%positive := lit "NEUF"]> {[1%positive := lit "ssid"]}).

Definition one_item : item := Item 2 1 2 (lit "ssid") (lit "NEUF").

Lemma one_pair_drep : drep one_pair (Lists {[1%positive := [2%positive]]} ∅) 1 ∅ ∅ [one_item].
Proof.
  split; [|done|by repeat constructor]. split; cbn.
  - intros r ns [<- <-]%lookup_singleton_Some.
    split; [apply (bool_decide_unpack _); by vm_compute|]. repeat split.
  - intros r1 n1 r2 n2 x [<- _]%lookup_singleton_Some [<- _]%lookup_singleton_Some _ _. done.
  - by intros x ?%elem_of_empty.
  - by intros x r ns ?%elem_of_empty.
Qed.

Lemma dict_for_each_entry_reads_outside_witness :
  (∃ c, dict_for_each_entry 1 (Ret (Entry None None)) (λ e l, inl (l ++ [e.2])) [] one_pair
        = Ret ([Some (lit "NEUF")], but_cursor c one_pair)) ∧
  dict_for_each_entry 1 Undef (λ e l, inl (l ++ [e.2])) [] one_pair = Undef.
Proof.
  destruct (dict_for_each_entry_reads_outside 1%positive one_pair _ _ _ _ (λ e l, inl (l ++ [e.2])) []
    (Entry None None) one_pair_drep) as [H1 H2].
  split; [exact H1|]. apply H2. intros e a. exists (a ++ [e.2]). reflexivity.
Defined.

(** Without memory for the entry, [dict_put] of a new key follows the NULL that
    [calloc] answered. *)
Lemma dict_put_no_memory st s d k v :
  drep st s d ∅ ∅ [] → avail st = O → dict_put d k v st = Undef.
Proof.
  intros [Hrep Hd _] Hav. unfold dict_put. run.
  destruct (is_dll_root _ _ _ _ (rep_ring _ _ Hrep _ _ Hd)) as [En _].
  erewrite cmd_bind_Ret.
  2: { unfold list_for_each. run_with (advance_ok st d _ En). run. unfold turns. cbn [list_for_each_from].
       rewrite decide_True by done. reflexivity. }
  cbn beta iota. erewrite cmd_bind_Ret; [|unfold calloc_entry; cbn; rewrite Hav; reflexivity]. by run.
Qed.
