(* ===== verification/EtkString.v ===== *)
(** libetk's strings: [src/efixo/efixo-libetk/src/src/strlcpy.c], [strlcat.c],
    [string.c], [safe_strtol.c], [safe_strtoul.c], [pack.c], [http.c] and the inline
    functions of [include/etk/string.h].

    A pointer that walks through an object is the object and an index; an access
    outside of the object is undefined. *)

From stdpp Require Import base tactics list strings.
From S2P Require Import Prelude.
From S2P Require Import CString.

Module EtkString.

(** ** Bounded copies *)

(** The copying loop, left when [--n] is 0 or when a 0 was copied: whether [n] came to 0, the
    buffer and how far both pointers went. *)
Fixpoint strlcpy_loop (n : nat) (dst src : bytes) (i : Z) : outcome (bool * bytes * Z) :=
  match n with
  | O | 1%nat => Ret (true, dst, i)
  | S n' =>
      c ← rd src i;
      dst ← wr dst i c;
      if c =? 0 then Ret (false, dst, i + 1) else strlcpy_loop n' dst src (i + 1)
  end.

(** The loop that runs [s] past the terminator: where it stands afterwards. *)
Definition scan_end (src : bytes) (i : Z) : outcome Z :=
  s ← padd src (Z.to_nat i); n ← strlen s; Ret (i + n + 1).

Definition strlcpy (dst src : bytes) (siz : nat) : outcome (Z * bytes) :=
  '(zero, dst, i) ←
     (if (siz =? 0)%nat then Ret (true, dst, 0) else strlcpy_loop siz dst src 0);
  if zero : bool then
    dst ← (if (siz =? 0)%nat then Ret dst else wr dst i 0);
    j ← scan_end src i;
    Ret (j - 1, dst)
  else Ret (i - 1, dst).

(** The loop that looks for the end of [dst] within [n] bytes. *)
Fixpoint find_end (n : nat) (dst : bytes) (i : Z) : outcome Z :=
  match n with
  | O => Ret i
  | S n' => c ← rd dst i; if c =? 0 then Ret i else find_end n' dst (i + 1)
  end.

(** The loop over [src]: a byte is copied unless [n] is 1.  [fuel] bounds the length
    of [src]. *)
Fixpoint strlcat_loop (fuel : nat) (n : Z) (dst src : bytes) (d s : Z) : outcome (bytes * Z * Z) :=
  match fuel with
  | O => NoFuel
  | S f =>
      c ← rd src s;
      if c =? 0 then Ret (dst, d, s)
      else if n =? 1 then strlcat_loop f n dst src d (s + 1)
      else dst ← wr dst d c; strlcat_loop f (n - 1) dst src (d + 1) (s + 1)
  end.

Definition strlcat (dst src : bytes) (siz : nat) : outcome (Z * bytes) :=
  dlen ← find_end siz dst 0;
  let n := Z.of_nat siz - dlen in
  if n =? 0 then l ← strlen src; Ret (dlen + l, dst)
  else
    '(dst, d, s) ← strlcat_loop (S (length src)) n dst src dlen 0;
    dst ← wr dst d 0;
    Ret (dlen + s, dst).

(** ** Trimming *)

(** [strchr(" \t\n\r", c)] is not NULL; the 0 that ends the set is found too. *)
Definition blank (c : Z) : bool :=
  (c =? 32) || (c =? 9) || (c =? 10) || (c =? 13) || (c =? 0).

(** The loop from [end] down to [str]: blanks become 0. *)
Fixpoint strrtrim_loop (e : nat) (m : bytes) : outcome bytes :=
  match e with
  | O => Ret m
  | S e' =>
      c ← rd m (Z.of_nat e');
      if negb (blank c) then Ret m
      else m ← wr m (Z.of_nat e') 0; strrtrim_loop e' m
  end.

Definition strrtrim (m : bytes) : outcome bytes :=
  n ← strlen m; strrtrim_loop (Z.to_nat n) m.

(** What the pointer returned points to. *)
Fixpoint strltrim (m : bytes) : outcome bytes :=
  match m with
  | [] => Undef
  | c :: m' => if c =? 0 then Ret m else if negb (blank c) then Ret m else strltrim m'
  end.

(** The pointer returned and the object it points into. *)
Definition strtrim (m : bytes) : outcome (bytes * bytes) :=
  m ← strrtrim m; p ← strltrim m; Ret (p, m).

(** ** Numbers *)
Definition safe_strtol (buf : bytes) (def : Z) : outcome Z :=
  c ← rd buf 0;
  if c =? 0 then Ret def
  else
    s ← c_str buf;
    let r := strtol s 10 in
    Ret (if st_erange r then def else st_val r).

(** [strtoul]: a minus sign negates the value as an [unsigned long]. *)
Definition strtoul (s : bytes) (base : Z) : Z * bool :=
  let '(neg, s2) := take_sign (skip_spaces s) in
  let '(v, n) := digits base (skip_0x base s2) 0 0 in
  if (n =? 0)%nat then (0, false)
  else if 2 ^ 32 - 1 <? v then (2 ^ 32 - 1, true)
  else (u32 (if neg then - v else v), false).

(** The result goes through a [long]. *)
Definition safe_strtoul (buf : bytes) (def : Z) : outcome Z :=
  c ← rd buf 0;
  if c =? 0 then Ret def
  else
    s ← c_str buf;
    let '(v, erange) := strtoul s 10 in
    Ret (if erange then def else s32 v).

(** ** Hexadecimal *)
Definition hex_ascii (x : Z) : outcome Z := rd (lit "0123456789abcdef") x.

Definition hex (c : Z) : Z :=
  let c := Z.lor c 32 in
  if (48 <=? c) && (c <=? 57) then c - 48
  else if (97 <=? c) && (c <=? 102) then c - 97 + 10
  else 255.

Fixpoint pack_loop (len : nat) (s : bytes) (i : Z) (pck : bytes) (j : Z) : outcome bytes :=
  c ← rd s i;
  if c =? 0 then Ret pck
  else
    match len with
    | O => Ret pck
    | S len' =>
        pck ← wr pck j (u8 (Z.shiftl (hex c) 4));
        c2 ← rd s (i + 1);
        b ← rd pck j;
        pck ← wr pck j (Z.lor b (hex c2));
        pack_loop len' s (i + 2) pck (j + 1)
    end.

(** [memset(pck, 0, len)] first. *)
Definition pack (s : bytes) (pck : bytes) (len : nat) : outcome bytes :=
  pck ← overwrite pck (replicate len 0);
  pack_loop len s 0 pck 0.

(** ** Requests *)

(** The loop of [http_encode]: [len] is a [size_t], [snprintf] answers 3 whatever was
    written; a size above 3 makes no difference to what it writes. *)
Fixpoint encode_loop (fuel : nat) (from : bytes) (i : Z) (to : bytes) (j len : Z)
    : outcome (bytes * Z * Z) :=
  match fuel with
  | O => NoFuel
  | S f =>
      c ← rd from i;
      if (c =? 0) || (len =? 0) then Ret (to, j, len)
      else if c =? 32 then
        rest ← padd to (Z.to_nat j);
        '(n, rest) ← vsnprintf rest (Z.to_nat (Z.min len 4)) (lit "%20");
        encode_loop f from (i + 1) (take (Z.to_nat j) to ++ rest) (j + n) (u32 (len - n))
      else
        to ← wr to j c;
        encode_loop f from (i + 1) to (j + 1) (u32 (len - 1))
  end.

Definition http_encode (from to : bytes) (len : Z) : outcome bytes :=
  '(to, j, len) ← encode_loop (S (length from)) from 0 to 0 len;
  wr to (if len =? 0 then j - 1 else j) 0.

End EtkString.
