(* ===== verification/EtkStringProofs.v ===== *)
(** libetk's strings: what each function leaves in memory and answers. *)

From stdpp Require Import base tactics list strings.
From S2P Require Import Prelude.
From S2P Require Import CString.
From S2P Require Import EtkString.
Import EtkString.

(** ** strlcpy *)
Lemma strlcpy_step n dst src i :
  strlcpy_loop (S (S n)) dst src i =
  (c ← rd src i; dst ← wr dst i c;
   if c =? 0 then Ret (false, dst, i + 1) else strlcpy_loop (S n) dst src (i + 1)).
Proof. done. Qed.

Lemma strlcpy_loop_ok n s r p p' q :
  text s → length p = length p' → (n <= length q)%nat → (1 <= n)%nat →
  strlcpy_loop n (p' ++ q) (p ++ s ++ 0 :: r) (Z.of_nat (length p)) =
  Ret (if (length s <? n - 1)%nat
       then (false, p' ++ s ++ 0 :: drop (S (length s)) q, Z.of_nat (length p + length s) + 1)
       else (true, p' ++ take (n - 1) s ++ drop (n - 1) q, Z.of_nat (length p + (n - 1)))).
Proof.
  intros Hs. revert n p p' q. induction Hs as [|c s Hc Hs IH]; intros n p p' q Hp Hq Hn.
  - destruct n as [|[|n]]; [lia| |].
    + cbn [length strlcpy_loop Nat.sub Nat.ltb Nat.leb take drop app]. by rewrite Nat.add_0_r.
    + destruct q as [|x q]; cbn in Hq; [lia|]. rewrite strlcpy_step. cbn [app].
      rewrite rd_mid. cbn [mbind outcome_bind]. rewrite Hp.
      rewrite wr_mid. cbn. by rewrite Nat.add_0_r.
  - destruct n as [|[|n]]; [lia| |].
    + cbn [length strlcpy_loop Nat.sub Nat.ltb Nat.leb take drop app]. by rewrite Nat.add_0_r.
    + destruct q as [|x q]; cbn in Hq; [lia|]. rewrite strlcpy_step. cbn [app].
      rewrite rd_mid. cbn [mbind outcome_bind]. rewrite Hp at 1. rewrite wr_mid. cbn [mbind outcome_bind].
      rewrite (proj2 (Z.eqb_neq _ _)) by done.
      specialize (IH (S n) (p ++ [c]) (p' ++ [c]) q). rewrite <- !app_assoc in IH. cbn [app] in IH.
      replace (Z.of_nat (length p) + 1) with (Z.of_nat (length (p ++ [c]))) by (rewrite length_app; cbn; lia).
      rewrite IH by (rewrite ?length_app; cbn; lia). rewrite length_app. cbn [length].
      replace (S (length s) <? S (S n) - 1)%nat with (length s <? S n - 1)%nat
        by (apply eq_bool_prop_intro; rewrite !Is_true_true, !Nat.ltb_lt; lia).
      replace (S (S n) - 1)%nat with (S (S n - 1)) by lia.
      destruct (length s <? S n - 1)%nat; cbn [take drop app];
        (f_equal; f_equal; [done|f_equal; lia] || (f_equal; f_equal; lia)).
Qed.

(** A text cut to a buffer of [siz] bytes. *)
Definition placed (t : bytes) (dst : bytes) : bytes := t ++ 0 :: drop (S (length t)) dst.

Lemma str_of_placed t dst : text t → str_of (placed t dst) = Some t.
Proof. apply str_of_app. Qed.

Lemma length_placed t dst : (length t < length dst)%nat → length (placed t dst) = length dst.
Proof. intros H. unfold placed. rewrite length_app. cbn. rewrite length_drop. lia. Qed.

Lemma scan_end_ok s r k :
  text s → (k <= length s)%nat → scan_end (s ++ 0 :: r) (Z.of_nat k) = Ret (Z.of_nat (length s) + 1).
Proof.
  intros Hs Hk. unfold scan_end, padd. rewrite Nat2Z.id.
  rewrite (proj2 (Nat.leb_le _ _)) by (rewrite length_app; lia). cbn [mbind outcome_bind].
  rewrite drop_app_le by done. erewrite strlen_ok by by apply str_of_app, Forall_drop.
  cbn. rewrite length_drop. f_equal. lia.
Qed.

Lemma strlcpy_ok dst src s siz :
  str_of src = Some s → (siz <= length dst)%nat →
  strlcpy dst src siz =
  Ret (Z.of_nat (length s), if decide (siz = O) then dst else placed (take (siz - 1) s) dst).
Proof.
  intros Hs Hsiz. pose proof (str_of_text _ _ Hs) as Ht. apply str_of_split in Hs as [r ->].
  unfold strlcpy. destruct siz as [|n].
  - cbn [Nat.eqb mbind outcome_bind]. change 0 with (Z.of_nat 0) at 2. rewrite (scan_end_ok s r 0) by (done || lia).
    cbn. f_equal. f_equal. lia.
  - cbn [Nat.eqb]. pose proof (strlcpy_loop_ok (S n) s r [] [] dst) as E0. cbn [app] in E0.
    change (Z.of_nat (length [])) with 0 in E0. rewrite E0 by (done || lia). clear E0.
    rewrite decide_False by done. replace (S n - 1)%nat with n by lia.
    destruct (length s <? n)%nat eqn:E; cbn [mbind outcome_bind app length Nat.add].
    + apply Nat.ltb_lt in E. rewrite take_ge by lia. unfold placed. f_equal. f_equal. lia.
    + apply Nat.ltb_ge in E.
      destruct (drop n dst) as [|x q] eqn:Eq.
      { apply (f_equal length) in Eq. rewrite length_drop in Eq. cbn in Eq. lia. }
      rewrite (wr_at _ _ 0 (take n s) x q) by (done || rewrite length_take; lia). cbn [mbind outcome_bind].
      rewrite (scan_end_ok s r n) by done. cbn [mbind outcome_bind].
      unfold placed. rewrite length_take_le by lia. rewrite <- Nat.add_1_r, <- drop_drop, Eq. cbn.
      f_equal. f_equal. lia.
Qed.

(** ** strlcat *)
Lemma find_end_ok t r p n :
  text t → (length t < n)%nat → find_end n (p ++ t ++ 0 :: r) (Z.of_nat (length p)) =
  Ret (Z.of_nat (length p + length t)).
Proof.
  intros Ht. revert n p. induction Ht as [|c t Hc Ht IH]; intros [|n] p Hn; cbn in Hn; try lia; cbn [find_end app].
  - rewrite rd_mid. cbn. f_equal. f_equal. lia.
  - rewrite rd_mid. cbn [mbind outcome_bind]. rewrite (proj2 (Z.eqb_neq _ _)) by done.
    specialize (IH n (p ++ [c])). rewrite <- app_assoc in IH. cbn [app] in IH.
    replace (Z.of_nat (length p) + 1) with (Z.of_nat (length (p ++ [c]))) by (rewrite length_app; cbn; lia).
    rewrite IH by lia. rewrite length_app. cbn. f_equal. f_equal. lia.
Qed.

(** A buffer whose first [n] bytes hold no 0. *)
Lemma find_end_full t q p :
  text t → find_end (length t) (p ++ t ++ q) (Z.of_nat (length p)) = Ret (Z.of_nat (length p + length t)).
Proof.
  intros Ht. revert p. induction Ht as [|c t Hc Ht IH]; intros p; cbn [find_end length app].
  - f_equal. f_equal. lia.
  - rewrite rd_mid. cbn [mbind outcome_bind]. rewrite (proj2 (Z.eqb_neq _ _)) by done.
    specialize (IH (p ++ [c])). rewrite <- app_assoc in IH. cbn [app] in IH.
    replace (Z.of_nat (length p) + 1) with (Z.of_nat (length (p ++ [c]))) by (rewrite length_app; cbn; lia).
    rewrite IH. rewrite length_app. cbn. f_equal. f_equal. lia.
Qed.

Lemma strlcat_loop_ok fuel k s r p p' q :
  text s → (length s < fuel)%nat → (k < length q)%nat →
  strlcat_loop fuel (Z.of_nat k + 1) (p' ++ q) (p ++ s ++ 0 :: r) (Z.of_nat (length p')) (Z.of_nat (length p))
  = Ret (p' ++ take k s ++ drop (length (take k s)) q, Z.of_nat (length p' + length (take k s)),
         Z.of_nat (length p + length s)).
Proof.
  intros Hs. revert fuel k p p' q. induction Hs as [|c s Hc Hs IH]; intros [|fuel] k p p' q Hf Hq;
    cbn in Hf; try lia; cbn [strlcat_loop app].
  - rewrite rd_mid. cbn [mbind outcome_bind]. rewrite take_nil. cbn. rewrite !Nat.add_0_r. done.
  - rewrite rd_mid. cbn [mbind outcome_bind]. rewrite (proj2 (Z.eqb_neq c 0)) by done.
    specialize (IH fuel (k - 1)%nat (p ++ [c])). rewrite <- app_assoc in IH. cbn [app] in IH.
    replace (Z.of_nat (length p) + 1) with (Z.of_nat (length (p ++ [c]))) by (rewrite length_app; cbn; lia).
    destruct (decide (k = O)) as [->|Hk].
    + rewrite (proj2 (Z.eqb_eq (Z.of_nat 0 + 1) 1)) by lia. rewrite IH by lia. cbn [take length].
      rewrite length_app. cbn [length]. do 2 f_equal. f_equal. lia.
    + rewrite (proj2 (Z.eqb_neq _ 1)) by lia. destruct q as [|x q]; [cbn in Hq; lia|]. cbn in Hq.
      rewrite wr_mid. cbn [mbind outcome_bind].
      specialize (IH (p' ++ [c]) q). rewrite <- !app_assoc in IH. cbn [app] in IH.
      replace (Z.of_nat (length p') + 1) with (Z.of_nat (length (p' ++ [c]))) by (rewrite length_app; cbn; lia).
      replace (Z.of_nat k + 1 - 1) with (Z.of_nat (k - 1) + 1) by lia. rewrite IH by lia.
      rewrite !length_app. cbn [length]. destruct k as [|k]; [done|]. cbn [take length drop app].
      replace (S k - 1)%nat with k by lia. f_equal. f_equal; [f_equal|]; f_equal; lia.
Qed.

Lemma strlcat_ok dst src t s siz :
  str_of src = Some s → str_of dst = Some t → (length t < siz <= length dst)%nat →
  strlcat dst src siz =
  Ret (Z.of_nat (length t + length s), placed (take (siz - 1) (t ++ s)) dst).
Proof.
  intros Hs Ht Hsiz. pose proof (str_of_text _ _ Hs) as Ts. pose proof (str_of_text _ _ Ht) as Tt.
  apply str_of_split in Hs as [r ->]. apply str_of_split in Ht as [q ->]. unfold strlcat.
  pose proof (find_end_ok t q [] siz) as E0. cbn [app] in E0. change (Z.of_nat (length [])) with 0 in E0.
  rewrite E0 by (done || lia). clear E0. cbn [mbind outcome_bind length Nat.add].
  rewrite (proj2 (Z.eqb_neq _ 0)) by lia. rewrite length_app in Hsiz. cbn in Hsiz.
  pose proof (strlcat_loop_ok (S (length (s ++ 0 :: r))) (siz - 1 - length t) s r [] t (0 :: q) Ts) as E.
  cbn [app length] in E. replace (Z.of_nat (siz - 1 - length t) + 1) with (Z.of_nat siz - Z.of_nat (length t)) in E by lia.
  change (Z.of_nat 0) with 0 in E. rewrite E by (rewrite ?length_app; cbn; lia).
  cbn [mbind outcome_bind]. clear E.
  set (k := take (siz - 1 - length t) s).
  assert (length k <= siz - 1 - length t)%nat as Hk by (unfold k; rewrite length_take; lia).
  destruct (drop (length k) (0 :: q)) as [|x q'] eqn:Eq.
  { apply (f_equal length) in Eq. rewrite length_drop in Eq. cbn in Eq. lia. }
  rewrite app_assoc. rewrite (wr_at _ _ 0 (t ++ k) x q') by (done || rewrite length_app; lia). cbn.
  f_equal. f_equal; [lia|]. unfold placed. rewrite take_app_ge by lia. fold k.
  f_equal. f_equal. rewrite <- Nat.add_1_r, <- drop_drop.
  by rewrite length_app, drop_app_add, Eq.
Qed.

(** C34: [strlcpy] and then [strlcat], in a buffer of at least [siz] bytes and for any
    texts, leave the longest prefix of the two texts together that fits with its
    terminator, write no byte from [siz] on, and answer the lengths that tell whether a
    text was cut. *)
Theorem strlcpy_strlcat_bounded dst a b s t siz :
  str_of a = Some s → str_of b = Some t → (1 <= siz <= length dst)%nat →
  ∃ dst1 dst2,
    strlcpy dst a siz = Ret (Z.of_nat (length s), dst1) ∧
    strlcat dst1 b siz = Ret (Z.of_nat (length (take (siz - 1) s) + length t), dst2) ∧
    str_of dst2 = Some (take (siz - 1) (s ++ t)) ∧
    drop siz dst2 = drop siz dst ∧ length dst2 = length dst.
Proof.
  intros Hs Ht Hsiz. pose proof (str_of_text _ _ Hs) as Ts. pose proof (str_of_text _ _ Ht) as Tt.
  set (k := take (siz - 1) s). assert (length k <= siz - 1)%nat as Hk by (unfold k; rewrite length_take; lia).
  assert (text k) as Tk by by apply Forall_take.
  exists (placed k dst), (placed (take (siz - 1) (k ++ t)) (placed k dst)).
  assert (length (placed k dst) = length dst) as Hl by (apply length_placed; lia).
  assert (∀ x m, (length x <= siz - 1)%nat → drop siz (placed x m) = drop siz m) as Hd.
  { intros x m Hx. unfold placed. rewrite drop_app_ge by lia.
    destruct (siz - length x)%nat as [|n] eqn:E; [lia|]. cbn. rewrite drop_drop. f_equal. lia. }
  assert (length (take (siz - 1) (k ++ t)) <= siz - 1)%nat as Hk2 by (rewrite length_take; lia).
  split_and!.
  - rewrite (strlcpy_ok dst a s siz) by (done || lia). by rewrite decide_False by lia.
  - rewrite (strlcat_ok (placed k dst) b k t siz); [done|done|by apply str_of_placed|lia].
  - rewrite str_of_placed by by apply Forall_take, Forall_app. f_equal. unfold k.
    rewrite !take_app, take_take. f_equal; [f_equal; lia|].
    rewrite length_take. destruct (decide (siz - 1 <= length s)%nat) as [Hle|Hgt].
    + replace (siz - 1 - (siz - 1) `min` length s)%nat with 0%nat by lia.
      by replace (siz - 1 - length s)%nat with 0%nat by lia.
    + f_equal. lia.
  - by rewrite !Hd.
  - rewrite length_placed; lia.
Qed.

Lemma strlcpy_strlcat_bounded_witness :
  ∃ dst1 dst2,
    strlcpy (replicate 10 165) (lit "neufbox" ++ [0]) 8 = Ret (7, dst1) ∧
    strlcat dst1 (lit "-admin" ++ [0]) 8 = Ret (13, dst2) ∧
    str_of dst2 = Some (lit "neufbox") ∧ drop 8 dst2 = [165; 165] ∧ length dst2 = 10%nat.
Proof.
  exact (strlcpy_strlcat_bounded (replicate 10 165) (lit "neufbox" ++ [0]) (lit "-admin" ++ [0])
    (lit "neufbox") (lit "-admin") 8 eq_refl eq_refl ltac:(cbn; lia)).
Defined.

(** [strlcat] on a buffer without a 0 in its first [siz] bytes leaves it alone. *)
Lemma strlcat_full dst src s t q :
  str_of src = Some s → text t → dst = t ++ q →
  strlcat dst src (length t) = Ret (Z.of_nat (length t + length s), dst).
Proof.
  intros Hs Ht ->. unfold strlcat. pose proof (find_end_full t q [] Ht) as E. cbn [app] in E.
  change (Z.of_nat (length [])) with 0 in E. rewrite E. cbn [mbind outcome_bind length Nat.add].
  rewrite (proj2 (Z.eqb_eq _ 0)) by lia. rewrite (strlen_ok _ _ Hs). cbn. f_equal. f_equal. lia.
Qed.

(** ** Trimming *)
Abbreviation white s := (Forall (λ c, blank c = true) s).

Lemma strrtrim_loop_ok a b r :
  match last a with Some c => blank c = false | None => True end → white b →
  strrtrim_loop (length (a ++ b)) (a ++ b ++ r) = Ret (a ++ replicate (length b) 0 ++ r).
Proof.
  intros Ha. revert r. induction b as [|c b IH] using rev_ind; intros r Hb.
  - rewrite app_nil_r. cbn [length replicate app]. destruct a as [|x a _] using rev_ind; [done|].
    rewrite last_snoc in Ha. rewrite length_app, Nat.add_1_r. cbn [strrtrim_loop].
    rewrite <- app_assoc. cbn [app]. rewrite rd_mid. cbn [mbind outcome_bind]. by rewrite Ha.
  - apply Forall_app in Hb as [Hb Hc]. apply Forall_cons in Hc as [Hc _].
    rewrite app_assoc, length_app, Nat.add_1_r. cbn [strrtrim_loop].
    assert (a ++ (b ++ [c]) ++ r = (a ++ b) ++ c :: r) as -> by (by rewrite <- !app_assoc).
    rewrite rd_mid. cbn [mbind outcome_bind]. rewrite Hc. cbn [negb]. rewrite wr_mid. cbn [mbind outcome_bind].
    rewrite <- app_assoc, (IH (0 :: r) Hb).
    f_equal. f_equal. rewrite length_app, replicate_add. by rewrite <- app_assoc.
Qed.

Lemma strltrim_ok a m :
  white a → text a → match m with c :: _ => c = 0 ∨ blank c = false | [] => False end →
  strltrim (a ++ m) = Ret m.
Proof.
  intros Ha Ta Hm. induction Ha as [|c a Hc Ha IH].
  - destruct m as [|c m]; [done|]. cbn. destruct (c =? 0) eqn:E; [done|].
    destruct Hm as [->|Hm]; [done|]. by rewrite Hm.
  - apply Forall_cons in Ta as [Tc Ta]. cbn. rewrite (proj2 (Z.eqb_neq _ _)) by done.
    rewrite Hc. by apply IH.
Qed.

(** A text is blanks, its trimmed part and blanks. *)
Definition trimmed (t : bytes) : Prop :=
  match head t, last t with
  | Some x, Some y => blank x = false ∧ blank y = false
  | _, _ => True
  end.

Lemma rtrim_split s :
  ∃ u b, s = u ++ b ∧ white b ∧ match last u with Some c => blank c = false | None => True end.
Proof.
  induction s as [|c s (u & b & -> & Hb & Hu)] using rev_ind; [by exists [], []|].
  destruct (blank c) eqn:E.
  - exists u, (b ++ [c]). rewrite <- app_assoc. split_and!; [done| |done].
    apply Forall_app. split; [done|]. by repeat constructor.
  - exists ((u ++ b) ++ [c]), []. rewrite app_nil_r, last_snoc. by split_and!; [|constructor|].
Qed.

Lemma ltrim_split u :
  ∃ a t, u = a ++ t ∧ white a ∧ match head t with Some c => blank c = false | None => True end.
Proof.
  induction u as [|c u (a & t & -> & Ha & Ht)]; [by exists [], []|]. destruct (blank c) eqn:E.
  - exists (c :: a), t. split_and!; [done|by constructor|done].
  - exists [], (c :: a ++ t). by split_and!; [|constructor|].
Qed.

Lemma white_last a : white a → match last a with Some c => blank c = false | None => True end → a = [].
Proof.
  intros Ha. destruct a as [|c a _] using rev_ind; [done|]. rewrite last_snoc.
  apply Forall_app in Ha as [_ Ha]. apply Forall_cons in Ha as [Ha _]. intros H. by rewrite Ha in H.
Qed.

Lemma trim_split s : ∃ a t b, s = a ++ t ++ b ∧ white a ∧ white b ∧ trimmed t ∧
  match last (a ++ t) with Some c => blank c = false | None => True end.
Proof.
  destruct (rtrim_split s) as (u & b & -> & Hb & Hu). destruct (ltrim_split u) as (a & t & -> & Ha & Ht).
  exists a, t, b. rewrite <- app_assoc. split_and!; [done|done|done| |done].
  unfold trimmed. destruct t as [|x t]; [done|]. rewrite last_app_cons in Hu. cbn in *.
  destruct (last (x :: t)) as [y|] eqn:E; [done|]. by apply last_None in E.
Qed.

Lemma strtrim_ok a t b r :
  text (a ++ t ++ b) → white a → white b → trimmed t →
  match last (a ++ t) with Some c => blank c = false | None => True end →
  let p := t ++ replicate (length b) 0 ++ 0 :: r in
  strtrim ((a ++ t ++ b) ++ 0 :: r) = Ret (p, a ++ p) ∧ str_of p = Some t.
Proof.
  intros Hs Ha Hb Htr Hl p. apply Forall_app in Hs as [Ta Hs]. apply Forall_app in Hs as [Tt Tb]. split.
  - unfold strtrim, strrtrim. rewrite (strlen_ok _ (a ++ t ++ b)) by (apply str_of_app; by repeat (apply Forall_app; split)).
    cbn [mbind outcome_bind]. rewrite Nat2Z.id, (app_assoc a t b), <- (app_assoc (a ++ t)).
    rewrite strrtrim_loop_ok by done. cbn [mbind outcome_bind]. rewrite <- app_assoc.
    rewrite strltrim_ok; [done|done|done|]. unfold p. destruct t as [|x t]; cbn.
    + destruct b; cbn; by left.
    + right. unfold trimmed in Htr. cbn in Htr.
      destruct (last (x :: t)) as [y|] eqn:E; [by destruct Htr|]. by apply last_None in E.
  - unfold p. destruct b; cbn; by apply str_of_app.
Qed.

(** [strtrim] succeeds on every text, empty and blank texts included: it answers a
    pointer to the text without its leading and trailing blanks, in the same object,
    where only the trailing blanks were overwritten. *)
Theorem strtrim_trims s r :
  text s →
  ∃ a t b, s = a ++ t ++ b ∧ white a ∧ white b ∧ trimmed t ∧
    let p := t ++ replicate (length b) 0 ++ 0 :: r in
    strtrim (s ++ 0 :: r) = Ret (p, a ++ p) ∧ str_of p = Some t.
Proof.
  intros Hs. destruct (trim_split s) as (a & t & b & -> & Ha & Hb & Htr & Hl). exists a, t, b.
  do 4 (split; [done|]). by apply strtrim_ok.
Qed.

Lemma strtrim_trims_witness :
  ∃ a t b, lit "   " = a ++ t ++ b ∧ white a ∧ white b ∧ trimmed t ∧
    let p := t ++ replicate (length b) 0 ++ [0] in
    strtrim (lit "   " ++ [0]) = Ret (p, a ++ p) ∧ str_of p = Some t.
Proof. apply (strtrim_trims (lit "   ") []). apply (bool_decide_unpack _). vm_compute. exact I. Defined.

(** ** Hexadecimal *)
Definition hex_of (n : Z) : Z := if n <? 10 then 48 + n else 87 + n.

Lemma hex_digits_bool (P : Z → bool) :
  forallb (λ n, P (Z.of_nat n)) (seq 0 16) = true → ∀ n, 0 <= n < 16 → P n = true.
Proof.
  intros H n Hn. rewrite forallb_forall in H. specialize (H (Z.to_nat n)).
  rewrite Z2Nat.id in H by lia. apply H, in_seq. lia.
Qed.

Lemma hex_ascii_ok n : 0 <= n < 16 → hex_ascii n = Ret (hex_of n).
Proof.
  intros Hn. unfold hex_ascii, rd. rewrite (proj2 (Z.ltb_ge _ _)) by lia.
  assert (match lit "0123456789abcdef" !! Z.to_nat n with Some c => c =? hex_of n | None => false end = true) as H.
  { revert n Hn. apply (hex_digits_bool (λ n, match lit "0123456789abcdef" !! Z.to_nat n with
      Some c => c =? hex_of n | None => false end)). by vm_compute. }
  destruct (_ !! _) as [c|]; [|done]. apply Z.eqb_eq in H as ->. done.
Qed.

Lemma hex_hex_of n : 0 <= n < 16 → hex (hex_of n) = n ∧ hex_of n ≠ 0.
Proof.
  intros Hn. assert ((hex (hex_of n) =? n) && negb (hex_of n =? 0) = true) as H.
  { revert n Hn. apply (hex_digits_bool (λ n, (hex (hex_of n) =? n) && negb (hex_of n =? 0))). by vm_compute. }
  zbool. done.
Qed.

(** The two digits of each byte. *)
Definition hex_text (bs : bytes) : bytes := bs ≫= λ b, [hex_of (Z.shiftr b 4); hex_of (Z.land b 15)].

Lemma byte_digits b :
  byte_ok b → 0 <= Z.shiftr b 4 < 16 ∧ 0 <= Z.land b 15 < 16 ∧
  Z.lor (u8 (Z.shiftl (Z.shiftr b 4) 4)) (Z.land b 15) = b.
Proof.
  intros Hb. change 15 with (Z.ones 4). rewrite Z.land_ones by lia.
  rewrite Z.shiftr_div_pow2 by lia. unfold byte_ok in Hb.
  assert (0 <= b / 2 ^ 4 < 16) by (split; [apply Z.div_pos; lia|apply Z.div_lt_upper_bound; lia]).
  assert (0 <= b mod 2 ^ 4 < 16) by (apply Z.mod_pos_bound; lia). split_and!; [lia..|].
  rewrite Z.shiftl_mul_pow2, u8_small by lia.
  assert (Z.land (b / 2 ^ 4 * 2 ^ 4) (b mod 2 ^ 4) = 0) as Hland.
  { rewrite <- (Z.land_ones b 4) by lia. rewrite (Z.land_comm b), Z.land_assoc.
    rewrite Z.land_ones, Z.mod_mul by lia. apply Z.land_0_l. }
  pose proof (Z.add_lor_land (b / 2 ^ 4 * 2 ^ 4) (b mod 2 ^ 4)). pose proof (Z.div_mod b (2 ^ 4)). lia.
Qed.

Lemma pack_loop_ok bs r s i pck0 q n :
  Forall byte_ok bs → s = i ++ hex_text bs ++ 0 :: r → (length bs <= length q)%nat → (length bs <= n)%nat →
  pack_loop n s (Z.of_nat (length i)) (pck0 ++ q) (Z.of_nat (length pck0)) =
  Ret (pck0 ++ bs ++ drop (length bs) q).
Proof.
  intros Hbs. revert i pck0 q n. induction Hbs as [|b bs Hb Hbs IH]; intros i pck0 q n Hs Hq Hn.
  - destruct n; cbn [pack_loop]; by rewrite (rd_at s (Z.of_nat (length i)) i 0 r).
  - destruct n as [|n]; [cbn in Hn; lia|]. destruct q as [|x q]; [cbn in Hq; lia|].
    destruct (byte_digits b Hb) as (H1 & H2 & H3).
    destruct (hex_hex_of _ H1) as [E1 N1], (hex_hex_of _ H2) as [E2 N2].
    change (hex_text (b :: bs)) with (hex_of (Z.shiftr b 4) :: hex_of (Z.land b 15) :: hex_text bs) in Hs.
    set (c1 := hex_of (Z.shiftr b 4)) in *. set (c2 := hex_of (Z.land b 15)) in *.
    cbn [pack_loop]. rewrite (rd_at s (Z.of_nat (length i)) i c1 (c2 :: hex_text bs ++ 0 :: r)) by done.
    cbn [mbind outcome_bind]. rewrite (proj2 (Z.eqb_neq _ _)) by done. rewrite wr_mid. cbn [mbind outcome_bind].
    rewrite (rd_at s (Z.of_nat (length i) + 1) (i ++ [c1]) c2 (hex_text bs ++ 0 :: r)) by
      (rewrite ?length_app, <- ?app_assoc; cbn [length app]; done || lia).
    cbn [mbind outcome_bind]. rewrite rd_mid. cbn [mbind outcome_bind]. rewrite wr_mid. cbn [mbind outcome_bind].
    rewrite E1, E2, H3.
    specialize (IH (i ++ [c1; c2]) (pck0 ++ [b]) q n). rewrite <- !app_assoc in IH. cbn [app] in IH.
    rewrite !length_app in IH. cbn [length] in IH.
    replace (Z.of_nat (length i + 2)) with (Z.of_nat (length i) + 2) in IH by lia.
    replace (Z.of_nat (length pck0 + 1)) with (Z.of_nat (length pck0) + 1) in IH by lia.
    rewrite IH; [done|done|cbn in *; lia|cbn in *; lia].
Qed.

Lemma pack_ok bs r pck n :
  Forall byte_ok bs → (length bs <= n)%nat → length pck = n →
  pack (hex_text bs ++ 0 :: r) pck n = Ret (bs ++ replicate (n - length bs) 0).
Proof.
  intros Hbs Hn Hp. unfold pack. rewrite overwrite_ok by (rewrite length_replicate; lia).
  cbn [mbind outcome_bind]. rewrite length_replicate, drop_ge, app_nil_r by lia.
  rewrite (pack_loop_ok bs r _ [] [] (replicate n 0) n Hbs); [|done|by rewrite length_replicate|done].
  cbn. by rewrite drop_replicate.
Qed.

(** [pack] of a text with an odd number of digits and room for them runs past the
    terminator: the missing digit counts as 255, and the next byte read is outside of
    the text. *)
Theorem pack_odd_reads_outside b d pck :
  byte_ok b → 0 <= d < 16 → length pck = 2%nat →
  pack (cstr (hex_text [b] ++ [hex_of d])) pck 2 = Undef.
Proof.
  intros Hb Hd Hp. destruct (byte_digits b Hb) as (H1 & H2 & _).
  destruct (hex_hex_of _ H1) as [_ N1], (hex_hex_of _ Hd) as [_ N3].
  unfold pack. rewrite overwrite_ok by (rewrite length_replicate; lia).
  cbn [mbind outcome_bind]. rewrite length_replicate, drop_ge by lia.
  unfold cstr. cbn [hex_text mbind list_bind app replicate].
  set (c1 := hex_of (Z.shiftr b 4)) in *. set (c2 := hex_of (Z.land b 15)) in *. set (c3 := hex_of d) in *.
  clearbody c1 c2 c3.
  destruct c1 as [|p1|p1]; [done|..]; (destruct c3 as [|p3|p3]; [done|..]); reflexivity.
Qed.

Lemma pack_odd_reads_outside_witness : pack (lit "a1f" ++ [0]) [0; 0] 2 = Undef.
Proof. apply (pack_odd_reads_outside 161 15 [0; 0]); [split; lia|lia|reflexivity]. Defined.

(** ** Numbers *)

(** A value from 2147483648 on comes out of [safe_strtoul] negative. *)
Lemma safe_strtoul_wraps : safe_strtoul (cstr (lit "3000000000")) 0 = Ret (-1294967296).
Proof. reflexivity. Qed.

(** ** [http_encode] *)
Definition encode (s : bytes) : bytes := s ≫= λ c, if c =? 32 then lit "%20" else [c].

Lemma encode_text s : text s → text (encode s).
Proof.
  induction 1 as [|c s Hc Hs IH]; [constructor|]. cbn. apply Forall_app. split; [|done].
  case_match; [apply (bool_decide_unpack _); by vm_compute|]. by repeat constructor.
Qed.

(** The loop as long as there is room for what it writes and a terminator. *)
Lemma encode_loop_ok s from i rest fuel to0 q len :
  text s → from = i ++ s ++ rest → (length s <= fuel)%nat →
  (length (encode s) < len)%nat → (len <= length q)%nat → Z.of_nat len < 2 ^ 32 →
  ∃ q', encode_loop fuel from (Z.of_nat (length i)) (to0 ++ q) (Z.of_nat (length to0)) (Z.of_nat len) =
        encode_loop (fuel - length s) from (Z.of_nat (length (i ++ s))) (to0 ++ encode s ++ q')
          (Z.of_nat (length (to0 ++ encode s))) (Z.of_nat (len - length (encode s))) ∧
    length (encode s ++ q') = length q ∧ drop (S (length (encode s))) q = drop 1 q'.
Proof.
  intros Hs. revert i fuel to0 q len. induction Hs as [|c s Hc Hs IH]; intros i fuel to0 q len Hfrom Hf Hlen Hq Hlt.
  - exists q. cbn [length encode mbind list_bind app]. rewrite !app_nil_r, !Nat.sub_0_r. done.
  - destruct fuel as [|fuel]; [cbn in Hf; lia|]. cbn [length] in Hf. cbn [encode_loop].
    rewrite (rd_at from (Z.of_nat (length i)) i c (s ++ rest)) by done. cbn [mbind outcome_bind].
    rewrite (proj2 (Z.eqb_neq c 0)) by done. rewrite (proj2 (Z.eqb_neq (Z.of_nat len) 0)) by lia. cbn [orb].
    change (encode (c :: s)) with ((if c =? 32 then lit "%20" else [c]) ++ encode s) in *.
    replace (Z.of_nat (length i) + 1) with (Z.of_nat (length (i ++ [c]))) by (rewrite length_app; cbn; lia).
    assert (from = (i ++ [c]) ++ s ++ rest) as Hfrom' by by rewrite <- app_assoc.
    destruct (c =? 32) eqn:E32.
    + change (lit "%20") with [37; 50; 48] in *. cbn [app length] in Hlen.
      destruct q as [|x0 [|x1 [|x2 [|x3 q]]]]; try (cbn in Hq; lia).
      unfold padd. rewrite Nat2Z.id. rewrite (proj2 (Nat.leb_le _ _)) by (rewrite length_app; lia).
      cbn [mbind outcome_bind]. rewrite drop_app_length, take_app_length.
      replace (Z.min (Z.of_nat len) 4) with 4 by lia. change (Z.to_nat 4) with 4%nat. cbn [vsnprintf].
      rewrite overwrite_ok by (cbn; lia). cbn [mbind outcome_bind].
      cbn [take app length drop]. change (Z.of_nat 3) with 3.
      destruct (IH (i ++ [c]) fuel (to0 ++ [37; 50; 48]) (0 :: q) (len - 3)%nat Hfrom') as (q' & E & Hl & Hd);
        [lia|lia|cbn in *; lia|lia|].
      exists q'. split_and!; [|cbn [app length] in *; rewrite ?length_app in *; cbn [length] in *; lia|exact Hd].
      rewrite (u32_small (Z.of_nat len - 3)) by lia. rewrite <- !app_assoc in E. cbn [app] in E.
      etrans; [|etrans; [exact E|]]; f_equal; rewrite <- ?app_assoc, ?length_app; cbn [length app]; done || lia.
    + cbn [app length] in Hlen |- *. destruct q as [|x q]; [cbn in Hq; lia|]. rewrite wr_mid. cbn [mbind outcome_bind].
      destruct (IH (i ++ [c]) fuel (to0 ++ [c]) q (len - 1)%nat Hfrom') as (q' & E & Hl & Hd);
        [lia|lia|cbn in *; lia|lia|].
      exists q'. split_and!; [|cbn [app length] in *; rewrite ?length_app in *; cbn [length] in *; lia|exact Hd].
      rewrite (u32_small (Z.of_nat len - 1)) by lia. rewrite <- !app_assoc in E. cbn [app] in E.
      etrans; [|etrans; [exact E|]]; f_equal; rewrite <- ?app_assoc, ?length_app; cbn [length app]; done || lia.
Qed.

Lemma http_encode_ok s r to len :
  text s → (length (encode s) < len <= length to)%nat → Z.of_nat len < 2 ^ 32 →
  http_encode (s ++ 0 :: r) to (Z.of_nat len) = Ret (placed (encode s) to).
Proof.
  intros Hs Hlen Hlt. unfold http_encode.
  destruct (encode_loop_ok s (s ++ 0 :: r) [] (0 :: r) (S (length (s ++ 0 :: r))) [] to len)
    as (q' & E & Hl & Hd); [done|done|rewrite length_app; lia|lia|lia|done|].
  cbn [app length] in E. change (Z.of_nat 0) with 0 in E. rewrite E. clear E.
  replace (S (length (s ++ 0%Z :: r)) - length s)%nat with (S (S (length r)))
    by (rewrite length_app; cbn; lia).
  cbn [encode_loop]. rewrite rd_mid. cbn [mbind outcome_bind Z.eqb orb].
  rewrite (proj2 (Z.eqb_neq _ 0)) by lia. rewrite length_app in Hl.
  destruct q' as [|x q']; [cbn in Hl; lia|]. rewrite wr_mid. unfold placed. rewrite Hd. done.
Qed.

(** [http_encode] copies a text with its spaces written as [%20] when the result
    fits; when a space comes with only one or two bytes left in the buffer, the bytes
    left are counted below 0, the check of the length is lost for good and it writes
    past the buffer. *)
Theorem http_encode_overflows s t r to len :
  text s → (length (encode s) < len)%nat → (len <= length (encode s) + 2)%nat → length to = len →
  Z.of_nat len < 2 ^ 32 →
  http_encode (s ++ 0 :: r) to (Z.of_nat len) = Ret (placed (encode s) to) ∧
  http_encode (s ++ 32 :: t ++ 0 :: r) to (Z.of_nat len) = Undef.
Proof.
  intros Hs Hlen Hlen2 Hto Hlt. split; [apply http_encode_ok; [done|lia|done]|]. unfold http_encode.
  destruct (encode_loop_ok s (s ++ 32 :: t ++ 0 :: r) [] (32 :: t ++ 0 :: r)
    (S (length (s ++ 32 :: t ++ 0 :: r))) [] to len)
    as (q' & E & Hl & Hd); [done|done|rewrite length_app; lia|lia|lia|done|].
  cbn [app length] in E. change (Z.of_nat 0) with 0 in E. rewrite E. clear E.
  replace (S (length (s ++ 32%Z :: t ++ 0%Z :: r)) - length s)%nat with (S (S (length (t ++ 0 :: r))))
    by (rewrite (length_app s); cbn [length]; lia).
  cbn [encode_loop]. rewrite rd_mid. cbn [mbind outcome_bind Z.eqb Pos.eqb orb].
  rewrite (proj2 (Z.eqb_neq _ 0)) by lia. unfold padd. rewrite Nat2Z.id.
  rewrite (proj2 (Nat.leb_le _ _)) by (rewrite length_app; lia). cbn [mbind outcome_bind].
  rewrite drop_app_length, take_app_length.
  set (k := (len - length (encode s))%nat) in *. rewrite length_app in Hl.
  assert (1 <= k <= 2)%nat as Hk by lia. assert (length q' = k) as Hq' by lia.
  replace (Z.min (Z.of_nat k) 4) with (Z.of_nat k) by lia. rewrite Nat2Z.id.
  rewrite vsnprintf_ok by lia. cbn [mbind outcome_bind]. change (Z.of_nat (length (lit "%20"))) with 3.
  set (q2 := take _ _ ++ 0 :: _). assert (length (encode s ++ q2) = len) as Hq2.
  { unfold q2. rewrite !length_app. cbn [length]. rewrite length_take, length_drop.
    change (length (lit "%20")) with 3%nat. lia. }
  assert (u32 (Z.of_nat k - 3) ≠ 0) as Hu.
  { unfold u32. rewrite <- (Z.mod_add _ 1), Z.mod_small by lia. lia. }
  destruct (t ++ 0 :: r) as [|c u] eqn:Eu; [by destruct t|].
  rewrite (rd_at _ (Z.of_nat (length s) + 1) (s ++ [32]) c u)
    by (rewrite ?length_app, <- ?app_assoc; cbn [length app]; done || lia).
  cbn [mbind outcome_bind]. rewrite (proj2 (Z.eqb_neq _ 0) Hu), orb_false_r.
  destruct (c =? 0); cbn [mbind outcome_bind].
  - rewrite (proj2 (Z.eqb_neq _ 0) Hu). by rewrite wr_Undef by lia.
  - destruct (c =? 32).
    + by rewrite (proj2 (Nat.leb_gt _ _)) by lia.
    + by rewrite wr_Undef by lia.
Qed.

Lemma http_encode_overflows_witness :
  http_encode (lit "ab" ++ [0]) (replicate 4 165) 4 = Ret (lit "ab" ++ [0; 165]) ∧
  http_encode (lit "ab" ++ lit " " ++ [0]) (replicate 4 165) 4 = Undef.
Proof.
  exact (http_encode_overflows (lit "ab") [] [] (replicate 4 165) 4
    ltac:(apply (bool_decide_unpack _); vm_compute; exact I) ltac:(apply Nat.ltb_lt; reflexivity) ltac:(apply Nat.leb_le; reflexivity) eq_refl ltac:(lia)).
Defined.
