(* ===== verification/EtkSeq.v ===== *)
(** libetk's text buffers and address printing:
    [src/efixo/efixo-libetk/src/src/seq_file.c], [include/etk/seq_file.h] and
    [src/net_sprint.c].

    A format is given with its arguments rendered.  Addresses in host order: the boxes
    are big-endian, where [htonl] and [ntohl] are the identity. *)

From stdpp Require Import base tactics list strings.
From S2P Require Import Prelude.
From S2P Require Import CString.
From S2P Require Import NbuString.
From S2P Require Import NbuNet.
From S2P Require Import EtkString.
Import NbuString NbuNet EtkString.

Module EtkSeq.

(** [struct seq_file]. *)
Record seq_file := Seq {
  buf : bytes;
  size : Z;
  count : Z;
}.

(** [DEFINE_SEQFILE(x, P, S)]: [count] is 0. *)
Definition DEFINE_SEQFILE (P : bytes) (S : Z) : seq_file := Seq P S 0.

Definition seq_printf (m : seq_file) (t : bytes) : outcome (Z * seq_file) :=
  if count m <? size m then
    rest ← padd (buf m) (Z.to_nat (count m));
    '(len, rest) ← vsnprintf rest (Z.to_nat (size m - count m)) t;
    let b := take (Z.to_nat (count m)) (buf m) ++ rest in
    if u32 (count m + len) <? size m then Ret (0, Seq b (size m) (u32 (count m + len)))
    else Ret (-1, Seq b (size m) (size m))
  else Ret (-1, Seq (buf m) (size m) (size m)).

(** The loop of [seq_print_hex] over [n] bytes from [p]; [to] is always
    [m->buf + m->count]. *)
Fixpoint hex_loop (n : nat) (bin : bytes) (p : Z) (max_count : Z) (m : seq_file) : outcome seq_file :=
  match n with
  | O => Ret m
  | S n =>
      if count m <? max_count then
        c ← rd bin p;
        h ← hex_ascii (Z.shiftr c 4);
        b ← wr (buf m) (count m) h;
        l ← hex_ascii (Z.land c 15);
        b ← wr b (count m + 1) l;
        hex_loop n bin (p + 1) max_count (Seq b (size m) (u32 (count m + 2)))
      else Ret m
  end.

Definition seq_print_hex (m : seq_file) (bin : bytes) (len : Z) : outcome seq_file :=
  let max_count := u32 (size m - 1) in
  let len := Z.min len (u32 (size m - count m)) in
  m ← hex_loop (Z.to_nat len) bin 0 max_count m;
  b ← wr (buf m) (Z.min (count m) max_count) 0;
  Ret (Seq b (size m) (count m)).

Inductive mac_addr_format :=
| mac_addr_format_system
| mac_addr_format_voip
| mac_addr_format_compact.

(** The last four octets of a MAC address are a number to which [off] is added. *)
Definition mac_offset (mac : bytes) (off : Z) : outcome bytes :=
  match mac with
  | [a; b; c; d; e; f] =>
      let last8digit := u32 (c * 2 ^ 24 + d * 2 ^ 16 + e * 2 ^ 8 + f + off) in
      Ret [a; b; u8 (Z.shiftr last8digit 24); u8 (Z.shiftr last8digit 16);
           u8 (Z.shiftr last8digit 8); u8 last8digit]
  | _ => Undef
  end.

Definition mac_format_text (fmt : mac_addr_format) (e : bytes) : bytes :=
  match fmt with
  | mac_addr_format_voip => join [45] (fmt_02x <$> e)
  | mac_addr_format_compact => join [] (fmt_02X <$> e)
  | mac_addr_format_system => join [58] (fmt_02X <$> e)
  end.

Definition seq_print_mac_addr (m : seq_file) (mac : bytes) (fmt : mac_addr_format) (off : Z)
    : outcome seq_file :=
  mac ← mem_read (Some mac) 0 6;
  e ← mac_offset mac off;
  '(_, m) ← seq_printf m (mac_format_text fmt e);
  Ret m.

Definition seq_print_net (m : seq_file) (s_ipaddr s_netmask : bytes) : outcome (Z * seq_file) :=
  ip ← c_str s_ipaddr;
  match inet_aton ip with
  | None => Ret (0, m)
  | Some ipaddr =>
      nm ← c_str s_netmask;
      match inet_aton nm with
      | None => Ret (0, m)
      | Some netmask =>
          let mask := 32 - (ffs netmask - 1) in
          let mask := if 32 <? mask then 0 else mask in
          seq_printf m (inet_ntoa (Z.land ipaddr netmask) ++ 47 :: fmt_d mask)
      end
  end.

Definition seq_c_str (m : seq_file) : bytes := buf m.
Definition seq_clear (m : seq_file) : seq_file := Seq (buf m) (size m) 0.
Definition seq_length (m : seq_file) : Z := s32 (count m).
Definition seq_empty (m : seq_file) : bool := count m =? 0.
Definition seq_full (m : seq_file) : bool := count m =? size m.

(** ** net_sprint.c *)
Definition ip_mc_ethernet (mc_ip_addr mc_ethernet : bytes) (len : nat) : outcome (Z * bytes) :=
  s ← c_str mc_ip_addr;
  match inet_aton s with
  | None => Ret (-1, mc_ethernet)
  | Some ip_mc =>
      '(_, b) ← vsnprintf mc_ethernet len
        (lit "01:00:5E:" ++ fmt_02X (Z.land (Z.shiftr ip_mc 16) 127) ++ 58 ::
         fmt_02X (Z.land (Z.shiftr ip_mc 8) 255) ++ 58 :: fmt_02X (Z.land ip_mc 255));
      Ret (0, b)
  end.

Definition ipnet_sprint (b : bytes) (len : nat) (s_ipaddr s_netmask : bytes) (print_ip : bool)
    : outcome (Z * bytes) :=
  ip ← c_str s_ipaddr;
  match inet_aton ip with
  | None => Ret (0, b)
  | Some ipaddr =>
      nm ← c_str s_netmask;
      match inet_aton nm with
      | None => Ret (0, b)
      | Some netmask =>
          let mask := prefix_len netmask in
          if print_ip then vsnprintf b len (inet_ntoa ipaddr ++ 47 :: fmt_u mask)
          else vsnprintf b len (inet_ntoa (Z.land ipaddr netmask) ++ 47 :: fmt_u mask)
      end
  end.

Definition ip_sprint (b : bytes) (len : nat) (ipaddr netmask : bytes) : outcome (Z * bytes) :=
  ipnet_sprint b len ipaddr netmask true.

Definition net_sprint (b : bytes) (len : nat) (ipaddr netmask : bytes) : outcome (Z * bytes) :=
  ipnet_sprint b len ipaddr netmask false.

Definition broadcast_sprint (b : bytes) (len : nat) (s_ipaddr s_netmask : bytes) : outcome (Z * bytes) :=
  ip ← c_str s_ipaddr;
  match inet_aton ip with
  | None => Ret (0, b)
  | Some ipaddr =>
      nm ← c_str s_netmask;
      match inet_aton nm with
      | None => Ret (0, b)
      | Some netmask => vsnprintf b len (inet_ntoa (Z.land ipaddr (u32 (Z.lnot netmask))))
      end
  end.

End EtkSeq.
