(* ===== verification/EtkSeqProofs.v ===== *)
(** libetk's text buffers and address printing: bounds, contents, agreement with
    libnbu's address functions. *)

From stdpp Require Import base tactics list strings.
From S2P Require Import Prelude.
From S2P Require Import CString.
From S2P Require Import NbuList.
From S2P Require Import NbuString.
From S2P Require Import NbuNet.
From S2P Require Import EtkString.
From S2P Require Import EtkStringProofs.
From S2P Require Import EtkSeq.
Import NbuList NbuString NbuNet EtkString EtkSeq.

(** ** Bounds *)

(** The buffer is there, and the position is in it or just behind. *)
Record seq_ok (m : seq_file) : Prop := {
  ok_size : 1 <= size m <= Z.of_nat (length (buf m));
  ok_max : size m < 2 ^ 31;
  ok_count : 0 <= count m <= size m;
}.

(** Nothing is written from [size] on, and the object keeps its length. *)
Definition within (m m' : seq_file) : Prop :=
  size m' = size m ∧ length (buf m') = length (buf m) ∧
  drop (Z.to_nat (size m)) (buf m') = drop (Z.to_nat (size m)) (buf m).

Lemma within_refl m : within m m.
Proof. done. Qed.

Lemma within_trans m1 m2 m3 : within m1 m2 → within m2 m3 → within m1 m3.
Proof. intros (E1 & L1 & D1) (E2 & L2 & D2). rewrite E1 in D2. split_and!; congruence. Qed.

Lemma seq_printf_ok m t :
  seq_ok m → Z.of_nat (length t) < 2 ^ 31 →
  ∃ m' r, seq_printf m t = Ret (r, m') ∧ seq_ok m' ∧ within m m' ∧
    (count m < size m →
     let k := take (Z.to_nat (count m)) (buf m) in
     (∃ q, buf m' = k ++ take (Z.to_nat (size m - 1 - count m)) t ++ 0 :: q) ∧
     r = (if count m + Z.of_nat (length t) <? size m then 0 else -1) ∧
     count m' = (if count m + Z.of_nat (length t) <? size m then count m + Z.of_nat (length t) else size m)) ∧
    (count m = size m → r = -1 ∧ m' = m).
Proof.
  intros [Hs Hmax Hc] Ht. unfold seq_printf. destruct (count m <? size m) eqn:E; zbool.
  2: { assert (count m = size m) as Ec by lia. do 2 eexists. split; [reflexivity|].
       split_and!; [split; cbn; lia|done|lia|]. intros _. destruct m; cbn in *. by subst. }
  unfold padd. rewrite (proj2 (Nat.leb_le _ _)) by lia. cbn [mbind outcome_bind].
  set (k := take (Z.to_nat (count m)) (buf m)). set (n := Z.to_nat (size m - count m)).
  assert (length k = Z.to_nat (count m)) as Hk by (unfold k; rewrite length_take; lia).
  assert (0 < n <= length (drop (Z.to_nat (count m)) (buf m)))%nat as Hn by (rewrite length_drop; lia).
  rewrite vsnprintf_ok by done. cbn [mbind outcome_bind]. rewrite u32_small by lia.
  set (q := drop _ (drop _ _)).
  assert (within m (Seq (k ++ take (pred n) t ++ 0 :: q) (size m) 0)) as (_ & Hl & Hd).
  { split_and!; [done|..]; cbn.
    - unfold q. rewrite !length_app. cbn [length]. rewrite !length_drop, length_take. lia.
    - assert (length (k ++ take (pred n) t ++ [0%Z]) <= Z.to_nat (size m))%nat
        by (rewrite !length_app, length_take; cbn; lia).
      replace (k ++ take (pred n) t ++ 0 :: q) with ((k ++ take (pred n) t ++ [0]) ++ q)
        by (by rewrite <- !app_assoc).
      rewrite drop_app_ge by done. unfold q. rewrite !drop_drop. f_equal.
      rewrite !length_app, length_take in *. cbn in *. lia. }
  cbn in Hl, Hd. replace (pred n) with (Z.to_nat (size m - 1 - count m)) in * by lia.
  destruct (count m + Z.of_nat (length t) <? size m) eqn:E2; zbool; do 2 eexists; (split; [reflexivity|]);
    (split_and!; [split; cbn; lia|done| |lia]); intros _; cbn; split_and!; done || by exists q.
Qed.

(** Two bytes written at the position of a buffer that has room for them. *)
Lemma write2 (b : bytes) c x y :
  0 <= c → c + 2 <= Z.of_nat (length b) →
  ∃ b1 b2, wr b c x = Ret b1 ∧ wr b1 (c + 1) y = Ret b2 ∧ length b2 = length b ∧
    ∀ n, c + 2 <= Z.of_nat n → drop n b2 = drop n b.
Proof.
  intros Hc Hb. exists (<[Z.to_nat c := x]> b), (<[Z.to_nat (c + 1) := y]> (<[Z.to_nat c := x]> b)).
  rewrite (wr_ok b c x), (wr_ok (<[_ := x]> b)) by (rewrite ?length_insert; lia).
  split_and!; [done|done|by rewrite !length_insert|]. intros n Hn. by rewrite !drop_insert_lt by lia.
Qed.

Lemma hex_loop_ok n bin p m :
  seq_ok m → Forall byte_ok bin → 0 <= p → p + Z.of_nat n <= Z.of_nat (length bin) →
  ∃ m', hex_loop n bin p (size m - 1) m = Ret m' ∧ seq_ok m' ∧ within m m'.
Proof.
  revert p m. induction n as [|n IH]; intros p m Hok Hb Hp Hn; cbn [hex_loop]; [eauto using within_refl|].
  destruct (count m <? size m - 1) eqn:E; zbool; [|eauto using within_refl].
  destruct Hok as [Hs Hmax Hc].
  destruct (lookup_lt_is_Some_2 bin (Z.to_nat p)) as [c Ec]; [lia|].
  rewrite (rd_ok _ _ _ Hp Ec). cbn [mbind outcome_bind].
  destruct (byte_digits c) as (H1 & H2 & _); [by eapply (Forall_lookup_1 byte_ok)|].
  rewrite !hex_ascii_ok by done. cbn [mbind outcome_bind].
  destruct (write2 (buf m) (count m) (hex_of (Z.shiftr c 4)) (hex_of (Z.land c 15)))
    as (b1 & b2 & -> & E2 & Hl & Hd); [lia|lia|]. cbn [mbind outcome_bind]. rewrite E2. cbn [mbind outcome_bind].
  rewrite u32_small by lia.
  destruct (IH (p + 1) (Seq b2 (size m) (count m + 2))) as (m' & Em & Hok' & Hw); [|done|lia|lia|].
  { split; cbn; lia. }
  exists m'. split_and!; [done|done|]. eapply within_trans; [|exact Hw]. split_and!; cbn; [done|done|].
  apply Hd. lia.
Qed.

Lemma seq_print_hex_ok m bin len :
  seq_ok m → Forall byte_ok bin → 0 <= len <= Z.of_nat (length bin) →
  ∃ m', seq_print_hex m bin len = Ret m' ∧ seq_ok m' ∧ within m m'.
Proof.
  intros Hok Hb Hlen. destruct (Hok) as [Hs Hmax Hc]. unfold seq_print_hex. rewrite !u32_small by lia.
  destruct (hex_loop_ok (Z.to_nat (Z.min len (size m - count m))) bin 0 m) as (m1 & -> & Hok1 & Hw); [done|done|lia|lia|].
  cbn [mbind outcome_bind]. destruct Hok1 as [Hs1 Hmax1 Hc1]. destruct Hw as (Ew & Lw & Dw).
  rewrite wr_ok by lia. cbn [mbind outcome_bind]. eexists. split; [reflexivity|]. split.
  - split; cbn; rewrite ?length_insert; lia.
  - split_and!; cbn; [done|by rewrite length_insert|]. rewrite drop_insert_lt by lia. done.
Qed.

Lemma u8s_ok z : Forall (λ n, 0 <= n < 256) [u8 (Z.shiftr z 24); u8 (Z.shiftr z 16); u8 (Z.shiftr z 8); u8 z].
Proof. do 4 (apply Forall_cons; split; [apply u8_range|]). constructor. Qed.

(** ** Any sequence of operations *)
Inductive seq_op :=
| SPrintf (t : bytes)
| SHex (bin : bytes) (len : Z)
| SMac (mac : bytes) (fmt : mac_addr_format) (off : Z)
| SNet (ip netmask : bytes)
| SClear.

Definition seq_exec (o : seq_op) (m : seq_file) : outcome seq_file :=
  match o with
  | SPrintf t => '(_, m) ← seq_printf m t; Ret m
  | SHex bin len => seq_print_hex m bin len
  | SMac mac fmt off => seq_print_mac_addr m mac fmt off
  | SNet ip netmask => '(_, m) ← seq_print_net m ip netmask; Ret m
  | SClear => Ret (seq_clear m)
  end.

Fixpoint seq_exec_all (os : list seq_op) (m : seq_file) : outcome seq_file :=
  match os with
  | [] => Ret m
  | o :: os => m ← seq_exec o m; seq_exec_all os m
  end.

(** What the caller owes: data of the length it says, texts that end. *)
Definition op_ok (o : seq_op) : Prop :=
  match o with
  | SPrintf t => Z.of_nat (length t) < 2 ^ 31
  | SHex bin len => Forall byte_ok bin ∧ 0 <= len <= Z.of_nat (length bin)
  | SMac mac _ _ => Forall byte_ok mac ∧ (6 <= length mac)%nat
  | SNet ip netmask => (∃ s, str_of ip = Some s) ∧ ∃ s, str_of netmask = Some s
  | SClear => True
  end.

Lemma mac_read mac :
  Forall byte_ok mac → (6 <= length mac)%nat →
  ∃ a b c d e f, mem_read (Some mac) 0 6 = Ret [a; b; c; d; e; f] ∧
    Forall (λ n, 0 <= n < 256) [a; b; c; d; e; f].
Proof.
  intros Hb Hl. rewrite mem_read_Ret by lia. change (Z.to_nat 6) with 6%nat. rewrite drop_0.
  destruct mac as [|a [|b [|c [|d [|e [|f mac]]]]]]; cbn in Hl; try lia.
  exists a, b, c, d, e, f. split; [done|]. rewrite !Forall_cons in Hb. destruct Hb as (?&?&?&?&?&?&_). do 6 (apply Forall_cons; split; [done|]). constructor.
Qed.

Lemma mac_offset_ok a b c d e f off :
  ∃ o, mac_offset [a; b; c; d; e; f] off = Ret o ∧
    (Forall (λ n, 0 <= n < 256) [a; b; c; d; e; f] → Forall (λ n, 0 <= n < 256) o) ∧ length o = 6%nat.
Proof.
  eexists. split; [reflexivity|]. split; [|done]. rewrite !(Forall_cons _ a), !(Forall_cons _ b).
  intros (Ha & Hb & _). do 2 (split; [done|]). apply u8s_ok.
Qed.

Lemma fmt_02x_length n : 0 <= n < 256 → length (fmt_02x n) = 2%nat.
Proof.
  intros Hn. apply Nat.eqb_eq. revert n Hn.
  apply (forall_bytes (λ n, (length (fmt_02x n) =? 2)%nat)). vm_compute. reflexivity.
Qed.

Lemma join_length sep ps n :
  Forall (λ p, length p = n) ps → (length (join sep ps) <= length ps * (n + length sep))%nat.
Proof.
  induction 1 as [|p ps Hp Hps IH]; [cbn; lia|]. destruct ps as [|p' ps]; [cbn; lia|].
  change (join sep (p :: p' :: ps)) with (p ++ sep ++ join sep (p' :: ps)). rewrite !length_app.
  cbn [length] in *. lia.
Qed.

Lemma mac_format_length fmt e :
  Forall (λ n, 0 <= n < 256) e → length e = 6%nat → (length (mac_format_text fmt e) <= 18)%nat.
Proof.
  intros He Hl.
  assert (Forall (λ p, length p = 2%nat) (fmt_02X <$> e)) as HX.
  { apply Forall_fmap. eapply Forall_impl; [exact He|]. intros n Hn. by destruct (fmt_02X_byte n Hn). }
  assert (Forall (λ p, length p = 2%nat) (fmt_02x <$> e)) as Hx.
  { apply Forall_fmap. eapply Forall_impl; [exact He|]. intros n Hn. by apply fmt_02x_length. }
  destruct fmt; cbn [mac_format_text].
  - pose proof (join_length [58] _ 2 HX) as H. rewrite length_fmap, Hl in H. cbn in H. lia.
  - pose proof (join_length [45] _ 2 Hx) as H. rewrite length_fmap, Hl in H. cbn in H. lia.
  - pose proof (join_length [] _ 2 HX) as H. rewrite length_fmap, Hl in H. cbn in H. lia.
Qed.

Lemma ffs_from_range fuel z i : 0 <= i → 0 <= ffs_from fuel z i <= i + Z.of_nat fuel.
Proof.
  revert i. induction fuel as [|fuel IH]; intros i Hi; cbn [ffs_from]; [lia|].
  destruct (Z.testbit z i); [lia|]. specialize (IH (i + 1) ltac:(lia)). lia.
Qed.

(** The prefix length as an [int], the same as on an [unsigned int]. *)
Lemma prefix_len_int nm :
  (if 32 <? 32 - (ffs nm - 1) then 0 else 32 - (ffs nm - 1)) = prefix_len nm ∧ 0 <= prefix_len nm <= 32.
Proof.
  pose proof (ffs_from_range 32 nm 0 ltac:(lia)) as Hf. unfold prefix_len. change (ffs_from 32 nm 0) with (ffs nm) in Hf.
  destruct (decide (ffs nm = 0)) as [->|Hne]; [done|].
  rewrite (u32_small (ffs nm - 1)), (u32_small (32 - _)) by lia. cbn zeta.
  destruct (32 <? 32 - (ffs nm - 1)) eqn:E; zbool; lia.
Qed.

Lemma net_text_length ip mask :
  0 <= mask <= 32 → text (inet_ntoa ip ++ 47 :: fmt_u mask) ∧
  (length (inet_ntoa ip ++ 47%Z :: fmt_u mask) <= 19)%nat.
Proof.
  intros Hm. destruct (fmt_u_byte mask ltac:(lia)) as [Hbt Hl]. unfold inet_ntoa.
  pose proof (u8_range (Z.shiftr ip 24)) as H0. pose proof (u8_range (Z.shiftr ip 16)) as H1.
  pose proof (u8_range (Z.shiftr ip 8)) as H2. pose proof (u8_range ip) as H3. split.
  - rewrite Forall_app, Forall_cons. split_and!; [by apply dotted_text|lia|by eapply bt_text].
  - rewrite length_app. cbn [length]. pose proof (dotted_length _ _ _ _ H0 H1 H2 H3). lia.
Qed.

Lemma seq_exec_ok o m :
  seq_ok m → op_ok o → ∃ m', seq_exec o m = Ret m' ∧ seq_ok m' ∧ within m m'.
Proof.
  intros Hok Ho. destruct o as [t|bin len|mac fmt off|ip netmask|]; cbn [seq_exec op_ok] in *.
  - destruct (seq_printf_ok m t Hok Ho) as (m' & r & -> & ? & ? & _). by exists m'.
  - destruct Ho. by apply seq_print_hex_ok.
  - destruct Ho as [Hb Hl]. unfold seq_print_mac_addr.
    destruct (mac_read mac Hb Hl) as (a & b & c & d & e & f & -> & Hr). cbn [mbind outcome_bind].
    destruct (mac_offset_ok a b c d e f off) as (o & -> & Hro & Hlo). cbn [mbind outcome_bind].
    pose proof (mac_format_length fmt o (Hro Hr) Hlo).
    destruct (seq_printf_ok m (mac_format_text fmt o) Hok) as (m' & r & -> & ? & ? & _); [lia|]. by exists m'.
  - destruct Ho as [[s Hs] [u Hu]]. unfold seq_print_net, c_str. rewrite Hs. cbn [must mbind outcome_bind].
    destruct (inet_aton s) as [ip'|]; [|by exists m]. rewrite Hu. cbn [must mbind outcome_bind].
    destruct (inet_aton u) as [nm|]; [|by exists m]. destruct (prefix_len_int nm) as [-> Hp].
    unfold fmt_d. rewrite (proj2 (Z.ltb_ge _ _)) by lia.
    destruct (net_text_length (Z.land ip' nm) (prefix_len nm) Hp) as [_ Hl].
    destruct (seq_printf_ok m (inet_ntoa (Z.land ip' nm) ++ 47 :: fmt_u (prefix_len nm)) Hok)
      as (m' & r & -> & ? & ? & _); [lia|]. by exists m'.
  - eexists. split; [reflexivity|]. destruct Hok. split; [split; cbn; lia|done].
Qed.

(** C32: whatever is printed into a text buffer, in whatever order and length, no
    operation writes from the size given on, none reads what it must not, and the
    buffer stays well formed. *)
Theorem seq_file_within_bounds os P n :
  1 <= n <= Z.of_nat (length P) → n < 2 ^ 31 → Forall op_ok os →
  ∃ m, seq_exec_all os (DEFINE_SEQFILE P n) = Ret m ∧ seq_ok m ∧ size m = n ∧
    drop (Z.to_nat n) (buf m) = drop (Z.to_nat n) P ∧ length (buf m) = length P.
Proof.
  intros Hn Hmax Hos.
  assert (∀ m, seq_ok m → ∃ m', seq_exec_all os m = Ret m' ∧ seq_ok m' ∧ within m m') as H.
  { induction Hos as [|o os Ho Hos IH]; intros m Hm; cbn [seq_exec_all]; [eauto using within_refl|].
    destruct (seq_exec_ok o m Hm Ho) as (m1 & -> & Hm1 & Hw). cbn [mbind outcome_bind].
    destruct (IH m1 Hm1) as (m2 & -> & Hm2 & Hw2). eauto using within_trans. }
  destruct (H (DEFINE_SEQFILE P n)) as (m & E & Hm & Es & El & Ed); [by split; cbn; lia|].
  exists m. by split_and!.
Qed.

Lemma seq_file_within_bounds_witness :
  ∃ m, seq_exec_all [SPrintf (lit "mac="); SMac [0; 23; 51; 255; 255; 255] mac_addr_format_voip 1;
                     SHex [1; 2; 3] 3; SClear; SNet (lit "192.168.1.77" ++ [0]) (lit "255.255.255.0" ++ [0])]
         (DEFINE_SEQFILE (replicate 24 165) 20) = Ret m ∧ seq_ok m ∧ size m = 20 ∧
    drop 20 (buf m) = [165; 165; 165; 165] ∧ length (buf m) = 24%nat.
Proof.
  apply (seq_file_within_bounds _ (replicate 24 165) 20); [cbn; lia|lia|].
  repeat constructor; cbn; try lia; try (eexists; vm_compute; reflexivity).
Defined.

(** ** Contents *)

(** A bounded text: what is in it, and whether something was lost. *)
Definition put_text (n : Z) (st : bytes * bool) (u : bytes) : Z * (bytes * bool) :=
  let '(t, full) := st in
  if full then (-1, (t, true))
  else if Z.of_nat (length (t ++ u)) <? n then (0, (t ++ u, false))
  else (-1, (take (Z.to_nat (n - 1)) (t ++ u), true)).

Fixpoint put_texts (n : Z) (st : bytes * bool) (us : list bytes) : list Z * (bytes * bool) :=
  match us with
  | [] => ([], st)
  | u :: us => let '(r, st) := put_text n st u in let '(rs, st) := put_texts n st us in (r :: rs, st)
  end.

Fixpoint seq_printf_all (us : list bytes) (m : seq_file) : outcome (list Z * seq_file) :=
  match us with
  | [] => Ret ([], m)
  | u :: us => '(r, m) ← seq_printf m u; '(rs, m) ← seq_printf_all us m; Ret (r :: rs, m)
  end.

(** The buffer starts with the text; [z] says that its terminator is there too. *)
Record seq_has (m : seq_file) (st : bytes * bool) (z : bool) : Prop := {
  has_ok : seq_ok m;
  has_text : text st.1;
  has_count : count m = if st.2 : bool then size m else Z.of_nat (length st.1);
  has_room : Z.of_nat (length st.1) < size m;
  has_buf : ∃ q, buf m = st.1 ++ q;
  has_term : z = true → ∃ q, buf m = st.1 ++ 0 :: q;
}.

Lemma seq_printf_has m st z u :
  seq_has m st z → (st.2 = true → z = true) → text u → Z.of_nat (length u) < 2 ^ 31 →
  ∃ m', seq_printf m u = Ret ((put_text (size m) st u).1, m') ∧ seq_has m' (put_text (size m) st u).2 true ∧
    size m' = size m.
Proof.
  destruct st as [t full]. intros [Hok Ht Hc Hr [q Hq] Hz] Hzf Hu Hlu. cbn [fst snd] in *.
  destruct (seq_printf_ok m u Hok Hlu) as (m' & r & E & Hok' & (Es & El & _) & H1 & H2).
  rewrite E. exists m'. unfold put_text. destruct full.
  - destruct (H2 Hc) as [-> ->]. split_and!; [done| |done]. cbn. split; cbn; auto.
    destruct (Hz (Hzf eq_refl)) as [q' ->]. eauto.
  - destruct H1 as ([q' Hb] & Er & Ec); [lia|]. rewrite Hc, Nat2Z.id, Hq, take_app_length in Hb.
    rewrite length_app, Nat2Z.inj_add. rewrite Hc in Er, Ec.
    destruct (Z.of_nat (length t) + Z.of_nat (length u) <? size m) eqn:E2; zbool; cbn [fst snd].
    + rewrite take_ge in Hb by lia. split_and!; [by rewrite Er| |done].
      split; cbn [fst snd]; [done|by apply Forall_app|rewrite length_app; lia|rewrite length_app; lia|..].
      * exists (0 :: q'). by rewrite <- app_assoc.
      * exists q'. by rewrite <- app_assoc.
    + assert (take (Z.to_nat (size m - 1)) (t ++ u) = t ++ take (Z.to_nat (size m - 1 - Z.of_nat (length t))) u) as Ek.
      { rewrite take_app_ge by lia. do 2 f_equal. lia. }
      rewrite Ek. split_and!; [by rewrite Er| |done].
      split; cbn [fst snd]; [done|apply Forall_app; split; [done|by apply Forall_take]|lia|..].
      * destruct Hok. rewrite length_app, length_take. lia.
      * exists (0 :: q'). by rewrite <- app_assoc.
      * exists q'. by rewrite <- app_assoc.
Qed.

(** C33: printing texts one after the other into a buffer of [n] bytes is appending to a
    bounded text: each call answers 0 as long as everything fits; the first that does
    not leaves the longest prefix that fits and answers -1, and so does every call after
    it, however short. *)
Theorem seq_printf_refines_bounded_text us P n :
  1 <= n <= Z.of_nat (length P) → n < 2 ^ 31 → us ≠ [] →
  Forall (λ u, text u ∧ Z.of_nat (length u) < 2 ^ 31) us →
  ∃ m, seq_printf_all us (DEFINE_SEQFILE P n) = Ret ((put_texts n ([], false) us).1, m) ∧
    str_of (seq_c_str m) = Some (put_texts n ([], false) us).2.1 ∧
    seq_full m = (put_texts n ([], false) us).2.2.
Proof.
  intros Hn Hmax Hne Hus.
  assert (∀ m st z, seq_has m st z → (st.2 = true → z = true) → size m = n →
    ∃ m', seq_printf_all us m = Ret ((put_texts n st us).1, m') ∧
      seq_has m' (put_texts n st us).2 (z || bool_decide (us ≠ []))) as H.
  { clear Hne. induction Hus as [|u us [Hu Hlu] Hus IH]; intros m st z Hm Hz Hs; cbn [seq_printf_all put_texts].
    - exists m. by rewrite orb_false_r.
    - destruct (seq_printf_has m st z u Hm Hz Hu Hlu) as (m1 & E1 & Hm1 & Hs1). rewrite Hs in *. rewrite E1.
      cbn [mbind outcome_bind]. destruct (put_text n st u) as [r st1]. cbn [fst snd] in *.
      destruct (IH m1 st1 true Hm1) as (m2 & E2 & Hm2); [done|done|]. rewrite E2. cbn [mbind outcome_bind].
      destruct (put_texts n st1 us) as [rs st2]. cbn [fst snd orb] in *. exists m2. split; [done|].
      rewrite bool_decide_true by done. by rewrite orb_true_r. }
  destruct (H (DEFINE_SEQFILE P n) ([], false) false) as (m & E & [Hok Ht Hc Hr _ Hz]); [|done|done|].
  { split; cbn; [split; cbn; lia|constructor|done|lia|by exists P|done]. }
  exists m. split; [done|]. rewrite bool_decide_true in Hz by done.
  destruct (Hz eq_refl) as [q Hq]. unfold seq_c_str, seq_full. rewrite Hq. split; [by apply str_of_app|].
  destruct ((put_texts n ([], false) us).2.2); [by apply Z.eqb_eq|]. apply Z.eqb_neq. lia.
Qed.

Lemma seq_printf_refines_bounded_text_witness :
  ∃ m, seq_printf_all [lit "ab"; lit "cdef"; lit "g"] (DEFINE_SEQFILE (replicate 8 165) 6) = Ret ([0; -1; -1], m) ∧
    str_of (seq_c_str m) = Some (lit "abcde") ∧ seq_full m = true.
Proof.
  apply (seq_printf_refines_bounded_text [lit "ab"; lit "cdef"; lit "g"] (replicate 8 165) 6);
    [cbn; lia|lia|done|]. repeat constructor; try (by vm_compute).
Defined.

(** ** Hexadecimal round trip *)
Lemma hex_loop_fits bs bin i rest k q n s max :
  bin = i ++ bs ++ rest → Forall byte_ok bs → (length bs <= n)%nat →
  (2 * length bs <= length q)%nat → Z.of_nat (length k + 2 * length bs) <= max → max < 2 ^ 31 →
  hex_loop n bin (Z.of_nat (length i)) max (Seq (k ++ q) s (Z.of_nat (length k))) =
  hex_loop (n - length bs) bin (Z.of_nat (length (i ++ bs))) max
    (Seq (k ++ hex_text bs ++ drop (2 * length bs) q) s (Z.of_nat (length k + 2 * length bs))).
Proof.
  intros Hbin Hbs. revert i k q n Hbin. induction Hbs as [|b bs Hb Hbs IH]; intros i k q n Hbin Hn Hq Hmax Hm.
  - cbn [length hex_text mbind list_bind app]. rewrite app_nil_r, Nat.sub_0_r, Nat.mul_0_r.
    by rewrite Nat.add_0_r, drop_0.
  - cbn [length] in *. destruct n as [|n]; [lia|]. cbn [hex_loop EtkSeq.count EtkSeq.buf EtkSeq.size].
    rewrite (proj2 (Z.ltb_lt _ max)) by lia.
    rewrite (rd_at bin (Z.of_nat (length i)) i b (bs ++ rest)) by done. cbn [mbind outcome_bind].
    destruct (byte_digits b Hb) as (H1 & H2 & _). rewrite !hex_ascii_ok by done. cbn [mbind outcome_bind].
    destruct q as [|x0 [|x1 q]]; [cbn in Hq; lia..|]. rewrite wr_mid. cbn [mbind outcome_bind].
    set (c1 := hex_of (Z.shiftr b 4)). set (c2 := hex_of (Z.land b 15)).
    rewrite (wr_at _ (Z.of_nat (length k) + 1) c2 (k ++ [c1]) x1 q) by
      (rewrite ?length_app, <- ?app_assoc; cbn [length app]; done || lia).
    cbn [mbind outcome_bind]. rewrite u32_small by lia.
    specialize (IH (i ++ [b]) (k ++ [c1; c2]) q n). rewrite <- !app_assoc in IH. cbn [app] in IH.
    change (hex_text (b :: bs)) with (c1 :: c2 :: hex_text bs).
    rewrite <- app_assoc. cbn [app]. etrans; [|etrans; [apply IH|]].
    + f_equal; [rewrite length_app; cbn; lia|]. f_equal. rewrite length_app. cbn. lia.
    + done.
    + lia.
    + cbn [length] in Hq. lia.
    + rewrite length_app. cbn [length]. lia.
    + done.
    + rewrite !length_app. cbn [length]. f_equal.
      replace (2 * S (length bs))%nat with (S (S (2 * length bs))) by lia. cbn [drop].
      first [lia|f_equal; lia].
Qed.

(** Bytes printed with [seq_print_hex] into a buffer with room for two digits each
    and a terminator are given back by [pack]. *)
Theorem seq_print_hex_pack_roundtrip bs P n pck :
  Forall byte_ok bs → 2 * Z.of_nat (length bs) < n → n <= Z.of_nat (length P) → n < 2 ^ 31 →
  length pck = length bs →
  ∃ m, seq_print_hex (DEFINE_SEQFILE P n) bs (Z.of_nat (length bs)) = Ret m ∧
    str_of (seq_c_str m) = Some (hex_text bs) ∧ seq_length m = 2 * Z.of_nat (length bs) ∧
    pack (seq_c_str m) pck (length bs) = Ret bs.
Proof.
  intros Hbs Hn HP Hmax Hpck. unfold seq_print_hex, DEFINE_SEQFILE. cbn [EtkSeq.size EtkSeq.count EtkSeq.buf].
  rewrite !u32_small by lia. rewrite Z.sub_0_r, Z.min_l, Nat2Z.id by lia.
  pose proof (hex_loop_fits bs bs [] [] [] P (length bs) n (n - 1)) as E. cbn [app length Nat.add] in E.
  change (Z.of_nat 0) with 0 in E. rewrite E by (rewrite ?app_nil_r; done || lia). clear E.
  rewrite Nat.sub_diag. cbn [hex_loop mbind outcome_bind EtkSeq.size EtkSeq.count EtkSeq.buf].
  rewrite Z.min_l by lia. destruct (drop (2 * length bs) P) as [|x q] eqn:Eq.
  { apply (f_equal length) in Eq. rewrite length_drop in Eq. cbn in Eq. lia. }
  assert (length (hex_text bs) = 2 * length bs)%nat as Hl.
  { clear. induction bs as [|b bs IH]; [done|]. cbn [length] in *.
    change (hex_text (b :: bs)) with (hex_of (Z.shiftr b 4) :: hex_of (Z.land b 15) :: hex_text bs). cbn [length]. lia. }
  rewrite (wr_at _ _ 0 (hex_text bs) x q) by (done || lia). cbn [mbind outcome_bind].
  assert (text (hex_text bs)) as Ht.
  { clear -Hbs. induction Hbs as [|b bs Hb Hbs IH]; [constructor|].
    change (hex_text (b :: bs)) with (hex_of (Z.shiftr b 4) :: hex_of (Z.land b 15) :: hex_text bs).
    destruct (byte_digits b Hb) as (H1 & H2 & _).
    destruct (hex_hex_of _ H1) as [_ N1], (hex_hex_of _ H2) as [_ N2]. by repeat constructor. }
  eexists. split; [reflexivity|]. unfold seq_c_str, seq_length. cbn [EtkSeq.buf EtkSeq.count]. split_and!.
  - by apply str_of_app.
  - rewrite s32_small by (unfold INT_MIN, INT_MAX; lia). lia.
  - rewrite pack_ok by (done || lia). rewrite Nat.sub_diag. cbn. by rewrite app_nil_r.
Qed.

Lemma seq_print_hex_pack_roundtrip_witness :
  ∃ m, seq_print_hex (DEFINE_SEQFILE (replicate 7 165) 7) [0; 171; 255] 3 = Ret m ∧
    str_of (seq_c_str m) = Some (lit "00abff") ∧ seq_length m = 6 ∧
    pack (seq_c_str m) [9; 9; 9] 3 = Ret [0; 171; 255].
Proof.
  apply (seq_print_hex_pack_roundtrip [0; 171; 255] (replicate 7 165) 7 [9; 9; 9]);
    [apply (bool_decide_unpack _); vm_compute; exact I|cbn; lia|cbn; lia|lia|reflexivity].
Defined.

(** ** MAC addresses *)
Lemma addr_octets z :
  0 <= z < 2 ^ 32 →
  addr (u8 (Z.shiftr z 24)) (u8 (Z.shiftr z 16)) (u8 (Z.shiftr z 8)) (u8 z) = z.
Proof.
  intros Hz. unfold addr, u8. rewrite !Z.shiftr_div_pow2 by lia. Z.to_euclidean_division_equations; lia.
Qed.

Lemma seq_printf_new P n t :
  1 <= n <= Z.of_nat (length P) → n < 2 ^ 31 → text t → Z.of_nat (length t) < n →
  ∃ m q, seq_printf (DEFINE_SEQFILE P n) t = Ret (0, m) ∧ buf m = t ++ 0 :: q ∧ count m = Z.of_nat (length t).
Proof.
  intros Hn Hmax Ht Hl.
  destruct (seq_printf_ok (DEFINE_SEQFILE P n) t) as (m & r & E & _ & _ & H1 & _); [split; cbn; lia|lia|].
  cbn [DEFINE_SEQFILE EtkSeq.size EtkSeq.count EtkSeq.buf] in H1. destruct H1 as ([q Hb] & Hr & Hc); [lia|]. rewrite (proj2 (Z.ltb_lt _ n)) in Hr, Hc by lia. subst r.
  exists m, q. split_and!; [done| |done]. rewrite Hb. change (Z.to_nat 0) with 0%nat. by rewrite (take_ge t) by lia.
Qed.

(** A MAC address printed in the system's format with an offset is split by libnbu
    into the first two octets and the last four as a number, moved by the offset modulo
    2^32: the offset never reaches the vendor's first octets. *)
Theorem seq_print_mac_addr_split a b c d e f off P n rest parts :
  Forall byte_ok [a; b; c; d; e; f] → 18 <= n <= Z.of_nat (length P) → n < 2 ^ 31 →
  ∃ m ps o2 o3 o4 o5,
    seq_print_mac_addr (DEFINE_SEQFILE P n) ([a; b; c; d; e; f] ++ rest) mac_addr_format_system off = Ret m ∧
    nbu_net_split_mac (Some (seq_c_str m)) parts = Ret (NBU_SUCCESS, ps) ∧
    Forall2 (λ p o, str_of p = Some (fmt_02X o)) ps [a; b; o2; o3; o4; o5] ∧
    addr o2 o3 o4 o5 = (addr c d e f + off) mod 2 ^ 32.
Proof.
  intros Hb Hn Hmax. unfold seq_print_mac_addr. rewrite mem_read_Ret by (rewrite ?length_app; cbn; lia).
  change (take (Z.to_nat 6) (drop (Z.to_nat 0) ([a; b; c; d; e; f] ++ rest))) with [a; b; c; d; e; f].
  cbn [mbind outcome_bind mac_offset].
  set (z := u32 (c * 2 ^ 24 + d * 2 ^ 16 + e * 2 ^ 8 + f + off)). cbn [mac_format_text].
  set (o := [a; b; u8 (Z.shiftr z 24); u8 (Z.shiftr z 16); u8 (Z.shiftr z 8); u8 z]).
  assert (Forall (λ n, 0 <= n < 256) o) as Ho.
  { unfold o. rewrite !(Forall_cons _ a), !(Forall_cons _ b) in Hb |- *. destruct Hb as (? & ? & _).
    do 2 (split; [done|]). apply u8s_ok. }
  destruct (mac_text_facts o Ho ltac:(done)) as (Ht & Hl & _). change (3 * length o)%nat with 18%nat in Hl.
  destruct (seq_printf_new P n (mac_text o)) as (m & q & E & Eb & _); [lia|done|done|lia|].
  change (join [58] (fmt_02X <$> o)) with (mac_text o). rewrite E. cbn [mbind outcome_bind].
  destruct (split_mac_ok a b (u8 (Z.shiftr z 24)) (u8 (Z.shiftr z 16)) (u8 (Z.shiftr z 8)) (u8 z) q parts Ho)
    as (ps & Es & Hps).
  exists m, ps, (u8 (Z.shiftr z 24)), (u8 (Z.shiftr z 16)), (u8 (Z.shiftr z 8)), (u8 z).
  split_and!; [done| |done|].
  - unfold seq_c_str. by rewrite Eb.
  - apply addr_octets, u32_range.
Qed.

Lemma seq_print_mac_addr_split_witness :
  ∃ m ps o2 o3 o4 o5,
    seq_print_mac_addr (DEFINE_SEQFILE (replicate 20 165) 20) [0; 23; 51; 255; 255; 255]
      mac_addr_format_system 2 = Ret m ∧
    nbu_net_split_mac (Some (seq_c_str m)) [] = Ret (NBU_SUCCESS, ps) ∧
    Forall2 (λ p o, str_of p = Some (fmt_02X o)) ps [0; 23; o2; o3; o4; o5] ∧
    addr o2 o3 o4 o5 = (addr 51 255 255 255 + 2) mod 2 ^ 32.
Proof.
  apply (seq_print_mac_addr_split 0 23 51 255 255 255 2 (replicate 20 165) 20 [] []);
    [apply (bool_decide_unpack _); vm_compute; exact I|cbn; lia|lia].
Defined.

(** ** Networks *)
Lemma ipnet_args a b c d m0 m1 m2 m3 r r' :
  0 <= a < 256 → 0 <= b < 256 → 0 <= c < 256 → 0 <= d < 256 →
  0 <= m0 < 256 → 0 <= m1 < 256 → 0 <= m2 < 256 → 0 <= m3 < 256 →
  c_str (dotted a b c d ++ 0 :: r) = Ret (dotted a b c d) ∧
  c_str (dotted m0 m1 m2 m3 ++ 0 :: r') = Ret (dotted m0 m1 m2 m3) ∧
  inet_aton (dotted a b c d) = Some (addr a b c d) ∧
  inet_aton (dotted m0 m1 m2 m3) = Some (addr m0 m1 m2 m3).
Proof. intros. by rewrite !dotted_c_str, !inet_aton_dotted. Qed.

(** [net_sprint] and [seq_print_net] write the same network as libnbu's
    [nbu_net_get_network], which adds a newline: the address with its host part cleared,
    a slash and the prefix length. *)
Theorem net_sprint_agrees a b c d m0 m1 m2 m3 k r r' buf1 len1 P n buf2 size :
  0 <= a < 256 → 0 <= b < 256 → 0 <= c < 256 → 0 <= d < 256 →
  0 <= m0 < 256 → 0 <= m1 < 256 → 0 <= m2 < 256 → 0 <= m3 < 256 →
  0 <= k <= 32 → addr m0 m1 m2 m3 = 2 ^ 32 - 2 ^ k →
  (20 <= len1 <= length buf1)%nat → 20 <= n <= Z.of_nat (length P) → n < 2 ^ 31 →
  (21 <= size <= length buf2)%nat →
  let ip := dotted a b c d ++ 0 :: r in
  let mask := dotted m0 m1 m2 m3 ++ 0 :: r' in
  ∃ out b1 m b2,
    net_sprint buf1 len1 ip mask = Ret (Z.of_nat (length out), b1) ∧ str_of b1 = Some out ∧
    seq_print_net (DEFINE_SEQFILE P n) ip mask = Ret (0, m) ∧ str_of (seq_c_str m) = Some out ∧
    nbu_net_get_network ip mask buf2 (Z.of_nat size) = Ret (NBU_SUCCESS, b2) ∧
    str_of b2 = Some (out ++ [10]).
Proof.
  intros Ha Hb Hc Hd Hm0 Hm1 Hm2 Hm3 Hk Em Hl1 Hn Hmax Hs ip mask. subst ip mask.
  destruct (ipnet_args a b c d m0 m1 m2 m3 r r') as (E1 & E2 & E3 & E4); [done..|].
  destruct (get_network_ok a b c d m0 m1 m2 m3 k r r' buf2 size) as (b2 & Eg & Sg); [done..|].
  set (net := addr a b c d - addr a b c d mod 2 ^ k) in *.
  set (out := inet_ntoa net ++ 47 :: fmt_u (32 - k)).
  destruct (net_text_length net (32 - k) ltac:(lia)) as [Ht Hl]. fold out in Ht, Hl.
  assert (prefix_len (addr m0 m1 m2 m3) = 32 - k ∧ Z.land (addr a b c d) (addr m0 m1 m2 m3) = net) as [Ep En].
  { rewrite Em, prefix_len_ok, land_mask by (done || by apply addr_range). done. }
  destruct (seq_printf_new P n out) as (m & q & Eq & Eb & _); [lia|done|done|lia|].
  exists out. do 3 eexists. split_and!.
  - unfold net_sprint, ipnet_sprint. rewrite E1. cbn [mbind outcome_bind]. rewrite E3, E2. cbn [mbind outcome_bind].
    rewrite E4, Ep, En. fold out. rewrite vsnprintf_ok by lia. reflexivity.
  - rewrite take_ge by lia. by apply str_of_app.
  - unfold seq_print_net. rewrite E1. cbn [mbind outcome_bind]. rewrite E3, E2. cbn [mbind outcome_bind].
    rewrite E4. destruct (prefix_len_int (addr m0 m1 m2 m3)) as [-> _]. rewrite Ep, En. unfold fmt_d.
    rewrite (proj2 (Z.ltb_ge _ _)) by lia. exact Eq.
  - unfold seq_c_str. rewrite Eb. by apply str_of_app.
  - exact Eg.
  - rewrite Sg. unfold out. by rewrite <- app_assoc.
Qed.

Lemma net_sprint_agrees_witness :
  ∃ out b1 m b2,
    net_sprint (local_buf 32) 32 (dotted 192 168 1 77 ++ [0]) (dotted 255 255 255 192 ++ [0])
    = Ret (Z.of_nat (length out), b1) ∧ str_of b1 = Some out ∧
    seq_print_net (DEFINE_SEQFILE (local_buf 32) 32) (dotted 192 168 1 77 ++ [0]) (dotted 255 255 255 192 ++ [0])
    = Ret (0, m) ∧ str_of (seq_c_str m) = Some out ∧
    nbu_net_get_network (dotted 192 168 1 77 ++ [0]) (dotted 255 255 255 192 ++ [0]) (local_buf 32) 32
    = Ret (NBU_SUCCESS, b2) ∧ str_of b2 = Some (out ++ [10]).
Proof.
  exact (net_sprint_agrees 192 168 1 77 255 255 255 192 6 [] [] (local_buf 32) 32 (local_buf 32) 32 (local_buf 32) 32
    ltac:(lia) ltac:(lia) ltac:(lia) ltac:(lia) ltac:(lia) ltac:(lia) ltac:(lia) ltac:(lia)
    ltac:(lia) eq_refl ltac:(cbn; lia) ltac:(cbn; lia) ltac:(lia) ltac:(cbn; lia)).
Defined.

(** [broadcast_sprint] prints the host part of the address alone, for instance
    0.0.0.77; the broadcast address is the network with a host part of ones. *)
Theorem broadcast_sprint_prints_host a b c d m0 m1 m2 m3 k r r' buf len :
  0 <= a < 256 → 0 <= b < 256 → 0 <= c < 256 → 0 <= d < 256 →
  0 <= m0 < 256 → 0 <= m1 < 256 → 0 <= m2 < 256 → 0 <= m3 < 256 →
  0 <= k <= 32 → addr m0 m1 m2 m3 = 2 ^ 32 - 2 ^ k → (16 <= len <= length buf)%nat →
  ∃ b', broadcast_sprint buf len (dotted a b c d ++ 0 :: r) (dotted m0 m1 m2 m3 ++ 0 :: r')
        = Ret (Z.of_nat (length (inet_ntoa (addr a b c d mod 2 ^ k))), b') ∧
    str_of b' = Some (inet_ntoa (addr a b c d mod 2 ^ k)).
Proof.
  intros Ha Hb Hc Hd Hm0 Hm1 Hm2 Hm3 Hk Em Hl.
  destruct (ipnet_args a b c d m0 m1 m2 m3 r r') as (E1 & E2 & E3 & E4); [done..|].
  unfold broadcast_sprint. rewrite E1. cbn [mbind outcome_bind]. rewrite E3, E2. cbn [mbind outcome_bind].
  rewrite E4, Em.
  assert (2 ^ k <= 2 ^ 32 ∧ 0 < 2 ^ k) as [? ?] by (split; [apply Z.pow_le_mono_r; lia|apply Z.pow_pos_nonneg; lia]).
  replace (u32 (Z.lnot (2 ^ 32 - 2 ^ k))) with (Z.ones k).
  2: { unfold u32, Z.lnot. rewrite Z.ones_equiv. apply (Z.mod_unique _ _ (-1)); lia. }
  rewrite Z.land_ones by lia. set (h := addr a b c d mod 2 ^ k). rewrite vsnprintf_ok by lia.
  eexists. split; [reflexivity|].
  destruct (net_text_length h 0 ltac:(lia)) as [Ht Hlen]. apply Forall_app in Ht as [Ht _].
  rewrite length_app in Hlen. cbn [length] in Hlen. change (length (fmt_u 0)) with 1%nat in Hlen.
  pose proof (u8_range (Z.shiftr h 24)). pose proof (u8_range (Z.shiftr h 16)).
  pose proof (u8_range (Z.shiftr h 8)). pose proof (u8_range h).
  rewrite take_ge; [by apply str_of_app|]. unfold inet_ntoa.
  pose proof (dotted_length (u8 (Z.shiftr h 24)) (u8 (Z.shiftr h 16)) (u8 (Z.shiftr h 8)) (u8 h)). lia.
Qed.

Lemma broadcast_sprint_prints_host_witness :
  ∃ b', broadcast_sprint (local_buf 16) 16 (dotted 192 168 1 77 ++ [0]) (dotted 255 255 255 0 ++ [0])
        = Ret (8, b') ∧ str_of b' = Some (lit "0.0.0.77").
Proof.
  exact (broadcast_sprint_prints_host 192 168 1 77 255 255 255 0 8 [] [] (local_buf 16) 16
    ltac:(lia) ltac:(lia) ltac:(lia) ltac:(lia) ltac:(lia) ltac:(lia) ltac:(lia) ltac:(lia)
    ltac:(lia) eq_refl ltac:(cbn; lia)).
Defined.

(** ** Multicast *)
Lemma ip_mc_ethernet_ok a b c d r m len :
  0 <= a < 256 → 0 <= b < 256 → 0 <= c < 256 → 0 <= d < 256 → (18 <= len <= length m)%nat →
  ∃ q, ip_mc_ethernet (dotted a b c d ++ 0 :: r) m len
       = Ret (0, mac_text [1; 0; 94; b mod 128; c; d] ++ 0 :: q).
Proof.
  intros Ha Hb Hc Hd Hl. unfold ip_mc_ethernet. rewrite dotted_c_str by done. cbn [mbind outcome_bind].
  rewrite inet_aton_dotted by done. change 127 with (Z.ones 7). change 255 with (Z.ones 8).
  rewrite !Z.land_ones, !Z.shiftr_div_pow2 by lia.
  replace (addr a b c d / 2 ^ 16 mod 2 ^ 7) with (b mod 128)
    by (unfold addr; Z.to_euclidean_division_equations; lia).
  replace (addr a b c d / 2 ^ 8 mod 2 ^ 8) with c by (unfold addr; Z.to_euclidean_division_equations; lia).
  replace (addr a b c d mod 2 ^ 8) with d by (unfold addr; Z.to_euclidean_division_equations; lia).
  change (lit "01:00:5E:" ++ ?x) with (mac_text [1; 0; 94] ++ 58 :: x).
  set (t := mac_text _ ++ _). assert (t = mac_text [1; 0; 94; b mod 128; c; d]) as -> by reflexivity.
  assert (0 <= b mod 128 < 128) by (apply Z.mod_pos_bound; lia).
  destruct (mac_text_facts [1; 0; 94; b mod 128; c; d]) as (_ & Hlen & _); [|done|].
  { rewrite !Forall_cons. split_and!; lia || constructor. }
  rewrite vsnprintf_ok by lia. cbn [mbind outcome_bind]. rewrite take_ge by (cbn [length] in Hlen; lia).
  eexists. reflexivity.
Qed.

(** [ip_mc_ethernet] prints the Ethernet address of an IPv4 multicast group, the
    prefix 01:00:5E and the low 23 bits of the group, and libnbu accepts it as a MAC
    address. *)
Theorem ip_mc_ethernet_valid a b c d r m len :
  0 <= a < 256 → 0 <= b < 256 → 0 <= c < 256 → 0 <= d < 256 → (18 <= len <= length m)%nat →
  ∃ m' ps, ip_mc_ethernet (dotted a b c d ++ 0 :: r) m len = Ret (0, m') ∧
    nbu_net_split_mac (Some m') [] = Ret (NBU_SUCCESS, ps) ∧
    Forall2 (λ p o, str_of p = Some (fmt_02X o)) ps [1; 0; 94; b mod 128; c; d].
Proof.
  intros Ha Hb Hc Hd Hl. destruct (ip_mc_ethernet_ok a b c d r m len) as [q E]; [done..|].
  assert (0 <= b mod 128 < 128) by (apply Z.mod_pos_bound; lia).
  destruct (split_mac_ok 1 0 94 (b mod 128) c d q []) as (ps & Es & Hps).
  { rewrite !Forall_cons. split_and!; lia || constructor. }
  exists (mac_text [1; 0; 94; b mod 128; c; d] ++ 0 :: q), ps. by split_and!.
Qed.

Lemma ip_mc_ethernet_valid_witness :
  ∃ m' ps, ip_mc_ethernet (dotted 239 255 255 250 ++ [0]) (local_buf 18) 18 = Ret (0, m') ∧
    nbu_net_split_mac (Some m') [] = Ret (NBU_SUCCESS, ps) ∧
    Forall2 (λ p o, str_of p = Some (fmt_02X o)) ps [1; 0; 94; 127; 255; 250].
Proof. apply (ip_mc_ethernet_valid 239 255 255 250 [] (local_buf 18) 18); cbn; lia. Defined.
