(* ===== verification/EtkXdev.v ===== *)
(** libetk's external devices: [src/efixo/efixo-libetk/src/src/xdev.c] and
    [include/etk/xdev.h], the block devices.

    What the system answers is a record of functions: sysfs, the devices, the mount
    table.  A C array is an object of its size.  The list of slices is the sequence
    that [EtkListProofs] shows the linked list to be.  The boxes are big-endian:
    [le16] and [le32] swap bytes. *)

From stdpp Require Import base tactics list strings.
From S2P Require Import Prelude.
From S2P Require Import CString.
From S2P Require Import EtkString.
Import EtkString.

Module EtkXdev.

Definition FSTYPE_UNKNOWN : Z := 0.
Definition FSTYPE_NTFS : Z := 1.
Definition FSTYPE_FAT : Z := 2.
Definition FSTYPE_FAT12_16 : Z := 4.
Definition FSTYPE_FAT32 : Z := 8.
Definition FSTYPE_EXT2 : Z := 16.
Definition FSTYPE_EXT3 : Z := 32.
Definition FSTYPE_EXT4 : Z := 64.

(** [struct xdev_block_slice_t]; [node] is its place in the sequence. *)
Record slice := Slice {
  name : bytes;            (* 16 *)
  label : bytes;           (* 32 *)
  syspath : bytes;         (* 256 *)
  devpath : bytes;         (* 32 *)
  mounted : Z;
  fstype : Z;
  uuid : bytes;            (* 37 *)
  mntpath : bytes;         (* 32 *)
  capacity : Z;
  capacity_used : Z;
}.

(** [calloc(1, sizeof(struct xdev_block_slice_t))]. *)
Definition slice0 : slice :=
  Slice (replicate 16 0) (replicate 32 0) (replicate 256 0) (replicate 32 0) 0 0
    (replicate 37 0) (replicate 32 0) 0 0.

Definition set_fstype (t : Z) (s : slice) : slice :=
  Slice (name s) (label s) (syspath s) (devpath s) (mounted s) t (uuid s) (mntpath s)
    (capacity s) (capacity_used s).
Definition set_label (l : bytes) (s : slice) : slice :=
  Slice (name s) l (syspath s) (devpath s) (mounted s) (fstype s) (uuid s) (mntpath s)
    (capacity s) (capacity_used s).
Definition set_uuid (u : bytes) (s : slice) : slice :=
  Slice (name s) (label s) (syspath s) (devpath s) (mounted s) (fstype s) u (mntpath s)
    (capacity s) (capacity_used s).
Definition set_mount (p : bytes) (s : slice) : slice :=
  Slice (name s) (label s) (syspath s) (devpath s) 1 (fstype s) (uuid s) p
    (capacity s) (capacity_used s).
Definition set_capacity (c u : Z) (s : slice) : slice :=
  Slice (name s) (label s) (syspath s) (devpath s) (mounted s) (fstype s) (uuid s) (mntpath s) c u.
Definition set_names (n p d : bytes) (s : slice) : slice :=
  Slice n (label s) p d (mounted s) (fstype s) (uuid s) (mntpath s) (capacity s) (capacity_used s).

(** [struct mntent]: [mnt_fsname], [mnt_dir], [mnt_type]. *)
Record mntent := Mnt { mnt_fsname : bytes; mnt_dir : bytes; mnt_type : bytes }.

(** [struct statfs]. *)
Record statfs_t := Statfs { f_blocks : Z; f_bfree : Z; f_bsize : Z }.

(** The system.  [read] at an offset answers the bytes it got, or an error. *)
Record system := System {
  open_sysfs : bytes → option (option bytes);
  open_dev : bytes → option (Z → Z → option bytes);
  setmntent : option (list mntent);
  statfs : bytes → option statfs_t;
  opendir : bytes → option (list bytes);
  stat_isdir : bytes → option bool;
  lstat_islnk : bytes → option bool;
  readlink : bytes → option bytes;
}.

(** [snprintf] into a whole array. *)
Definition print_array (m t : bytes) : outcome bytes :=
  '(_, m) ← vsnprintf m (length m) t; Ret m.

(** ** sysfs *)

(** [read] answering -1 makes [size] the largest [size_t]. *)
Definition sysfs_get_string (sys : system) (path filename : bytes) (buf : bytes) : outcome (Z * bytes) :=
  path_full ← print_array (replicate 256 165) (path ++ 47 :: filename);
  p ← c_str path_full;
  match open_sysfs sys p with
  | None => Ret (-1, buf)
  | Some content =>
      let n := Z.of_nat (length buf) - 1 in
      '(size, buf) ←
        (match content with
         | Some d =>
             let d := take (Z.to_nat n) d in
             buf ← overwrite buf d; Ret (Z.of_nat (length d), buf)
         | None => Ret (2 ^ 32 - 1, buf)
         end);
      buf ← wr buf size 0;
      buf ← strrtrim buf;
      Ret (0, buf)
  end.

(** [strtoll(s, NULL, 10)] and whether [errno] is set. *)
Definition strtoll (s : bytes) : Z * bool :=
  let '(neg, s2) := take_sign (skip_spaces s) in
  let '(v, n) := digits 10 s2 0 0 in
  let z := if neg then - v else v in
  if z <? - 2 ^ 63 then (- 2 ^ 63, true)
  else if 2 ^ 63 - 1 <? z then (2 ^ 63 - 1, true)
  else (z, false).

Definition sysfs_get_int (sys : system) (path filename : bytes) (dfl : Z) : outcome Z :=
  '(r, stri) ← sysfs_get_string sys path filename (replicate 32 165);
  if negb (r =? 0) then Ret dfl
  else
    s ← c_str stri;
    let '(v, erange) := strtoll s in
    Ret (if erange then dfl else v).

(** ** Super blocks *)
Definition read_sb (dev : Z → Z → option bytes) (offset size : Z) : option bytes :=
  match dev offset size with
  | None => None
  | Some b => if Z.of_nat (length b) =? size then Some b else None
  end.

(** Fields as the processor reads them, most significant byte first. *)
Definition ld16 (b : bytes) (o : Z) : outcome Z :=
  x ← rd b o; y ← rd b (o + 1); Ret (x * 2 ^ 8 + y).
Definition ld32 (b : bytes) (o : Z) : outcome Z :=
  x ← ld16 b o; y ← ld16 b (o + 2); Ret (x * 2 ^ 16 + y).

Definition bswap_16 (x : Z) : Z := (x mod 2 ^ 8) * 2 ^ 8 + x / 2 ^ 8.
Definition bswap_32 (x : Z) : Z := bswap_16 (x mod 2 ^ 16) * 2 ^ 16 + bswap_16 (x / 2 ^ 16).
Definition le16 : Z → Z := bswap_16.
Definition le32 : Z → Z := bswap_32.

Inductive uuid_format :=
| UUID_STRING | UUID_HEX_STRING | UUID_DCE | UUID_DOS | UUID_64BIT_LE | UUID_64BIT_BE | UUID_FOURINT.

(** [%02x] or [%02X] of the bytes at some indices, in order. *)
Fixpoint hexs (fmt : Z → bytes) (raw : bytes) (idx : list Z) : outcome bytes :=
  match idx with
  | [] => Ret []
  | i :: idx => b ← rd raw i; t ← hexs fmt raw idx; Ret (fmt b ++ t)
  end.

(** A to F become a to f. *)
Definition lower_hex (c : Z) : Z := if (65 <=? c) && (c <=? 70) then c - 65 + 97 else c.

Definition xdev_block_slice_format_uuid (buf : bytes) (uuid_type : uuid_format) (uuid_raw : bytes)
    : outcome (Z * bytes) :=
  let max_cp_size := Nat.min (length uuid_raw) (length buf) in
  match uuid_type with
  | UUID_DOS =>
      a ← hexs fmt_02X uuid_raw [3; 2]; b ← hexs fmt_02X uuid_raw [1; 0];
      buf ← print_array buf (a ++ 45 :: b); Ret (0, buf)
  | UUID_64BIT_LE =>
      a ← hexs fmt_02X uuid_raw [7; 6; 5; 4; 3; 2; 1; 0];
      buf ← print_array buf a; Ret (0, buf)
  | UUID_64BIT_BE =>
      a ← hexs fmt_02X uuid_raw [0; 1; 2; 3; 4; 5; 6; 7];
      buf ← print_array buf a; Ret (0, buf)
  | UUID_DCE =>
      a ← hexs fmt_02x uuid_raw [0; 1; 2; 3]; b ← hexs fmt_02x uuid_raw [4; 5];
      c ← hexs fmt_02x uuid_raw [6; 7]; d ← hexs fmt_02x uuid_raw [8; 9];
      e ← hexs fmt_02x uuid_raw [10; 11; 12; 13; 14; 15];
      buf ← print_array buf (a ++ 45 :: b ++ 45 :: c ++ 45 :: d ++ 45 :: e); Ret (0, buf)
  | UUID_HEX_STRING =>
      buf ← overwrite buf (lower_hex <$> take max_cp_size uuid_raw);
      buf ← wr buf (Z.of_nat max_cp_size) 0; Ret (0, buf)
  | UUID_STRING =>
      buf ← overwrite buf (take max_cp_size uuid_raw);
      buf ← wr buf (Z.of_nat max_cp_size) 0; Ret (0, buf)
  | UUID_FOURINT =>
      a ← hexs fmt_02x uuid_raw [0; 1; 2; 3]; b ← hexs fmt_02x uuid_raw [4; 5; 6; 7];
      c ← hexs fmt_02x uuid_raw [8; 9; 10; 11]; d ← hexs fmt_02x uuid_raw [12; 13; 14; 15];
      buf ← print_array buf (a ++ 58 :: b ++ 58 :: c ++ 58 :: d); Ret (0, buf)
  end.

(** [n] bytes of a structure. *)
Definition field (b : bytes) (o n : Z) : outcome bytes := mem_read (Some b) o n.

Definition xdev_slice_header_ntfs (s : slice) (dev : Z → Z → option bytes) : outcome (Z * slice) :=
  match read_sb dev 0 512 with
  | None => Ret (-1, s)
  | Some sb =>
      oem ← field sb 3 4;
      if bytes_eqb oem (lit "NTFS") then
        let s := set_fstype FSTYPE_NTFS s in
        serial ← field sb 72 8;
        '(_, u) ← xdev_block_slice_format_uuid (uuid s) UUID_64BIT_LE serial;
        Ret (0, set_uuid u s)
      else Ret (1, s)
  end.

(** The type of the partition, or [None] for an early return.  The type that the bytes
    0x39 and 0x3a suggest is always overwritten. *)
Definition fat_fstype (sb : bytes) : outcome (option Z) :=
  magic ← ld16 sb 510;
  if negb (magic =? le16 43605) then Ret None
  else
    sectors ← ld16 sb 19; total_sect ← ld32 sb 32;
    let nsecs := if le16 sectors =? 0 then le32 total_sect else le16 sectors in
    if nsecs =? 0 then Ret None
    else
      fat_length ← ld16 sb 22; fat32_length ← ld32 sb 36;
      let fstype :=
        if (le16 fat_length =? 0) && negb (le32 fat32_length =? 0)
        then FSTYPE_FAT32 else FSTYPE_FAT12_16 in
      sig ← rd sb 38;
      if (fstype =? FSTYPE_FAT32) && (sig =? 41) then Ret None
      else if negb (fstype =? FSTYPE_FAT32) && negb (sig =? 41) then Ret None
      else Ret (Some fstype).

(** [label] is an array of 11 bytes that [%s] reads to a 0. *)
Definition xdev_slice_header_fat (s : slice) (dev : Z → Z → option bytes) : outcome (Z * slice) :=
  match read_sb dev 0 1024 with
  | None => Ret (-1, s)
  | Some sb =>
      j0 ← rd sb 0; j2 ← rd sb 2; media ← rd sb 21;
      if (j0 =? 235) && (j2 =? 144) && ((media =? 248) || (media =? 252)) then
        t ← fat_fstype sb;
        match t with
        | None => Ret (1, s)
        | Some t =>
            lbl ← field sb (if t =? FSTYPE_FAT32 then 71 else 43) 11;
            serno ← field sb (if t =? FSTYPE_FAT32 then 67 else 39) 4;
            let s := set_fstype t s in
            txt ← c_str lbl;
            l ← print_array (label s) txt;
            let s := set_label l s in
            '(_, u) ← xdev_block_slice_format_uuid (uuid s) UUID_DOS serno;
            Ret (0, set_uuid u s)
        end
      else Ret (1, s)
  end.

Definition bit_set (x m : Z) : bool := negb (Z.land x m =? 0).

Definition ext_fstype (compat incompat ro_compat : Z) : Z :=
  if bit_set (le32 compat) 4 then
    if bit_set (le32 ro_compat) 8 || bit_set (le32 ro_compat) 32 ||
       bit_set (le32 incompat) 64 || bit_set (le32 incompat) 128
    then FSTYPE_EXT4 else FSTYPE_EXT3
  else FSTYPE_EXT2.

Definition xdev_slice_header_ext (s : slice) (dev : Z → Z → option bytes) : outcome (Z * slice) :=
  match read_sb dev 1024 512 with
  | None => Ret (-1, s)
  | Some sb =>
      magic ← ld16 sb 56;
      if magic =? le16 61267 then
        s_inodes_count ← ld32 sb 0; s_blocks_count ← ld32 sb 4;
        s_free_blocks_count ← ld32 sb 12; s_free_inodes_count ← ld32 sb 16;
        if s_blocks_count <=? s_free_blocks_count then Ret (1, s)
        else if s_inodes_count <=? s_free_inodes_count then Ret (1, s)
        else if s_blocks_count =? 0 then Ret (1, s)
        else
          compat ← ld32 sb 92; incompat ← ld32 sb 96; ro_compat ← ld32 sb 100;
          let s := set_fstype (ext_fstype compat incompat ro_compat) s in
          volume ← padd sb 120;
          txt ← c_str volume;
          '(_, l) ← vsnprintf (label s) (Nat.min (length (label s)) 16) txt;
          let s := set_label l s in
          raw ← field sb 104 16;
          '(_, u) ← xdev_block_slice_format_uuid (uuid s) UUID_DCE raw;
          Ret (0, set_uuid u s)
      else Ret (1, s)
  end.

(** [xdev_hdr_map]. *)
Definition xdev_hdr_map : list ((slice → (Z → Z → option bytes) → outcome (Z * slice)) * Z) :=
  [(xdev_slice_header_ntfs, FSTYPE_NTFS);
   (xdev_slice_header_fat, Z.lor FSTYPE_FAT (Z.lor FSTYPE_FAT12_16 FSTYPE_FAT32));
   (xdev_slice_header_ext, Z.lor FSTYPE_EXT2 (Z.lor FSTYPE_EXT3 FSTYPE_EXT4))].

(** The first probe that succeeds: [found], [ret] and the slice. *)
Fixpoint guess_loop (l : list ((slice → (Z → Z → option bytes) → outcome (Z * slice)) * Z))
    (dev : Z → Z → option bytes) (ret : Z) (s : slice) : outcome (bool * Z * slice) :=
  match l with
  | [] => Ret (false, ret, s)
  | (fct, _) :: l =>
      '(ret, s) ← fct s dev;
      if ret =? 0 then Ret (true, ret, s) else guess_loop l dev ret s
  end.

(** The probe of the type known. *)
Fixpoint known_loop (l : list ((slice → (Z → Z → option bytes) → outcome (Z * slice)) * Z))
    (dev : Z → Z → option bytes) (s : slice) : outcome (bool * Z * slice) :=
  match l with
  | [] => Ret (false, -1, s)
  | (fct, mask) :: l =>
      if bit_set (fstype s) mask then '(ret, s) ← fct s dev; Ret (true, ret, s)
      else known_loop l dev s
  end.

Definition xdev_slice_header_info (sys : system) (s : slice) : outcome (Z * slice) :=
  p ← c_str (devpath s);
  match open_dev sys p with
  | None => Ret (-1, s)
  | Some dev =>
      '(found, ret, s) ←
        (if fstype s =? FSTYPE_UNKNOWN then guess_loop xdev_hdr_map dev (-1) s
         else known_loop xdev_hdr_map dev s);
      Ret (if (found : bool) && (ret =? 0) then 0 else -1, s)
  end.

(** ** Mounts *)
Definition xdev_fstype_map : list (bytes * Z) :=
  [(lit "vfat", FSTYPE_FAT); (lit "ntfs", FSTYPE_NTFS); (lit "fuseblk", FSTYPE_NTFS);
   (lit "ntfs-3g", FSTYPE_NTFS); (lit "ext2", FSTYPE_EXT2); (lit "ext3", FSTYPE_EXT3);
   (lit "ext4", FSTYPE_EXT4)].

Definition s64 (z : Z) : Z := (z + 2 ^ 63) mod 2 ^ 64 - 2 ^ 63.

Fixpoint mnt_loop (sys : system) (dev : bytes) (l : list mntent) (s : slice) : outcome (Z * slice) :=
  match l with
  | [] => Ret (1, s)
  | e :: l =>
      if bytes_eqb (mnt_fsname e) dev then
        p ← print_array (mntpath s) (mnt_dir e);
        let s := set_mount p s in
        let s := match statfs sys (mnt_dir e) with
                 | Some f => set_capacity (s64 (f_blocks f * f_bsize f))
                               (s64 ((f_blocks f - f_bfree f) * f_bsize f)) s
                 | None => s
                 end in
        let s := if fstype s =? FSTYPE_UNKNOWN then
                   match hsearch xdev_fstype_map (mnt_type e) with
                   | Some t => set_fstype t s
                   | None => s
                   end
                 else s in
        Ret (0, s)
      else mnt_loop sys dev l s
  end.

Definition xdev_slice_mnt_info (sys : system) (s : slice) : outcome (Z * slice) :=
  match setmntent sys with
  | None => Ret (-1, s)
  | Some l => dev ← c_str (devpath s); mnt_loop sys dev l s
  end.

(** ** Slices of a block device *)

(** [struct xdev_block_t] without its [slice_list], which stands beside it, and its
    [node]. *)
Record block := Block {
  b_name : bytes;          (* 16 *)
  b_syspath : bytes;       (* 256 *)
  b_devpath : bytes;       (* 32 *)
  b_vendor : bytes;        (* 128 *)
  b_model : bytes;         (* 128 *)
  b_capacity : Z;
}.

(** The size in sectors of 512 bytes; the product is a [long long]. *)
Definition sectors (v : Z) : outcome Z :=
  if (- 2 ^ 63 <=? v * 512) && (v * 512 <? 2 ^ 63) then Ret (v * 512) else Undef.

(** What is done with a slice whose names and capacity are set: [Some] when it stays. *)
Definition probe_slice (sys : system) (s : slice) : outcome (option slice) :=
  '(_, s) ← xdev_slice_mnt_info sys s;
  '(r, s) ← xdev_slice_header_info sys s;
  Ret (if r =? 0 then Some s else None).

(** A directory entry that is a partition: its path in sysfs. *)
Definition partition (sys : system) (b : block) (d_name : bytes) : outcome (option bytes) :=
  if bytes_eqb d_name (lit ".") || bytes_eqb d_name (lit "..") then Ret None
  else
    parent ← c_str (b_syspath b);
    m ← print_array (replicate 256 165) (parent ++ 47 :: d_name);
    path ← c_str m;
    match stat_isdir sys path with
    | Some true =>
        n ← c_str (b_name b);
        Ret (if negb (length n =? 0)%nat && prefixb n d_name then Some path else None)
    | _ => Ret None
    end.

Fixpoint slices_loop (sys : system) (b : block) (names : list bytes) (acc : list slice)
    : outcome (list slice) :=
  match names with
  | [] => Ret acc
  | d_name :: names =>
      p ← partition sys b d_name;
      match p with
      | None => slices_loop sys b names acc
      | Some path =>
          n ← print_array (name slice0) d_name;
          sp ← print_array (syspath slice0) path;
          dp ← print_array (devpath slice0) (lit "/dev/" ++ d_name);
          v ← sysfs_get_int sys path (lit "size") 0;
          c ← sectors v;
          r ← probe_slice sys (set_capacity c 0 (set_names n sp dp slice0));
          slices_loop sys b names (acc ++ match r with Some s => [s] | None => [] end)
      end
  end.

Definition xdev_list_block_slice (sys : system) (b : block) : outcome (Z * list slice) :=
  parent ← c_str (b_syspath b);
  match opendir sys parent with
  | None => Ret (-1, [])
  | Some names =>
      l ← slices_loop sys b names [];
      match l with
      | [] =>
          bn ← c_str (b_name b); bs ← c_str (b_syspath b); bd ← c_str (b_devpath b);
          n ← print_array (name slice0) bn;
          sp ← print_array (syspath slice0) bs;
          dp ← print_array (devpath slice0) bd;
          r ← probe_slice sys (set_capacity (b_capacity b) 0 (set_names n sp dp slice0));
          Ret (0, match r with Some s => [s] | None => [] end)
      | _ => Ret (0, l)
      end
  end.

(** ** Block devices *)

(** Objects of the stack that nothing has been written to: 165 stands for their bytes. *)
Definition local (n : nat) : bytes := replicate n 165.

(** [readlink] fills at most 255 of the 256 bytes and writes no terminator. *)
Definition follow_the_link (sys : system) (base_path linkname : bytes) (buf : bytes) : outcome (Z * bytes) :=
  path_buf ← print_array (local 256) (base_path ++ 47 :: linkname);
  path ← c_str path_buf;
  match lstat_islnk sys path with
  | Some true =>
      match take 255 <$> readlink sys path with
      | None | Some [] => Ret (-1, buf)
      | Some target =>
          fullpath_buf ← overwrite (local 256) target;
          fullpath_buf ← wr fullpath_buf (Z.of_nat (length target)) 0;
          full ← c_str fullpath_buf;
          buf ← print_array buf (base_path ++ 47 :: full);
          Ret (0, buf)
      end
  | _ => Ret (-1, buf)
  end.

Definition SYSFS_BLOCK_PATH : bytes := lit "/sys/block".

(** The path of a device in sysfs, in the two ways that [NB6] chooses from. *)
Definition block_syspath (sys : system) (nb6 : bool) (d_name : bytes) : outcome (option bytes) :=
  if nb6 then
    '(r, syspath_buf) ← follow_the_link sys SYSFS_BLOCK_PATH d_name (local 256);
    if negb (r =? 0) then Ret None else syspath ← c_str syspath_buf; Ret (Some syspath)
  else
    path_buf ← print_array (local 256) (SYSFS_BLOCK_PATH ++ 47 :: d_name);
    path ← c_str path_buf;
    '(r, full_path_buf) ← follow_the_link sys path (lit "device") (local 256);
    if negb (r =? 0) then Ret None
    else
      full ← c_str full_path_buf;
      syspath_buf ← print_array (local 256) (full ++ lit "/block:" ++ d_name);
      syspath ← c_str syspath_buf;
      Ret (Some syspath).

(** [vendor] and [model]: a value that sysfs has is copied, the array stays 0 otherwise. *)
Definition sysfs_copy (sys : system) (syspath filename : bytes) (buf m : bytes) : outcome (bytes * bytes) :=
  '(r, buf) ← sysfs_get_string sys syspath filename buf;
  if r =? 0 then v ← c_str buf; m ← print_array m v; Ret (buf, m) else Ret (buf, m).

Definition one_block (sys : system) (d_name syspath buf : bytes) : outcome (bytes * (block * list slice)) :=
  n ← print_array (replicate 16 0) d_name;
  sp ← print_array (replicate 256 0) syspath;
  dp ← print_array (replicate 32 0) (lit "/dev/" ++ d_name);
  '(buf, vendor) ← sysfs_copy sys syspath (lit "device/vendor") buf (replicate 128 0);
  '(buf, model) ← sysfs_copy sys syspath (lit "device/model") buf (replicate 128 0);
  v ← sysfs_get_int sys syspath (lit "size") 0;
  capacity ← sectors v;
  let b := Block n sp dp vendor model capacity in
  '(_, slice_list) ← xdev_list_block_slice sys b;
  Ret (buf, (b, slice_list)).

Fixpoint blocks_loop (sys : system) (nb6 : bool) (names : list bytes) (buf : bytes)
    (acc : list (block * list slice)) : outcome (list (block * list slice)) :=
  match names with
  | [] => Ret acc
  | d_name :: names =>
      if bytes_eqb d_name (lit ".") || bytes_eqb d_name (lit "..") then blocks_loop sys nb6 names buf acc
      else if negb (prefixb (lit "sd") d_name) then blocks_loop sys nb6 names buf acc
      else
        p ← block_syspath sys nb6 d_name;
        match p with
        | None => blocks_loop sys nb6 names buf acc
        | Some syspath =>
            '(buf, b) ← one_block sys d_name syspath buf;
            blocks_loop sys nb6 names buf (acc ++ [b])
        end
  end.

Definition xdev_list_block (sys : system) (nb6 : bool) : outcome (Z * list (block * list slice)) :=
  match opendir sys SYSFS_BLOCK_PATH with
  | None => Ret (-1, [])
  | Some names => l ← blocks_loop sys nb6 names (local 64) []; Ret (0, l)
  end.

Definition xdev_fstype_ascii_map : list (Z * bytes) :=
  [(FSTYPE_UNKNOWN, lit "Unknown"); (FSTYPE_NTFS, lit "HPFS/NTFS"); (FSTYPE_FAT, lit "FAT");
   (FSTYPE_FAT12_16, lit "FAT12/16"); (FSTYPE_FAT32, lit "FAT32"); (FSTYPE_EXT2, lit "EXT2");
   (FSTYPE_EXT3, lit "EXT3"); (FSTYPE_EXT4, lit "EXT4")].

Fixpoint xdev_fstype_ctoa_loop (l : list (Z * bytes)) (fstype : Z) : bytes :=
  match l with
  | [] => lit "Unknown"
  | (cd, str) :: l => if cd =? fstype then str else xdev_fstype_ctoa_loop l fstype
  end.

Definition xdev_fstype_ctoa (fstype : Z) : bytes := xdev_fstype_ctoa_loop xdev_fstype_ascii_map fstype.

End EtkXdev.
