(* ===== verification/EtkXdevProofs.v ===== *)
(** libetk's block devices: what the probes recognise, what a listed slice is, where the
    code reads outside of its arrays. *)

From stdpp Require Import base tactics list strings.
From S2P Require Import Prelude.
From S2P Require Import CString.
From S2P Require Import EtkString.
From S2P Require Import EtkStringProofs.
From S2P Require Import EtkXdev.
Import EtkString EtkXdev.

(** ** Fields of a super block *)
Definition byt (b : bytes) (o : Z) : Z := default 0 (b !! Z.to_nat o).

(** As stored on the disk, least significant byte first, and as the processor reads
    them. *)
Definition le16v (b : bytes) (o : Z) : Z := byt b o + byt b (o + 1) * 2 ^ 8.
Definition le32v (b : bytes) (o : Z) : Z := le16v b o + le16v b (o + 2) * 2 ^ 16.
Definition be16v (b : bytes) (o : Z) : Z := byt b o * 2 ^ 8 + byt b (o + 1).
Definition be32v (b : bytes) (o : Z) : Z := be16v b o * 2 ^ 16 + be16v b (o + 2).

Lemma rd_byt b o : 0 <= o < Z.of_nat (length b) → rd b o = Ret (byt b o).
Proof.
  intros Ho. destruct (lookup_lt_is_Some_2 b (Z.to_nat o)) as [c Ec]; [lia|].
  rewrite (rd_ok b o c) by (lia || done). unfold byt. by rewrite Ec.
Qed.

Lemma byt_ok b o : Forall byte_ok b → 0 <= byt b o < 256.
Proof.
  intros Hb. unfold byt. destruct (b !! Z.to_nat o) as [c|] eqn:E; [|cbn; lia].
  by apply (Forall_lookup_1 byte_ok) in E.
Qed.

Lemma ld16_ok b o : 0 <= o → o + 1 < Z.of_nat (length b) → ld16 b o = Ret (be16v b o).
Proof. intros. unfold ld16. by rewrite !rd_byt by lia. Qed.

Lemma ld32_ok b o : 0 <= o → o + 3 < Z.of_nat (length b) → ld32 b o = Ret (be32v b o).
Proof. intros. unfold ld32. by rewrite !ld16_ok by lia. Qed.

Lemma le16_be16v b o : Forall byte_ok b → le16 (be16v b o) = le16v b o.
Proof.
  intros Hb. pose proof (byt_ok b o Hb). pose proof (byt_ok b (o + 1) Hb).
  unfold le16, bswap_16, be16v, le16v. Z.to_euclidean_division_equations; lia.
Qed.

Lemma be16v_range b o : Forall byte_ok b → 0 <= be16v b o < 2 ^ 16.
Proof. intros Hb. pose proof (byt_ok b o Hb). pose proof (byt_ok b (o + 1) Hb). unfold be16v. lia. Qed.

Lemma le32_be32v b o : Forall byte_ok b → le32 (be32v b o) = le32v b o.
Proof.
  intros Hb. pose proof (be16v_range b o Hb). pose proof (be16v_range b (o + 2) Hb).
  unfold le32, bswap_32, be32v, le32v.
  replace ((be16v b o * 2 ^ 16 + be16v b (o + 2)) mod 2 ^ 16) with (be16v b (o + 2))
    by (Z.to_euclidean_division_equations; lia).
  replace ((be16v b o * 2 ^ 16 + be16v b (o + 2)) / 2 ^ 16) with (be16v b o)
    by (Z.to_euclidean_division_equations; lia).
  fold le16. rewrite !le16_be16v by done. lia.
Qed.

Lemma le16_inj x y : 0 <= x < 2 ^ 16 → 0 <= y < 2 ^ 16 → x = le16 y ↔ le16 x = y.
Proof. unfold le16, bswap_16. intros. split; intros; Z.to_euclidean_division_equations; lia. Qed.

(** ** Slices *)
Record slice_ok (s : slice) : Prop := {
  ok_label : length (label s) = 32%nat;
  ok_uuid : length (uuid s) = 37%nat;
}.

Definition known (t : Z) : Prop :=
  t ∈ [FSTYPE_NTFS; FSTYPE_FAT12_16; FSTYPE_FAT32; FSTYPE_EXT2; FSTYPE_EXT3; FSTYPE_EXT4].

Lemma print_array_ok m t :
  (1 <= length m)%nat → text t →
  ∃ m', print_array m t = Ret m' ∧ length m' = length m ∧ str_of m' = Some (take (length m - 1) t).
Proof.
  intros Hm Ht. unfold print_array. rewrite vsnprintf_ok by lia. cbn [mbind outcome_bind].
  replace (pred (length m)) with (length m - 1)%nat by lia. eexists. split; [reflexivity|]. split.
  - rewrite length_app. cbn [length]. rewrite length_drop, length_take. lia.
  - by apply str_of_app, Forall_take.
Qed.

(** The texts of the identifiers. *)
Definition dos_text (raw : bytes) : bytes :=
  fmt_02X (byt raw 3) ++ fmt_02X (byt raw 2) ++ 45 :: fmt_02X (byt raw 1) ++ fmt_02X (byt raw 0).

Definition hexes (fmt : Z → bytes) (raw : bytes) (idx : list Z) : bytes := concat (fmt ∘ byt raw <$> idx).

Definition dce_text (raw : bytes) : bytes :=
  hexes fmt_02x raw [0; 1; 2; 3] ++ 45 :: hexes fmt_02x raw [4; 5] ++ 45 :: hexes fmt_02x raw [6; 7] ++
  45 :: hexes fmt_02x raw [8; 9] ++ 45 :: hexes fmt_02x raw [10; 11; 12; 13; 14; 15].

Lemma hexs_ok fmt raw idx :
  Forall (λ i, 0 <= i < Z.of_nat (length raw)) idx → hexs fmt raw idx = Ret (hexes fmt raw idx).
Proof.
  induction 1 as [|i idx Hi Hidx IH]; [done|]. cbn [hexs]. rewrite rd_byt by done.
  cbn [mbind outcome_bind]. by rewrite IH.
Qed.

(** Two hexadecimal digits of a byte: never a 0, always two. *)
Lemma fmt_02_facts n : 0 <= n < 256 →
  text (fmt_02x n) ∧ text (fmt_02X n) ∧ length (fmt_02x n) = 2%nat ∧ length (fmt_02X n) = 2%nat.
Proof.
  intros Hn.
  assert (forallb (λ c, negb (c =? 0)) (fmt_02x n) && forallb (λ c, negb (c =? 0)) (fmt_02X n) &&
          (length (fmt_02x n) =? 2)%nat && (length (fmt_02X n) =? 2)%nat = true) as H.
  { assert (forallb (λ k, let n := Z.of_nat k in
      forallb (λ c, negb (c =? 0)) (fmt_02x n) && forallb (λ c, negb (c =? 0)) (fmt_02X n) &&
      (length (fmt_02x n) =? 2)%nat && (length (fmt_02X n) =? 2)%nat) (seq 0 256) = true) as Hall by by vm_compute.
    rewrite forallb_forall in Hall. specialize (Hall (Z.to_nat n)). rewrite Z2Nat.id in Hall by lia.
    apply Hall, in_seq. lia. }
  rewrite !andb_true_iff, !Nat.eqb_eq in H. destruct H as (((H1 & H2) & H3) & H4).
  assert (∀ l : bytes, forallb (λ c, negb (c =? 0)) l = true → text l) as Hl.
  { intros l Hl. apply List.Forall_forall. intros c Hc. rewrite forallb_forall in Hl. specialize (Hl c Hc). zbool. done. }
  auto.
Qed.

Lemma hexes_facts fmt raw idx :
  fmt = fmt_02x ∨ fmt = fmt_02X → Forall byte_ok raw →
  text (hexes fmt raw idx) ∧ length (hexes fmt raw idx) = (2 * length idx)%nat.
Proof.
  intros Hf Hr. unfold hexes. induction idx as [|i idx [IH1 IH2]]; [split; [constructor|done]|].
  cbn [fmap list_fmap concat]. destruct (fmt_02_facts (byt raw i) (byt_ok raw i Hr)) as (H1 & H2 & H3 & H4).
  rewrite length_app, IH2. cbn [length]. split.
  - apply Forall_app. split; [|done]. by destruct Hf as [->| ->].
  - assert (length ((fmt ∘ byt raw) i) = 2%nat) as ->; [|lia]. by destruct Hf as [->| ->].
Qed.

Lemma format_dos buf raw :
  length buf = 37%nat → length raw = 4%nat → Forall byte_ok raw →
  ∃ buf', xdev_block_slice_format_uuid buf UUID_DOS raw = Ret (0, buf') ∧ length buf' = 37%nat ∧
    str_of buf' = Some (dos_text raw).
Proof.
  intros Hb Hl Hr. unfold xdev_block_slice_format_uuid.
  rewrite !hexs_ok by (rewrite Hl; apply (bool_decide_unpack _); by vm_compute). cbn [mbind outcome_bind].
  destruct (hexes_facts fmt_02X raw [3; 2] ltac:(by right) Hr) as [T1 L1].
  destruct (hexes_facts fmt_02X raw [1; 0] ltac:(by right) Hr) as [T2 L2].
  destruct (print_array_ok buf (hexes fmt_02X raw [3; 2] ++ 45 :: hexes fmt_02X raw [1; 0])) as (b' & -> & Lb & Sb);
    [lia|apply Forall_app; split; [done|by apply Forall_cons]|].
  cbn [mbind outcome_bind]. exists b'. split_and!; [done|lia|]. rewrite Sb, take_ge.
  - unfold dos_text, hexes. cbn [fmap list_fmap concat compose]. by rewrite !app_nil_r, <- !app_assoc.
  - rewrite Hb, length_app. cbn [length]. rewrite L1, L2. cbn. lia.
Qed.

Lemma format_64le buf raw :
  length buf = 37%nat → length raw = 8%nat → Forall byte_ok raw →
  ∃ buf', xdev_block_slice_format_uuid buf UUID_64BIT_LE raw = Ret (0, buf') ∧ length buf' = 37%nat ∧
    str_of buf' = Some (hexes fmt_02X raw [7; 6; 5; 4; 3; 2; 1; 0]).
Proof.
  intros Hb Hl Hr. unfold xdev_block_slice_format_uuid.
  rewrite !hexs_ok by (rewrite Hl; apply (bool_decide_unpack _); by vm_compute). cbn [mbind outcome_bind].
  destruct (hexes_facts fmt_02X raw [7; 6; 5; 4; 3; 2; 1; 0] ltac:(by right) Hr) as [T1 L1].
  destruct (print_array_ok buf (hexes fmt_02X raw [7; 6; 5; 4; 3; 2; 1; 0])) as (b' & -> & Lb & Sb); [lia|done|].
  cbn [mbind outcome_bind]. exists b'. split_and!; [done|lia|]. rewrite Sb, take_ge; [done|].
  rewrite Hb, L1. cbn. lia.
Qed.

Lemma dce_facts raw : Forall byte_ok raw → text (dce_text raw) ∧ length (dce_text raw) = 36%nat.
Proof.
  intros Hr. pose proof (λ idx, hexes_facts fmt_02x raw idx ltac:(by left) Hr) as H. unfold dce_text. split.
  - rewrite !Forall_app, !Forall_cons, !Forall_app, !Forall_cons, !Forall_app, !Forall_cons, !Forall_app, !Forall_cons.
    split_and!; try apply H; lia.
  - do 4 (rewrite length_app; cbn [length]). rewrite !(proj2 (H _)). done.
Qed.

Lemma format_dce buf raw :
  length buf = 37%nat → length raw = 16%nat → Forall byte_ok raw →
  ∃ buf', xdev_block_slice_format_uuid buf UUID_DCE raw = Ret (0, buf') ∧ length buf' = 37%nat ∧
    str_of buf' = Some (dce_text raw).
Proof.
  intros Hb Hl Hr. unfold xdev_block_slice_format_uuid.
  rewrite !hexs_ok by (rewrite Hl; apply (bool_decide_unpack _); by vm_compute). cbn [mbind outcome_bind].
  destruct (dce_facts raw Hr) as [T L]. fold (dce_text raw).
  destruct (print_array_ok buf (dce_text raw)) as (b' & -> & Lb & Sb); [lia|done|].
  cbn [mbind outcome_bind]. exists b'. split_and!; [done|lia|]. rewrite Sb, take_ge; [done|]. lia.
Qed.

(** ** ext2, ext3, ext4 *)
Definition ext_type (sb : bytes) : Z :=
  if bit_set (le32v sb 92) 4 then
    if bit_set (le32v sb 100) 8 || bit_set (le32v sb 100) 32 ||
       bit_set (le32v sb 96) 64 || bit_set (le32v sb 96) 128
    then FSTYPE_EXT4 else FSTYPE_EXT3
  else FSTYPE_EXT2.

(** The checks as the code makes them: the magic in the disk's order, the counters in
    the processor's. *)
Definition ext_accepted (sb : bytes) : bool :=
  (le16v sb 56 =? 61267) && (be32v sb 12 <? be32v sb 4) && (be32v sb 16 <? be32v sb 0).

Lemma ext_type_ok sb :
  Forall byte_ok sb → ext_fstype (be32v sb 92) (be32v sb 96) (be32v sb 100) = ext_type sb.
Proof. intros Hb. unfold ext_fstype, ext_type. by rewrite !le32_be32v. Qed.

Lemma magic_ok sb :
  Forall byte_ok sb → (be16v sb 56 =? le16 61267) = (le16v sb 56 =? 61267).
Proof.
  intros Hb. apply eq_bool_prop_intro. rewrite !Is_true_true, !Z.eqb_eq.
  rewrite le16_inj, le16_be16v by (done || (apply be16v_range; done) || lia). done.
Qed.

Lemma field_ok b o n :
  0 <= o → 0 <= n → o + n <= Z.of_nat (length b) → Forall byte_ok b →
  ∃ r, field b o n = Ret r ∧ r = take (Z.to_nat n) (drop (Z.to_nat o) b) ∧
    Z.of_nat (length r) = n ∧ Forall byte_ok r.
Proof.
  intros Ho Hn Hl Hb. unfold field. rewrite mem_read_Ret by done. eexists. split_and!; [done|done|..].
  - rewrite length_take, length_drop. lia.
  - by apply Forall_take, Forall_drop.
Qed.

(** The part of the probe behind the checks. *)
Lemma ext_finish s sb t v :
  slice_ok s → length sb = 512%nat → Forall byte_ok sb → str_of (drop 120 sb) = Some v →
  ∃ s', (volume ← padd sb 120; txt ← c_str volume;
         '(_, l) ← vsnprintf (label (set_fstype t s)) (Nat.min (length (label (set_fstype t s))) 16) txt;
         raw ← field sb 104 16;
         '(_, u) ← xdev_block_slice_format_uuid (uuid (set_label l (set_fstype t s))) UUID_DCE raw;
         Ret (0, set_uuid u (set_label l (set_fstype t s)))) = Ret (0, s') ∧
    slice_ok s' ∧ fstype s' = t ∧ str_of (label s') = Some (take 15 v) ∧
    str_of (uuid s') = Some (dce_text (take 16 (drop 104 sb))).
Proof.
  intros [Hl Hu] Hlen Hb Hv. unfold padd. rewrite Hlen. cbn [Nat.leb mbind outcome_bind].
  unfold c_str. rewrite Hv. cbn [must mbind outcome_bind]. cbn [label set_fstype]. rewrite Hl.
  change (32 `min` 16)%nat with 16%nat. rewrite vsnprintf_ok by lia. cbn [mbind outcome_bind pred].
  destruct (field_ok sb 104 16) as (raw & -> & -> & Lr & Br); [lia|lia|lia|done|]. cbn [mbind outcome_bind].
  change (Z.to_nat 104) with 104%nat in *. change (Z.to_nat 16) with 16%nat in *. cbn [uuid set_label set_fstype].
  destruct (format_dce (uuid s) (take 16 (drop 104 sb))) as (u & -> & Lu & Su); [done|lia|done|].
  cbn [mbind outcome_bind]. eexists. split; [reflexivity|]. pose proof (str_of_text _ _ Hv) as Tv.
  split_and!; [|done| |done].
  - split; cbn [label uuid set_label set_uuid set_fstype]; [|done]. rewrite length_app. cbn [length]. rewrite length_drop, length_take. lia.
  - cbn. by apply str_of_app, Forall_take.
Qed.

Lemma header_ext_ok s dev sb v :
  slice_ok s → read_sb dev 1024 512 = Some sb → Forall byte_ok sb → length sb = 512%nat →
  str_of (drop 120 sb) = Some v →
  ∃ s', xdev_slice_header_ext s dev = Ret (if ext_accepted sb then 0 else 1, s') ∧
    (ext_accepted sb = false → s' = s) ∧
    (ext_accepted sb = true →
       slice_ok s' ∧ fstype s' = ext_type sb ∧ str_of (label s') = Some (take 15 v) ∧
       str_of (uuid s') = Some (dce_text (take 16 (drop 104 sb)))).
Proof.
  intros Hs Hsb Hb Hl Hv. unfold xdev_slice_header_ext, ext_accepted. rewrite Hsb.
  rewrite ld16_ok by lia. cbn [mbind outcome_bind]. rewrite magic_ok by done.
  destruct (le16v sb 56 =? 61267); [|by exists s].
  rewrite !ld32_ok by lia. cbn [mbind outcome_bind andb].
  destruct (be32v sb 4 <=? be32v sb 12) eqn:E1; zbool.
  { rewrite (proj2 (Z.ltb_ge _ _)) by lia. by exists s. }
  rewrite (proj2 (Z.ltb_lt (be32v sb 12) _)) by lia. cbn [andb].
  destruct (be32v sb 0 <=? be32v sb 16) eqn:E2; zbool.
  { rewrite (proj2 (Z.ltb_ge (be32v sb 16) _)) by lia. by exists s. }
  rewrite (proj2 (Z.ltb_lt (be32v sb 16) _)) by lia.
  assert (0 <= be32v sb 12) as Hpos.
  { pose proof (be16v_range sb 12 Hb). pose proof (be16v_range sb (12 + 2) Hb). unfold be32v. lia. }
  rewrite (proj2 (Z.eqb_neq (be32v sb 4) 0)) by lia. cbn [mbind outcome_bind].
  rewrite ext_type_ok by done.
  destruct (ext_finish s sb (ext_type sb) v Hs Hl Hb Hv) as (s' & E & Hok). exists s'. split; [exact E|].
  split; [done|]. intros _. exact Hok.
Qed.

(** The probe for ext2, ext3 and ext4 tells the three apart by the features of the
    super block and prints its identifier and label; but the counters are compared in
    the processor's byte order, so that on the boxes the verdict is not the one of the
    numbers on the disk, and file systems in good order are refused. *)
Theorem xdev_slice_header_ext_spec s dev sb v :
  slice_ok s → read_sb dev 1024 512 = Some sb → Forall byte_ok sb → length sb = 512%nat →
  str_of (drop 120 sb) = Some v →
  ∃ s', xdev_slice_header_ext s dev = Ret (if ext_accepted sb then 0 else 1, s') ∧
    (ext_accepted sb = false → s' = s) ∧
    (ext_accepted sb = true →
       slice_ok s' ∧ fstype s' = ext_type sb ∧ str_of (label s') = Some (take 15 v) ∧
       str_of (uuid s') = Some (dce_text (take 16 (drop 104 sb)))).
Proof. apply header_ext_ok. Qed.

(** A super block with the counters given, in the order of the disk. *)
Definition le_bytes (z : Z) : bytes :=
  [z mod 256; z / 256 mod 256; z / 2 ^ 16 mod 256; z / 2 ^ 24 mod 256].

Definition ext_sb (inodes blocks free_blocks free_inodes compat : Z) : bytes :=
  le_bytes inodes ++ le_bytes blocks ++ le_bytes 0 ++ le_bytes free_blocks ++ le_bytes free_inodes ++
  replicate 36 0 ++ [83; 239] ++ replicate 34 0 ++ le_bytes compat ++ replicate 24 0 ++ lit "DISK" ++
  replicate 388 0.

(** A device with a super block of [sb] at its place. *)
Definition ext_dev (sb : bytes) (off n : Z) : option bytes :=
  if (off =? 1024) && (n =? 512) then Some sb else None.

(** 255 blocks free of 256, 3 inodes free of 16: refused. *)
Lemma xdev_slice_header_ext_spec_witness :
  let sb := ext_sb 16 256 255 3 4 in
  le32v sb 12 < le32v sb 4 ∧ le32v sb 16 < le32v sb 0 ∧
  ∃ s', xdev_slice_header_ext slice0 (ext_dev sb) = Ret (1, s') ∧ s' = slice0.
Proof.
  intros sb. split; [vm_compute; reflexivity|]. split; [vm_compute; reflexivity|].
  destruct (xdev_slice_header_ext_spec slice0 (ext_dev sb) sb (lit "DISK")) as (s' & E & H & _).
  - split; reflexivity.
  - reflexivity.
  - apply (bool_decide_unpack _). vm_compute. exact I.
  - reflexivity.
  - vm_compute. reflexivity.
  - exists s'. split; [exact E|]. apply H. vm_compute. reflexivity.
Defined.

(** ** FAT *)
Definition fat_label (sb : bytes) (t : Z) : bytes :=
  take 11 (drop (if t =? FSTYPE_FAT32 then 71%nat else 43%nat) sb).

Definition fat_serial (sb : bytes) (t : Z) : bytes :=
  take 4 (drop (if t =? FSTYPE_FAT32 then 67%nat else 39%nat) sb).

Definition fat_jump (sb : bytes) : bool :=
  (byt sb 0 =? 235) && (byt sb 2 =? 144) && ((byt sb 21 =? 248) || (byt sb 21 =? 252)).

Lemma header_fat_ok s dev sb t :
  slice_ok s → read_sb dev 0 1024 = Some sb → Forall byte_ok sb → length sb = 1024%nat →
  fat_jump sb = true → fat_fstype sb = Ret (Some t) →
  match str_of (fat_label sb t) with
  | None => xdev_slice_header_fat s dev = Undef
  | Some l =>
      ∃ s', xdev_slice_header_fat s dev = Ret (0, s') ∧ slice_ok s' ∧ fstype s' = t ∧
        str_of (label s') = Some l ∧ str_of (uuid s') = Some (dos_text (fat_serial sb t))
  end.
Proof.
  intros [Hl Hu] Hsb Hb Hlen Hj Ht. unfold xdev_slice_header_fat. rewrite Hsb.
  rewrite !rd_byt by lia. cbn [mbind outcome_bind]. unfold fat_jump in Hj. rewrite Hj, Ht. cbn [mbind outcome_bind].
  destruct (field_ok sb (if t =? FSTYPE_FAT32 then 71 else 43) 11) as (lbl & -> & El & Ll & Bl);
    [by case_match|lia|case_match; lia|done|].
  destruct (field_ok sb (if t =? FSTYPE_FAT32 then 67 else 39) 4) as (ser & -> & Es & Ls & Bs);
    [by case_match|lia|case_match; lia|done|].
  assert (lbl = fat_label sb t) as -> by (rewrite El; unfold fat_label; by case_match).
  assert (ser = fat_serial sb t) as -> by (rewrite Es; unfold fat_serial; by case_match).
  cbn [mbind outcome_bind]. unfold c_str. destruct (str_of (fat_label sb t)) as [l|] eqn:E; [|done].
  cbn [must mbind outcome_bind label set_fstype]. pose proof (str_of_text _ _ E) as Tl.
  assert (length l < 11)%nat as Hll.
  { apply str_of_split in E as [r E]. apply (f_equal length) in E. rewrite length_app in E. cbn in E. lia. }
  destruct (print_array_ok (label s) l) as (lb & -> & Llb & Slb); [lia|done|].
  cbn [mbind outcome_bind uuid set_label set_fstype].
  destruct (format_dos (uuid s) (fat_serial sb t)) as (u & -> & Lu & Su); [done|lia|done|].
  cbn [mbind outcome_bind]. eexists. split; [reflexivity|]. split_and!; [split; cbn; lia|done| |done].
  cbn. rewrite Slb, take_ge by lia. done.
Qed.

(** On a FAT partition, whatever its kind, the probe copies the label of 11 bytes
    and prints it up to a 0: a label that fills its field, as the padded labels of FAT
    do, is read past the end of the copy; a label with a 0 is recognised and printed with
    the serial number. *)
Theorem xdev_slice_header_fat_label s dev sb t :
  slice_ok s → read_sb dev 0 1024 = Some sb → Forall byte_ok sb → length sb = 1024%nat →
  fat_jump sb = true → fat_fstype sb = Ret (Some t) →
  match str_of (fat_label sb t) with
  | None => xdev_slice_header_fat s dev = Undef
  | Some l =>
      ∃ s', xdev_slice_header_fat s dev = Ret (0, s') ∧ slice_ok s' ∧ fstype s' = t ∧
        str_of (label s') = Some l ∧ str_of (uuid s') = Some (dos_text (fat_serial sb t))
  end.
Proof. apply header_fat_ok. Qed.

(** A boot sector of a FAT12 or FAT16 partition with the label given. *)
Definition fat_sb (lbl : bytes) : bytes :=
  [235; 60; 144] ++ lit "MSDOS5.0" ++ [0; 2; 1; 1; 0; 2; 0; 2; 64; 11; 248; 9; 0] ++ replicate 14 0 ++
  [41; 120; 86; 52; 18] ++ lbl ++ replicate 456 0 ++ [85; 170] ++ replicate 512 0.

Definition fat_dev (sb : bytes) (off n : Z) : option bytes :=
  if (off =? 0) && (n =? 1024) then Some sb else None.

Lemma xdev_slice_header_fat_label_witness :
  xdev_slice_header_fat slice0 (fat_dev (fat_sb (lit "NO NAME    "))) = Undef.
Proof.
  set (sb := fat_sb (lit "NO NAME    ")).
  exact (xdev_slice_header_fat_label slice0 (fat_dev sb) sb FSTYPE_FAT12_16
    ltac:(split; reflexivity) eq_refl ltac:(apply (bool_decide_unpack _); vm_compute; exact I)
    ltac:(vm_compute; reflexivity) ltac:(vm_compute; reflexivity) ltac:(vm_compute; reflexivity)).
Defined.

(** ** What a probe leaves *)

(** Success with a type of the list, or the slice as it was. *)
Definition probed (s : slice) (r : Z) (s' : slice) : Prop :=
  (r = 0 ∧ known (fstype s')) ∨ (r ≠ 0 ∧ s' = s).

Ltac outcomes :=
  repeat match goal with
  | H : (_ ≫= _) = Ret _ |- _ => apply bind_Ret_inv in H as (? & ? & H)
  | H : (let '(_, _) := ?p in _) = Ret _ |- _ => destruct p
  | H : (if ?b then _ else _) = Ret _ |- _ => destruct b eqn:?
  | H : match ?o with Some _ => _ | None => _ end = Ret _ |- _ => destruct o eqn:?
  | H : Ret _ = Ret _ |- _ => injection H as H; simplify_eq
  end.

(** One of the six, by inspection. *)
Ltac by_known := repeat case_match; simplify_eq; unfold known; by apply (bool_decide_unpack _).

Lemma fat_fstype_known sb t : fat_fstype sb = Ret (Some t) → known t.
Proof.
  unfold fat_fstype. intros H. outcomes; by_known.
Qed.

Lemma ext_fstype_known a b c : known (ext_fstype a b c).
Proof. unfold ext_fstype. by_known. Qed.

Lemma probes_probed : Forall (λ p, ∀ s dev r s', p.1 s dev = Ret (r, s') → probed s r s') xdev_hdr_map.
Proof.
  unfold xdev_hdr_map. rewrite !Forall_cons, Forall_nil. split_and!; [..|done]; cbn [fst]; intros s dev r s' H.
  - unfold xdev_slice_header_ntfs in H. outcomes; try (by right). left. split; [done|]. cbn. by_known.
  - unfold xdev_slice_header_fat in H. outcomes; try (by right). left. split; [done|]. cbn.
    by eapply fat_fstype_known.
  - unfold xdev_slice_header_ext in H. outcomes; try (by right). left. split; [done|]. cbn. apply ext_fstype_known.
Qed.

Lemma guess_probed l dev ret s found r s' :
  Forall (λ p, ∀ s dev r s', p.1 s dev = Ret (r, s') → probed s r s') l → ret ≠ 0 →
  guess_loop l dev ret s = Ret (found, r, s') →
  (found = true ∧ r = 0 ∧ known (fstype s')) ∨ (found = false ∧ s' = s).
Proof.
  intros Hl. revert ret s. induction Hl as [|[fct m] l Hp Hl IH]; intros ret s Hret H; cbn in H.
  - simplify_eq. by right.
  - apply bind_Ret_inv in H as ([r1 s1] & E & H). destruct (Hp s dev r1 s1 E) as [[-> Hk]|[Hr ->]].
    + cbn in H. simplify_eq. left. done.
    + rewrite (proj2 (Z.eqb_neq _ _)) in H by done. by apply (IH r1).
Qed.

Lemma known_probed l dev s found r s' :
  Forall (λ p, ∀ s dev r s', p.1 s dev = Ret (r, s') → probed s r s') l →
  known_loop l dev s = Ret (found, r, s') →
  (found = true ∧ r = 0 ∧ known (fstype s')) ∨ ((found = false ∨ r ≠ 0) ∧ s' = s).
Proof.
  intros Hl. induction Hl as [|[fct m] l Hp Hl IH]; intros H; cbn in H.
  - simplify_eq. right. auto.
  - destruct (bit_set (fstype s) m); [|by apply IH].
    apply bind_Ret_inv in H as ([r1 s1] & E & H). simplify_eq.
    destruct (Hp s dev r s' E) as [[-> Hk]|[Hr ->]]; [left; done|right; auto].
Qed.

Lemma header_info_probed sys s r s' :
  xdev_slice_header_info sys s = Ret (r, s') →
  (r = 0 ∧ known (fstype s')) ∨ (r = -1 ∧ s' = s).
Proof.
  unfold xdev_slice_header_info. intros H. apply bind_Ret_inv in H as (p & _ & H).
  destruct (open_dev sys p) as [dev|]; [|simplify_eq; by right].
  apply bind_Ret_inv in H as ([[found r1] s1] & E & H).
  assert ((found = true ∧ r1 = 0 ∧ known (fstype s1)) ∨ ((found = false ∨ r1 ≠ 0) ∧ s1 = s)) as Hp.
  { destruct (fstype s =? FSTYPE_UNKNOWN).
    - apply guess_probed in E as [?|[-> ->]]; [by left|right; auto|apply probes_probed|done].
    - by eapply known_probed; [apply probes_probed|]. }
  destruct Hp as [(-> & -> & Hk)|[Hr ->]].
  - cbn in H. simplify_eq. by left.
  - right. destruct found, (Z.eqb_spec r1 0); cbn in H; simplify_eq; naive_solver.
Qed.

Lemma probe_slice_known sys s s' : probe_slice sys s = Ret (Some s') → known (fstype s').
Proof.
  unfold probe_slice. intros H. apply bind_Ret_inv in H as ([r1 s1] & _ & H).
  apply bind_Ret_inv in H as ([r2 s2] & E & H).
  destruct (header_info_probed _ _ _ _ E) as [[-> Hk]|[-> ->]]; cbn in H; simplify_eq. done.
Qed.

Lemma slices_known sys b names acc l :
  slices_loop sys b names acc = Ret l → Forall (λ s, known (fstype s)) acc → Forall (λ s, known (fstype s)) l.
Proof.
  revert acc. induction names as [|n names IH]; intros acc H Hacc; cbn in H; [by simplify_eq|].
  apply bind_Ret_inv in H as (p & _ & H). destruct p as [path|]; [|by eapply IH].
  do 5 apply bind_Ret_inv in H as (? & _ & H). apply bind_Ret_inv in H as (r & Er & H).
  eapply IH; [exact H|]. apply Forall_app. split; [done|]. destruct r as [s|]; [|constructor].
  apply Forall_singleton. by eapply probe_slice_known.
Qed.

Lemma list_block_slice_known sys b r l :
  xdev_list_block_slice sys b = Ret (r, l) → Forall (λ s, known (fstype s)) l.
Proof.
  unfold xdev_list_block_slice. intros H. apply bind_Ret_inv in H as (p & _ & H).
  destruct (opendir sys p) as [names|]; [|simplify_eq; constructor].
  apply bind_Ret_inv in H as (l1 & E & H). pose proof (slices_known _ _ _ _ _ E ltac:(constructor)) as Hl1.
  destruct l1 as [|s l1]; [|by simplify_eq].
  do 6 apply bind_Ret_inv in H as (? & _ & H). apply bind_Ret_inv in H as (o & Eo & H). simplify_eq.
  destruct o as [s|]; [|constructor]. apply Forall_singleton. by eapply probe_slice_known.
Qed.

Lemma known_named t : known t → xdev_fstype_ctoa t ≠ lit "Unknown".
Proof.
  unfold known. rewrite !elem_of_cons.
  intros [->|[->|[->|[->|[->|[->|[]%elem_of_nil]]]]]]; by vm_compute.
Qed.

(** A text printed into an array that begins with [p], where [p] fits. *)
Lemma print_array_prefix m t m' : (1 <= length m)%nat → text t → print_array m t = Ret m' →
  ∃ s, str_of m' = Some s ∧ length m' = length m ∧ s = take (length m - 1) t.
Proof.
  intros Hm Ht E. destruct (print_array_ok m t Hm Ht) as (m1 & E1 & L1 & S1). rewrite E in E1. simplify_eq.
  eauto.
Qed.

(** What a listed device is: named after an entry [sd...] of sysfs, with slices of known
    types. *)
Definition block_ok (names : list bytes) (b : block * list slice) : Prop :=
  (∃ d, d ∈ names ∧ prefixb (lit "sd") d = true ∧ str_of (b_name b.1) = Some (take 15 d) ∧
     str_of (b_devpath b.1) = Some (take 31 (lit "/dev/" ++ d))) ∧
  Forall (λ s, known (fstype s) ∧ xdev_fstype_ctoa (fstype s) ≠ lit "Unknown") b.2.

Lemma one_block_ok sys d syspath buf buf' b :
  text d → prefixb (lit "sd") d = true → one_block sys d syspath buf = Ret (buf', b) → block_ok [d] b.
Proof.
  intros Hd Hp H. unfold one_block in H.
  apply bind_Ret_inv in H as (n & En & H). apply bind_Ret_inv in H as (sp & Esp & H).
  apply bind_Ret_inv in H as (dp & Edp & H).
  do 2 (apply bind_Ret_inv in H as ([? ?] & _ & H)). do 2 (apply bind_Ret_inv in H as (? & _ & H)).
  apply bind_Ret_inv in H as ([r sl] & Es & H). simplify_eq. split; cbn [fst snd b_name b_devpath].
  - exists d. apply print_array_prefix in En as (s1 & S1 & _ & ->); [|cbn; lia|done].
    apply print_array_prefix in Edp as (s2 & S2 & _ & ->); [|cbn; lia|].
    + split_and!; [by left|done|done|done].
    + apply Forall_app. split; [apply (bool_decide_unpack _); by vm_compute|done].
  - eapply Forall_impl; [by eapply list_block_slice_known|]. intros s Hk. split; [done|by apply known_named].
Qed.

Lemma blocks_ok sys nb6 all names buf acc l :
  Forall (λ d, text d) all → names ⊆ all → blocks_loop sys nb6 names buf acc = Ret l →
  Forall (block_ok all) acc → Forall (block_ok all) l.
Proof.
  intros Ht. revert buf acc. induction names as [|d names IH]; intros buf acc Hs H Hacc; cbn [blocks_loop] in H.
  { by simplify_eq. }
  assert (names ⊆ all) as Hs' by (intros x Hx; apply Hs; by right).
  assert (d ∈ all) as Hd by (apply Hs; by left).
  destruct (bytes_eqb d (lit ".") || bytes_eqb d (lit "..")); [by eapply IH|].
  destruct (prefixb (lit "sd") d) eqn:Ep; cbn [negb] in H; [|by eapply IH].
  apply bind_Ret_inv in H as (p & _ & H). destruct p as [path|]; [|by eapply IH].
  apply bind_Ret_inv in H as ([buf' b] & Eb & H). eapply IH; [done|exact H|].
  apply Forall_app. split; [done|]. apply Forall_singleton.
  destruct (one_block_ok _ _ _ _ _ _ (proj1 (Forall_forall _ _) Ht d Hd) Ep Eb) as [(d' & Hin & Hrest) Hsl].
  apply list_elem_of_singleton in Hin as ->. split; [eauto|done].
Qed.

(** C35: whatever sysfs, the mount table and the disks hold, every device that
    [xdev_list_block] lists is named after an entry [sd...] of sysfs, name and device path
    cut to their arrays, and each of its slices was recognised by a probe: it has one of
    the six types that a probe gives, and [xdev_fstype_ctoa] has a name for it. *)
Theorem xdev_list_block_typed sys nb6 names r l :
  opendir sys SYSFS_BLOCK_PATH = Some names → Forall (λ d, text d) names →
  xdev_list_block sys nb6 = Ret (r, l) → r = 0 ∧ Forall (block_ok names) l.
Proof.
  intros Hn Ht H. unfold xdev_list_block in H. rewrite Hn in H.
  apply bind_Ret_inv in H as (l1 & E & H). simplify_eq. split; [done|].
  by eapply blocks_ok; [..|constructor].
Qed.

(** A device [sda] of one ext2 partition [sda1], which is mounted. *)
Definition one_disk : system :=
  System (λ p, if bytes_eqb p (lit "/sys/block/../devices/sda/sda1/size") then Some (Some (lit "100" ++ [10]))
               else if bytes_eqb p (lit "/sys/block/../devices/sda/device/vendor")
               then Some (Some (lit "Kingston  " ++ [10])) else None)
    (λ p, if bytes_eqb p (lit "/dev/sda1") then Some (ext_dev (ext_sb 16 255 1 3 0)) else None)
    (Some [Mnt (lit "/dev/sda1") (lit "/mnt/usb") (lit "ext2")])
    (λ _, Some (Statfs 255 1 1024))
    (λ p, Some (if bytes_eqb p (lit "/sys/block") then [lit "."; lit "loop0"; lit "sda"]
                else [lit "."; lit ".."; lit "sda1"; lit "stat"]))
    (λ p, Some (negb (bytes_eqb p (lit "/sys/block/../devices/sda/stat"))))
    (λ _, Some true) (λ _, Some (lit "../devices/sda")).

Lemma xdev_list_block_typed_witness :
  ∃ l, xdev_list_block one_disk true = Ret (0, l) ∧
    map (λ b : block * list slice, str_of (b_vendor b.1)) l = [Some (lit "Kingston")] ∧
    map (λ b : block * list slice, map (λ s, (fstype s, mounted s, capacity_used s)) b.2) l = [[(FSTYPE_EXT2, 1, 260096)]] ∧
    Forall (block_ok [lit "."; lit "loop0"; lit "sda"]) l.
Proof.
  destruct (xdev_list_block one_disk true) as [[r l]| | |] eqn:E; vm_compute in E; try discriminate E.
  exists l. injection E as <- <-. split; [reflexivity|]. split; [reflexivity|]. split; [reflexivity|].
  apply (xdev_list_block_typed one_disk true [lit "."; lit "loop0"; lit "sda"] 0);
    [vm_compute; reflexivity|apply (bool_decide_unpack _); vm_compute; exact I|vm_compute; reflexivity].
Defined.

(** A value of sysfs that opens but cannot be read: the terminator is written at the
    largest index there is. *)
Lemma sysfs_get_string_read_error sys path filename buf p :
  print_array (replicate 256 165) (path ++ 47 :: filename) = Ret p → (∃ s, str_of p = Some s) →
  (∀ s, open_sysfs sys s = Some None) → Z.of_nat (length buf) < 2 ^ 32 - 1 →
  sysfs_get_string sys path filename buf = Undef.
Proof.
  intros Hp [s Hs] Ho Hb. unfold sysfs_get_string. rewrite Hp. cbn [mbind outcome_bind]. unfold c_str.
  rewrite Hs. cbn [must mbind outcome_bind]. rewrite Ho. cbn [mbind outcome_bind].
  by rewrite wr_Undef by lia.
Qed.
