(* ===== verification/NbdCore.v ===== *)
(** libnbd's link to the configuration daemon:
    [src/efixo/efixo-libnbd/src/lib/core.c], and the queries of [nvram.c],
    [status.c], [autoconf.c] and [nbctl.c] the web programs use.

    The daemon and the kernel are outside: a connection is what its [read] and
    [write] calls will answer, fragment by fragment.  The machines are big-endian.
    One thread holds the mutex of [nbd_link] during a query. *)

From stdpp Require Import base tactics list.
From S2P Require Import Prelude.
From S2P Require Import CString.

Module NbdCore.

(** What the next [read] finds: bytes (none: end of file), a signal, an error. *)
Inductive rd_event := RData (bs : bytes) | RIntr | RFail.

(** What the next [write] does. *)
Inductive wr_event := WAll | WShort (n : Z) | WIntr | WPipe | WFail.

Inductive conn_event := COk | CIntr | CFail.

Record conn := Conn {
  c_fd : Z;
  c_in : list rd_event;
  c_wr : list wr_event;
  c_sent : bytes;
}.

(** What the next [socket] and [connect] give. *)
Inductive attempt := NoSocket | Attempt (evs : list conn_event) (c : conn).

(** [nbd_link], with the connection behind its descriptor. *)
Record link := Link {
  fd : Z;
  cur : conn;
  attempts : list attempt;
}.

Abbreviation M := (cmd link).

Definition ACK : Z := 6.

Definition set_fd (z : Z) (l : link) : link := Link z (cur l) (attempts l).
Definition set_cur (c : conn) (l : link) : link := Link (fd l) c (attempts l).

(** ** Integers in memory *)
Definition be32 (z : Z) : bytes := [u8 (Z.shiftr z 24); u8 (Z.shiftr z 16); u8 (Z.shiftr z 8); u8 z].
Definition be_val (bs : bytes) : Z := foldl (λ a b, a * 256 + b) 0 bs.

(** ** Reading and writing *)

(** [do read while EINTR]: the bytes, or [None] for an error. *)
Fixpoint safe_read (evs : list rd_event) (count : Z) : option bytes * list rd_event :=
  match evs with
  | [] => (Some [], [])
  | RIntr :: evs => safe_read evs count
  | RFail :: evs => (None, evs)
  | RData bs :: evs =>
      let n := Z.to_nat count in
      (Some (take n bs), if (length bs <=? n)%nat then evs else RData (drop n bs) :: evs)
  end.

(** [Some n]: [n] bytes were written; [None] is an error, with [true] for EPIPE. *)
Fixpoint safe_write (evs : list wr_event) (buf : bytes) : Z * bool * bytes * list wr_event :=
  match evs with
  | [] => (Z.of_nat (length buf), false, buf, [])
  | WAll :: evs => (Z.of_nat (length buf), false, buf, evs)
  | WShort n :: evs =>
      let bs := take (Z.to_nat n) buf in (Z.of_nat (length bs), false, bs, evs)
  | WIntr :: evs => safe_write evs buf
  | WPipe :: evs => (-1, true, [], evs)
  | WFail :: evs => (-1, false, [], evs)
  end.

(** On the descriptor of the link; a closed one is EBADF. *)
Definition link_read (count : Z) : M (option bytes) := λ l,
  if fd l <? 0 then Ret (None, l)
  else
    let c := cur l in
    let '(r, evs) := safe_read (c_in c) count in
    Ret (r, set_cur (Conn (c_fd c) evs (c_wr c) (c_sent c)) l).

(** The value returned and whether errno is EPIPE. *)
Definition link_write (buf : bytes) : M (Z * bool) := λ l,
  if fd l <? 0 then Ret ((-1, false), l)
  else
    let c := cur l in
    let '(r, pipe, sent, evs) := safe_write (c_wr c) buf in
    Ret ((r, pipe), set_cur (Conn (c_fd c) (c_in c) evs (c_sent c ++ sent)) l).

(** [full_read]: the value returned and what was stored. *)
Fixpoint full_read_loop (fuel : nat) (len : Z) (acc : bytes) : M (Z * bytes) :=
  match fuel with
  | O => λ _, NoFuel
  | S f =>
      if 0 <? len then
        r ← link_read len;
        match r with
        | None => mret (-1, acc)
        | Some [] => mret (Z.of_nat (length acc), acc)
        | Some bs => full_read_loop f (len - Z.of_nat (length bs)) (acc ++ bs)
        end
      else mret (Z.of_nat (length acc), acc)
  end.

(** Each turn of the loop consumes input: this many turns are enough. *)
Definition ev_size (evs : list rd_event) : nat :=
  foldr (λ e n, match e with RData bs => S (length bs) + n | _ => S n end)%nat 0%nat evs.

Definition full_read (len : Z) : M (Z * bytes) := λ l,
  full_read_loop (S (ev_size (c_in (cur l)))) len [] l.

(** ** Opening and closing *)
Fixpoint safe_connect (evs : list conn_event) : bool :=
  match evs with
  | CIntr :: evs => safe_connect evs
  | CFail :: _ => false
  | COk :: _ | [] => true
  end.

Definition __nbd_close : M unit := λ l, Ret (tt, if 0 <? fd l then set_fd (-1) l else l).

(** The connection accepted becomes the current one; its descriptor is returned. *)
Definition __nbd_open : M Z := λ l,
  match attempts l with
  | [] => Ret (-1, l)
  | NoSocket :: rest => Ret (-1, Link (fd l) (cur l) rest)
  | Attempt evs c :: rest =>
      let l' := Link (fd l) (cur l) rest in
      if negb (safe_connect evs) then Ret (-1, l')
      else
        let '(r, ins) := safe_read (c_in c) 1 in
        match r with
        | Some [answer] =>
            if answer =? ACK
            then Ret (c_fd c, set_cur (Conn (c_fd c) ins (c_wr c) (c_sent c)) l')
            else Ret (-1, l')
        | _ => Ret (-1, l')
        end
  end.

Definition nbd_open : M Z :=
  l ← get_st;
  if 0 <? fd l then mret (fd l)
  else
    z ← __nbd_open;
    mod_st (set_fd z);;
    mret z.

Definition nbd_close : M unit := __nbd_close.

(** ** Receiving an answer *)

(** [full_read] or [safe_read] into an [int] that held [old]: its value after. *)
Definition into_int (old : Z) (bs : bytes) : Z :=
  s32 (be_val (bs ++ drop (length bs) (be32 old))).

(** Into a [size_t] that held nothing: indeterminate unless all of it was read. *)
Definition into_size (bs : bytes) : outcome Z :=
  if (length bs =? 4)%nat then Ret (be_val bs) else Undef.

(** The value returned, the caller's buffer and [*ret]. *)
Definition nbd_query_receive (buf : option bytes) (len ret : Z) : M (Z * option bytes * Z) :=
  '(n, bs) ← full_read 4;
  if n <? 0 then mret (-1, buf, -1)
  else
    let ret := into_int ret bs in
    '(n, bs) ← full_read 4;
    if n <? 0 then mret (-1, buf, -1)
    else
      count ← lift (into_size bs);
      if len <? count then
        (if count <? 512 then full_read count;; mret tt else mret tt);;
        mret (-1, buf, -1)
      else if count =? 0 then
        buf ← match buf with
              | Some b => b ← lift (wr b 0 0); mret (Some b)
              | None => mret None
              end;
        mret (count, buf, ret)
      else
        buf ← lift (mem_write buf 0 (replicate (Z.to_nat len) 0));
        '(n, bs) ← full_read count;
        buf ← lift (mem_write buf 0 bs);
        if n <? 0 then mret (-1, buf, ret) else mret (count, buf, ret).

(** The value returned, [*buf], [*size] and [*ret]; [buf] and [size] are the caller's. *)
Definition nbd_query_receive_new (malloc : Z → option bytes) (buf : option bytes) (size ret : Z)
    : M (Z * option bytes * Z * Z) :=
  r ← link_read 4;
  match r with
  | None => mret (-1, buf, size, ret)
  | Some bs =>
      let ret := into_int ret bs in
      r ← link_read 4;
      match r with
      | None => mret (-1, buf, size, ret)
      | Some bs =>
          size ← lift (into_size bs);
          match malloc size with
          | None => mret (-1, None, size, ret)
          | Some b =>
              '(n, bs) ← full_read size;
              b ← lift (mem_write (Some b) 0 bs);
              if n <? 0 then mret (-1, b, size, ret) else mret (0, b, size, ret)
          end
      end
  end.

(** ** Sending a query *)

(** [sizeof(struct query)]: an [int] and twelve pointers. *)
Definition SIZEOF_QUERY : Z := 52.

Definition put32 (buf : bytes) (off z : Z) : outcome bytes :=
  b ← mem_write (Some buf) off (be32 z); must b.

(** [snprintf(buf + off, size, "%s", t)]. *)
Definition snprintf_at (buf : bytes) (off size : Z) (t : bytes) : outcome bytes :=
  if size =? 0 then Ret buf
  else b ← mem_write (Some buf) off (take (Z.to_nat (size - 1)) t ++ [0]); must b.

Fixpoint put_args (buf : bytes) (argc end_ len : Z) (args : list bytes) : outcome (bytes * Z) :=
  match args with
  | [] => Ret (buf, end_)
  | argv :: args =>
      t ← c_str argv;
      buf ← snprintf_at buf end_ len t;
      let offset := Z.of_nat (length t) + 1 in
      buf ← (if argc <? 12 then put32 buf (4 + 4 * argc) (u32 (end_ - SIZEOF_QUERY)) else Undef);
      buf ← put32 buf 0 (argc + 1);
      put_args buf (argc + 1) (end_ + offset) (u32 (len - offset)) args
  end.

(** The bytes of [buf] that are sent; [stack] is what [char buf[512]] held. *)
Definition build_query (stack : bytes) (args : list bytes) : outcome bytes :=
  buf ← mem_write (Some stack) 0 (replicate (Z.to_nat SIZEOF_QUERY) 0);
  buf ← must buf;
  buf ← wr buf SIZEOF_QUERY 0;
  '(buf, end_) ← put_args buf 0 SIZEOF_QUERY (512 - SIZEOF_QUERY - 1) args;
  let end_ := end_ + 1 in
  buf ← wr buf end_ 0;
  Ret (take (Z.to_nat end_) buf).

(** At most [i] attempts, one a second. *)
Fixpoint reopen (i : nat) (sfd : Z) : M Z :=
  match i with
  | O => mret sfd
  | S i =>
      sfd ← __nbd_open;
      mod_st (set_fd sfd);;
      if 0 <? sfd then mret sfd else reopen i sfd
  end.

Definition nbd_query_send (stack : bytes) (args : list bytes) : M Z :=
  frame ← lift (build_query stack args);
  let len := be32 (Z.of_nat (length frame)) in
  '(n, pipe) ← link_write len;
  if n <? 0 then
    if pipe : bool then
      l ← get_st;
      __nbd_close;;
      sfd ← reopen 60 (fd l);
      if sfd <? 0 then mret (-1)
      else
        '(n, _) ← link_write len;
        if n <? 0 then mret (-1)
        else '(n, _) ← link_write frame; mret n
    else mret (-1)
  else '(n, _) ← link_write frame; mret n.

(** ** Queries: the status and the caller's buffer *)
Definition nbd_query (stack : bytes) (out : option bytes) (outlen : Z) (args : list bytes)
    : M (Z * option bytes) :=
  ret ← nbd_query_send stack args;
  if ret <? 0 then __nbd_close;; mret (ret, out)
  else
    '(_, out, ret) ← nbd_query_receive out outlen ret;
    mret (ret, out).

Definition nbd_query_new (malloc : Z → option bytes) (stack : bytes) (out : option bytes)
    (outlen : Z) (args : list bytes) : M (Z * option bytes * Z) :=
  ret ← nbd_query_send stack args;
  if ret <? 0 then __nbd_close;; mret (ret, out, outlen)
  else
    '(_, out, size, ret) ← nbd_query_receive_new malloc out outlen ret;
    mret (ret, out, size).

End NbdCore.
