(* ===== verification/NbdQueries.v ===== *)
(** The queries of libnbd the web programs send to the configuration daemon:
    [nvram.c], [status.c], [autoconf.c] and [nbctl.c] under
    [src/efixo/efixo-libnbd/src/lib].

    They are written against [NbdOps], the promise of [nbd_query] to its callers;
    the link of [NbdCore] is an instance. *)

From stdpp Require Import base tactics list strings.
From S2P Require Import Prelude.
From S2P Require Import CString.
From S2P Require Import NbdCore.

(** [nbd_query_op out outlen args]: the status and the caller's buffer, which keeps
    its size. *)
Class NbdOps (D : Type) := {
  nbd_query_op : option bytes → Z → list bytes → cmd D (Z * option bytes);
  nbd_query_size b n args d r o d' :
    nbd_query_op (Some b) n args d = Ret ((r, o), d') →
    ∃ b', o = Some b' ∧ length b' = length b;
}.

Module NbdQueries.

Section queries.
Context {D : Type} `{NbdOps D}.

Abbreviation M := (cmd D).

(** [nbd_set(plugin, ...)] and [nbd_get(out, len, plugin, ...)]; literals and the
    caller's strings are objects. *)
Definition nbd_set (args : list bytes) : M Z :=
  '(ret, _) ← nbd_query_op None 0 args; mret ret.

Definition nbd_get (data : bytes) (len : Z) (args : list bytes) : M (Z * bytes) :=
  '(ret, data) ← nbd_query_op (Some data) len args;
  data ← lift (must data);
  mret (ret, data).

Definition str (s : string) : bytes := cstr (lit s).

(** A count answered as text in a buffer of 16 bytes; [-1] on an error. *)
Definition get_count (stack : bytes) (args : list bytes) : M Z :=
  '(r, buf) ← nbd_get stack 16 args;
  if r <? 0 then mret (-1)
  else s ← lift (c_str buf); mret (s32 (st_val (strtol s 10))).

(** *** nvram.c *)
Definition nbd_system_config_get key data len := nbd_get data len [str "nvram"; str "get"; key].
Definition nbd_user_config_get key data len := nbd_get data len [str "nvram"; str "get"; key].
Definition nbd_system_config_set key data := nbd_set [str "nvram"; str "set"; key; data].
Definition nbd_user_config_set key data := nbd_set [str "nvram"; str "set"; key; data].
Definition nbd_user_config_add key data := nbd_set [str "nvram"; str "add"; key; data].
Definition nbd_user_config_del key := nbd_set [str "nvram"; str "del"; key].
Definition nbd_system_config_list list data len := nbd_get data len [str "nvram"; str "list"; list].
Definition nbd_user_config_list list data len := nbd_get data len [str "nvram"; str "list"; list].
Definition nbd_system_config_list_long list data len := nbd_get data len [str "nvram"; str "list_long"; list].
Definition nbd_user_config_list_long list data len := nbd_get data len [str "nvram"; str "list_long"; list].
Definition nbd_user_config_list_flush list := nbd_set [str "nvram"; str "list_flush"; list].
Definition nbd_user_config_list_contains list key := nbd_set [str "nvram"; str "list_contain"; list; key].
Definition nbd_system_config_list_count stack list := get_count stack [str "nvram"; str "list_count"; list].
Definition nbd_user_config_list_count stack list := get_count stack [str "nvram"; str "list_count"; list].
Definition nbd_system_config_commit := nbd_set [str "nvram"; str "commit"; str "system"].
Definition nbd_user_config_commit := nbd_set [str "nvram"; str "commit"; str "user"].
Definition nbd_system_config_erase := nbd_set [str "nvram"; str "erase"; str "system"].
Definition nbd_user_config_erase := nbd_set [str "nvram"; str "erase"; str "user"].
Definition nbd_system_config_export file := nbd_set [str "nvram"; str "export"; str "system"; file].
Definition nbd_user_config_export file := nbd_set [str "nvram"; str "export"; str "user"; file].
Definition nbd_system_config_import file := nbd_set [str "nvram"; str "import"; str "system"; file].
Definition nbd_user_config_import file := nbd_set [str "nvram"; str "import"; str "user"; file].
Definition nbd_nv_get key data len := nbd_get data len [str "nvram"; str "get"; key].
Definition nbd_nv_set key data := nbd_set [str "nvram"; str "set"; key; data].
Definition nbd_nv_commit xml := nbd_set [str "nvram"; str "commit"; xml].


(** [snprintf(buf, sizeof(buf), "%u", cid)] in 16 bytes, enough for ten digits. *)
Definition cursor (cid : Z) : bytes := cstr (fmt_u (u32 cid)).

Definition nbd_user_config_cursor_new (stack : bytes) : M Z :=
  '(r, buf) ← nbd_get stack 16 [str "nvram"; str "cursor"; str "new"];
  if r <? 0 then mret 0
  else s ← lift (c_str buf); mret (u32 (st_val (strtol s 10))).

Definition nbd_user_config_cursor_close cid := nbd_set [str "nvram"; str "cursor"; str "close"; cursor cid].
Definition nbd_user_config_cursor_revert cid := nbd_set [str "nvram"; str "cursor"; str "revert"; cursor cid].
Definition nbd_user_config_cursor_commit cid := nbd_set [str "nvram"; str "cursor"; str "commit"; cursor cid].
Definition nbd_user_config_cset cid key data := nbd_set [str "nvram"; str "cset"; cursor cid; key; data].

(** *** status.c *)
Definition nbd_status_get key data len := nbd_get data len [str "status"; str "get"; key].
Definition nbd_status_set key data := nbd_set [str "status"; str "set"; key; data].
Definition nbd_status_list_count stack list := get_count stack [str "status"; str "list_count"; list].

Definition nbd_status_add key data := nbd_set [str "status"; str "add"; key; data].
Definition nbd_status_del key := nbd_set [str "status"; str "del"; key].
Definition nbd_status_list list data len := nbd_get data len [str "status"; str "list"; list].
Definition nbd_status_list_long list data len := nbd_get data len [str "status"; str "list_long"; list].
Definition nbd_status_list_contains list key := nbd_set [str "status"; str "list_contain"; list; key].
Definition nbd_status_list_flush list := nbd_set [str "status"; str "list_flush"; list].
Definition nbd_status_show data len := nbd_get data len [str "status"; str "show"].

(** *** autoconf.c *)
Definition nbd_autoconf_start := nbd_set [str "autoconf"; str "start"].
Definition nbd_autoconf_stop := nbd_set [str "autoconf"; str "stop"].
Definition nbd_autoconf_list list data len := nbd_get data len [str "autoconf"; str "list"; list].
Definition nbd_autoconf_list_long list data len := nbd_get data len [str "autoconf"; str "list_long"; list].
Definition nbd_autoconf_get key data len := nbd_get data len [str "autoconf"; str "get"; key].
Definition nbd_autoconf_set key data := nbd_set [str "autoconf"; str "set"; key; data].
Definition nbd_autoconf_list_count stack list := get_count stack [str "autoconf"; str "list_count"; list].

(** *** nbctl.c *)
Definition nbd_sys_reboot := nbd_set [str "nbctl"; str "reboot"].
Definition nbd_sys_hard_reboot := nbd_set [str "nbctl"; str "reboot"; str "now"].
Definition nbd_sys_dump file := nbd_set [str "nbctl"; str "diag_report"; file].
Definition nbd_sys_mac offset format data len := nbd_get data len [str "nbctl"; str "mac"; offset; format].
Definition nbd_sys_set_rootfs target := nbd_set [str "nbctl"; str "rootfs"; target].
Definition nbd_sys_delay_run delay script arg := nbd_set [str "nbctl"; str "delay_run"; delay; script; arg].
Definition nbd_sys_async_run script arg := nbd_set [str "nbctl"; str "async_run"; script; arg].
Definition nbd_sys_sync_run script arg := nbd_set [str "nbctl"; str "sync_run"; script; arg].
Definition nbd_halt_webautologin := nbd_set [str "nbctl"; str "halt_webautologin"].
Definition nbd_notify_failure errcode := nbd_set [str "nbctl"; str "failure"; cstr (fmt_d (s32 errcode))].

End queries.

End NbdQueries.

(** ** The link implements the interface *)
Section link.
Import NbdCore.

Lemma receive_size b len ret l n o r l' :
  nbd_query_receive (Some b) len ret l = Ret ((n, o, r), l') → ∃ b', o = Some b' ∧ length b' = length b.
Proof.
  unfold nbd_query_receive, mbind, cmd_bind, lift, mret, cmd_ret.
  destruct (full_read 4 l) as [[[n1 bs1] l1]| | |]; try done. destruct (n1 <? 0); [intros [=]; subst; by exists b |].
  destruct (full_read 4 l1) as [[[n2 bs2] l2]| | |]; try done. destruct (n2 <? 0); [intros [=]; subst; by exists b |].
  destruct (into_size bs2) as [count| | |]; try done.
  destruct (len <? count).
  { destruct (count <? 512); [| intros [=]; subst; by exists b].
    destruct (full_read count l2) as [[[n3 bs3] l3]| | |]; try done. intros [=]; subst; by exists b. }
  destruct (count =? 0).
  { unfold wr. destruct (_ && _); [| done]. intros [=]; subst. eexists. split; [done |]. apply length_insert. }
  destruct (mem_write (Some b) 0 _) as [[b1|]| | |] eqn:E1; try done.
  2: { destruct (full_read count l2) as [[[n3 bs3] l3]| | |]; [| done ..].
       unfold mem_write in E1. repeat case_match; done. }
  pose proof (mem_write_length b 0 _ b1 ltac:(lia) E1) as L1.
  destruct (full_read count l2) as [[[n3 bs3] l3]| | |]; [| done ..].
  destruct (mem_write (Some b1) 0 bs3) as [[b2|]| | |] eqn:E2; try done.
  2: { unfold mem_write in E2. repeat case_match; done. }
  pose proof (mem_write_length b1 0 _ b2 ltac:(lia) E2) as L2.
  destruct (n3 <? 0); intros [=]; subst; exists b2; split; congruence.
Qed.

#[program] Definition link_nbd (stack : bytes) : NbdOps link := {|
  nbd_query_op := nbd_query stack;
|}.
Next Obligation.
  intros stack b n args l r o l'. unfold nbd_query, mbind, cmd_bind, mret, cmd_ret.
  destruct (nbd_query_send stack args l) as [[z l1]| | |]; try done. destruct (z <? 0); [intros [=]; subst; by exists b |].
  destruct (nbd_query_receive (Some b) n z l1) as [[[[n1 o1] r1] l2]| | |] eqn:E; try done.
  intros [=]; subst. by eapply receive_size.
Qed.
End link.
