(* ===== verification/NbdServices.v ===== *)
(** The queries of libnbd to the services of the box: the files of
    [src/efixo/efixo-libnbd/src/lib] that [NbdQueries] does not hold (and the queries of
    its files whose answer the library allocates), but the two that
    drive devices ([leds.c], [gpio.c]) and the call log of [voip.c], which is in
    [NbdVoip].

    [NbdLink] adds to [NbdOps] the rest of what libnbd promises its callers: opening,
    closing, and answers in memory that the library allocates. *)

From stdpp Require Import base tactics list strings.
From S2P Require Import Prelude.
From S2P Require Import CString.
From S2P Require Import NbdCore.
From S2P Require Import NbdQueries.
Import NbdQueries.

(** [nbd_query_new_op out outlen args]: the status, [*out] and [*outlen]; the caller's
    are kept when nothing was received. *)
Class NbdLink (D : Type) `{!NbdOps D} := {
  nbd_open_op : cmd D Z;
  nbd_close_op : cmd D unit;
  nbd_query_new_op : option bytes → Z → list bytes → cmd D (Z * option bytes * Z);
}.

#[export] Instance link_new (malloc : Z → option bytes) (stack : bytes) :
    @NbdLink NbdCore.link (link_nbd stack) := {|
  nbd_open_op := NbdCore.nbd_open;
  nbd_close_op := NbdCore.nbd_close;
  nbd_query_new_op := NbdCore.nbd_query_new malloc stack;
|}.

Module NbdServices.

Section services.
Context {D : Type} `{NbdLink D}.

Abbreviation M := (cmd D).

Definition nbd_get_new (out : option bytes) (outlen : Z) (args : list bytes) : M (Z * option bytes * Z) :=
  nbd_query_new_op out outlen args.

(** [snprintf(buf, sizeof(buf), "%d", z)] and its text as an argument. *)
Definition int_arg (size : nat) (z : Z) : bytes := cstr (take (size - 1) (fmt_d (s32 z))).
Definition uint_arg (size : nat) (z : Z) : bytes := cstr (take (size - 1) (fmt_u (u32 z))).

(** An argument list ends at the first NULL. *)
Definition last_arg (a : option bytes) : list bytes := match a with Some a => [a] | None => [] end.

(** An answer into an [int] of the caller. *)
Definition get_int (reg : Z) (args : list bytes) : M (Z * Z) :=
  '(r, b) ← nbd_get (NbdCore.be32 reg) 4 args; mret (r, NbdCore.be_val b).

(** *** nvram.c, status.c, nbctl.c: the answers of any length *)
Definition nbd_system_config_xml key xml len := nbd_get_new xml len [str "nvram"; str "xml"; key].
Definition nbd_user_config_xml key xml len := nbd_get_new xml len [str "nvram"; str "xml"; key].
Definition nbd_system_xml_privateport xml size := nbd_get_new xml size [str "nvram"; str "privateport"].
Definition nbd_status_xml key xml len := nbd_get_new xml len [str "status"; str "xml"; key].
Definition nbd_gruiks xml size := nbd_get_new xml size [str "nbctl"; str "gruiks"].

(** *** lan.c *)
Definition nbd_lan_set_ipaddr ip netmask := nbd_set [str "lan"; str "set_ipaddr"; ip; netmask].
Definition nbd_dhcpd_static_init := nbd_set [str "lan"; str "dhcpd_static_init"].
Definition nbd_dhcpd_add_static_ip ip mac := nbd_set [str "lan"; str "dhcpd_add_static_ip"; ip; mac].
Definition nbd_dhcpd_del_static_ip idx := nbd_set [str "lan"; str "dhcpd_del_static_ip"; int_arg 8 idx].
Definition nbd_lan_topology_update macaddr ipaddr (hostname : option bytes) :=
  nbd_set ([str "lan"; str "topology_update"; macaddr; ipaddr] ++ last_arg hostname).
Definition nbd_dnshosts_add ipaddr domain := nbd_set [str "lan"; str "dnshosts_add"; ipaddr; domain].
Definition nbd_dnshosts_del idx := nbd_set [str "lan"; str "dnshosts_del"; int_arg 8 idx].
Definition nbd_lan_mac2ip mac ip len := nbd_get ip len [str "lan"; str "mac2ip"; mac].
Definition nbd_lan_ip2mac ip mac len := nbd_get mac len [str "lan"; str "ip2mac"; ip].
Definition nbd_lan_stats xml size filter := nbd_get_new xml size ([str "lan"; str "stats"] ++ last_arg filter).
Definition nbd_lan_fullstats xml size filter := nbd_get_new xml size ([str "lan"; str "fullstats"] ++ last_arg filter).

(** *** stb.c *)
Definition nbd_stb_add mac_addr ipaddr hostname := nbd_set [str "stb"; str "add"; mac_addr; ipaddr; hostname].
Definition nbd_stb_exist mac_addr ipaddr := nbd_set [str "stb"; str "exist"; mac_addr; ipaddr].
Definition nbd_stb_list_count stack := get_count stack [str "stb"; str "list_count"].

(** *** plc.c *)
Definition nbd_plc_add macaddr hostname := nbd_set [str "plc"; str "add"; macaddr; hostname].
Definition nbd_plc_list data len := nbd_get data len [str "plc"; str "list"].

(** *** nat.c *)
Definition nbd_nat_upnp_list buf len := nbd_get_new buf len [str "nat"; str "upnp_list"].
Definition nbd_nat_upnp_count : M Z := '(_, count) ← get_int 0 [str "nat"; str "upnp_count"]; mret count.
Definition nbd_nat_add rulename proto ext_port dst_ip dst_port activated :=
  nbd_set [str "nat"; str "add"; rulename; proto; ext_port; dst_ip; dst_port; activated].
Definition nbd_nat_del_by_index idx := nbd_set [str "nat"; str "del"; int_arg 8 idx].
Definition nbd_nat_active idx activation := nbd_set [str "nat"; str "active"; int_arg 8 idx; activation].
Definition nbd_nat_dmz_setup := nbd_set [str "nat"; str "dmz_setup"].
Definition nbd_nat_sipalg target_state := nbd_set [str "nat"; str "sipalg"; target_state].

(** *** firewall.c *)
Definition nbd_firewall_add rulename proto direction dstip dstport srcip srcport policy :=
  nbd_set [str "firewall"; str "add"; rulename; proto; direction; dstip; dstport; srcip; srcport; policy].
Definition nbd_firewall_del_by_index idx := nbd_set [str "firewall"; str "del"; int_arg 8 idx].

(** *** uroute.c *)
Definition nbd_uroute_add dest netmsk gw := nbd_set [str "uroute"; str "add"; dest; netmsk; gw].
Definition nbd_uroute_del idx := nbd_set [str "uroute"; str "del"; int_arg 4 idx].

(** *** wlan.c *)
Definition nbd_wlan_active data data_size := nbd_get data data_size [str "wlan"; str "active"].
Definition nbd_wlan_enable := nbd_set [str "wlan"; str "active"; str "on"].
Definition nbd_wlan_disable := nbd_set [str "wlan"; str "active"; str "off"].
Definition nbd_wlan_start := nbd_set [str "wlan"; str "start"].
Definition nbd_wlan_stop := nbd_set [str "wlan"; str "stop"].
Definition nbd_wlan_restart := nbd_set [str "wlan"; str "restart"].
Definition nbd_wlan_ses_done := nbd_set [str "wlan"; str "ses_done"].
Definition nbd_wlan_add_mac mac := nbd_set [str "wlan"; str "add"; str "mac"; mac].
Definition nbd_wlan_del_mac mac := nbd_set [str "wlan"; str "del"; str "mac"; mac].
Definition nbd_wlan_macfiltering mode := nbd_set [str "wlan"; str "macfiltering"; mode].
Definition nbd_wlan_macfiltering_mode data len := nbd_get data len [str "wlan"; str "macfiltering"].
Definition nbd_wlan_list_assoc (ifname : option bytes) xml xml_size :=
  nbd_get_new xml xml_size ([str "wlan"; str "list"; str "assoc"] ++ last_arg ifname).

(** The buffer has 4 bytes. *)
Definition nbd_wlan_assoc_count (stack : bytes) (ifname : option bytes) : M Z :=
  '(r, buf) ← nbd_get stack 4 ([str "wlan"; str "list"; str "assoc_count"] ++ last_arg ifname);
  if r <? 0 then mret (-1)
  else s ← lift (c_str buf); mret (s32 (st_val (strtol s 10))).

Definition nbd_wlan_list_contains_mac mac := nbd_set [str "wlan"; str "list_contains"; str "mac"; mac].
Definition nbd_wlan_list_contains_assoc mac ifname :=
  nbd_set [str "wlan"; str "list_contains"; str "assoc"; mac; ifname].
Definition nbd_wlan_get_current_channel data len := nbd_get data len [str "wlan"; str "currentchannel"].
Definition nbd_wlan_diag_host out size mac_addr := nbd_get_new out size [str "wlan"; str "diag_host"; mac_addr].

(** [outlen] is NULL: [nbd_query_new] uses a [size_t] of its own. *)
Definition nbd_wlan_get_diag_host wl_host_diag mac_addr : M (Z * option bytes) :=
  '(r, out, _) ← nbd_get_new wl_host_diag 0 [str "wlan"; str "get_diag_host"; mac_addr]; mret (r, out).

Definition nbd_wlan_get_rssi val mac_addr := get_int val [str "wlan"; str "get_rssi"; mac_addr].
Definition nbd_wlan_get_counters buf size := nbd_get_new buf size [str "wlan"; str "get_counters"].
Definition nbd_wlan_bss mac len idx := nbd_get mac len [str "wlan"; str "bss"; idx].

(** *** dsl.c *)
Definition nbd_dsl_start := nbd_set [str "dsl"; str "start"].
Definition nbd_dsl_stop := nbd_set [str "dsl"; str "stop"].
Definition nbd_dsl_restart := nbd_set [str "dsl"; str "restart"].
Definition nbd_dsl_diag_start := nbd_set [str "dsl"; str "diag"; str "start"].
Definition nbd_dsl_diag_stop := nbd_set [str "dsl"; str "diag"; str "stop"].
Definition nbd_dsl_get name buf buf_size := nbd_get buf buf_size [str "dsl"; str "get"; name].
Definition nbd_dsl_mod_set mod_ := nbd_user_config_set (str "adsl_userprofile_mod") mod_.
Definition nbd_dsl_mod_get mod_ len := nbd_user_config_get (str "adsl_userprofile_mod") mod_ len.
Definition nbd_dsl_lpair_set lpair := nbd_user_config_set (str "adsl_userprofile_lpair") lpair.
Definition nbd_dsl_lpair_get lpair len := nbd_user_config_get (str "adsl_userprofile_lpair") lpair len.
Definition nbd_dsl_trellis_set trellis := nbd_user_config_set (str "adsl_userprofile_trellis") trellis.
Definition nbd_dsl_trellis_get trellis len := nbd_user_config_get (str "adsl_userprofile_trellis") trellis len.
Definition nbd_dsl_snr_set snr := nbd_user_config_set (str "adsl_userprofile_snr") snr.
Definition nbd_dsl_snr_get snr len := nbd_user_config_get (str "adsl_userprofile_snr") snr len.
Definition nbd_dsl_bitswap_set bitswap := nbd_user_config_set (str "adsl_userprofile_bitswap") bitswap.
Definition nbd_dsl_bitswap_get bitswap len := nbd_user_config_get (str "adsl_userprofile_bitswap") bitswap len.
Definition nbd_dsl_sesdrop_set sesdrop := nbd_user_config_set (str "adsl_userprofile_sesdrop") sesdrop.
Definition nbd_dsl_sesdrop_get sesdrop len := nbd_user_config_get (str "adsl_userprofile_sesdrop") sesdrop len.
Definition nbd_dsl_sra_set sra := nbd_user_config_set (str "adsl_userprofile_sra") sra.
Definition nbd_dsl_sra_get sra len := nbd_user_config_get (str "adsl_userprofile_sra") sra len.
Definition nbd_dsl_rate_up_get data len := nbd_get data len [str "dsl"; str "get"; str "adsl_rate_up"].
Definition nbd_dsl_rate_down_get data len := nbd_get data len [str "dsl"; str "get"; str "adsl_rate_down"].
Definition nbd_dsl_noise_up_get data len := nbd_get data len [str "dsl"; str "get"; str "adsl_noise_up"].
Definition nbd_dsl_noise_down_get data len := nbd_get data len [str "dsl"; str "get"; str "adsl_noise_down"].
Definition nbd_dsl_attenuation_up_get data len := nbd_get data len [str "dsl"; str "get"; str "adsl_attenuation_up"].
Definition nbd_dsl_attenuation_down_get data len := nbd_get data len [str "dsl"; str "get"; str "adsl_attenuation_down"].
Definition nbd_dsl_linemode_get data len := nbd_get data len [str "dsl"; str "get"; str "adsl_linemode"].
Definition nbd_dsl_crc_get data len := nbd_get data len [str "dsl"; str "get"; str "adsl_crc"].
Definition nbd_dsl_plugtest xml xml_size := nbd_get_new xml xml_size [str "dsl"; str "plugtest"].

(** *** disk.c *)
Definition nbd_disk_get_list xml size := nbd_get_new xml size [str "disk"; str "get_list"].
Definition nbd_disk_umount devpath := nbd_set [str "disk"; str "umount"; devpath].
Definition nbd_disk_umount_force devpath := nbd_set [str "disk"; str "umount"; devpath; str "--force"].
Definition nbd_disk_get_partition_uuid_list xml size := nbd_get_new xml size [str "disk"; str "get_partition_uuid_list"].
Definition nbd_disk_get_mount_partition_uuid_list xml size :=
  nbd_get_new xml size [str "disk"; str "get_mount_partition_uuid_list"].

(** [stray] is what the pointer on the stack was before. *)
Definition nbd_disk_get_mntpath_from_uuid (stray : option bytes) uuid (buf_mnt_path : bytes) : M (Z * bytes) :=
  '(r, buf, _) ← nbd_get_new stray 0 [str "disk"; str "get_mntpath_from_uuid"; uuid];
  if r <? 0 then mret (-1, buf_mnt_path)
  else
    buf ← lift (must buf);
    t ← lift (c_str buf);
    '(_, buf_mnt_path) ← lift (vsnprintf buf_mnt_path (length buf_mnt_path) t);
    mret (0, buf_mnt_path).

(** The status of the query is not looked at: [stack] is read when it failed. *)
Definition nbd_disk_part_uuid_is_online (stack : bytes) uuid : M Z :=
  '(_, buf) ← nbd_get stack 16 [str "disk"; str "part_uuid_is_online"; uuid];
  s ← lift (c_str buf); mret (s32 (st_val (strtol s 10))).

Definition nbd_disk_get_dirlisting uuid xml size := nbd_get_new xml size [str "disk"; str "get_dirlisting"; uuid].
Definition nbd_disk_stockage_add uuid := nbd_set [str "disk"; str "stockage_add"; uuid].
Definition nbd_disk_stockage_del uuid := nbd_set [str "disk"; str "stockage_del"; uuid].
Definition nbd_disk_stockage_get uuid xml size := nbd_get_new xml size [str "disk"; str "stockage_get"; uuid].

(** *** backup3g.c *)
Definition nbd_backup3g_start option := nbd_set ([str "backup3g"; str "start"] ++ last_arg option).
Definition nbd_backup3g_stop option := nbd_set ([str "backup3g"; str "stop"] ++ last_arg option).
Definition nbd_backup3g_restart := nbd_set [str "backup3g"; str "restart"].
Definition nbd_backup3g_getInfo info length := nbd_get_new info length [str "backup3g"; str "getInfo"].
Definition nbd_backup3g_puk_unlock puk newpin := nbd_set [str "backup3g"; str "puk_unlock"; puk; newpin].
Definition nbd_backup3g_unlock_simprotect := nbd_set [str "backup3g"; str "unlock_simprotect"].
Definition nbd_backup3g_init_session := nbd_set [str "backup3g"; str "init_session"].
Definition nbd_backup3g_end_session := nbd_set [str "backup3g"; str "end_session"].

(** *** ddnsctl.c, eco.c, event.c, printer.c, sfp.c, spy.c *)
Definition nbd_ddnsctl_start := nbd_set [str "ddnsctl"; str "start"].
Definition nbd_ddnsctl_stop := nbd_set [str "ddnsctl"; str "stop"].
Definition nbd_ddnsctl_restart := nbd_set [str "ddnsctl"; str "restart"].
Definition nbd_ddnsctl_status xml size := nbd_get_new xml size [str "ddnsctl"; str "status"].
Definition nbd_eco_update := nbd_set [str "eco"; str "update"].
Definition nbd_event_notify event := nbd_set [str "event"; str "notify"; event].
Definition nbd_printer_get_list xml size := nbd_get_new xml size [str "printer"; str "get_list"].
Definition nbd_sfp_get key data len := nbd_get data len [str "sfp"; str "get"; key].
Definition nbd_spy_error error := nbd_set [str "spy"; str "error"; error].
Definition nbd_spy_event event := nbd_set [str "spy"; str "event"; event].
Definition nbd_spy_log := nbd_set [str "spy"; str "send"].

(** *** hotspot.c, igmp.c *)
Definition nbd_hotspot_start := nbd_set [str "hotspot"; str "start"].
Definition nbd_hotspot_stop := nbd_set [str "hotspot"; str "stop"].
Definition nbd_hotspot_restart := nbd_set [str "hotspot"; str "restart"].
Definition nbd_hotspot_ssid buf buf_size := nbd_get buf buf_size [str "hotspot"; str "ssid"].
Definition nbd_hotspot_client_add ipaddr macaddr := nbd_set [str "hotspot"; str "client_add"; ipaddr; macaddr].
Definition nbd_hotspot_client_del i := nbd_set [str "hotspot"; str "client_del"; i].
Definition nbd_hotspot_mac2ip macaddr buf buf_size := nbd_get buf buf_size [str "hotspot"; str "mac2ip"; macaddr].
Definition nbd_igmp_stream_add ipsrc ipmc := nbd_set [str "igmp"; str "stream_add"; ipsrc; ipmc].
Definition nbd_igmp_stream_del ipsrc ipmc := nbd_set [str "igmp"; str "stream_del"; ipsrc; ipmc].
Definition nbd_igmp_group_del ipmc := nbd_set [str "igmp"; str "group_del"; ipmc].

(** *** sambactl.c, usharectl.c *)
Definition nbd_sambactl_start := nbd_set [str "sambactl"; str "start"].
Definition nbd_sambactl_stop := nbd_set [str "sambactl"; str "stop"].
Definition nbd_sambactl_restart := nbd_set [str "sambactl"; str "restart"].
Definition nbd_sambactl_status xml size := nbd_get_new xml size [str "sambactl"; str "status"].
Definition nbd_sambactl_add_share name uuid dir := nbd_set [str "sambactl"; str "add_share"; name; uuid; dir].
Definition nbd_sambactl_del_share idx := nbd_set [str "sambactl"; str "del_share"; uint_arg 16 idx].
Definition nbd_usharectl_start := nbd_set [str "usharectl"; str "start"].
Definition nbd_usharectl_stop := nbd_set [str "usharectl"; str "stop"].
Definition nbd_usharectl_restart := nbd_set [str "usharectl"; str "restart"].
Definition nbd_usharectl_status xml size := nbd_get_new xml size [str "usharectl"; str "status"].
Definition nbd_usharectl_set_mode mode := nbd_set [str "usharectl"; str "set_mode"; mode].
Definition nbd_usharectl_add_share uuid dir := nbd_set [str "usharectl"; str "add_share"; uuid; dir].
Definition nbd_usharectl_del_share idx := nbd_set [str "usharectl"; str "del_share"; uint_arg 16 idx].

(** *** uping.c, utraceroute.c: [buf] is the answer's buffer and the last argument *)
Definition nbd_ping_start (stack : bytes) source hostname count : M (Z * option Z) :=
  '(_, buf) ← lift (vsnprintf stack 8 (fmt_u (u32 count)));
  '(err, buf) ← nbd_get buf 8 [str "uping"; str "start"; source; hostname; buf];
  if negb (err =? 0) then mret (err, None)
  else s ← lift (c_str buf); mret (err, Some (s32 (st_val (strtol s 10)))).

Definition nbd_ping_stop (stack : Z) id : M Z :=
  '(r, _) ← get_int stack [str "uping"; str "stop"; int_arg 8 id]; mret r.

Definition nbd_ping_status id (ping_status : bytes) :=
  nbd_get ping_status (Z.of_nat (length ping_status)) [str "uping"; str "status"; int_arg 8 id].

Definition nbd_traceroute_start id src hostname := get_int id [str "trcrte"; str "start"; src; hostname].
Definition nbd_traceroute_stop id := nbd_set [str "trcrte"; str "stop"; int_arg 8 id].
Definition nbd_hop_count id count := get_int count [str "trcrte"; str "hop_count"; int_arg 8 id].
Definition nbd_traceroute_get id (res : bytes) :=
  nbd_get res (Z.of_nat (length res)) [str "trcrte"; str "get"; int_arg 8 id].
Definition nbd_traceroute_get_hop id (hop : bytes) n :=
  nbd_get hop (Z.of_nat (length hop)) [str "trcrte"; str "get_hop"; int_arg 8 id; int_arg 8 n].

(** *** vSStest.c *)
Definition nbd_vSStest_initScript := nbd_set [str "vSStest"; str "initScript"].
Definition nbd_vSStest_init := nbd_set [str "vSStest"; str "initTest"].
Definition nbd_vSStest_gr909 := nbd_set [str "vSStest"; str "gr909"].
Definition nbd_vSStest_ring := nbd_set [str "vSStest"; str "ring"].
Definition nbd_vSStest_hookntone := nbd_set [str "vSStest"; str "hookntone"].
Definition nbd_vSStest_dtmf := nbd_set [str "vSStest"; str "dtmf"].
Definition nbd_vSStest_getResult (ptestResults : bytes) :=
  nbd_get ptestResults (Z.of_nat (length ptestResults)) [str "vSStest"; str "getResult"].
Definition nbd_vSStest_resetResult := nbd_set [str "vSStest"; str "resetResult"].

End services.

End NbdServices.

(** ** Every daemon

    What a daemon answers is a function of the queries it was sent: [answer] takes them,
    the oldest first, and the new one.  The state is what it was sent. *)
Inductive nbd_event := Opened | Closed | Asked (args : list bytes).

Section every_daemon.
Variable answer : list nbd_event → list bytes → Z * bytes.

(** An answer as [nbd_query_receive] stores it. *)
Definition deliver (out : option bytes) (n st : Z) (data : bytes) : outcome (Z * option bytes) :=
  let count := Z.of_nat (length data) in
  if n <? count then Ret (-1, out)
  else if count =? 0 then
    match out with
    | Some b => b ← wr b 0 0; Ret (st, Some b)
    | None => Ret (st, None)
    end
  else
    out ← mem_write out 0 (replicate (Z.to_nat n) 0);
    out ← mem_write out 0 data;
    Ret (st, out).

Definition ask (out : option bytes) (n : Z) (args : list bytes) : cmd (list nbd_event) (Z * option bytes) := λ h,
  let '(st, data) := answer h args in
  lift (deliver out n st data) (h ++ [Asked args]).

#[program] Definition every_daemon : NbdOps (list nbd_event) := {| nbd_query_op := ask |}.
Next Obligation.
  intros b n args h r o h'. unfold ask, deliver. destruct (answer h args) as [st data].
  destruct (n <? Z.of_nat (length data)).
  { intros [= <- <- <-]. by exists b. }
  destruct (Z.of_nat (length data) =? 0).
  { unfold wr. destruct (_ && _); [|done]. intros [= <- <- <-]. eexists. split; [done|]. apply length_insert. }
  destruct (mem_write (Some b) 0 _) as [[b1|]| | |] eqn:E1; cbn; try done.
  2: { unfold mem_write in E1. repeat case_match; done. }
  destruct (mem_write (Some b1) 0 data) as [[b2|]| | |] eqn:E2; cbn; try done.
  2: { unfold mem_write in E2. repeat case_match; done. }
  intros [= <- <- <-]. exists b2. split; [done|].
  apply mem_write_length in E1, E2; [congruence|lia..].
Qed.

Definition every_link : @NbdLink (list nbd_event) every_daemon := {|
  nbd_open_op := λ h, Ret (3, h ++ [Opened]);
  nbd_close_op := λ h, Ret (tt, h ++ [Closed]);
  nbd_query_new_op := λ _ _ args h,
    let '(st, data) := answer h args in Ret ((st, Some data, Z.of_nat (length data)), h ++ [Asked args]);
|}.

(** A text that fits the caller's buffer. *)
Lemma deliver_text b t :
  text t → (length t < length b)%nat →
  deliver (Some b) (Z.of_nat (length b)) 0 (cstr t)
  = Ret (0, Some (cstr t ++ replicate (length b - length (cstr t)) 0)).
Proof.
  intros Ht Hl. assert (length (cstr t) = S (length t)) as Hc by (unfold cstr; rewrite length_app; cbn; lia).
  unfold deliver. rewrite Hc, (proj2 (Z.ltb_ge _ _)), (proj2 (Z.eqb_neq _ 0)) by lia. rewrite Nat2Z.id.
  rewrite <- (app_nil_r b) at 1. rewrite (mem_write_mid [] b [] (replicate (length b) 0)) by (rewrite ?length_replicate; done).
  cbn [mbind outcome_bind app]. rewrite app_nil_r.
  replace (replicate (length b) 0) with ([] ++ replicate (length (cstr t)) 0 ++ replicate (length b - length (cstr t)) 0).
  2: { cbn [app]. rewrite <- replicate_add. f_equal. lia. }
  rewrite (mem_write_mid [] _ _ (cstr t)) by (rewrite ?length_replicate; done). cbn. by rewrite Hc.
Qed.

(** Such an answer to a query. *)
Lemma every_get_text args t b h :
  answer h args = (0, cstr t) → text t → (length t < length b)%nat →
  nbd_get (H := every_daemon) b (Z.of_nat (length b)) args h
  = Ret ((0, cstr t ++ replicate (length b - length (cstr t)) 0), h ++ [Asked args]).
Proof.
  intros Ha Ht Hl. unfold nbd_get, mbind, cmd_bind. cbn [nbd_query_op every_daemon].
  unfold ask. rewrite Ha. unfold lift. by rewrite deliver_text.
Qed.

End every_daemon.
