(* ===== verification/NbdVoip.v ===== *)
(** The calls of the phone: [src/efixo/efixo-libnbd/src/lib/voip.c].

    The phone driver tells the library what happens ([nbd_voip_io_call],
    [nbd_voip_number_call], [nbd_voip_type_call], [nbd_voip_duration_call]); the library
    keeps the call in the static [new_call], tells the daemon whether an upgrade may run,
    and adds the call to the history when it is over.  The boxes differ by [NB5]. *)

From stdpp Require Import base tactics list strings.
From S2P Require Import Prelude.
From S2P Require Import CString.
From S2P Require Import NbdCore.
From S2P Require Import NbdQueries.
From S2P Require Import NbdServices.
Import NbdQueries NbdServices.

Module NbdVoip.

Definition CALL_UNINIT : Z := 65535.
Definition CALL_PSTN : Z := 0.
Definition CALL_VOIP : Z := 1.
Definition CALL_COMPLEX : Z := 2.
Definition CALL_3G : Z := 3.
Definition CALL_INCOMING : Z := 0.
Definition CALL_OUTGOING : Z := 1.
Definition START_CALL : Z := 1.
Definition STOP_CALL : Z := 0.
Definition NUMBER_MAX : Z := 32.

(** [struct call_log]; [type] is a word of the language. *)
Record call_log := Call {
  ctype : Z;
  direction : Z;
  number : bytes;          (* 32 *)
  clength : Z;
  date : Z;
  start : Z;
  finish : Z;
}.

Definition new_call0 : call_log := Call CALL_UNINIT CALL_UNINIT (replicate 32 0) (-1) (-1) 0 0.

(** The library's state: the call, the daemon, how often the clock was read. *)
Record phone (D : Type) := Phone {
  new_call : call_log;
  nbd : D;
  ticks : nat;
}.
Arguments Phone {D}.
Arguments new_call {D}.
Arguments nbd {D}.
Arguments ticks {D}.

Section voip.
Context {D : Type} `{NbdLink D}.
Context (NB5 : bool) (clock : nat → Z).

Abbreviation M := (cmd (phone D)).

Definition on_nbd {A} (m : cmd D A) : M A :=
  zoom nbd (λ d p, Phone (new_call p) d (ticks p)) m.

Definition put_call (c : call_log) : M unit := mod_st (λ p, Phone c (nbd p) (ticks p)).
Definition get_call : M call_log := p ← get_st; mret (new_call p).

(** [time()]. *)
Definition now : M Z := λ p, Ret (clock (ticks p), Phone (new_call p) (nbd p) (S (ticks p))).

(** *** Queries *)
Definition nbd_voip_start : cmd D Z := nbd_set [str "voip"; str "start"].
Definition nbd_voip_stop : cmd D Z := nbd_set [str "voip"; str "stop"].
Definition nbd_voip_restart : cmd D Z := nbd_set [str "voip"; str "restart"].
Definition nbd_voip_callhistory_flush : cmd D Z := nbd_set [str "voip"; str "history_reset"].
Definition nbd_voip_reg_init : cmd D Z := nbd_set [str "voip"; str "regInit"].
Definition nbd_get_reg_wui key data reg : cmd D (Z * Z) := get_int reg [str "voip"; str "getRegWui"; key; data].
Definition nbd_voip_manage_missed_calls : cmd D Z := nbd_set [str "voip"; str "stopmisscalls"].

(** [volt] is an [int8_t]; the sign of a negative value is dropped. *)
Definition nbd_voip_get_line_voltage (stack volt : Z) : cmd D (Z * Z) :=
  '(retVal, reg) ← get_int stack [str "voip"; str "getRegWui"; str "daa"; str "29"];
  if negb (retVal =? 0) then mret (retVal, volt)
  else if reg =? 2 ^ 32 - 1 then mret (-1, volt)
  else
    let volt := schar (Z.land reg 255) in
    mret (retVal, if negb (Z.land reg 128 =? 0) then schar (Z.lnot volt + 1) else volt).

(** [nbd_user_config_matches(key, c_str)]. *)
Definition nbd_user_config_matches key (t : string) : cmd D bool :=
  let c := str t in
  '(r, s) ← nbd_user_config_get key (replicate (length c) 165) (Z.of_nat (length c));
  if r <? 0 then mret false else z ← lift (memcmp s c (length c)); mret (z =? 0).

(** *** Calls *)
Definition resetCall : call_log := Call CALL_UNINIT CALL_UNINIT (replicate 32 0) (-1) (-1) 0 0.

Definition nbd_voip_upgrade : M unit :=
  c ← get_call;
  if (clength c =? -1) && negb (direction c =? CALL_INCOMING)
  then on_nbd (nbd_status_set (str "voip_upgrade") (str "ok"));; mret tt
  else on_nbd (nbd_status_set (str "voip_upgrade") (str "ko"));; mret tt.

Definition nbd_voip_io_call (io_call : Z) : M Z :=
  t ← now;
  c ← get_call;
  let c := Call (ctype c) (direction c) (number c) (clength c) t (start c) (finish c) in
  put_call c;;
  (if (clength c =? 0) && negb (ctype c =? CALL_PSTN) then
     put_call (Call CALL_COMPLEX (direction c) (number c) (clength c) (date c) (start c) (finish c))
   else if (clength c =? 0) && (ctype c =? CALL_PSTN) then mret tt
   else put_call (Call CALL_VOIP io_call (replicate 32 0) (-1) (date c) 0 0));;
  nbd_voip_upgrade;;
  mret 0.

(** How many characters of a telephone number stand at the start. *)
Definition dial_char (c : Z) : bool := (c =? 35) || (c =? 42) || (c =? 43) || ((48 <=? c) && (c <=? 57)).

Fixpoint dial_span (m : bytes) : outcome nat :=
  match m with
  | [] => Undef
  | c :: m => if dial_char c then S <$> dial_span m else Ret O
  end.

Definition set_number (n : bytes) (c : call_log) : call_log :=
  Call (ctype c) (direction c) n (clength c) (date c) (start c) (finish c).

(** [strncpy] writes no terminator when it copies all it may. *)
Definition copy_number (c : call_log) (number_called : option bytes) : outcome call_log :=
  m ← must number_called;
  i ← dial_span m;
  n ← strncpy (number c) m i;
  Ret (set_number n c).

(** A digit behind the others; the size given to [snprintf] is not the room left. *)
Definition add_digit (c : call_log) (num : Z) : outcome call_log :=
  i ← strlen (number c);
  n ← (if num <? 10 then
         n ← mem_write (Some (number c)) i (take 31 (fmt_d (s32 num)) ++ [0]); must n
       else wr (number c) i (if num =? 10 then 42 else 35));
  Ret (set_number n c).

Definition nbd_voip_number_call (number_called : option bytes) (num : Z) : M Z :=
  c ← get_call;
  (if clength c =? -1 then
     if ((direction c =? CALL_INCOMING) && ((ctype c =? CALL_VOIP) || (ctype c =? CALL_3G)) && (num =? -1)) ||
        ((direction c =? CALL_INCOMING) && (ctype c =? CALL_PSTN) && (num =? -1))
     then c ← lift (copy_number c number_called); put_call c
     else if (direction c =? CALL_OUTGOING) && (match number_called with None => true | _ => false end)
     then c ← lift (add_digit c num); put_call c
     else if (direction c =? CALL_OUTGOING) && (match number_called with None => false | _ => true end) &&
             (num =? -1)
     then c ← lift (copy_number c number_called); put_call c
     else mret tt
   else mret tt);;
  mret 0.

Definition nbd_voip_type_call (type_call : Z) : M Z :=
  c ← get_call;
  (if negb (ctype c =? CALL_COMPLEX) && (clength c =? -1)
   then put_call (Call type_call (direction c) (number c) (clength c) (date c) (start c) (finish c))
   else mret tt);;
  c ← get_call;
  (if negb NB5 && (type_call =? CALL_COMPLEX) && (clength c =? 0)
   then put_call (Call type_call (direction c) (replicate 32 0) (clength c) (date c) (start c) (finish c))
   else mret tt);;
  nbd_voip_upgrade;;
  mret 0.

(** [strncmp(call, what, strlen(what)) == 0]. *)
Definition is_call (call : string) (what : string) : bool := prefixb (lit what) (lit call).

(** Whether the call is over. *)
Definition registers (c : call_log) (call : string) : bool :=
  if NB5 then
    ((clength c =? -1) && ((direction c =? CALL_INCOMING) || (direction c =? CALL_OUTGOING)) &&
       is_call call "ring_stop") ||
    ((0 <=? clength c) && is_call call "stop_call")
  else
    ((clength c =? -1) && (direction c =? CALL_INCOMING) && is_call call "ring_stop") ||
    ((0 <=? clength c) && is_call call "stop_call") ||
    ((0 <=? clength c) && (direction c =? CALL_OUTGOING) && is_call call "ring_stop").

(** The history, when it is kept: [Some] is the call as it was sent, for the use of the
    code behind; [None] an early return. *)
Definition history_add (c : call_log) : M (option call_log) :=
  on ← on_nbd (nbd_user_config_matches (str "voip_callhistory") "on");
  if on : bool then
    let type := cstr (fmt_u (if negb (ctype c =? CALL_COMPLEX) && negb (ctype c =? CALL_UNINIT)
                             then ctype c else CALL_VOIP)) in
    let dir := cstr (fmt_u (if negb (direction c =? CALL_OUTGOING) then CALL_INCOMING else direction c)) in
    let c := if ctype c =? CALL_COMPLEX then set_number (replicate 32 0) c else c in
    num ← lift (c_str (number c));
    let length := cstr (fmt_d (clength c)) in
    t ← (if date c =? -1 then now else mret (date c));
    r ← on_nbd (nbd_set [str "voip"; str "history_call_add"; type; dir; cstr num; length; cstr (fmt_d t)]);
    if negb (r =? 0) then mret None
    else mret (Some (Call (ctype c) (direction c) (number c) (clength c) t (start c) (finish c)))
  else mret (Some c).

(** [stray] is what the stack held in place of [my_call]. *)
Definition nbd_voip_register_call (stray : call_log) (call : string) : M Z :=
  c ← get_call;
  (if NB5 then put_call resetCall else mret tt);;
  let my_call := if NB5 then c else stray in
  my ←
    (if registers c call then
       put_call resetCall;;
       nbd_voip_upgrade;;
       history_add c
     else mret (Some my_call));
  match my with
  | None => mret (-1)
  | Some my_call =>
      (if (direction my_call =? CALL_INCOMING) && (clength my_call =? -1)
       then on_nbd (nbd_set [str "voip"; str "misscalls"]);; mret tt
       else mret tt);;
      mret 0
  end.

Definition nbd_voip_duration_call (stray : call_log) (start_stop_call : Z) : M Z :=
  c ← get_call;
  r ←
    (if (start_stop_call =? START_CALL) && (clength c =? -1) then
       t ← now;
       z ← lift (if NB5 then Ret 1 else strncmp (number c) (str "999") 32);
       put_call (Call (if negb NB5 && (z =? 0) then CALL_PSTN else ctype c)
                   (direction c) (number c) 0 (date c) t (finish c));;
       mret 0
     else if (start_stop_call =? STOP_CALL) && (clength c =? 0) then
       t ← now;
       len ← lift (if (INT_MIN <=? t - start c) && (t - start c <=? INT_MAX) then Ret (t - start c) else Undef);
       put_call (Call (ctype c) (direction c) (number c) len (date c) (start c) t);;
       nbd_voip_register_call stray "stop_call"
     else if (start_stop_call =? STOP_CALL) && (clength c =? -1) then
       nbd_voip_register_call stray "ring_stop"
     else if NB5 && (start_stop_call =? START_CALL) && (clength c =? 0) then
       put_call (Call CALL_COMPLEX (direction c) (number c) (clength c) (date c) (start c) (finish c));;
       mret 0
     else mret 0);
  if negb (r =? 0) then mret (-1)
  else nbd_voip_upgrade;; mret 0.

End voip.

End NbdVoip.
