(* ===== verification/NbdVoipProofs.v ===== *)
(** The calls of the phone: the daemon is told the truth about upgrades, a call is
    recorded once and as it was, and what goes wrong with long numbers. *)

From stdpp Require Import base tactics list strings.
From S2P Require Import Prelude.
From S2P Require Import CString.
From S2P Require Import NbdCore.
From S2P Require Import NbdQueries.
From S2P Require Import NbdServices.
From S2P Require Import NbdVoip.
Import NbdQueries NbdServices NbdVoip.

Section proofs.
Context (answer : list nbd_event → list bytes → Z * bytes).
Context (NB5 : bool) (clock : nat → Z).

#[local] Instance daemon : NbdOps (list nbd_event) := every_daemon answer.
#[local] Instance daemon_link : NbdLink (list nbd_event) := every_link answer.

Abbreviation P := (phone (list nbd_event)).

(** ** Runs *)

(** When [m] returns from a state of [A], it is with a result and a state of [B]. *)
Definition triple {X} (A : P → Prop) (m : cmd P X) (B : X → P → Prop) : Prop :=
  ∀ p x p', A p → m p = Ret (x, p') → B x p'.

Lemma triple_ret {X} (A : P → Prop) (x : X) (B : X → P → Prop) :
  (∀ p, A p → B x p) → triple A (mret x) B.
Proof. intros HB p y p' HA [= <- <-]. auto. Qed.

Lemma triple_bind {X Y} (A : P → Prop) (m : cmd P X) (B : X → P → Prop) (f : X → cmd P Y) C :
  triple A m B → (∀ x, triple (B x) (f x) C) → triple A (m ≫= f) C.
Proof.
  intros Hm Hf p y p' HA E. apply cmd_bind_Ret_inv in E as (x & p1 & E1 & E2).
  eapply Hf; [|exact E2]. by eapply Hm.
Qed.

Lemma triple_lift {X} (A : P → Prop) (o : outcome X) (B : X → P → Prop) :
  (∀ x p, o = Ret x → A p → B x p) → triple A (lift o) B.
Proof. intros HB p x p' HA E. unfold lift in E. destruct o; simplify_eq. by eapply HB. Qed.

Lemma triple_pre {X} (A A' : P → Prop) (m : cmd P X) B :
  triple A m B → (∀ p, A' p → A p) → triple A' m B.
Proof. intros Hm HA p x p' HA' E. eapply Hm; eauto. Qed.

(** ** What the daemon was last told of upgrades *)
Definition upgrade_says (v : bytes) (e : nbd_event) : bytes :=
  match e with
  | Asked [a; b; c; d] =>
      if bytes_eqb a (str "status") && bytes_eqb b (str "set") && bytes_eqb c (str "voip_upgrade") then d else v
  | _ => v
  end.

(** Before anything is said, an upgrade may run. *)
Definition says (h : list nbd_event) : bytes := foldl upgrade_says (str "ok") h.

Definition idle (c : call_log) : bool := (clength c =? -1) && negb (direction c =? CALL_INCOMING).

Definition verdict (c : call_log) : bytes := if idle c then str "ok" else str "ko".

(** The daemon knows whether the phone is in use. *)
Definition told (p : P) : Prop := says (nbd p) = verdict (new_call p).

Lemma says_snoc h e : says (h ++ [e]) = upgrade_says (says h) e.
Proof. unfold says. by rewrite foldl_app. Qed.

(** A query that is not about upgrades. *)
Definition other_query (args : list bytes) : Prop := ∀ v, upgrade_says v (Asked args) = v.

(** The daemon's view stays, and the call too. *)
Definition keeps {X} (m : cmd P X) : Prop :=
  ∀ v c, triple (λ p, says (nbd p) = v ∧ new_call p = c) m (λ _ p, says (nbd p) = v ∧ new_call p = c).

Lemma ask_history out n args h r h' : ask answer out n args h = Ret (r, h') → h' = h ++ [Asked args].
Proof.
  unfold ask. destruct (answer h args) as [st data]. unfold lift. by destruct (deliver _ _ _ _); intros [= <- <-].
Qed.

Lemma keeps_query {X} (m : cmd (list nbd_event) X) args :
  (∀ h x h', m h = Ret (x, h') → h' = h ++ [Asked args]) → other_query args → keeps (on_nbd m).
Proof.
  intros Hm Ho v c p x p' [Hs Hc] E. unfold on_nbd, zoom in E.
  destruct (m (nbd p)) as [[y h]| | |] eqn:Em; simplify_eq. cbn.
  rewrite (Hm _ _ _ Em), says_snoc, Ho. done.
Qed.

Lemma nbd_set_history args h r h' : nbd_set args h = Ret (r, h') → h' = h ++ [Asked args].
Proof.
  unfold nbd_set. intros E. apply cmd_bind_Ret_inv in E as ([x o] & h1 & E1 & [= <- <-]).
  by apply ask_history in E1.
Qed.

Lemma nbd_get_history b n args h r h' : nbd_get b n args h = Ret (r, h') → h' = h ++ [Asked args].
Proof.
  unfold nbd_get. intros E. apply cmd_bind_Ret_inv in E as ([x o] & h1 & E1 & E2).
  apply ask_history in E1. apply cmd_bind_Ret_inv in E2 as (b' & h2 & E2 & [= <- <-]).
  unfold lift, must in E2. destruct o; by simplify_eq.
Qed.

Lemma matches_history key t h r h' :
  nbd_user_config_matches key t h = Ret (r, h') → h' = h ++ [Asked [str "nvram"; str "get"; key]].
Proof.
  unfold nbd_user_config_matches. intros E. apply cmd_bind_Ret_inv in E as ([x s] & h1 & E1 & E2).
  apply nbd_get_history in E1. destruct (x <? 0); [by injection E2 as <- <-|].
  apply cmd_bind_Ret_inv in E2 as (z & h2 & E2 & [= <- <-]). unfold lift in E2.
  destruct (memcmp _ _ _); by simplify_eq.
Qed.

Lemma keeps_now : keeps (now clock).
Proof. by intros v c p x p' [Hs Hc] [= <- <-]. Qed.

Lemma get_call_ok (p : P) : get_call p = Ret (new_call p, p).
Proof. done. Qed.

Lemma nbd_set_on args (p : P) r p' :
  on_nbd (nbd_set args) p = Ret (r, p') → p' = Phone (new_call p) (nbd p ++ [Asked args]) (ticks p).
Proof.
  unfold on_nbd, zoom. destruct (nbd_set args (nbd p)) as [[y h]| | |] eqn:E; [|done..].
  intros [= <- <-]. by apply nbd_set_history in E as ->.
Qed.

Lemma upgrade_tells A : triple A nbd_voip_upgrade (λ _ p, told p).
Proof.
  intros p x p' _ E. unfold nbd_voip_upgrade in E. rewrite (cmd_bind_Ret _ _ _ _ _ (get_call_ok p)) in E.
  unfold told, verdict, idle. destruct (_ && _) eqn:Ei in E;
    apply cmd_bind_Ret_inv in E as (r & p2 & E2 & [= _ <-]); apply nbd_set_on in E2 as ->; cbn [nbd new_call];
    rewrite Ei, says_snoc; reflexivity.
Qed.

Lemma triple_any {X} A (m : cmd P X) : triple A m (λ _ _, True).
Proof. done. Qed.

Lemma triple_case {X} (b : bool) (m1 m2 : cmd P X) A B :
  (b = true → triple A m1 B) → (b = false → triple A m2 B) → triple A (if b then m1 else m2) B.
Proof. destruct b; auto. Qed.

Lemma keeps_ret {X} (x : X) : keeps (mret x).
Proof. intros v c. by apply triple_ret. Qed.

Lemma keeps_lift {X} (o : outcome X) : keeps (lift o).
Proof. intros v c. by apply triple_lift. Qed.

Lemma keeps_bind {X Y} (m : cmd P X) (f : X → cmd P Y) : keeps m → (∀ x, keeps (f x)) → keeps (m ≫= f).
Proof. intros Hm Hf v c. eapply triple_bind; [apply Hm|]. intros x. apply Hf. Qed.

Lemma keeps_told {X} (m : cmd P X) : keeps m → triple told m (λ _ p, told p).
Proof.
  intros Hm p x p' Hp E. destruct (Hm _ _ p x p' (conj eq_refl eq_refl) E) as [H1 H2].
  unfold told in *. congruence.
Qed.

Lemma keeps_set args : other_query args → keeps (on_nbd (nbd_set args)).
Proof. intros Ho. eapply keeps_query; [|exact Ho]. intros h x h'. apply nbd_set_history. Qed.

Lemma history_keeps c : keeps (history_add clock c).
Proof.
  unfold history_add. apply keeps_bind.
  { eapply keeps_query; [intros h x h'; apply matches_history|done]. }
  intros [|]; [|apply keeps_ret]. apply keeps_bind; [apply keeps_lift|]. intros num.
  apply keeps_bind; [case_match; [apply keeps_now|apply keeps_ret]|]. intros t.
  apply keeps_bind; [by apply keeps_set|]. intros r. case_match; apply keeps_ret.
Qed.

(** An error of [nbd_voip_register_call] leaves the daemon informed. *)
Lemma register_told A stray call :
  triple A (nbd_voip_register_call NB5 clock stray call) (λ r p, r ≠ 0 → told p).
Proof.
  unfold nbd_voip_register_call. eapply triple_bind; [apply triple_any|]. intros c.
  eapply triple_bind; [apply triple_any|]. intros ?.
  apply (triple_bind _ _ (λ o p, o = None → told p)).
  - apply triple_case; intros _; [|by apply triple_ret].
    eapply triple_bind; [apply triple_any|]. intros ?. eapply triple_bind; [apply upgrade_tells|]. intros ?.
    intros p o p' Hp E _. by eapply (keeps_told _ (history_keeps c)).
  - intros [my|].
    + eapply triple_bind; [apply triple_any|]. intros ?. by apply triple_ret.
    + apply triple_ret. auto.
Qed.

(** Before NB5, it leaves the daemon informed in every case. *)
Lemma register_keeps_told stray call :
  NB5 = false → triple told (nbd_voip_register_call NB5 clock stray call) (λ _ p, told p).
Proof.
  intros Hnb. unfold nbd_voip_register_call. rewrite Hnb.
  apply (triple_bind _ _ (λ _ p, told p)); [by intros p c p' Hp [= _ <-]|]. intros c.
  apply (triple_bind _ _ (λ _ p, told p)); [by apply triple_ret|]. intros ?.
  apply (triple_bind _ _ (λ _ p, told p)).
  - apply triple_case; intros _; [|by apply triple_ret].
    eapply triple_bind; [apply triple_any|]. intros ?. eapply triple_bind; [apply upgrade_tells|]. intros ?.
    apply keeps_told, history_keeps.
  - intros [my|]; [|by apply triple_ret]. apply keeps_told, keeps_bind; [|intros ?; apply keeps_ret].
    case_match; [|apply keeps_ret]. apply keeps_bind; [by apply keeps_set|intros ?; apply keeps_ret].
Qed.

(** ** Operations *)
Inductive vop :=
| IoCall (io_call : Z)
| NumberCall (number_called : option bytes) (num : Z)
| TypeCall (type_call : Z)
| DurationCall (stray : call_log) (start_stop_call : Z)
| RegisterCall (stray : call_log) (call : string).

Definition exec (o : vop) : cmd P Z :=
  match o with
  | IoCall d => nbd_voip_io_call clock d
  | NumberCall n num => nbd_voip_number_call n num
  | TypeCall t => nbd_voip_type_call NB5 t
  | DurationCall stray ss => nbd_voip_duration_call NB5 clock stray ss
  | RegisterCall stray call => nbd_voip_register_call NB5 clock stray call
  end.

(** [nbd_voip_register_call] is called from outside on the boxes before NB5 only. *)
Definition reports (o : vop) : Prop := match o with RegisterCall _ _ => NB5 = false | _ => True end.

Fixpoint exec_all (os : list vop) : cmd P (list Z) :=
  match os with
  | [] => mret []
  | o :: os => r ← exec o; rs ← exec_all os; mret (r :: rs)
  end.

Lemma number_told n num : triple told (nbd_voip_number_call n num) (λ _ p, told p).
Proof.
  intros p r p' Hp E. unfold nbd_voip_number_call in E.
  rewrite (cmd_bind_Ret _ _ _ _ _ (get_call_ok p)) in E.
  apply cmd_bind_Ret_inv in E as (u & p1 & E & [= _ <-]).
  assert (new_call p1 = new_call p ∨ ∃ nb, new_call p1 = set_number nb (new_call p)) as Hc.
  { repeat case_match;
      try (injection E as _ <-; by left);
      apply cmd_bind_Ret_inv in E as (c1 & p2 & E1 & [= _ <-]); unfold lift in E1;
      unfold copy_number, add_digit in E1; cbn [new_call] in *;
      (destruct (_ ≫= _) as [c2| | |] eqn:E2 in E1; [|done..]); injection E1 as <- <-; right;
      repeat (apply bind_Ret_inv in E2 as (? & _ & E2)); injection E2 as <-; eauto. }
  assert (nbd p1 = nbd p) as Hn.
  { clear Hc. repeat case_match;
      try (injection E as _ <-; done);
      apply cmd_bind_Ret_inv in E as (c1 & p2 & E1 & [= _ <-]); unfold lift in E1;
      (destruct (_ : outcome call_log) as [c2| | |] in E1; [|done..]); by injection E1 as <- <-. }
  unfold told, verdict, idle in *. rewrite Hn, Hp.
  by destruct Hc as [->|[nb ->]].
Qed.

Lemma exec_told o : reports o → triple told (exec o) (λ _ p, told p).
Proof.
  destruct o as [d|n num|ty|stray ss|stray call]; cbn [exec reports]; intros Ho.
  - do 4 (eapply triple_bind; [apply triple_any|]; intros ?).
    eapply triple_bind; [apply upgrade_tells|]. intros ?. by apply triple_ret.
  - apply number_told.
  - do 4 (eapply triple_bind; [apply triple_any|]; intros ?).
    eapply triple_bind; [apply upgrade_tells|]. intros ?. by apply triple_ret.
  - eapply triple_bind; [apply triple_any|]. intros c.
    apply (triple_bind _ _ (λ r p, r ≠ 0 → told p)).
    + apply triple_case; intros _.
      { do 3 (eapply triple_bind; [apply triple_any|]; intros ?). by apply triple_ret. }
      apply triple_case; intros _.
      { do 3 (eapply triple_bind; [apply triple_any|]; intros ?). apply register_told. }
      apply triple_case; intros _; [apply register_told|].
      apply triple_case; intros _; [|by apply triple_ret].
      eapply triple_bind; [apply triple_any|]. intros ?. by apply triple_ret.
    + intros r. apply triple_case; intros Hr.
      * apply triple_ret. intros p Hp. apply Hp. by zbool.
      * eapply triple_bind; [apply upgrade_tells|]. intros ?. by apply triple_ret.
  - by apply register_keeps_told.
Qed.

(** C29: Whatever the phone driver reports through nbd_voip_io_call, nbd_voip_number_call,
    nbd_voip_type_call and nbd_voip_duration_call and, on the boxes before NB5, through
    nbd_voip_register_call too, in whatever order, and whatever the daemon answers, the
    daemon was last told "ok" exactly when no call is in progress or ringing, so that no
    upgrade starts during a call.  On NB5 the theorem leaves out nbd_voip_register_call
    called from outside of the library, which may break it
    ([register_ring_stop_forgets]). *)
Theorem voip_upgrade_tracks_calls os p rs p' :
  Forall reports os → told p → exec_all os p = Ret (rs, p') → told p'.
Proof.
  intros Hos. revert p rs. induction Hos as [|o os Ho Hos IH]; intros p rs Hp E; cbn [exec_all] in E.
  - by injection E as <- <-.
  - apply cmd_bind_Ret_inv in E as (r & p1 & E1 & E). apply cmd_bind_Ret_inv in E as (rs1 & p2 & E2 & E).
    injection E as <- <-. eapply IH; [|exact E2]. by eapply exec_told.
Qed.

(** On NB5 the call is forgotten before [nbd_voip_register_call] looks whether it is
    over: told that the phone stopped ringing while a call is in progress, it leaves the
    phone free and the daemon where it was, an upgrade forbidden. *)
Theorem register_ring_stop_forgets stray p :
  NB5 = true → told p → 0 <= clength (new_call p) →
  ∃ p', nbd_voip_register_call NB5 clock stray "ring_stop" p = Ret (0, p') ∧
    new_call p' = resetCall ∧ nbd p' = nbd p ∧ says (nbd p') = str "ko" ∧ ¬ told p'.
Proof.
  intros Hnb Hp Hl. unfold nbd_voip_register_call, registers. rewrite Hnb.
  erewrite cmd_bind_Ret by apply get_call_ok. erewrite cmd_bind_Ret by reflexivity.
  assert ((clength (new_call p) =? -1) = false) as Hm by (apply Z.eqb_neq; lia). rewrite Hm.
  change (is_call "ring_stop" "stop_call") with false. rewrite andb_false_r. cbn [andb orb].
  erewrite cmd_bind_Ret by reflexivity. cbn [direction clength].
  rewrite ?Hm, ?andb_false_r. eexists. split; [reflexivity|]. cbn [new_call nbd].
  unfold told, verdict, idle in Hp. rewrite Hm in Hp. cbn [andb] in Hp. split_and!; [done..|].
  unfold told. cbn [new_call nbd]. rewrite Hp. discriminate.
Qed.

(** ** A call from the first ring to the end *)

(** A daemon that keeps the history and has nothing to say otherwise. *)
Definition cooperative : Prop :=
  (∀ h, answer h [str "nvram"; str "get"; str "voip_callhistory"] = (0, str "on")) ∧
  (∀ h a args, a ≠ str "nvram" → answer h (a :: args) = (0, [])).

(** The number with the digits [s]. *)
Definition number_of (s : bytes) : bytes := s ++ replicate (32 - length s) 0.

(** The key pressed: a digit, star or hash. *)
Definition key (k : Z) : Z := if k <? 10 then 48 + k else if k =? 10 then 42 else 35.

Lemma key_text ds : Forall (λ k, 0 <= k) ds → text (key <$> ds).
Proof.
  induction 1 as [|k ds Hk Hds IH]; [constructor|]. constructor; [|done]. unfold key. repeat case_match; zbool; lia.
Qed.

Lemma fmt_d_digit k : 0 <= k < 10 → fmt_d (s32 k) = [48 + k].
Proof.
  intros Hk. rewrite s32_small by (unfold INT_MIN, INT_MAX; lia).
  assert (k = 0 ∨ k = 1 ∨ k = 2 ∨ k = 3 ∨ k = 4 ∨ k = 5 ∨ k = 6 ∨ k = 7 ∨ k = 8 ∨ k = 9) as Hin by lia.
  destruct_or! Hin; subst; reflexivity.
Qed.

Lemma str_of_number s : text s → (length s <= 31)%nat → str_of (number_of s) = Some s.
Proof.
  intros Ht Hl. unfold number_of. destruct (32 - length s)%nat eqn:E; [lia|]. by apply str_of_app.
Qed.

Lemma number_of_snoc s n : (32 - length s = S n)%nat → number_of s = s ++ 0 :: replicate n 0.
Proof. intros E. unfold number_of. by rewrite E. Qed.

Lemma add_digit_ok c s k :
  number c = number_of s → text s → (length s <= 30)%nat → 0 <= k →
  add_digit c k = Ret (set_number (number_of (s ++ [key k])) c).
Proof.
  intros Hn Ht Hl Hk. unfold add_digit. rewrite Hn, (strlen_ok _ s) by (apply str_of_number; [done|lia]).
  cbn [mbind outcome_bind]. destruct (31 - length s)%nat as [|n] eqn:E; [lia|].
  rewrite (number_of_snoc s (S n)) by lia.
  assert (number_of (s ++ [key k]) = s ++ key k :: 0 :: replicate n 0) as ->.
  { rewrite (number_of_snoc _ n) by (rewrite length_app; cbn; lia). by rewrite <- app_assoc. }
  unfold key. destruct (k <? 10) eqn:Ek; zbool.
  - rewrite fmt_d_digit by lia. cbn [take app].
    by rewrite (mem_write_mid s [0; 0] (replicate n 0) [48 + k; 0]).
  - cbn [replicate]. by rewrite wr_mid.
Qed.

(** The digit behind the thirty-first is written over what follows the number. *)
Lemma add_digit_full c s k :
  number c = number_of s → text s → length s = 31%nat → 0 <= k < 10 → add_digit c k = Undef.
Proof.
  intros Hn Ht Hl Hk. unfold add_digit. rewrite Hn, (strlen_ok _ s) by (apply str_of_number; [done|lia]).
  cbn [mbind outcome_bind]. rewrite (proj2 (Z.ltb_lt k 10)) by lia. rewrite fmt_d_digit by lia.
  cbn [take app]. unfold mem_write, number_of. rewrite length_app, length_replicate, Hl. done.
Qed.

Definition tell (c : call_log) : nbd_event :=
  Asked [str "status"; str "set"; str "voip_upgrade"; verdict c].

Definition ask_history_on : nbd_event := Asked [str "nvram"; str "get"; str "voip_callhistory"].

Definition sent (p : P) (es : list nbd_event) : P := Phone (new_call p) (nbd p ++ es) (ticks p).

Lemma exec_all_app os1 os2 p rs1 p1 rs2 p2 :
  exec_all os1 p = Ret (rs1, p1) → exec_all os2 p1 = Ret (rs2, p2) → exec_all (os1 ++ os2) p = Ret (rs1 ++ rs2, p2).
Proof.
  revert p rs1. induction os1 as [|o os1 IH]; intros p rs1 E1 E2; cbn [exec_all app] in *.
  { by injection E1 as <- <-. }
  apply cmd_bind_Ret_inv in E1 as (r & q & Eo & E1). apply cmd_bind_Ret_inv in E1 as (rs & q' & E1 & [= <- <-]).
  run_with Eo. run_with (IH _ _ E1 E2). done.
Qed.

Lemma exec_all_one o os p r p1 rs p2 :
  exec o p = Ret (r, p1) → exec_all os p1 = Ret (rs, p2) → exec_all (o :: os) p = Ret (r :: rs, p2).
Proof. intros E1 E2. cbn. run_with E1. by run_with E2. Qed.

Section calls.
Hypothesis Hcoop : cooperative.

Lemma voip_set_ok a args (p : P) : a ≠ str "nvram" → on_nbd (nbd_set (a :: args)) p = Ret (0, sent p [Asked (a :: args)]).
Proof.
  intros Ha. unfold on_nbd, zoom, nbd_set, mbind, cmd_bind. cbn. unfold ask.
  by rewrite (proj2 Hcoop _ _ args Ha).
Qed.

Lemma upgrade_ok (p : P) : nbd_voip_upgrade p = Ret (tt, sent p [tell (new_call p)]).
Proof.
  unfold nbd_voip_upgrade. run_with (get_call_ok p). unfold nbd_status_set, tell, verdict, idle.
  case_match; by run_with (voip_set_ok (str "status") _ p ltac:(by vm_compute)).
Qed.

Lemma history_on_ok (p : P) :
  on_nbd (nbd_user_config_matches (str "voip_callhistory") "on") p = Ret (true, sent p [ask_history_on]).
Proof.
  unfold on_nbd, zoom, nbd_user_config_matches, nbd_user_config_get, nbd_get, mbind, cmd_bind. cbn. unfold ask.
  by rewrite (proj1 Hcoop).
Qed.

(** A call that begins. *)
Definition ringing (d t : Z) : call_log := Call CALL_VOIP d (replicate 32 0) (-1) t 0 0.

Lemma io_call_ok d (p : P) :
  clength (new_call p) ≠ 0 →
  let c := ringing d (clock (ticks p)) in
  exec (IoCall d) p = Ret (0, Phone c (nbd p ++ [tell c]) (S (ticks p))).
Proof.
  intros Hc c. cbn [exec]. unfold nbd_voip_io_call. do 3 run. cbn [clength ctype new_call put_call].
  rewrite (proj2 (Z.eqb_neq _ _) Hc). cbn [andb]. run. by run_with (upgrade_ok _).
Qed.

Lemma digits_ok ds s (p : P) :
  clength (new_call p) = -1 → direction (new_call p) = CALL_OUTGOING → number (new_call p) = number_of s →
  text s → Forall (λ k, 0 <= k) ds → (length s + length ds <= 31)%nat →
  exec_all (NumberCall None <$> ds) p
  = Ret (replicate (length ds) 0, Phone (set_number (number_of (s ++ (key <$> ds))) (new_call p)) (nbd p) (ticks p)).
Proof.
  intros Hl Hd Hn Ht Hds. revert s p Hl Hd Hn Ht.
  induction Hds as [|k ds Hk Hds IH]; intros s p Hl Hd Hn Ht Hlen; cbn [length fmap list_fmap replicate] in *.
  { rewrite app_nil_r, <- Hn. by destruct p as [[] ? ?]. }
  erewrite exec_all_one; [reflexivity| |].
  - cbn [exec]. unfold nbd_voip_number_call. run_with (get_call_ok p). rewrite Hl, Hd. cbn [Z.eqb andb orb Pos.eqb].
    erewrite cmd_bind_Ret; [reflexivity|].
    rewrite (add_digit_ok _ s) by (done || lia). reflexivity.
  - rewrite (IH (s ++ [key k])); cbn [new_call nbd ticks set_number clength direction number].
    + by rewrite <- app_assoc.
    + done.
    + done.
    + done.
    + apply Forall_app. split; [done|]. by apply (key_text [k]), Forall_singleton.
    + rewrite length_app. cbn. lia.
Qed.

Lemma dial_span_ok s : Forall (λ c, dial_char c = true) s → dial_span (cstr s) = Ret (length s).
Proof. induction 1 as [|c s Hc Hs IH]; [done|]. cbn. rewrite Hc. unfold cstr in IH. by rewrite IH. Qed.

Lemma keys_dial ds : Forall (λ k, 0 <= k) ds → Forall (λ c, dial_char c = true) (key <$> ds).
Proof.
  induction 1 as [|k ds Hk Hds IH]; constructor; [|done]. unfold key, dial_char.
  repeat case_match; zbool; try done. rewrite (proj2 (Z.leb_le 48 (48 + k))), (proj2 (Z.leb_le (48 + k) 57)) by lia.
  by rewrite !orb_true_r.
Qed.

(** The caller's number, given at once. *)
Lemma caller_ok s (p : P) :
  clength (new_call p) = -1 → direction (new_call p) = CALL_INCOMING → ctype (new_call p) = CALL_VOIP →
  number (new_call p) = number_of [] → Forall (λ c, dial_char c = true) s → text s → (length s <= 31)%nat →
  exec (NumberCall (Some (cstr s)) (-1)) p
  = Ret (0, Phone (set_number (number_of s) (new_call p)) (nbd p) (ticks p)).
Proof.
  intros Hl Hd Ht Hn Hs Hx Hlen. cbn [exec]. unfold nbd_voip_number_call. run_with (get_call_ok p).
  rewrite Hl, Hd, Ht. cbn [Z.eqb andb orb Pos.eqb]. erewrite cmd_bind_Ret; [reflexivity|].
  unfold copy_number. cbn [must mbind outcome_bind]. rewrite dial_span_ok by done. cbn [mbind outcome_bind].
  unfold strncpy. rewrite (take_text_ok _ s) by (by apply str_of_cstr). cbn [mbind outcome_bind].
  rewrite take_ge, Nat.sub_diag, app_nil_r by lia. rewrite Hn. unfold overwrite, number_of.
  cbn [app length]. rewrite length_replicate, (proj2 (Nat.leb_le _ _)) by lia. cbn [mbind outcome_bind].
  rewrite drop_replicate. reflexivity.
Qed.

(** The type that a call gets when it is answered: the emergency number of the older
    boxes goes over the telephone network. *)
Definition answered_type (s : bytes) (ty : Z) : Z :=
  if negb NB5 && bytes_eqb s (lit "999") then CALL_PSTN else ty.

Lemma is_999 s m :
  str_of m = Some s → (length s <= 31)%nat →
  ∃ z, (if NB5 then Ret 1 else strncmp m (str "999") 32) = Ret z ∧
    negb NB5 && (z =? 0) = negb NB5 && bytes_eqb s (lit "999").
Proof.
  intros Hm Hl. destruct NB5; [by exists 1|].
  destruct (strncmp_ok m (str "999") s (lit "999") 32) as (z & Ez & Hz); [done|done|lia|].
  exists z. split; [done|]. cbn [negb andb]. apply eq_true_iff_eq. by rewrite Z.eqb_eq, bytes_eqb_eq.
Qed.

Lemma start_ok stray s (p : P) :
  let c := new_call p in
  clength c = -1 → number c = number_of s → text s → (length s <= 31)%nat →
  let c1 := Call (answered_type s (ctype c)) (direction c) (number c) 0 (date c) (clock (ticks p)) (finish c) in
  exec (DurationCall stray START_CALL) p = Ret (0, Phone c1 (nbd p ++ [tell c1]) (S (ticks p))).
Proof.
  intros c Hl Hn Ht Hlen c1. cbn [exec]. unfold nbd_voip_duration_call. run_with (get_call_ok p). fold c.
  rewrite Hl. cbn [Z.eqb andb Pos.eqb START_CALL].
  destruct (is_999 s (number c)) as (z & Ez & Hz); [rewrite Hn; by apply str_of_number|done|].
  erewrite cmd_bind_Ret; [|run; erewrite cmd_bind_Ret; [|unfold lift; rewrite Ez; reflexivity]; run; reflexivity].
  cbn [Z.eqb negb]. run_with (upgrade_ok _). cbn [sent new_call nbd ticks]. rewrite Hz. reflexivity.
Qed.

(** What is sent of a call that is over. *)
Definition entry (ty d : Z) (s : bytes) (len t : Z) : nbd_event :=
  Asked [str "voip"; str "history_call_add"; cstr (fmt_u ty); cstr (fmt_u d); cstr s; cstr (fmt_d len); cstr (fmt_d t)].

Definition recordable (c : call_log) (s : bytes) : Prop :=
  (ctype c = CALL_PSTN ∨ ctype c = CALL_VOIP) ∧ (direction c = CALL_INCOMING ∨ direction c = CALL_OUTGOING) ∧
  number c = number_of s ∧ text s ∧ (length s <= 31)%nat ∧ date c ≠ -1.

Lemma history_add_ok c s (p : P) :
  recordable c s →
  history_add clock c p
  = Ret (Some c, sent p [ask_history_on; entry (ctype c) (direction c) s (clength c) (date c)]).
Proof.
  intros (Hty & Hd & Hn & Ht & Hl & Hdate). unfold history_add. run_with (history_on_ok p).
  assert (ctype c =? CALL_COMPLEX = false ∧ ctype c =? CALL_UNINIT = false) as [-> ->].
  { by destruct Hty as [->| ->]. }
  cbn [negb andb]. rewrite Hn. unfold c_str. rewrite str_of_number by done. cbn [must]. run.
  rewrite (proj2 (Z.eqb_neq _ _) Hdate). run.
  assert ((if negb (direction c =? CALL_OUTGOING) then CALL_INCOMING else direction c) = direction c) as ->.
  { by destruct Hd as [->| ->]. }
  run_with (voip_set_ok (str "voip") _ _ ltac:(by vm_compute)).
  cbn [Z.eqb negb sent new_call nbd ticks]. rewrite <- Hn. unfold sent, entry. cbn.
  rewrite <- app_assoc. by destruct c.
Qed.

(** The end of a call, answered or not, once its length is known. *)
Lemma register_ok stray call s (p : P) :
  let c := new_call p in
  recordable c s → registers NB5 c call = true →
  nbd_voip_register_call NB5 clock stray call p
  = Ret (0, Phone resetCall (nbd p ++ [tell resetCall; ask_history_on; entry (ctype c) (direction c) s (clength c) (date c)] ++
                               (if (direction c =? CALL_INCOMING) && (clength c =? -1)
                                then [Asked [str "voip"; str "misscalls"]] else [])) (ticks p)).
Proof.
  intros c Hc Hr. unfold nbd_voip_register_call. run_with (get_call_ok p). fold c.
  set (p1 := if NB5 then Phone resetCall (nbd p) (ticks p) else p).
  assert ((if NB5 then put_call resetCall else mret tt) p = Ret (tt, p1)) as E1 by (unfold p1; by destruct NB5).
  run_with E1. rewrite Hr.
  assert (put_call resetCall p1 = Ret (tt, Phone resetCall (nbd p) (ticks p))) as E2 by (unfold p1; by destruct NB5).
  erewrite cmd_bind_Ret.
  2: { run_with E2. run_with (upgrade_ok _). exact (history_add_ok c s _ Hc). }
  cbv beta iota. destruct ((direction c =? CALL_INCOMING) && (clength c =? -1)).
  - erewrite cmd_bind_Ret; [|run_with (voip_set_ok (str "voip") _ _ ltac:(by vm_compute)); reflexivity].
    unfold sent. cbn. by rewrite <- !app_assoc.
  - run. unfold sent. cbn. by rewrite <- !app_assoc.
Qed.

Lemma stop_ok stray s (p : P) :
  let c := new_call p in
  recordable c s → clength c = 0 → 0 <= clock (ticks p) - start c <= INT_MAX →
  exec (DurationCall stray STOP_CALL) p
  = Ret (0, Phone resetCall (nbd p ++ [tell resetCall; ask_history_on;
                               entry (ctype c) (direction c) s (clock (ticks p) - start c) (date c); tell resetCall])
                  (S (ticks p))).
Proof.
  intros c Hc Hl Ht. cbn [exec]. unfold nbd_voip_duration_call. run_with (get_call_ok p). fold c.
  rewrite Hl. cbn [Z.eqb andb Pos.eqb STOP_CALL START_CALL]. erewrite cmd_bind_Ret.
  2: { run. cbn [new_call nbd ticks].
       rewrite (proj2 (Z.leb_le INT_MIN _)), (proj2 (Z.leb_le _ INT_MAX)) by (unfold INT_MIN in *; lia).
       cbn [andb]. run. run.
       apply (register_ok stray "stop_call" s).
       - exact Hc.
       - unfold registers. cbn [clength direction new_call]. rewrite (proj2 (Z.leb_le 0 _)) by lia.
         destruct NB5; cbn; by rewrite !orb_true_r. }
  cbn [Z.eqb negb new_call nbd ticks clength direction ctype date]. rewrite (proj2 (Z.eqb_neq _ (-1))) by lia.
  rewrite andb_false_r, app_nil_r. run_with (upgrade_ok _). unfold sent. cbn. by rewrite <- !app_assoc.
Qed.

Lemma missed_ok stray s (p : P) :
  let c := new_call p in
  recordable c s → clength c = -1 → direction c = CALL_INCOMING →
  exec (DurationCall stray STOP_CALL) p
  = Ret (0, Phone resetCall (nbd p ++ [tell resetCall; ask_history_on; entry (ctype c) CALL_INCOMING s (-1) (date c);
                               Asked [str "voip"; str "misscalls"]; tell resetCall]) (ticks p)).
Proof.
  intros c Hc Hl Hd. cbn [exec]. unfold nbd_voip_duration_call. run_with (get_call_ok p). fold c.
  rewrite Hl. cbn [Z.eqb andb Pos.eqb STOP_CALL START_CALL]. erewrite cmd_bind_Ret.
  2: { apply (register_ok stray "ring_stop" s); [exact Hc|]. unfold registers. fold c. rewrite Hl, Hd.
       by destruct NB5. }
  fold c. rewrite Hl, Hd. cbn [Z.eqb negb andb CALL_INCOMING]. run_with (upgrade_ok _).
  unfold sent. cbn. by rewrite <- !app_assoc.
Qed.

(** The number of a call, as the driver gives it: key by key, or at once. *)
Definition dial (d : Z) (ds : list Z) : list vop :=
  if d =? CALL_OUTGOING then NumberCall None <$> ds else [NumberCall (Some (cstr (key <$> ds))) (-1)].

Lemma call_placed d ds (p : P) :
  (d = CALL_INCOMING ∨ d = CALL_OUTGOING) → Forall (λ k, 0 <= k) ds → (length ds <= 31)%nat →
  clength (new_call p) ≠ 0 →
  let c := ringing d (clock (ticks p)) in
  ∃ rs, exec_all (IoCall d :: dial d ds) p
        = Ret (rs, Phone (set_number (number_of (key <$> ds)) c) (nbd p ++ [tell c]) (S (ticks p))) ∧
    Forall (λ r, r = 0) rs.
Proof.
  intros Hd Hds Hl Hc c. unfold dial. destruct Hd as [->| ->]; cbn [Z.eqb CALL_OUTGOING CALL_INCOMING].
  - exists [0; 0]. split; [|by repeat constructor].
    eapply exec_all_one; [by apply io_call_ok|]. eapply exec_all_one; [|done].
    rewrite (caller_ok (key <$> ds)); [done..|by apply keys_dial|by apply key_text|by rewrite length_fmap].
  - exists (0 :: replicate (length ds) 0). split.
    + eapply exec_all_one; [by apply io_call_ok|]. rewrite (digits_ok ds []); done || constructor.
    + constructor; [done|]. apply Forall_replicate. done.
Qed.

End calls.

(** The calls that the daemon was told to add to the history, and how often it was told
    of a missed one. *)
Definition entry_of (e : nbd_event) : option (list bytes) :=
  match e with
  | Asked (a :: b :: args) =>
      if bytes_eqb a (str "voip") && bytes_eqb b (str "history_call_add") then Some args else None
  | _ => None
  end.

Definition entries (h : list nbd_event) : list (list bytes) := omap entry_of h.

Definition is_missed (e : nbd_event) : bool :=
  match e with
  | Asked [a; b] => bytes_eqb a (str "voip") && bytes_eqb b (str "misscalls")
  | _ => false
  end.

Definition missed (h : list nbd_event) : nat := length (List.filter is_missed h).

Lemma missed_app h1 h2 : missed (h1 ++ h2) = (missed h1 + missed h2)%nat.
Proof. unfold missed. by rewrite List.filter_app, length_app. Qed.

(** C30: On a box that keeps the history (voip_callhistory is "on") and whose daemon
    accepts every query, a call, in or out, that the driver reports in its usual order
    (the call, its number of at most 31 keys, answered, over) is added to the history
    exactly once when it ends, with its direction, its number, its length in seconds and
    the date of its first ring, and nothing of it is left.  An incoming call that nobody
    answered (the call, its number, over) is added with the length -1, and the daemon is
    told that it was missed.  Outgoing calls that nobody answered, calls reported in
    another order and boxes without a history are not in the scope of the theorem; nor is
    a call that starts while another one is in progress, or whose start or length the
    clock does not give (a date of -1, a length that is negative or no [int]). *)
Theorem voip_call_recorded d ds s1 s2 p :
  cooperative → (d = CALL_INCOMING ∨ d = CALL_OUTGOING) → Forall (λ k, 0 <= k) ds → (length ds <= 31)%nat →
  clength (new_call p) ≠ 0 → clock (ticks p) ≠ -1 →
  0 <= clock (2 + ticks p) - clock (1 + ticks p) <= INT_MAX →
  let num := key <$> ds in
  (∃ rs p', exec_all ((IoCall d :: dial d ds) ++ [DurationCall s1 START_CALL; DurationCall s2 STOP_CALL]) p = Ret (rs, p') ∧
     Forall (λ r, r = 0) rs ∧ new_call p' = resetCall ∧ missed (nbd p') = missed (nbd p) ∧
     entries (nbd p') = entries (nbd p) ++
       [[cstr (fmt_u (answered_type num CALL_VOIP)); cstr (fmt_u d); cstr num;
         cstr (fmt_d (clock (2 + ticks p) - clock (1 + ticks p))); cstr (fmt_d (clock (ticks p)))]]) ∧
  (d = CALL_INCOMING →
   ∃ rs p', exec_all ((IoCall d :: dial d ds) ++ [DurationCall s2 STOP_CALL]) p = Ret (rs, p') ∧
     Forall (λ r, r = 0) rs ∧ new_call p' = resetCall ∧ missed (nbd p') = S (missed (nbd p)) ∧
     entries (nbd p') = entries (nbd p) ++
       [[cstr (fmt_u CALL_VOIP); cstr (fmt_u d); cstr num; cstr (fmt_d (-1)); cstr (fmt_d (clock (ticks p)))]]).
Proof.
  intros Hcoop Hd Hds Hl Hc Ht0 Ht num.
  assert (text num ∧ (length num <= 31)%nat) as [Htx Hln] by (split; [by apply key_text|by unfold num; rewrite length_fmap]).
  destruct (call_placed Hcoop d ds p Hd Hds Hl Hc) as (rs & E & Hrs). split.
  - eexists _, _. split.
    { eapply exec_all_app; [exact E|]. eapply exec_all_one.
      { by apply (start_ok Hcoop s1 num). }
      eapply exec_all_one; [|done]. apply (stop_ok Hcoop s2 num); [|done|exact Ht].
      unfold recordable, answered_type. cbn. split_and!; [case_match; auto|done..]. }
    split_and!; cbn [nbd new_call ticks].
    + apply Forall_app. split; [done|by repeat constructor].
    + done.
    + rewrite !missed_app. cbn. lia.
    + unfold entries. rewrite !omap_app. cbn. by rewrite !app_nil_r.
  - intros ->. eexists _, _. split.
    { eapply exec_all_app; [exact E|]. eapply exec_all_one; [|done].
      apply (missed_ok Hcoop s2 num); cbn; [|done|done]. unfold recordable. cbn. split_and!; auto. }
    split_and!; cbn [nbd new_call ticks].
    + apply Forall_app. split; [done|by repeat constructor].
    + done.
    + rewrite !missed_app, <- (Nat.add_1_r (missed (nbd p))), <- Nat.add_assoc. f_equal.
    + unfold entries. rewrite !omap_app. cbn. by rewrite !app_nil_r.
Qed.

Lemma exec_all_undef os o p rs q :
  exec_all os p = Ret (rs, q) → exec o q = Undef → exec_all (os ++ [o]) p = Undef.
Proof.
  intros E Eq. revert p rs E. induction os as [|o' os IH]; intros p rs E; cbn [exec_all app] in *.
  - injection E as _ <-. by apply cmd_bind_Undef.
  - apply cmd_bind_Ret_inv in E as (r & p1 & E1 & E). apply cmd_bind_Ret_inv in E as (rs1 & p2 & E2 & [= _ <-]).
    run_with E1. apply cmd_bind_Undef. by eapply IH.
Qed.

(** The thirty-second digit of a number dialled key by key is written past the number. *)
Theorem voip_dial_overflows ds k p :
  cooperative → Forall (λ k, 0 <= k) ds → length ds = 31%nat → 0 <= k < 10 → clength (new_call p) ≠ 0 →
  exec_all ((IoCall CALL_OUTGOING :: dial CALL_OUTGOING ds) ++ [NumberCall None k]) p = Undef.
Proof.
  intros Hcoop Hds Hl Hk Hc.
  destruct (call_placed Hcoop CALL_OUTGOING ds p) as (rs & E & _); [by right|done|lia|done|].
  apply (exec_all_undef _ _ _ _ _ E). cbn [exec]. unfold nbd_voip_number_call. run.
  cbn [new_call set_number ringing clength direction Z.eqb andb orb CALL_OUTGOING CALL_INCOMING Pos.eqb].
  apply cmd_bind_Undef, cmd_bind_Undef. unfold lift.
  rewrite (add_digit_full _ (key <$> ds)); [done|done|by apply key_text|by rewrite length_fmap|done].
Qed.

(** On the older boxes an outgoing call that was not answered is a missed call when the
    stack happens to hold one. *)
Theorem voip_unanswered_reads_stack stray p :
  cooperative → NB5 = false → clength (new_call p) = -1 → direction (new_call p) = CALL_OUTGOING →
  ∃ p', exec (DurationCall stray STOP_CALL) p = Ret (0, p') ∧
    missed (nbd p') = (missed (nbd p) + if (direction stray =? CALL_INCOMING)%Z && (clength stray =? -1)%Z then 1 else 0)%nat ∧
    entries (nbd p') = entries (nbd p).
Proof.
  intros Hcoop Hnb Hl Hd. cbn [exec]. unfold nbd_voip_duration_call. run_with (get_call_ok p).
  rewrite Hl. cbn [Z.eqb andb Pos.eqb STOP_CALL START_CALL]. unfold nbd_voip_register_call.
  assert (registers NB5 (new_call p) "ring_stop" = false) as Hr by (unfold registers; rewrite Hnb, Hl, Hd; done).
  rewrite Hnb in *. destruct ((direction stray =? CALL_INCOMING) && (clength stray =? -1)) eqn:Es.
  - eexists. split.
    + erewrite cmd_bind_Ret.
      2: { run_with (get_call_ok p). run. rewrite Hr. run. cbv beta iota. cbn [negb]. rewrite ?Es.
           erewrite cmd_bind_Ret; [reflexivity|]. by run_with (voip_set_ok Hcoop (str "voip") _ _ ltac:(by vm_compute)). }
      cbn [Z.eqb negb]. by run_with (upgrade_ok Hcoop _).
    + unfold sent. cbn [nbd]. rewrite !missed_app, <- Nat.add_assoc. split; [done|].
      unfold entries. rewrite !omap_app. cbn. by rewrite !app_nil_r.
  - eexists. split.
    + erewrite cmd_bind_Ret; [|run_with (get_call_ok p); run; rewrite Hr; run; cbv beta iota; rewrite ?Es; by run].
      cbn [Z.eqb negb]. by run_with (upgrade_ok Hcoop _).
    + unfold sent. cbn [nbd]. rewrite !missed_app. split; [done|].
      unfold entries. rewrite !omap_app. cbn. by rewrite !app_nil_r.
Qed.

End proofs.

(** ** Witnesses *)

Definition kind_daemon (h : list nbd_event) (args : list bytes) : Z * bytes :=
  if bytes_eqb (hd [] args) (str "nvram") then (0, str "on") else (0, []).

Lemma kind_cooperative : cooperative kind_daemon.
Proof.
  split; [intros h; by vm_compute|]. intros h a args Ha. unfold kind_daemon. cbn [hd].
  by rewrite (proj2 (bytes_eqb_neq _ _) Ha).
Qed.

Definition at_rest : phone (list nbd_event) := Phone new_call0 [] 0.

(** A call is taken on a box before NB5, another rings, and the driver says that the
    ringing has stopped. *)
Lemma voip_upgrade_tracks_calls_witness :
  let os := [IoCall CALL_INCOMING; DurationCall resetCall START_CALL; IoCall CALL_INCOMING; RegisterCall resetCall "ring_stop"] in
  ∃ rs p', exec_all kind_daemon false (λ n, 1000 + 60 * Z.of_nat n) os at_rest = Ret (rs, p') ∧
    says (nbd p') = str "ko" ∧ told p'.
Proof.
  intros os. destruct (exec_all kind_daemon false (λ n, 1000 + 60 * Z.of_nat n) os at_rest) as [[rs p']| | |] eqn:E;
    vm_compute in E; try discriminate E.
  injection E as <- <-. eexists _, _. split; [reflexivity|]. split; [vm_compute; reflexivity|].
  eapply (voip_upgrade_tracks_calls kind_daemon false (λ n, 1000 + 60 * Z.of_nat n) os at_rest);
    [by repeat constructor | vm_compute; reflexivity..].
Defined.

(** The same on NB5, with a call in progress. *)
Lemma register_ring_stop_forgets_witness :
  let p := Phone (Call CALL_VOIP CALL_INCOMING (replicate 32 0) 0 1000 1000 0) [Asked [str "status"; str "set"; str "voip_upgrade"; str "ko"]] 2 in
  ∃ p', exec kind_daemon true (λ n, 1000) (RegisterCall resetCall "ring_stop") p = Ret (0, p') ∧ new_call p' = resetCall ∧
    nbd p' = nbd p ∧ says (nbd p') = str "ko" ∧ ¬ told p'.
Proof.
  intros p. apply (register_ring_stop_forgets kind_daemon true (λ n, 1000) resetCall p);
    [reflexivity | vm_compute; reflexivity | cbn; lia].
Defined.

Lemma voip_call_recorded_witness :
  ∃ rs p', exec_all kind_daemon false (λ n, 1000 + 60 * Z.of_nat n)
      ((IoCall CALL_OUTGOING :: dial CALL_OUTGOING [0; 1; 4; 10]) ++
       [DurationCall resetCall START_CALL; DurationCall resetCall STOP_CALL]) at_rest = Ret (rs, p') ∧
    entries (nbd p') = [[str "1"; str "1"; str "014*"; str "60"; str "1000"]].
Proof.
  destruct (voip_call_recorded kind_daemon false (λ n, 1000 + 60 * Z.of_nat n) CALL_OUTGOING [0; 1; 4; 10]
    resetCall resetCall at_rest kind_cooperative (or_intror eq_refl)
    ltac:(apply (bool_decide_unpack _); vm_compute; exact I) ltac:(cbn; lia) ltac:(done) ltac:(done) ltac:(cbn; unfold INT_MAX; lia))
    as [(rs & p' & E & _ & _ & _ & He) _].
  exists rs, p'. split; [exact E|]. rewrite He. vm_compute. reflexivity.
Defined.
