(* ===== verification/NbdProofs.v ===== *)
(** libnbd's queries: what is sent, what is received whatever the fragmentation of
    the stream, and the two ways the code breaks the protocol. *)

From stdpp Require Import base tactics list strings.
From S2P Require Import Prelude.
From S2P Require Import CString.
From S2P Require Import NbdCore.
Import NbdCore.

(** ** Integers in memory *)
Lemma be32_length z : length (be32 z) = 4%nat.
Proof. done. Qed.

Lemma be_val_be32 z : be_val (be32 z) = u32 z.
Proof.
  unfold be_val, be32, u8, u32. cbn [foldl]. rewrite !Z.shiftr_div_pow2 by lia.
  change (2 ^ 32) with 4294967296. change (2 ^ 24) with 16777216. change (2 ^ 16) with 65536.
  change (2 ^ 8) with 256.
  pose proof (Z.div_mod z 256 ltac:(lia)) as E1.
  pose proof (Z.div_mod (z / 256) 256 ltac:(lia)) as E2.
  pose proof (Z.div_mod (z / 65536) 256 ltac:(lia)) as E3.
  pose proof (Z.div_mod (z / 16777216) 256 ltac:(lia)) as E4.
  rewrite Z.div_div in E2 by lia. change (256 * 256) with 65536 in E2.
  rewrite Z.div_div in E3 by lia. change (65536 * 256) with 16777216 in E3.
  pose proof (Z.mod_pos_bound z 256 ltac:(lia)). pose proof (Z.mod_pos_bound (z / 256) 256 ltac:(lia)).
  pose proof (Z.mod_pos_bound (z / 65536) 256 ltac:(lia)).
  pose proof (Z.mod_pos_bound (z / 16777216) 256 ltac:(lia)).
  apply Z.mod_unique with (z / 16777216 / 256); lia.
Qed.

Lemma into_int_be32 old z : INT_MIN <= z <= INT_MAX → into_int old (be32 z) = z.
Proof.
  intros Hz. unfold into_int. rewrite be32_length. change (drop 4 (be32 old)) with (@nil Z).
  rewrite app_nil_r, be_val_be32. unfold s32, u32, INT_MIN, INT_MAX in *.
  rewrite <- Zplus_mod, Zplus_mod_idemp_l || rewrite Zplus_mod_idemp_l.
  rewrite Z.mod_small; lia.
Qed.

Lemma into_size_be32 z : 0 <= z < 2 ^ 32 → into_size (be32 z) = Ret z.
Proof. intros Hz. unfold into_size. cbn [length be32 Nat.eqb]. by rewrite be_val_be32, u32_small. Qed.

(** ** The input stream *)

(** A live connection: data and signals only. *)
Definition live (e : rd_event) : Prop :=
  match e with RData bs => bs ≠ [] | RIntr => True | RFail => False end.

Definition stream (evs : list rd_event) : bytes :=
  concat ((λ e, match e with RData bs => bs | _ => [] end) <$> evs).

Lemma safe_read_live evs n :
  Forall live evs → 0 < n →
  ∃ bs evs', safe_read evs n = (Some bs, evs') ∧ Forall live evs' ∧
    stream evs = bs ++ stream evs' ∧ Z.of_nat (length bs) <= n ∧
    (bs = [] → stream evs = []) ∧ (bs ≠ [] → (ev_size evs' < ev_size evs)%nat).
Proof.
  intros Hl Hn. induction Hl as [|e evs He Hl IH]; [exists [], []; split_and!; (done || simpl; lia) |].
  destruct e as [bs| |]; [| | done]; simpl.
  - assert (Hlen : length (take (Z.to_nat n) bs) = Nat.min (Z.to_nat n) (length bs)) by apply length_take.
    destruct (Nat.leb_spec (length bs) (Z.to_nat n)); (eexists _, _; split; [reflexivity |]).
    + rewrite take_ge by lia. split_and!; try done; [lia | intros; lia].
    + simpl in He. assert (bs ≠ [] ∧ Z.to_nat n ≠ 0%nat) by (split; [done | lia]).
      split_and!; try done.
      * constructor; [| done]. simpl. intros E. apply (f_equal length) in E.
        rewrite length_drop in E. simpl in E. lia.
      * unfold stream. simpl. by rewrite (assoc app), take_drop.
      * lia.
      * intros E. apply (f_equal length) in E. rewrite Hlen in E. simpl in E. lia.
      * intros _. simpl. rewrite length_drop. lia.
  - destruct IH as (bs & evs' & -> & ? & ? & ? & ? & Hs). exists bs, evs'. split_and!; try done.
    intros Hne. specialize (Hs Hne). lia.
Qed.

(** What the reader of a link leaves alone. *)
Definition same_out (l l' : link) : Prop :=
  fd l' = fd l ∧ attempts l' = attempts l ∧ c_fd (cur l') = c_fd (cur l) ∧
  c_wr (cur l') = c_wr (cur l) ∧ c_sent (cur l') = c_sent (cur l).

(** The open link [l] has [bs] to read, in any fragments. *)
Definition waiting (l : link) (bs : bytes) : Prop :=
  0 < fd l ∧ Forall live (c_in (cur l)) ∧ stream (c_in (cur l)) = bs.

Lemma same_out_trans l1 l2 l3 : same_out l1 l2 → same_out l2 l3 → same_out l1 l3.
Proof. unfold same_out. intuition congruence. Qed.

Lemma full_read_loop_ok fuel l n data rest acc :
  waiting l (data ++ rest) → n = Z.of_nat (length data) →
  (ev_size (c_in (cur l)) < fuel)%nat →
  ∃ l', full_read_loop fuel n acc l = Ret ((Z.of_nat (length (acc ++ data)), acc ++ data), l') ∧
    waiting l' rest ∧ same_out l l'.
Proof.
  revert l n data acc. induction fuel as [|fuel IH]; intros l n data acc (Hfd & Hl & Hs) -> Hf; [lia |].
  simpl. destruct (Z.ltb_spec 0 (Z.of_nat (length data))) as [Hlt|Hge].
  2: { destruct data; [| simpl in Hge; lia]. exists l. rewrite app_nil_r. done. }
  unfold mbind, cmd_bind, link_read. destruct (Z.ltb_spec (fd l) 0); [lia |].
  destruct (safe_read_live _ _ Hl Hlt) as (bs & evs' & -> & Hl' & Hs' & Hle & Hnil & Hsz).
  destruct bs as [|b bs].
  { specialize (Hnil eq_refl). rewrite Hs in Hnil. destruct data; done. }
  set (bb := b :: bs) in *. rewrite Hs in Hs'.
  assert (∃ data', data = bb ++ data') as [data' ->].
  { exists (drop (length bb) data). pose proof (f_equal (take (length bb)) Hs') as E.
    rewrite take_app_length, take_app_le in E by lia. by rewrite <- E at 1; rewrite take_drop. }
  rewrite <- (assoc app) in Hs'. apply app_inv_head in Hs'.
  set (l1 := set_cur _ l).
  destruct (IH l1 (Z.of_nat (length data')) data' (acc ++ bb)) as (l' & E & Hw & Hso); [| done | |].
  - unfold l1, waiting. simpl. done.
  - unfold l1. simpl. specialize (Hsz ltac:(done)). lia.
  - exists l'. rewrite length_app.
    replace (Z.of_nat (length bb + length data') - Z.of_nat (length bb)) with (Z.of_nat (length data')) by lia.
    rewrite E, (assoc app). split_and!; try done.
Qed.

Lemma full_read_ok l n data rest :
  waiting l (data ++ rest) → n = Z.of_nat (length data) →
  ∃ l', full_read n l = Ret ((n, data), l') ∧ waiting l' rest ∧ same_out l l'.
Proof.
  intros Hw ->. destruct (full_read_loop_ok (S (ev_size (c_in (cur l)))) l _ data rest [] Hw eq_refl)
    as (l' & E & ?); [lia |]. by exists l'.
Qed.

(** ** Answers *)

(** An answer of the daemon: a status, a length and data. *)
Definition answer (r : Z) (data : bytes) : bytes := be32 r ++ be32 (Z.of_nat (length data)) ++ data.

(** The caller's buffer after an answer. *)
Definition filled (buf data : bytes) : bytes :=
  match data with
  | [] => <[0%nat := 0]> buf
  | _ => data ++ replicate (length buf - length data) 0
  end.

Lemma mem_write_full b t :
  length t = length b → mem_write (Some b) 0 t = Ret (Some t).
Proof.
  intros Hl. destruct (mem_write_Ret b 0 t) as (b' & -> & _ & -> & _); [lia | lia |].
  simpl. by rewrite drop_ge, app_nil_r by lia.
Qed.

(** An answer that fits: what is left of the stream does not depend on the buffer. *)
Lemma receive_ok l ret0 r data rest n :
  waiting l (answer r data ++ rest) → INT_MIN <= r <= INT_MAX →
  (0 < n)%nat → (length data <= n)%nat → Z.of_nat n < 2 ^ 32 →
  ∃ l', waiting l' rest ∧ same_out l l' ∧
    ∀ buf, length buf = n →
      nbd_query_receive (Some buf) (Z.of_nat n) ret0 l
      = Ret ((Z.of_nat (length data), Some (filled buf data), r), l').
Proof.
  intros Hw Hr Hb Hd Hlen. unfold answer in Hw. rewrite <- !(assoc app) in Hw.
  destruct (full_read_ok l 4 (be32 r) _ Hw eq_refl) as (l1 & E1 & Hw1 & S1).
  destruct (full_read_ok l1 4 (be32 (Z.of_nat (length data))) _ Hw1 eq_refl) as (l2 & E2 & Hw2 & S2).
  destruct (full_read_ok l2 _ data rest Hw2 eq_refl) as (l3 & E3 & Hw3 & S3).
  assert (S12 : same_out l l2) by (by eapply same_out_trans).
  exists (if decide (data = []) then l2 else l3). split; [| split].
  1-2: case_decide; [by subst | by eauto using same_out_trans].
  intros buf <-. unfold nbd_query_receive, mbind, cmd_bind, lift. rewrite E1.
  cbv beta iota; change (4 <? 0) with false; cbv iota. rewrite into_int_be32, E2 by done.
  cbv beta iota; change (4 <? 0) with false; cbv iota. rewrite into_size_be32 by lia. cbv beta iota.
  destruct (Z.ltb_spec (Z.of_nat (length buf)) (Z.of_nat (length data))); [lia |].
  destruct (Z.eqb_spec (Z.of_nat (length data)) 0) as [E|E].
  - destruct data; [| done]. by rewrite wr_ok by lia.
  - rewrite Nat2Z.id, mem_write_full, E3 by apply length_replicate.
    destruct (mem_write_Ret (replicate (length buf) 0) 0 data) as (b' & -> & _ & -> & _);
      [lia | rewrite length_replicate; lia |].
    destruct (Z.ltb_spec (Z.of_nat (length data)) 0); [lia |].
    unfold mret, cmd_ret. simpl. rewrite drop_replicate. destruct data; done.
Qed.

Lemma receive_long l ret0 r data rest buf len :
  waiting l (answer r data ++ rest) → INT_MIN <= r <= INT_MAX →
  0 <= len < Z.of_nat (length data) → Z.of_nat (length data) < 2 ^ 32 →
  ∃ l', nbd_query_receive buf len ret0 l = Ret ((-1, buf, -1), l') ∧
    waiting l' (if (length data <? 512)%nat then rest else data ++ rest) ∧ same_out l l'.
Proof.
  intros Hw Hr Hd Hlen. unfold answer in Hw. rewrite <- !(assoc app) in Hw.
  unfold nbd_query_receive, mbind, cmd_bind, lift.
  destruct (full_read_ok l 4 (be32 r) _ Hw eq_refl) as (l1 & -> & Hw1 & S1). cbv beta iota; change (4 <? 0) with false; cbv iota.
  destruct (full_read_ok l1 4 (be32 (Z.of_nat (length data))) _ Hw1 eq_refl) as (l2 & -> & Hw2 & S2).
  cbv beta iota; change (4 <? 0) with false; cbv iota. rewrite into_size_be32 by lia. cbv beta iota.
  destruct (Z.ltb_spec len (Z.of_nat (length data))); [| lia].
  assert (S12 : same_out l l2) by (by eapply same_out_trans).
  destruct (Z.ltb_spec (Z.of_nat (length data)) 512), (Nat.ltb_spec (length data) 512); try lia.
  - destruct (full_read_ok l2 _ data rest Hw2 eq_refl) as (l3 & -> & Hw3 & S3).
    exists l3. split_and!; [done | done | by eapply same_out_trans].
  - by exists l2.
Qed.

(** ** Frames *)

(** The bytes the arguments take. *)
Definition args_size (args : list bytes) : Z := Z.of_nat (length (concat (cstr <$> args))).

Lemma args_size_cons t args : args_size (t :: args) = Z.of_nat (length t) + 1 + args_size args.
Proof.
  unfold args_size. rewrite fmap_cons. cbn [concat]. rewrite length_app.
  unfold cstr at 1. rewrite length_app. cbn [length]. lia.
Qed.

Lemma args_size_nonneg args : 0 <= args_size args.
Proof. unfold args_size. lia. Qed.

Lemma put32_cases b off z :
  0 <= off → (∃ b', put32 b off z = Ret b' ∧ length b' = length b) ∨ put32 b off z = Undef.
Proof.
  intros Ho. unfold put32. destruct (mem_write (Some b) off (be32 z)) as [[b'|]| | |] eqn:E; simpl.
  - left. exists b'. split; [done |]. by eapply mem_write_length.
  - by right.
  - by right.
  - unfold mem_write in E. by repeat case_match.
  - unfold mem_write in E. by repeat case_match.
Qed.

Lemma snprintf_cases b off size t :
  0 <= off →
  (∃ b', snprintf_at b off size t = Ret b' ∧ length b' = length b) ∨ snprintf_at b off size t = Undef.
Proof.
  intros Ho. unfold snprintf_at. destruct (size =? 0); [by left; exists b |].
  destruct (mem_write (Some b) off _) as [[b'|]| | |] eqn:E; simpl.
  - left. exists b'. split; [done |]. by eapply mem_write_length.
  - by right.
  - by right.
  - unfold mem_write in E. by repeat case_match.
  - unfold mem_write in E. by repeat case_match.
Qed.

(** Whatever is truncated, [end] moves by the size of the arguments. *)
Lemma put_args_end args buf argc end_ len :
  Forall (λ t, text t) args → 0 <= argc → 0 <= end_ →
  (∃ buf', put_args buf argc end_ len (cstr <$> args) = Ret (buf', end_ + args_size args) ∧
           length buf' = length buf) ∨
  put_args buf argc end_ len (cstr <$> args) = Undef.
Proof.
  intros Ha. revert buf argc end_ len. induction Ha as [|t args Ht Ha IH]; intros buf argc end_ len Hc He.
  { left. exists buf. simpl. unfold args_size. simpl. by rewrite Z.add_0_r. }
  cbn [fmap list_fmap put_args]. rewrite c_str_cstr by done. cbn [mbind outcome_bind].
  destruct (snprintf_cases buf end_ len t He) as [(b1 & -> & L1) | ->]; [| by right]. cbn [mbind outcome_bind].
  destruct (argc <? 12); [| by right].
  destruct (put32_cases b1 (4 + 4 * argc) (u32 (end_ - SIZEOF_QUERY))) as [(b2 & -> & L2) | ->];
    [lia | | by right]. cbn [mbind outcome_bind].
  destruct (put32_cases b2 0 (argc + 1)) as [(b3 & -> & L3) | ->]; [lia | | by right].
  cbn [mbind outcome_bind].
  destruct (IH b3 (argc + 1) (end_ + (Z.of_nat (length t) + 1)) (u32 (len - (Z.of_nat (length t) + 1))))
    as [(b4 & -> & L4) | ->]; [lia | lia | | by right].
  left. exists b4. rewrite args_size_cons. split; [do 2 f_equal; lia | congruence].
Qed.

(** The frame's buffer before the arguments. *)
Lemma build_query_start stack args :
  length stack = 512%nat →
  build_query stack args
  = ('(buf, end_) ← put_args (replicate 52 0 ++ 0 :: drop 53 stack) 0 52 459 args;
     buf ← wr buf (end_ + 1) 0; Ret (take (Z.to_nat (end_ + 1)) buf)).
Proof.
  intros Hl. unfold build_query. change (Z.to_nat SIZEOF_QUERY) with 52%nat.
  destruct (mem_write_Ret stack 0 (replicate 52 0)) as (b & -> & Hb & E & _); [lia | rewrite length_replicate; lia |].
  cbn [mbind outcome_bind must]. rewrite wr_ok by (unfold SIZEOF_QUERY; lia). cbn [mbind outcome_bind].
  replace (<[Z.to_nat SIZEOF_QUERY := 0]> b) with (replicate 52 0 ++ 0 :: drop 53 stack); [done |].
  rewrite E, length_replicate. change (take (Z.to_nat 0) stack) with (@nil Z).
  cbn [app]. change (Z.to_nat SIZEOF_QUERY) with 52%nat.
  rewrite insert_app_r_alt, length_replicate, Nat.sub_diag by (rewrite length_replicate; lia). f_equal.
  destruct (drop (Z.to_nat 0 + 52) stack) as [|c s] eqn:Ed.
  - apply (f_equal length) in Ed. rewrite length_drop in Ed. simpl in Ed. lia.
  - simpl. f_equal. change 53%nat with (52 + 1)%nat. rewrite <- drop_drop. change (Z.to_nat 0 + 52)%nat with 52%nat in Ed. by rewrite Ed.
Qed.

(** The header of a frame whose arguments start at the offsets [offs]. *)
Definition header (offs : list Z) : bytes :=
  be32 (Z.of_nat (length offs)) ++ concat (be32 <$> offs) ++ replicate (48 - 4 * length offs) 0.

Lemma concat_be32_length offs : length (concat (be32 <$> offs)) = (4 * length offs)%nat.
Proof. induction offs as [|o offs IH]; [done |]. rewrite fmap_cons. cbn [concat]. rewrite length_app, IH. simpl. lia. Qed.

Lemma header_length offs : (length offs <= 12)%nat → length (header offs) = 52%nat.
Proof. intros. unfold header. rewrite !length_app, concat_be32_length, length_replicate, be32_length. lia. Qed.

Lemma header_snoc offs o body :
  (length offs < 12)%nat →
  (b ← put32 (header offs ++ body) (4 + 4 * Z.of_nat (length offs)) o;
   put32 b 0 (Z.of_nat (length offs) + 1)) = Ret (header (offs ++ [o]) ++ body).
Proof.
  intros Hl. unfold put32, header.
  replace (replicate (48 - 4 * length offs) 0) with (replicate 4 0 ++ replicate (48 - 4 * S (length offs)) 0)
    by (rewrite <- replicate_add; f_equal; lia).
  replace ((be32 (Z.of_nat (length offs)) ++ concat (be32 <$> offs) ++ replicate 4 0 ++
            replicate (48 - 4 * S (length offs)) 0) ++ body)
    with ((be32 (Z.of_nat (length offs)) ++ concat (be32 <$> offs)) ++ replicate 4 0 ++
            (replicate (48 - 4 * S (length offs)) 0 ++ body)) by (by rewrite !(assoc app)).
  rewrite mem_write_mid; [| done | rewrite length_app, concat_be32_length, be32_length; lia].
  cbn [mbind outcome_bind must].
  change (mem_write (Some ((be32 (Z.of_nat (length offs)) ++ concat (be32 <$> offs)) ++ be32 o ++
           (replicate (48 - 4 * S (length offs)) 0 ++ body))))
    with (mem_write (Some ([] ++ be32 (Z.of_nat (length offs)) ++ (concat (be32 <$> offs) ++ be32 o ++
           (replicate (48 - 4 * S (length offs)) 0 ++ body))))).
  rewrite mem_write_mid by done. cbn [mbind outcome_bind must app].
  rewrite length_app, fmap_app, concat_app. cbn [length fmap list_fmap concat].
  f_equal. rewrite !app_nil_r, <- !(assoc app). f_equal; [f_equal; lia |].
  do 3 f_equal. f_equal. lia.
Qed.

(** Where the arguments start. *)
Fixpoint offsets (o : Z) (args : list bytes) : list Z :=
  match args with
  | [] => []
  | t :: args => o :: offsets (o + Z.of_nat (length t) + 1) args
  end.

Lemma offsets_length o args : length (offsets o args) = length args.
Proof. revert o. induction args; intros o; simpl; auto. Qed.

Lemma put_args_ok args offs body tail :
  Forall (λ t, text t) args → (length offs + length args <= 12)%nat →
  Z.of_nat (length body) + args_size args <= 459 → args_size args <= Z.of_nat (length tail) →
  put_args (header offs ++ body ++ tail) (Z.of_nat (length offs)) (52 + Z.of_nat (length body))
    (459 - Z.of_nat (length body)) (cstr <$> args)
  = Ret (header (offs ++ offsets (Z.of_nat (length body)) args) ++ (body ++ concat (cstr <$> args))
           ++ drop (Z.to_nat (args_size args)) tail,
         52 + Z.of_nat (length body) + args_size args).
Proof.
  intros Ha. revert offs body tail. induction Ha as [|t args Ht Ha IH]; intros offs body tail Hn Hs Htl.
  { simpl. unfold args_size. simpl. by rewrite !app_nil_r, Z.add_0_r. }
  rewrite args_size_cons in *. pose proof (args_size_nonneg args). simpl in Hn.
  rewrite fmap_cons. cbn [put_args]. rewrite c_str_cstr by done. cbn [mbind outcome_bind].
  set (n := Z.of_nat (length t)) in *.
  assert (Esn : snprintf_at (header offs ++ body ++ tail) (52 + Z.of_nat (length body))
            (459 - Z.of_nat (length body)) t
          = Ret (header offs ++ (body ++ cstr t) ++ drop (S (length t)) tail)).
  { unfold snprintf_at. destruct (Z.eqb_spec (459 - Z.of_nat (length body)) 0); [lia |].
    rewrite take_ge by lia. fold (cstr t).
    replace tail with (take (S (length t)) tail ++ drop (S (length t)) tail) at 1 by apply take_drop.
    rewrite (assoc app (header offs) body), mem_write_mid.
    - cbn [mbind outcome_bind must]. by rewrite <- !(assoc app).
    - unfold cstr. rewrite length_take, length_app. cbn [length]. lia.
    - rewrite length_app, header_length by lia. lia. }
  rewrite Esn. cbn [mbind outcome_bind].
  destruct (Z.ltb_spec (Z.of_nat (length offs)) 12); [| lia].
  pose proof (header_snoc offs (u32 (52 + Z.of_nat (length body) - SIZEOF_QUERY))
                ((body ++ cstr t) ++ drop (S (length t)) tail)) as Eh.
  specialize (Eh ltac:(lia)).
  destruct (put32 _ _ _) as [b2| | |] in Eh |- *; [| done ..]. cbn [mbind outcome_bind] in *.
  rewrite Eh. cbn [mbind outcome_bind].
  replace (u32 (52 + Z.of_nat (length body) - SIZEOF_QUERY)) with (Z.of_nat (length body))
    by (unfold SIZEOF_QUERY; rewrite u32_small; lia).
  specialize (IH (offs ++ [Z.of_nat (length body)]) (body ++ cstr t) (drop (S (length t)) tail)).
  assert (Hbl : Z.of_nat (length (body ++ cstr t)) = Z.of_nat (length body) + n + 1).
  { unfold cstr. rewrite !length_app. simpl. lia. }
  rewrite Hbl, (length_app offs), length_drop in IH. cbn [length] in IH.
  replace (Z.of_nat (length offs) + 1) with (Z.of_nat (length offs + 1)) by lia.
  replace (52 + Z.of_nat (length body) + (n + 1)) with (52 + (Z.of_nat (length body) + n + 1)) by lia.
  replace (u32 (459 - Z.of_nat (length body) - (n + 1))) with (459 - (Z.of_nat (length body) + n + 1))
    by (rewrite u32_small; lia).
  rewrite IH by lia. cbn [offsets concat]. fold n. rewrite <- !(assoc app), drop_drop. cbn [app].
  replace (Z.to_nat (n + 1 + args_size args)) with (S (length t) + Z.to_nat (args_size args))%nat by lia.
  f_equal. f_equal. lia.
Qed.

(** What the daemon finds in a frame: how many arguments, and the text at each offset. *)
Definition query_argc (frame : bytes) : Z := be_val (take 4 frame).

Definition query_argv (frame : bytes) (i : nat) : option bytes :=
  str_of (drop (52 + Z.to_nat (be_val (take 4 (drop (4 + 4 * i) frame)))) frame).

Lemma header_lookup offs o x i :
  offs !! i = Some o → take 4 (drop (4 + 4 * i) (header offs ++ x)) = be32 o.
Proof.
  intros Ho. pose proof (lookup_lt_Some _ _ _ Ho) as Hi. unfold header.
  rewrite <- (take_drop_middle offs i o Ho) at 2. rewrite fmap_app, concat_app, fmap_cons. cbn [concat].
  rewrite <- !(assoc app).
  rewrite (assoc app (be32 _) (concat _)), drop_app_length', (take_app_length' (be32 o)); [done | done |].
  rewrite length_app, concat_be32_length, length_take, be32_length. lia.
Qed.

Lemma offsets_lookup o args i t :
  args !! i = Some t →
  ∃ d rest, offsets o args !! i = Some (o + Z.of_nat d) ∧
    drop d (concat (cstr <$> args)) = cstr t ++ rest ∧ Z.of_nat d < args_size args.
Proof.
  revert o i. induction args as [|t0 args IH]; intros o i Hi; [done |].
  rewrite args_size_cons, fmap_cons. cbn [concat offsets]. pose proof (args_size_nonneg args).
  destruct i as [|i]; simpl in Hi.
  - simplify_eq. exists 0%nat, (concat (cstr <$> args)). cbn. rewrite Z.add_0_r. split_and!; [done | done | lia].
  - destruct (IH (o + Z.of_nat (length t0) + 1) i Hi) as (d & rest & Ho & Hd & Hlt).
    assert (Hc : length (cstr t0) = S (length t0)) by (unfold cstr; rewrite length_app; simpl; lia).
    exists (S (length t0) + d)%nat, rest. split_and!; [etransitivity; [exact Ho | f_equal; lia] | | lia].
    rewrite drop_app_ge by lia. rewrite Hc. replace (S (length t0) + d - S (length t0))%nat with d by lia. done.
Qed.

Lemma build_query_ok stack args :
  length stack = 512%nat → Forall (λ t, text t) args → (length args <= 12)%nat → args_size args <= 458 →
  ∃ c, build_query stack (cstr <$> args)
       = Ret (header (offsets 0 args) ++ concat (cstr <$> args) ++ [c]).
Proof.
  intros Hst Ha Hn Hs. rewrite build_query_start by done. pose proof (args_size_nonneg args).
  set (tail := 0 :: drop 53 stack). assert (Htl : length tail = 460%nat).
  { unfold tail. cbn [length]. rewrite length_drop. lia. }
  pose proof (put_args_ok args [] [] tail Ha) as E. cbn [length] in E.
  change (header [] ++ [] ++ tail) with (replicate 52 0 ++ tail) in E.
  change (Z.of_nat 0) with 0 in E. rewrite Z.add_0_r in E. change (459 - 0) with 459 in E.
  rewrite E by lia. cbn [mbind outcome_bind app].
  set (buf := header (offsets 0 args) ++ concat (cstr <$> args) ++ drop (Z.to_nat (args_size args)) tail).
  assert (Hbody : length (concat (cstr <$> args)) = Z.to_nat (args_size args)) by (unfold args_size; lia).
  assert (Hbl : length buf = 512%nat).
  { unfold buf. rewrite !length_app, header_length, length_drop, Hbody by (rewrite offsets_length; lia). lia. }
  rewrite wr_ok by lia. cbn [mbind outcome_bind].
  destruct (drop (Z.to_nat (args_size args)) tail) as [|c tl] eqn:Ed.
  { apply (f_equal length) in Ed. rewrite length_drop, Htl in Ed. simpl in Ed. lia. }
  exists c. f_equal. rewrite take_insert_ge by lia. unfold buf.
  replace (header (offsets 0 args) ++ concat (cstr <$> args) ++ c :: tl)
    with ((header (offsets 0 args) ++ concat (cstr <$> args) ++ [c]) ++ tl) by (by rewrite <- !(assoc app)).
  apply take_app_length'. rewrite !length_app, header_length, Hbody by (rewrite offsets_length; lia).
  simpl. lia.
Qed.

(** C21: a query of at most twelve arguments that take at most 458 bytes with their
    terminators is sent as a frame in which the daemon finds them again: their number,
    and each text at its offset.  The frame is 53 bytes longer than the arguments. *)
Theorem nbd_query_frame_roundtrip stack args :
  length stack = 512%nat → Forall (λ t, text t) args → (length args <= 12)%nat → args_size args <= 458 →
  ∃ frame, build_query stack (cstr <$> args) = Ret frame ∧
    Z.of_nat (length frame) = 53 + args_size args ∧ query_argc frame = Z.of_nat (length args) ∧
    ∀ i t, args !! i = Some t → query_argv frame i = Some t.
Proof.
  intros Hst Ha Hn Hs. destruct (build_query_ok stack args Hst Ha Hn Hs) as (c & E).
  eexists; split; [exact E |]. pose proof (offsets_length 0 args) as Hol.
  split_and!.
  - rewrite !length_app, header_length by lia. unfold args_size. simpl. lia.
  - unfold query_argc, header. rewrite <- (assoc app), (take_app_length' (be32 _)) by done.
    rewrite be_val_be32, Hol. apply u32_small. lia.
  - intros i t Hi. destruct (offsets_lookup 0 args i t Hi) as (d & rest & Ho & Hd & Hlt).
    unfold query_argv. rewrite (header_lookup _ _ _ _ Ho), be_val_be32, u32_small by lia.
    rewrite drop_app_ge by (rewrite header_length; lia). rewrite header_length by lia.
    replace (52 + Z.to_nat (0 + Z.of_nat d) - 52)%nat with d by lia.
    rewrite drop_app_le, Hd by (unfold args_size in Hlt; lia). unfold cstr. rewrite <- !(assoc app).
    apply str_of_app. by eapply Forall_lookup_1 in Ha.
Qed.

Definition sample_stack : bytes := replicate 512 170.
Definition sample_query : list bytes := [lit "nvram"; lit "set"; lit "web_lang"; lit "fr"].

Lemma sample_query_text : Forall (λ t, text t) sample_query.
Proof. repeat constructor; done. Qed.

Lemma nbd_query_frame_roundtrip_witness :
  ∃ frame, build_query sample_stack (cstr <$> sample_query) = Ret frame ∧
    Z.of_nat (length frame) = 75 ∧ query_argc frame = 4 ∧
    ∀ i t, sample_query !! i = Some t → query_argv frame i = Some t.
Proof.
  apply (nbd_query_frame_roundtrip sample_stack sample_query);
    [done | apply sample_query_text | simpl; lia | by vm_compute].
Defined.

(** Arguments that take more than 458 bytes run over the buffer of the query:
    [snprintf] cuts the text but [end] moves by its whole length. *)
Theorem nbd_query_long_arguments_overflow stack args :
  length stack = 512%nat → Forall (λ t, text t) args → 458 < args_size args →
  build_query stack (cstr <$> args) = Undef.
Proof.
  intros Hst Ha Hs. rewrite build_query_start by done.
  destruct (put_args_end args (replicate 52 0 ++ 0 :: drop 53 stack) 0 52 459 Ha) as [(b & -> & Hl) | ->];
    [lia | lia | | done].
  cbn [mbind outcome_bind]. rewrite length_app, length_replicate in Hl. cbn [length] in Hl.
  rewrite length_drop, Hst in Hl. unfold wr.
  destruct (Z.leb_spec 0 (52 + args_size args + 1)), (Z.ltb_spec (52 + args_size args + 1) (Z.of_nat (length b)));
    try lia; done.
Qed.

Lemma nbd_query_long_arguments_overflow_witness :
  build_query sample_stack (cstr <$> [lit "nvram"; lit "set"; lit "web_login"; replicate 450 65]) = Undef.
Proof.
  apply nbd_query_long_arguments_overflow; [done | | by vm_compute].
  repeat constructor; done.
Defined.

(** ** Queries *)

(** A connection that takes what is written, signals apart. *)
Definition calm (e : wr_event) : Prop :=
  match e with WAll | WIntr => True | _ => False end.

Definition ready (l : link) (bs : bytes) : Prop := waiting l bs ∧ Forall calm (c_wr (cur l)).

Lemma safe_write_calm evs buf :
  Forall calm evs → ∃ evs', safe_write evs buf = (Z.of_nat (length buf), false, buf, evs') ∧ Forall calm evs'.
Proof.
  induction 1 as [|e evs He Hl IH]; [by exists [] |].
  destruct e; simpl in He |- *; try done. by exists evs.
Qed.

Lemma link_write_ok l bs buf :
  ready l bs →
  ∃ l', link_write buf l = Ret ((Z.of_nat (length buf), false), l') ∧ ready l' bs ∧
    c_sent (cur l') = c_sent (cur l) ++ buf.
Proof.
  intros ((Hfd & Hl & Hs) & Hc). unfold link_write. destruct (Z.ltb_spec (fd l) 0); [lia |].
  destruct (safe_write_calm _ buf Hc) as (evs' & -> & Hc'). eexists; split; [done |]. done.
Qed.

(** A query the protocol carries. *)
Definition query_ok (args : list bytes) : Prop :=
  Forall (λ t, text t) args ∧ (length args <= 12)%nat ∧ args_size args <= 458.

Lemma query_send_ok stack l bs args :
  length stack = 512%nat → query_ok args → ready l bs →
  ∃ frame n l', build_query stack (cstr <$> args) = Ret frame ∧
    nbd_query_send stack (cstr <$> args) l = Ret (n, l') ∧ 0 <= n ∧ ready l' bs ∧
    c_sent (cur l') = c_sent (cur l) ++ be32 (Z.of_nat (length frame)) ++ frame.
Proof.
  intros Hst (Ha & Hn & Hs) Hr. destruct (build_query_ok stack args Hst Ha Hn Hs) as (c & E).
  set (frame := _ ++ _) in E. exists frame, (Z.of_nat (length frame)).
  unfold nbd_query_send, mbind, cmd_bind. rewrite E. cbn [lift].
  destruct (link_write_ok l bs (be32 (Z.of_nat (length frame))) Hr) as (l1 & -> & Hr1 & Hs1).
  cbv beta iota. change (Z.of_nat (length (be32 (Z.of_nat (length frame)))) <? 0) with false. cbv iota.
  destruct (link_write_ok l1 bs frame Hr1) as (l2 & -> & Hr2 & Hs2).
  exists l2. split_and!; try done; try lia; by rewrite Hs2, Hs1, <- (assoc app).
Qed.

Lemma ready_same l l' bs bs' : ready l bs → waiting l' bs' → same_out l l' → ready l' bs'.
Proof. intros [_ Hc] Hw (_ & _ & _ & E & _). split; [done |]. by rewrite E. Qed.

Lemma nbd_query_ok stack l args r data rest n :
  length stack = 512%nat → query_ok args → ready l (answer r data ++ rest) →
  INT_MIN <= r <= INT_MAX → (0 < n)%nat → (length data <= n)%nat → Z.of_nat n < 2 ^ 32 →
  ∃ l', ready l' rest ∧
    ∀ buf, length buf = n →
      nbd_query stack (Some buf) (Z.of_nat n) (cstr <$> args) l = Ret ((r, Some (filled buf data)), l').
Proof.
  intros Hst Hq Hr Hint Hb Hd Hlen.
  destruct (query_send_ok stack l _ args Hst Hq Hr) as (frame & z & l1 & _ & E1 & Hn & Hr1 & _).
  destruct (receive_ok l1 z r data rest n (proj1 Hr1) Hint Hb Hd Hlen) as (l2 & Hw & Hso & E2).
  exists l2. split; [by eapply ready_same |]. intros buf Hbuf.
  unfold nbd_query, mbind, cmd_bind. rewrite E1. destruct (Z.ltb_spec z 0); [lia |]. by rewrite (E2 buf Hbuf).
Qed.

(** Without a buffer, as a query that sets a value has none, an answer without data. *)
Lemma receive_null l ret0 r rest :
  waiting l (answer r [] ++ rest) → INT_MIN <= r <= INT_MAX →
  ∃ l', nbd_query_receive None 0 ret0 l = Ret ((0, None, r), l') ∧ waiting l' rest ∧ same_out l l'.
Proof.
  intros Hw Hr. unfold answer in Hw. rewrite <- !(assoc app) in Hw. unfold nbd_query_receive, mbind, cmd_bind, lift.
  destruct (full_read_ok l 4 (be32 r) _ Hw eq_refl) as (l1 & -> & Hw1 & S1). cbv beta iota; change (4 <? 0) with false; cbv iota.
  destruct (full_read_ok l1 4 (be32 0) _ Hw1 eq_refl) as (l2 & -> & Hw2 & S2). rewrite into_int_be32 by done.
  cbv beta iota; change (4 <? 0) with false; cbv iota. rewrite into_size_be32 by lia.
  exists l2. split; [done|]. split; [exact Hw2|by eapply same_out_trans].
Qed.

(** An exchange: the query and the caller's buffer, if any, the daemon's status and data. *)
Record exchange := Exchange { x_args : list bytes; x_buf : option bytes; x_ret : Z; x_data : bytes }.

Definition capacity (x : exchange) : nat := match x_buf x with Some b => length b | None => 0 end.

(** The data fits in the buffer, or is short enough to be read away. *)
Definition exchange_ok (x : exchange) : Prop :=
  query_ok (x_args x) ∧ INT_MIN <= x_ret x <= INT_MAX ∧ x_buf x ≠ Some [] ∧ Z.of_nat (capacity x) < 2 ^ 32 ∧
  (length (x_data x) <= capacity x ∨ length (x_data x) < 512)%nat.

(** What the caller gets: the status and the data, or -1 and its buffer as it was when
    the data does not fit. *)
Definition received (x : exchange) : Z * option bytes :=
  if (length (x_data x) <=? capacity x)%nat then (x_ret x, (λ b, filled b (x_data x)) <$> x_buf x) else (-1, x_buf x).

Lemma nbd_query_received stack l x rest :
  length stack = 512%nat → exchange_ok x → ready l (answer (x_ret x) (x_data x) ++ rest) →
  ∃ l', nbd_query stack (x_buf x) (Z.of_nat (capacity x)) (cstr <$> x_args x) l = Ret (received x, l') ∧ ready l' rest.
Proof.
  destruct x as [args buf r data]. unfold exchange_ok, received, capacity. cbn [x_args x_buf x_ret x_data].
  intros Hst (Hq & Hi & Hb & Hc & Hd) Hr. destruct (Nat.leb_spec (length data) (match buf with Some b => length b | None => 0 end)) as [Hf|Hf].
  - destruct buf as [b|].
    + destruct (nbd_query_ok stack l args r data rest (length b) Hst Hq Hr Hi) as (l' & Hr' & E); [|done..|].
      { by destruct b; [|simpl; lia]. }
      exists l'. by rewrite (E b).
    + destruct data; [|simpl in Hf; lia].
      destruct (query_send_ok stack l _ args Hst Hq Hr) as (frame & z & l1 & _ & E1 & Hn & Hr1 & _).
      destruct (receive_null l1 z r rest (proj1 Hr1) Hi) as (l2 & E2 & Hw & Hso). exists l2. split; [|by eapply ready_same].
      unfold nbd_query, mbind, cmd_bind. rewrite E1. destruct (Z.ltb_spec z 0); [lia |]. change (Z.of_nat 0) with 0. by rewrite E2.
  - destruct (query_send_ok stack l _ args Hst Hq Hr) as (frame & z & l1 & _ & E1 & Hn & Hr1 & _).
    destruct (receive_long l1 z r data rest buf (Z.of_nat (match buf with Some b => length b | None => 0 end)) (proj1 Hr1) Hi)
      as (l2 & E2 & Hw & Hso); [lia|lia|].
    exists l2. rewrite (proj2 (Nat.ltb_lt _ _)) in Hw by lia. split; [|by eapply ready_same].
    unfold nbd_query, mbind, cmd_bind. rewrite E1. destruct (Z.ltb_spec z 0); [lia |]. by rewrite E2.
Qed.

Fixpoint exec_queries (stack : bytes) (xs : list exchange) : M (list (Z * option bytes)) :=
  match xs with
  | [] => mret []
  | x :: xs =>
      r ← nbd_query stack (x_buf x) (Z.of_nat (capacity x)) (cstr <$> x_args x);
      rs ← exec_queries stack xs;
      mret (r :: rs)
  end.

(** C18: a sequence of queries gets its answers.  However the stream of answers is cut
    into fragments and interrupted by signals, each query, with or without a buffer,
    returns the status and the data of its own answer when the data fits in its buffer
    (a query without a buffer takes an answer without data), and -1 with its buffer
    untouched when the data does not fit; the stream is left exactly behind the last
    answer.  It is supposed that a query has at most twelve texts of at most 458 bytes in
    all, that a buffer is not empty, that writes are not refused, and that an answer that
    does not fit has less than 512 bytes of data: longer ones are left in the stream
    ([nbd_query_long_answer]). *)
Theorem nbd_queries_get_their_answers stack l xs rest :
  length stack = 512%nat → Forall exchange_ok xs →
  ready l (concat ((λ x, answer (x_ret x) (x_data x)) <$> xs) ++ rest) →
  ∃ l', exec_queries stack xs l = Ret (received <$> xs, l') ∧ ready l' rest.
Proof.
  intros Hst Hx. revert l. induction Hx as [|x xs Hok Hx IH]; intros l Hr; [by exists l |].
  rewrite fmap_cons in Hr. cbn [concat] in Hr. rewrite <- (assoc app) in Hr.
  destruct (nbd_query_received stack l x _ Hst Hok Hr) as (l1 & E1 & Hr1).
  destruct (IH l1 Hr1) as (l2 & E2 & Hr2). exists l2. cbn [exec_queries].
  unfold mbind, cmd_bind. by rewrite E1, E2.
Qed.

Definition sample_link (ins : list rd_event) : link := Link 5 (Conn 5 ins [WIntr; WAll] []) [].

Lemma nbd_queries_get_their_answers_witness :
  ∃ l', exec_queries sample_stack
          [Exchange [lit "nvram"; lit "get"; lit "web_lang"] (Some (replicate 4 9)) 0 (lit "fr");
           Exchange [lit "nvram"; lit "get"; lit "web_auth"] (Some (replicate 2 9)) 0 (lit "all");
           Exchange [lit "nvram"; lit "set"; lit "web_lang"; lit "en"] None 1 [];
           Exchange sample_query (Some (replicate 4 9)) (-1) []]
          (sample_link [RData (be32 0 ++ [0; 0]); RIntr; RData ([0; 2] ++ lit "f"); RData (lit "r" ++ answer 0 (lit "all"));
                        RData (answer 1 []); RData (be32 (-1)); RData (be32 0); RData [77]])
        = Ret ([(0, Some (lit "fr" ++ [0; 0])); (-1, Some [9; 9]); (1, None); (-1, Some [0; 9; 9; 9])], l') ∧ ready l' [77].
Proof.
  apply (nbd_queries_get_their_answers sample_stack _
    [Exchange [lit "nvram"; lit "get"; lit "web_lang"] (Some (replicate 4 9)) 0 (lit "fr");
     Exchange [lit "nvram"; lit "get"; lit "web_auth"] (Some (replicate 2 9)) 0 (lit "all");
     Exchange [lit "nvram"; lit "set"; lit "web_lang"; lit "en"] None 1 [];
     Exchange sample_query (Some (replicate 4 9)) (-1) []]).
  - done.
  - unfold exchange_ok, query_ok, capacity, INT_MIN, INT_MAX. repeat constructor; simpl; try lia; done.
  - unfold ready, waiting. split_and!; try done; repeat constructor; done.
Defined.

(** An answer longer than the caller's buffer is refused with -1.  Below 512 bytes
    its data is read away; from 512 bytes on it stays in the stream, where the next query
    takes it for the status and the length of its own answer. *)
Theorem nbd_query_long_answer stack l args r data rest buf :
  length stack = 512%nat → query_ok args → ready l (answer r data ++ rest) →
  INT_MIN <= r <= INT_MAX → (length buf < length data)%nat → Z.of_nat (length data) < 2 ^ 32 →
  ∃ l', nbd_query stack (Some buf) (Z.of_nat (length buf)) (cstr <$> args) l
        = Ret ((-1, Some buf), l') ∧
    ready l' (if (length data <? 512)%nat then rest else data ++ rest).
Proof.
  intros Hst Hq Hr Hint Hd Hlen.
  destruct (query_send_ok stack l _ args Hst Hq Hr) as (frame & n & l1 & _ & E1 & Hn & Hr1 & _).
  unfold nbd_query, mbind, cmd_bind. rewrite E1. destruct (Z.ltb_spec n 0); [lia |].
  destruct (receive_long l1 n r data rest (Some buf) (Z.of_nat (length buf)) (proj1 Hr1)) as (l2 & -> & Hw & Hso);
    try done; [lia |].
  exists l2. split; [done |]. by eapply ready_same.
Qed.

Lemma nbd_query_long_answer_witness :
  ∃ l', nbd_query sample_stack (Some (replicate 64 0)) 64 (cstr <$> sample_query)
          (sample_link [RData (answer 0 (replicate 600 65) ++ answer 0 (lit "on"))])
        = Ret ((-1, Some (replicate 64 0)), l') ∧
    ready l' (replicate 600 65 ++ answer 0 (lit "on")).
Proof.
  apply (nbd_query_long_answer sample_stack _ sample_query 0 (replicate 600 65) _ (replicate 64 0)).
  - done.
  - split_and!; [apply sample_query_text | simpl; lia | by vm_compute].
  - unfold ready, waiting. split_and!; try done; repeat constructor; done.
  - unfold INT_MIN, INT_MAX. lia.
  - by apply Nat.ltb_lt.
  - by vm_compute.
Defined.
