(* ===== verification/ApiSession.v ===== *)
(** The sessions of the REST API daemon:
    [src/efixo/efixo-api/src/src/ewf_session.c].

    The list and the store of sessions are those of [EwfSession]; here the id is
    printed in the caller's buffer, and a session is activated apart. *)

From stdpp Require Import base tactics list gmap strings.
From S2P Require Import Prelude.
From S2P Require Import Dll.
From S2P Require Import CString.
From S2P Require Import NbuList.
From S2P Require Import NbuString.
From S2P Require Import EwfHdf.
From S2P Require Import EwfSession.
Import NbuList NbuString EwfHdf.

Module ApiSession.

Definition CHALLENGE_SIZE : Z := 40.
Definition PRESESSION_TIMEOUT : Z := 300.
Definition PRESESSION_TIMEOUT_FAST : Z := 5.

Section ops.
Context {H : Type}.

(** [rdm] is what the array of 20 bytes holds after the read of /dev/random, whose
    status the code does not look at. *)
Context (clock : nat → timeval) (rdm : nat → bytes).

Abbreviation M := (cmd (world H)).

Definition file_read_random : M bytes := λ w,
  Ret (rdm (w_draw w),
       World (w_heap w) (w_list w) (w_sess w) (w_fresh w) (w_tick w) (S (w_draw w)) (w_hdf w)
         (w_cookies w)).

(** The status and [*session], which is the last session visited when none is found. *)
Definition ewf_session_get (session_id : option bytes) : M (Z * option loc) :=
  match session_id with
  | None => mret (EWF_ERROR, None)
  | Some sid =>
      '(found, session) ← for_each_session (λ p _,
        s ← load_session p;
        b ← lift (same_id s sid);
        mret (if b : bool then inr (true, Some p) else inl (false, Some p))) (false, None);
      mret (if found : bool then EWF_SUCCESS else EWF_ERROR, session)
  end.

Definition ewf_session_cleaner : M Z :=
  now ← gettimeofday clock;
  for_each_session (λ p count,
    s ← load_session p;
    if (activated s =? 0) && (s32 (tv_sec (tv s) + PRESESSION_TIMEOUT) <? tv_sec now)
    then delete_session;; mret (inl (count + 1))
    else if s32 (tv_sec (tv s) + SESSION_TIMEOUT) <? tv_sec now
    then delete_session;; mret (inl (count + 1))
    else mret (inl count)) 0.

(** The status and the token's buffer. *)
Definition ewf_session_create (buf_token : option bytes) (buf_token_size : Z) : M (Z * option bytes) :=
  match buf_token with
  | None => λ _, Abort
  | Some buf =>
      if buf_token_size <=? CHALLENGE_SIZE then mret (EWF_ERROR, Some buf)
      else
        now ← gettimeofday clock;
        ewf_session ← calloc_session;
        bs ← file_read_random;
        buf ← lift (print_id buf 0 bs);
        buf ← lift (wr buf CHALLENGE_SIZE 0);
        match ewf_session with
        | None => λ _, Undef
        | Some p =>
            s ← load_session p;
            '(_, id') ← lift (nbu_string_copy (Some (id s)) (CHALLENGE_SIZE + 1) (Some buf));
            id' ← lift (must id');
            store_session p (λ _, Session 0 id' now);;
            l ← (λ w, Ret (w_list w, w));
            r ← on_list (nbu_list_insert_end l (Some p));
            mret (if r =? NBU_SUCCESS then EWF_SUCCESS else EWF_ERROR, Some buf)
        end
  end.

Definition ewf_session_remove (session_id : option bytes) : M Z :=
  match session_id with
  | None => mret EWF_ERROR
  | Some sid =>
      found ← for_each_session (λ p found,
        s ← load_session p;
        b ← lift (same_id s sid);
        if b : bool then delete_session;; mret (inr true) else mret (inl found)) false;
      mret (if found : bool then EWF_SUCCESS else EWF_ERROR)
  end.

Definition ewf_session_check (session : option loc) : M Z :=
  match session with
  | None => mret EWF_ERROR
  | Some p =>
      now ← gettimeofday clock;
      s ← load_session p;
      if activated s =? 0 then mret EWF_ERROR
      else if tv_sec now <=? s32 (tv_sec (tv s) + SESSION_TIMEOUT) then
        store_session p (set_tv now);;
        mret EWF_SUCCESS
      else
        ewf_session_remove (Some (id s));;
        mret EWF_ERROR
  end.

Definition ewf_session_validate (session : option loc) : M Z :=
  match session with
  | None => λ _, Abort
  | Some p =>
      now ← gettimeofday clock;
      store_session p (λ s, Session 1 (id s) (tv s));;
      store_session p (set_tv now);;
      mret EWF_SUCCESS
  end.

Definition ewf_session_count : M Z :=
  l ← (λ w, Ret (w_list w, w));
  on_list (nbu_list_count l).

End ops.

End ApiSession.
