(* ===== verification/Api.v ===== *)
(** The REST API daemon: [api_common.c], [ewf_http.c], [ewf_fastcgi.c],
    [ewf_hashtable.c], [ewf_crypto.c] and [ctl/auth.c] under
    [src/efixo/efixo-api/src/src].

    The data set of the request is ClearSilver's ([Hdf]), the configuration daemon
    is reached through [NbdOps], the digests are tropicssl's.  A function pointer is
    an index in the table [code] of the registered actions.  [hsearch_r] is the C
    library's: it enters a key once, and fails when the table is full. *)

From stdpp Require Import base tactics list gmap strings.
From S2P Require Import Prelude.
From S2P Require Import Dll.
From S2P Require Import CString.
From S2P Require Import NbuList.
From S2P Require Import NbuString.
From S2P Require Import NbuNet.
From S2P Require Import EwfHdf.
From S2P Require Import EwfSession.
From S2P Require Import EwfSmith.
From S2P Require Import NbdQueries.
From S2P Require Import ApiSession.
Import NbuList NbuString NbuNet EwfHdf EwfSmith NbdQueries ApiSession.

Module Api.

Definition NBD_SUCCESS : Z := 0.

Inductive ewf_http_request_method_t :=
| EWF_HTTP_REQUEST_METHOD_UNKNOWN
| EWF_HTTP_REQUEST_METHOD_GET
| EWF_HTTP_REQUEST_METHOD_POST
| EWF_HTTP_REQUEST_METHOD_PUT
| EWF_HTTP_REQUEST_METHOD_DELETE.

#[export] Instance http_method_dec : EqDecision ewf_http_request_method_t.
Proof. solve_decision. Defined.

Inductive api_access_policy_t := API_ACCESS_POLICY_PUBLIC | API_ACCESS_POLICY_PRIVATE.

Inductive api_error_t :=
| API_ERROR_UNKNOWN
| API_ERROR_FORMAT_NOT_FOUND
| API_ERROR_METHOD_NOT_FOUND
| API_ERROR_NEED_ARG
| API_ERROR_INVALID_ARG
| API_ERROR_NEED_AUTH
| API_ERROR_BOX_UPGRADING.

Definition error_table (e : api_error_t) : bytes * bytes :=
  match e with
  | API_ERROR_UNKNOWN => (lit "0", lit "Unknown error")
  | API_ERROR_FORMAT_NOT_FOUND => (lit "111", lit "Format not found")
  | API_ERROR_METHOD_NOT_FOUND => (lit "112", lit "Method not found")
  | API_ERROR_NEED_ARG => (lit "113", lit "Need argument(s)")
  | API_ERROR_INVALID_ARG => (lit "114", lit "Invalid argument(s)")
  | API_ERROR_NEED_AUTH => (lit "115", lit "Need authentication")
  | API_ERROR_BOX_UPGRADING => (lit "120", lit "The box being upgrade")
  end.

Record api_method_t := ApiMethod {
  request_method : ewf_http_request_method_t;
  access_policy : api_access_policy_t;
  action_handler : option nat;
}.

(** An [ewf_hashtable_t *]. *)
Inductive htab :=
| HNull
| HFreed
| HLive (size : Z) (entries : list (bytes * api_method_t)).

(** The daemon's state: sessions and request data, the link to the configuration
    daemon, the global buffer, the method table, the templates displayed. *)
Record api (H D : Type) := MkApi {
  a_w : world H;
  a_nbd : D;
  a_buffer : bytes;
  a_list : htab;
  a_initialized : Z;
  a_out : list bytes;
}.

Arguments MkApi {H D}.
Arguments a_w {H D}.
Arguments a_nbd {H D}.
Arguments a_buffer {H D}.
Arguments a_list {H D}.
Arguments a_initialized {H D}.
Arguments a_out {H D}.

Section api.
Context {H : Type} `{Hdf H} {D : Type} `{NbdOps D}.
Context (clock : nat → timeval) (rdm : nat → bytes).
Context (sha256 : bytes → bytes) (hmac_sha256 : bytes → bytes → bytes).

(** [cgi_parse] of ClearSilver, and the slots [hcreate_r] makes for a size. *)
Context (cgi_parse : H → H) (table_size : Z → Z).

Abbreviation A := (api H D).
Abbreviation M := (cmd A).

Definition set_w (w : world H) (a : A) : A :=
  MkApi w (a_nbd a) (a_buffer a) (a_list a) (a_initialized a) (a_out a).
Definition set_nbd (d : D) (a : A) : A :=
  MkApi (a_w a) d (a_buffer a) (a_list a) (a_initialized a) (a_out a).
Definition set_buffer (b : bytes) (a : A) : A :=
  MkApi (a_w a) (a_nbd a) b (a_list a) (a_initialized a) (a_out a).
Definition set_methods (t : htab) (i : Z) (a : A) : A :=
  MkApi (a_w a) (a_nbd a) (a_buffer a) t i (a_out a).

(** The state, and commands of its parts. *)
Definition state : M A := get_st.
Definition undef {X} : M X := λ _, Undef.
Definition on_world {X} (m : cmd (world H) X) : M X := zoom a_w set_w m.
Definition on_nbd {X} (m : cmd D X) : M X := zoom a_nbd set_nbd m.
Definition on_data {X} (m : cmd H X) : M X := on_world (on_hdf m).

(** *** ewf_hashtable.c *)
Definition alloc : M bool := λ a,
  let w := a_w a in let h := w_heap w in
  match h_avail h with
  | O => Ret (false, a)
  | S k => Ret (true, set_w (set_heap (Heap (h_next h) (h_prev h) (h_data h) (h_lst h) (h_fresh h) k (h_log h)) w) a)
  end.

Definition ewf_hashtable_create (size : Z) : M Z :=
  ok ← alloc;
  if negb ok then mod_st (λ a, set_methods HNull (a_initialized a) a);; mret EWF_ERROR
  else
    ok ← alloc;
    if negb ok then mod_st (λ a, set_methods (HLive 0 []) (a_initialized a) a);; mret EWF_ERROR
    else mod_st (λ a, set_methods (HLive (table_size size) []) (a_initialized a) a);; mret EWF_SUCCESS.

Definition ewf_hashtable_destroy : M Z :=
  a ← state;
  match a_list a with
  | HNull => mret EWF_ERROR
  | HFreed => undef
  | HLive _ _ => mod_st (λ a, set_methods HFreed (a_initialized a) a);; mret EWF_SUCCESS
  end.

Definition ewf_hashtable_insert (key : bytes) (data : api_method_t) : M Z :=
  a ← state;
  match a_list a with
  | HNull | HFreed => undef
  | HLive size entries =>
      match hsearch entries key with
      | Some _ => mret EWF_SUCCESS
      | None =>
          if Z.of_nat (length entries) <? size then
            mod_st (λ a, set_methods (HLive size (entries ++ [(key, data)])) (a_initialized a) a);;
            mret EWF_SUCCESS
          else mret EWF_ERROR
      end
  end.

Definition ewf_hashtable_find (key : bytes) : M (Z * option api_method_t) :=
  a ← state;
  match a_list a with
  | HNull | HFreed => undef
  | HLive _ entries =>
      match hsearch entries key with
      | Some m => mret (EWF_SUCCESS, Some m)
      | None => mret (EWF_ERROR, None)
      end
  end.

(** *** ewf_crypto.c, a copy of libewf's *)
Definition ewf_crypto_hmac_sha256_mac (key : bytes) (msg : option bytes) : M (Z * option bytes) :=
  on_world (EwfSmith.ewf_crypto_hmac_sha256_mac hmac_sha256 key msg).

Definition ewf_crypto_sha256_hash (msg : option bytes) : M (Z * option bytes) :=
  on_world (EwfSmith.ewf_crypto_sha256_hash sha256 msg).

(** *** ewf_http.c *)

(** A [%] without an argument is undefined. *)
Definition hdf_get_valuef (fmt : bytes) : M (option bytes) :=
  if existsb (Z.eqb 37) fmt then undef else on_data (hdf_get_value fmt).

Definition decode_method (method : bytes) : outcome ewf_http_request_method_t :=
  c3 ← rd method 3;
  g ← (if c3 =? 0 then strncmp (str "GET") method 3 else Ret 1);
  if g =? 0 then Ret EWF_HTTP_REQUEST_METHOD_GET
  else
    c4 ← rd method 4;
    p ← (if c4 =? 0 then strncmp (str "POST") method 4 else Ret 1);
    if p =? 0 then Ret EWF_HTTP_REQUEST_METHOD_POST
    else
      c3 ← rd method 3;
      p ← (if c3 =? 0 then strncmp (str "PUT") method 3 else Ret 1);
      if p =? 0 then Ret EWF_HTTP_REQUEST_METHOD_PUT
      else
        c6 ← rd method 6;
        d ← (if c6 =? 0 then strncmp (str "DELETE") method 6 else Ret 1);
        if d =? 0 then Ret EWF_HTTP_REQUEST_METHOD_DELETE
        else Ret EWF_HTTP_REQUEST_METHOD_UNKNOWN.

Definition ewf_http_request_method : M ewf_http_request_method_t :=
  method ← hdf_get_valuef (lit "CGI.RequestMethod");
  match method with
  | None => mret EWF_HTTP_REQUEST_METHOD_UNKNOWN
  | Some method => lift (decode_method (cstr method))
  end.

Definition ewf_http_request_uri : M (option bytes) := hdf_get_valuef (lit "CGI.RequestURI").

(** *** api_common.c: values and errors *)
Definition api_set_value (name value : option bytes) : M unit :=
  match name, value with
  | Some name, Some value =>
      '(r, buf) ← lift (print_name 64 name);
      if r =? -1 then mret tt else on_data (hdf_set_value buf value)
  | _, _ => mret tt
  end.

Definition api_set_custom_error (err_id err_msg : bytes) : M unit :=
  api_set_value (Some (lit "stat")) (Some (lit "fail"));;
  api_set_value (Some (lit "err.code")) (Some err_id);;
  api_set_value (Some (lit "err.msg")) (Some err_msg).

Definition api_set_error (error : api_error_t) : M unit :=
  api_set_custom_error (error_table error).1 (error_table error).2.

Definition api_get_parameter (name : option bytes) : M (option bytes) :=
  match name with
  | None => mret None
  | Some name =>
      a ← state;
      b ← lift (buf_of (nbu_string_printf (Some (a_buffer a)) 256 (lit "Query." ++ name)));
      mod_st (set_buffer b);;
      t ← lift (c_str b);
      on_data (hdf_get_value t)
  end.

(** *** ewf_fastcgi.c *)
Definition ewf_fastcgi_set_content_type (type : bytes) : M unit :=
  api_set_value (Some (lit "cgiout.ContentType")) (Some type).

Definition ewf_fastcgi_parse : M unit := on_data (mod_st cgi_parse).

Definition ewf_fastcgi_display (name : bytes) : M unit :=
  t ← lift (c_str name);
  mod_st (λ a, MkApi (a_w a) (a_nbd a) (a_buffer a) (a_list a) (a_initialized a) (a_out a ++ [t])).

(** The status and [*value]. *)
Definition ewf_fastcgi_get_parameter (name : option bytes) : M (Z * option bytes) :=
  match name with
  | None => mret (EWF_ERROR, None)
  | Some name =>
      '(_, buf) ← lift (print_name 64 (lit "Query." ++ name));
      value ← hdf_get_valuef buf;
      match value with
      | None => mret (EWF_ERROR, None)
      | Some v => mret (EWF_SUCCESS, Some v)
      end
  end.

(** *** api_common.c: registration and dispatch *)
Definition api_register_method (method_name : bytes) (request_method : ewf_http_request_method_t)
    (access_policy : api_access_policy_t) (action_handler : option nat) : M unit :=
  a ← state;
  r ← (if a_initialized a =? 0 then ewf_hashtable_create 97 else mret EWF_SUCCESS);
  if (a_initialized a =? 0) && (r =? EWF_ERROR) then mret tt
  else
    mod_st (λ a, set_methods (a_list a) 1 a);;
    ok ← alloc;
    if negb ok then mret tt
    else
      ewf_hashtable_insert method_name (ApiMethod request_method access_policy action_handler);;
      mret tt.

(** [nbu_string_printf(buffer, sizeof buffer, "api/%s.%s", name, "xml")]. *)
Definition print_template (name : bytes) : M unit :=
  a ← state;
  b ← lift (buf_of (nbu_string_printf (Some (a_buffer a)) 256 (lit "api/" ++ name ++ lit ".xml")));
  mod_st (set_buffer b).

Definition generic : bytes := lit "generic".

Definition method_error : M unit :=
  api_set_error API_ERROR_METHOD_NOT_FOUND;;
  ewf_fastcgi_display (str "api/generic.xml").

(** The end of a request: the generic template for an error. *)
Definition show_answer (have_error : bool) : M unit :=
  (if have_error then print_template generic else mret tt);;
  a ← state;
  ewf_fastcgi_display (a_buffer a).

(** The private method's check: may the action run? *)
Definition check_auth : M bool :=
  '(r, buf) ← on_nbd (nbd_nv_get (str "web_auth") (local_buf 64) 64);
  off ← (if r =? NBD_SUCCESS then lift (nbu_string_matches buf "off") else mret NBU_STRING_DIFFERENT);
  if (r =? NBD_SUCCESS) && (off =? NBU_STRING_EQUAL) then mret true
  else
    '(r, token) ← ewf_fastcgi_get_parameter (Some (lit "token"));
    if negb (r =? EWF_SUCCESS) then api_set_error API_ERROR_NEED_AUTH;; mret false
    else
      '(r, session) ← on_world (ewf_session_get (cstr <$> token));
      if negb (r =? EWF_SUCCESS) then api_set_error API_ERROR_NEED_AUTH;; mret false
      else
        r ← on_world (ewf_session_check clock session);
        if negb (r =? EWF_SUCCESS) then api_set_error API_ERROR_NEED_AUTH;; mret false
        else mret true.

Section dispatch.

(** The registered actions. *)
Context (code : nat → M unit).

(** The action and the choice of the answer's template. *)
Definition run_action (h : nat) (reqm : ewf_http_request_method_t) (name : bytes) : M bool :=
  code h;;
  c_stat ← on_data (hdf_get_value (lit "stat"));
  failed ← match c_stat with
           | None => mret false
           | Some s =>
               r ← lift (nbu_string_compare (Some (cstr s)) (Some (str "fail")));
               mret (r =? NBU_STRING_EQUAL)
           end;
  if failed : bool then mret true
  else
    print_template (if decide (reqm = EWF_HTTP_REQUEST_METHOD_GET) then name else generic);;
    api_set_value (Some (lit "stat")) (Some (lit "ok"));;
    mret false.

Definition api_handle_request (m : option api_method_t) (name : bytes) : M unit :=
  match m with
  | None => method_error
  | Some m =>
      reqm ← ewf_http_request_method;
      if decide (reqm ≠ request_method m) then method_error
      else
        match action_handler m with
        | None => method_error
        | Some h =>
            '(ret, buf) ← on_nbd (nbd_autoconf_get (str "status") (local_buf 64) 64);
            (if ret =? NBD_SUCCESS then
               r ← lift (strncmp (str "downloading") buf 11);
               if r =? 0 then
                 api_set_error API_ERROR_BOX_UPGRADING;;
                 ewf_fastcgi_display (str "api/generic.xml")
               else mret tt
             else mret tt);;
            (if decide (reqm = EWF_HTTP_REQUEST_METHOD_POST) then ewf_fastcgi_parse else mret tt);;
            have_authoriz ← (match access_policy m with
                             | API_ACCESS_POLICY_PRIVATE => check_auth
                             | API_ACCESS_POLICY_PUBLIC => mret true
                             end);
            have_error ← (if have_authoriz : bool then run_action h reqm name else mret true);
            show_answer have_error
        end
  end.

Definition api_dispatch (boxname : bytes) : M unit :=
  api_set_value (Some (lit "version")) (Some (lit "1.0"));;
  api_set_value (Some (lit "env.uname")) (Some boxname);;
  ewf_fastcgi_set_content_type (lit "text/xml");;
  uri ← ewf_http_request_uri;
  match uri with
  | None => method_error
  | Some _ =>
      '(r, name) ← ewf_fastcgi_get_parameter (Some (lit "method"));
      match name with
      | None => method_error
      | Some name =>
          '(r, m) ← ewf_hashtable_find name;
          if r =? EWF_ERROR then method_error
          else api_handle_request m name
      end
  end.

End dispatch.

(** *** ctl/auth.c *)
Definition getToken : M unit :=
  on_world (ewf_session_cleaner clock);;
  n ← on_world ewf_session_count;
  if 64 <? n then
    api_set_custom_error (lit "201") (lit "Max token reached");;
    on_world (ewf_session_cleaner clock);;
    mret tt
  else
    '(r, buf) ← on_nbd (nbd_nv_get (str "web_auth") (local_buf 64) 64);
    off ← (if r =? NBD_SUCCESS then lift (nbu_string_matches buf "off") else mret NBU_STRING_DIFFERENT);
    (if (r =? NBD_SUCCESS) && (off =? NBU_STRING_EQUAL)
     then api_set_custom_error (lit "205") (lit "Authentification disabled") else mret tt);;
    a ← state;
    '(r, b) ← on_world (ewf_session_create clock rdm (Some (a_buffer a)) 256);
    b ← lift (must b);
    mod_st (set_buffer b);;
    if r =? EWF_SUCCESS then
      token ← lift (c_str b);
      api_set_value (Some (lit "auth.token")) (Some token);;
      '(r, b) ← on_nbd (nbd_nv_get (str "web_auth") b 256);
      mod_st (set_buffer b);;
      if r =? NBD_SUCCESS then
        t ← lift (c_str b); api_set_value (Some (lit "auth.method")) (Some t)
      else mret tt
    else api_set_error API_ERROR_UNKNOWN.

Inductive auth_method := auth_button | auth_passwd (hash : bytes).

(** The method a request authenticates with, or the answer that refuses it. *)
Definition choose_method (web_auth : bytes) : M (option auth_method) :=
  all ← lift (nbu_string_matches web_auth "all");
  if all =? NBU_STRING_EQUAL then
    '(r, hash) ← ewf_fastcgi_get_parameter (Some (lit "hash"));
    mret (Some (match hash with Some h => auth_passwd h | None => auth_button end))
  else
    button ← lift (nbu_string_matches web_auth "button");
    if button =? NBU_STRING_EQUAL then mret (Some auth_button)
    else
      passwd ← lift (nbu_string_matches web_auth "passwd");
      if passwd =? NBU_STRING_EQUAL then
        '(r, hash) ← ewf_fastcgi_get_parameter (Some (lit "hash"));
        match hash with
        | Some h => mret (Some (auth_passwd h))
        | None => api_set_error API_ERROR_NEED_ARG;; mret None
        end
      else api_set_custom_error (lit "205") (lit "Authentification disabled");; mret None.

Definition check_button (session : option loc) (token : bytes) : M unit :=
  a ← state;
  '(r, b) ← on_nbd (nbd_status_get (str "web_autologin") (a_buffer a) 256);
  mod_st (set_buffer b);;
  if negb (r =? NBD_SUCCESS) then api_set_error API_ERROR_UNKNOWN
  else
    on ← lift (nbu_string_matches b "on");
    if on =? NBU_STRING_EQUAL then
      on_world (ewf_session_validate clock session);;
      on_nbd nbd_halt_webautologin;;
      api_set_value (Some (lit "auth.token")) (Some token)
    else api_set_custom_error (lit "203") (lit "Push button not pushed").

Definition bad_password : M unit :=
  api_set_custom_error (lit "204") (lit "Invalid login and/or password").

(** [nbu_string_copy(arg, sizeof(arg), src); arg[64] = 0]. *)
Definition copy_arg (src : bytes) : outcome bytes :=
  arg ← buf_of (nbu_string_copy (Some (local_buf 65)) 65 (Some src));
  wr arg 64 0.

Definition check_passwd (session : option loc) (token hash : bytes) : M unit :=
  n ← lift (strlen (cstr hash));
  if negb (n =? 128) then bad_password
  else
    arg_login ← lift (copy_arg (cstr hash));
    rest ← lift (padd (cstr hash) 64);
    arg_password ← lift (copy_arg rest);
    '(r, login) ← on_nbd (nbd_nv_get (str "web_login") (local_buf 256) 256);
    if negb (r =? NBD_SUCCESS) then api_set_error API_ERROR_UNKNOWN
    else
      '(r, login_hash) ← ewf_crypto_sha256_hash (Some login);
      if negb (r =? EWF_SUCCESS) then api_set_error API_ERROR_UNKNOWN
      else
        '(r, login_hashed) ← ewf_crypto_hmac_sha256_mac (cstr token) login_hash;
        if negb (r =? EWF_SUCCESS) then api_set_error API_ERROR_UNKNOWN
        else
          r ← lift (nbu_string_compare (Some arg_login) login_hashed);
          if negb (r =? NBU_SUCCESS) then bad_password
          else
            '(r, password) ← on_nbd (nbd_nv_get (str "web_password") (local_buf 256) 256);
            if negb (r =? NBD_SUCCESS) then api_set_error API_ERROR_UNKNOWN
            else
              '(r, password_hashed) ← ewf_crypto_hmac_sha256_mac (cstr token) (Some password);
              if negb (r =? EWF_SUCCESS) then api_set_error API_ERROR_UNKNOWN
              else
                r ← lift (nbu_string_compare (Some arg_password) password_hashed);
                if negb (r =? NBU_STRING_EQUAL) then bad_password
                else
                  on_world (ewf_session_validate clock session);;
                  api_set_value (Some (lit "auth.token")) (Some token).

Definition checkToken : M unit :=
  on_world (ewf_session_cleaner clock);;
  '(r, token) ← ewf_fastcgi_get_parameter (Some (lit "token"));
  match token with
  | None => api_set_error API_ERROR_NEED_ARG
  | Some token =>
      '(r, session) ← on_world (ewf_session_get (Some (cstr token)));
      if negb (r =? EWF_SUCCESS) then api_set_custom_error (lit "201") (lit "Invalid session")
      else
        '(r, web_auth) ← on_nbd (nbd_nv_get (str "web_auth") (local_buf 128) 128);
        if negb (r =? NBD_SUCCESS) then api_set_error API_ERROR_UNKNOWN
        else
          passwd ← lift (nbu_string_matches web_auth "passwd");
          let presession_timeout :=
            if passwd =? NBU_STRING_EQUAL then PRESESSION_TIMEOUT_FAST else PRESESSION_TIMEOUT in
          p ← lift (must session);
          s ← on_world (load_session p);
          if activated s =? 1 then api_set_custom_error (lit "201") (lit "Invalid session")
          else
            now ← on_world (gettimeofday clock);
            if s32 (tv_sec (tv s) + presession_timeout) <? tv_sec now then
              on_world (ewf_session_remove (Some (id s)));;
              api_set_custom_error (lit "202") (lit "Session for validation timeout")
            else
              method ← choose_method web_auth;
              match method with
              | None => mret tt
              | Some auth_button => check_button (Some p) token
              | Some (auth_passwd hash) => check_passwd (Some p) token hash
              end
  end.

End api.

End Api.
