(* ===== verification/ApiProofs.v ===== *)
(** What the REST API daemon guarantees: private methods need a live, activated
    session; a session is activated by the right password or the button only; the
    number of sessions is bounded. *)

From stdpp Require Import base tactics list gmap strings.
From S2P Require Import Prelude.
From S2P Require Import Dll.
From S2P Require Import CString.
From S2P Require Import NbuList.
From S2P Require Import NbuListSpec.
From S2P Require Import NbuListAlg.
From S2P Require Import NbuString.
From S2P Require Import NbuNet.
From S2P Require Import EwfHdf.
From S2P Require Import EwfSession.
From S2P Require Import EwfSessionProofs.
From S2P Require Import EwfSmith.
From S2P Require Import EwfSmithProofs.
From S2P Require Import NbdQueries.
From S2P Require Import ApiSession.
From S2P Require Import Api.
Import NbuList NbuString NbuNet EwfHdf EwfSmith NbdQueries ApiSession Api.

(** ** HTTP methods *)

Lemma strncmp_same s t u v n :
  text s → length s = n → length t = n →
  ∃ z, strncmp (s ++ u) (t ++ v) n = Ret z ∧ (z =? 0) = bytes_eqb t s.
Proof.
  intros Hs. revert t n. induction Hs as [|x s Hx Hs IH]; intros t n <- Ht.
  { destruct t; [| done]. exists 0. by destruct u. }
  destruct t as [|y t]; [done |]. simpl in *. destruct (Z.eqb_spec x y) as [->|Hne].
  - destruct (Z.eqb_spec y 0); [done |]. destruct (IH t (length s) eq_refl) as (z & -> & Hz); [lia |].
    exists z. split; [done |]. by rewrite Z.eqb_refl.
  - exists (x - y). split; [done |]. destruct (Z.eqb_spec y x); [lia |].
    simpl. apply Z.eqb_neq. lia.
Qed.

(** GET, POST and DELETE are recognised, and any other method of at least six
    characters is unknown; on every shorter one, PUT included, the code reads past the
    end of the method's text. *)
Theorem decode_method_spec t :
  text t →
  decode_method (cstr t)
  = if bytes_eqb t (lit "GET") then Ret EWF_HTTP_REQUEST_METHOD_GET
    else if bytes_eqb t (lit "POST") then Ret EWF_HTTP_REQUEST_METHOD_POST
    else if (length t <? 6)%nat then Undef
    else if bytes_eqb t (lit "DELETE") then Ret EWF_HTTP_REQUEST_METHOD_DELETE
    else Ret EWF_HTTP_REQUEST_METHOD_UNKNOWN.
Proof.
  intros Ht. unfold decode_method, str, cstr.
  assert (Hc : ∀ i c, t !! i = Some c → rd (t ++ [0]) (Z.of_nat i) = Ret c ∧ (c =? 0) = false).
  { intros i c Hi. split; [apply rd_ok; [lia |]; rewrite Nat2Z.id; by apply lookup_app_l_Some |].
    apply Z.eqb_neq. by eapply Forall_lookup_1 in Ht. }
  destruct t as [|c0 [|c1 [|c2 [|c3 t]]]];
    [by rewrite !bytes_eqb_len by done .. | |].
  - (* three characters *)
    destruct (strncmp_same (lit "GET") [c0; c1; c2] [0] [0] 3) as (z & E & Hz); try done; [by repeat constructor |].
    change (rd ([c0; c1; c2] ++ [0]) 3) with (Ret 0). cbn [mbind outcome_bind Z.eqb]. rewrite E.
    cbn [mbind outcome_bind]. rewrite Hz, (bytes_eqb_len _ (lit "POST")) by done.
    by destruct (bytes_eqb [c0; c1; c2] (lit "GET")).
  - destruct (Hc 3%nat c3 eq_refl) as [E3 N3]. change (Z.of_nat 3) with 3 in E3. rewrite E3.
    cbn [mbind outcome_bind]. rewrite N3. cbn [mbind outcome_bind Z.eqb].
    rewrite (bytes_eqb_len _ (lit "GET")) by done.
    destruct t as [|c4 t].
    + destruct (strncmp_same (lit "POST") [c0; c1; c2; c3] [0] [0] 4) as (z & E & Hz); try done;
        [by repeat constructor |].
      change (rd ([c0; c1; c2; c3] ++ [0]) 4) with (Ret 0). cbn [mbind outcome_bind Z.eqb]. rewrite E.
      cbn [mbind outcome_bind]. rewrite Hz. by destruct (bytes_eqb [c0; c1; c2; c3] (lit "POST")).
    + destruct (Hc 4%nat c4 eq_refl) as [E4 N4]. change (Z.of_nat 4) with 4 in E4. rewrite E4.
      cbn [mbind outcome_bind]. rewrite N4. cbn [mbind outcome_bind Z.eqb].
      rewrite (bytes_eqb_len _ (lit "POST")) by done.
      destruct t as [|c5 [|c6 t]]; [done | |].
      * destruct (strncmp_same (lit "DELETE") [c0; c1; c2; c3; c4; c5] [0] [0] 6) as (z & E & Hz); try done;
          [by repeat constructor |].
        change (rd ([c0; c1; c2; c3; c4; c5] ++ [0]) 6) with (Ret 0). cbn [mbind outcome_bind Z.eqb].
        rewrite E. cbn [mbind outcome_bind]. rewrite Hz. done.
      * destruct (Hc 6%nat c6 eq_refl) as [E6 N6]. change (Z.of_nat 6) with 6 in E6. rewrite E6.
        cbn [mbind outcome_bind]. rewrite N6. cbn [mbind outcome_bind Z.eqb].
        by rewrite (bytes_eqb_len _ (lit "DELETE")) by done.
Qed.

Lemma decode_method_spec_witness :
  decode_method (cstr (lit "DELETE")) = Ret EWF_HTTP_REQUEST_METHOD_DELETE ∧
  decode_method (cstr (lit "PUT")) = Undef.
Proof.
  split.
  - rewrite (decode_method_spec (lit "DELETE")); [done | by repeat constructor].
  - rewrite (decode_method_spec (lit "PUT")); [done | by repeat constructor].
Defined.

(** ** Sessions of the API *)
Section sessions.
Context {H : Type} (clock : nat → timeval) (rdm : nat → bytes).
Implicit Types w : world H.

(** [ewf_session_get] finds what [find_id] says. *)
Lemma api_get_spec w l ps sid t :
  sessions w l ps → str_of sid = Some t →
  ∃ w' q, ewf_session_get (Some sid) w
          = Ret ((if find_id w t ps is Some _ then EWF_SUCCESS else EWF_ERROR, q), w') ∧
    same_world l w w' ∧ ∀ p, find_id w t ps = Some p → q = Some p.
Proof.
  intros Hss Ht. cbn [ewf_session_get].
  edestruct (for_each_session_rule
    (λ p (_ : bool * option loc), s ← load_session p; b ← lift (same_id s sid);
            mret (if b : bool then inr (true, Some p) else inl (false, Some p))) l ps w (false, None)
    (λ pre post acc w1, acc.1 = false ∧ same_world l w w1 ∧ pre ++ post = ps ∧
                        Forall (λ p, id_of w p ≠ t) pre)
    (λ acc w1, acc.1 = (if find_id w t ps is Some _ then true else false) ∧ same_world l w w1 ∧
               ∀ p, find_id w t ps = Some p → acc.2 = Some p)) as (r & w' & E & Hr & Hs & Hq); [done|..].
  - intros pre post acc w1 w2 h' -> Hs (? & Hw & He & Hf). split_and!; try done.
    by eapply same_world_trans.
  - intros pre acc w1 xs _ _ (Hacc & Hw & He & Hf). rewrite app_nil_r in He. subst.
    unfold find_id. rewrite (proj2 (list_find_None _ _) Hf). done.
  - intros pre n p post acc w1 xs ys Hat Hx Hy (Hacc & Hw & He & Hf).
    pose proof (ss_live _ _ _ Hss) as Hlive. rewrite <- He, Forall_app, Forall_cons in Hlive.
    destruct Hlive as (_ & (tp & s & Es & Htp & Hlp) & _).
    assert (id_of w p = tp) as Eid by (unfold id_of; by rewrite Es, Htp).
    destruct Hw as (h1 & -> & Hs1). cbn in Hat.
    unfold load_session, mbind, cmd_bind. cbn [w_sess set_heap]. rewrite Es. cbn [must lift].
    rewrite (same_id_ok s sid tp t Htp Hlp Ht). cbn [lift].
    destruct (bytes_eqb tp t) eqn:Eb.
    + eexists _, _. split; [reflexivity|]. simpl. apply bytes_eqb_eq in Eb.
      assert (find_id w t ps = Some p) as ->.
      { unfold find_id. subst ps. rewrite list_find_app_r by by apply list_find_None.
        simpl. rewrite decide_True by congruence. done. }
      split_and!; [done | by exists h1 | by intros ? [= ->]].
    + eexists _, _. split; [reflexivity|]. simpl. left. apply bytes_eqb_neq in Eb. split.
      { exact (nbu_visit_law l h1 xs (n, Some p) ys Hat). }
      split_and!; [done|by exists h1|by rewrite <- app_assoc|].
      apply Forall_app. split; [done|]. by apply Forall_singleton; rewrite Eid.
  - split_and!; try done. apply same_world_refl.
  - exists w', r.2. destruct r as [b q]; simpl in *. split_and!; try done.
    run_with E. simpl. rewrite Hr. by destruct (find_id w t ps).
Qed.

Lemma api_remove_spec w l ps sid t :
  sessions w l ps → str_of sid = Some t →
  ∃ w' r ps', ewf_session_remove (Some sid) w = Ret (r, w') ∧ frame w w' ∧ sessions w' l ps' ∧
    (∀ p, p ∈ ps' → w_sess w' !! p = w_sess w !! p) ∧ (∀ p, p ∈ ps' → p ∈ ps).
Proof.
  intros Hss Ht. destruct (remove_spec w l ps sid t Hss Ht) as (w' & E & Hf & Hr).
  destruct (find_id w t ps) as [p|].
  - destruct Hr as (pre & post & -> & _ & _ & Hss' & Hws). exists w', EWF_SUCCESS, (pre ++ post).
    split_and!; [exact E | done | done | | set_solver].
    intros q Hq. rewrite Hws, lookup_delete_ne; [done |]. intros ->.
    pose proof (ss_nodup _ _ _ Hss) as Hnd. rewrite <- Permutation_middle in Hnd.
    apply NoDup_cons in Hnd as [Hnd _]. done.
  - exists w', EWF_ERROR, ps. split_and!; [exact E | done | by eapply same_world_sessions | | done].
    destruct Hr as (h & -> & _). done.
Qed.

(** A token not activated lives [PRESESSION_TIMEOUT], an activated one
    [SESSION_TIMEOUT]. *)
Definition api_expired (now : timeval) (s : session) : bool :=
  ((activated s =? 0) && (s32 (tv_sec (tv s) + PRESESSION_TIMEOUT) <? tv_sec now))
  || (s32 (tv_sec (tv s) + SESSION_TIMEOUT) <? tv_sec now).

Lemma api_cleaner_spec w l ps :
  sessions w l ps →
  let old := stale_by (api_expired (clock (w_tick w))) w in
  ∃ w', ewf_session_cleaner clock w = Ret (Z.of_nat (length (filter old ps)), w') ∧
    sessions w' l (filter (λ p, ¬ old p) ps) ∧
    w_tick w' = S (w_tick w) ∧ w_draw w' = w_draw w ∧ w_hdf w' = w_hdf w ∧ w_fresh w' = w_fresh w ∧
    h_avail (w_heap w') = h_avail (w_heap w) ∧
    ∀ p, w_sess w' !! p = if decide (p ∈ ps ∧ old p) then None else w_sess w !! p.
Proof.
  intros Hss old. unfold ewf_session_cleaner. run.
  set (now := clock (w_tick w)) in *.
  match goal with |- context [for_each_session ?b 0 _] => set (body := b) end.
  assert (cleans (api_expired now) body) as Hcl.
  { intros p acc w1 s Es. unfold body. erewrite cmd_bind_Ret; [|unfold load_session; rewrite Es; reflexivity].
    unfold api_expired. destruct ((activated s =? 0) && _); [done |]. by destruct (_ <? _). }
  destruct (clean_loop _ _ _ l ps Hcl (ticked_sessions w l ps (S (w_tick w)) Hss))
    as (w' & E & Hs & (_ & Ff & Ft & Fd & Fh & _) & Ha & Hw).
  exists w'. by split_and!.
Qed.

(** Changing a session but its id keeps the list well formed. *)
Lemma store_sessions w l ps p s s' :
  sessions w l ps → w_sess w !! p = Some s → id s' = id s →
  sessions (set_sess (<[p := s']> (w_sess w)) w) l ps.
Proof.
  intros [? ? ? ? Hl2 ? Hf2] Es Hid. split; try done.
  - apply Forall_forall. intros q Hq. eapply Forall_forall in Hl2 as (t' & s1 & Es' & Ht' & Hl'); [|exact Hq].
    exists t'. destruct (decide (q = p)) as [->|Hqp].
    + exists s'. cbn. rewrite lookup_insert_eq, Hid. by simplify_eq.
    + exists s1. cbn. by rewrite lookup_insert_ne.
  - intros q Hq. cbn. rewrite lookup_insert_ne; [by apply Hf2|]. intros <-.
    by rewrite (Hf2 p Hq) in Es.
Qed.

(** A session the API lets in. *)
Definition api_alive (now : timeval) (s : session) : bool :=
  negb (activated s =? 0) && (tv_sec now <=? s32 (tv_sec (tv s) + SESSION_TIMEOUT)).

Lemma api_check_spec w l ps p s t :
  sessions w l ps → w_sess w !! p = Some s → str_of (id s) = Some t →
  ∃ w' ps', ewf_session_check clock (Some p) w
            = Ret (if api_alive (clock (w_tick w)) s then EWF_SUCCESS else EWF_ERROR, w') ∧
    sessions w' l ps' ∧ w_hdf w' = w_hdf w.
Proof.
  intros Hss Es Ht. unfold ewf_session_check, api_alive. run.
  set (w1 := World _ _ _ _ _ _ _ _). assert (sessions w1 l ps) as Hss1 by by apply ticked_sessions.
  assert (w_sess w1 !! p = Some s) as Es1 by exact Es.
  erewrite cmd_bind_Ret; [|unfold load_session; rewrite Es1; reflexivity].
  destruct (activated s =? 0); cbn [negb andb]; [by exists w1, ps |].
  destruct (tv_sec _ <=? _).
  - erewrite cmd_bind_Ret; [|unfold store_session; rewrite Es1; reflexivity].
    eexists _, ps. split; [reflexivity |]. split; [by apply (store_sessions w1 l ps p s) | done].
  - destruct (api_remove_spec w1 l ps (id s) t Hss1 Ht) as (w2 & r & ps' & E & Hf & Hss2 & _).
    run_with E. exists w2, ps'. split_and!; [done | done |].
    by destruct Hf as (_ & _ & _ & _ & -> & _).
Qed.

Lemma api_validate_spec w l ps p s :
  sessions w l ps → w_sess w !! p = Some s →
  ∃ w', ewf_session_validate clock (Some p) w = Ret (EWF_SUCCESS, w') ∧ sessions w' l ps ∧
    w_sess w' = <[p := Session 1 (id s) (clock (w_tick w))]> (w_sess w) ∧ w_hdf w' = w_hdf w ∧
    w_tick w' = S (w_tick w) ∧ w_heap w' = w_heap w.
Proof.
  intros Hss Es. unfold ewf_session_validate. run.
  set (w1 := World _ _ _ _ _ _ _ _). assert (sessions w1 l ps) as Hss1 by by apply ticked_sessions.
  assert (w_sess w1 !! p = Some s) as Es1 by exact Es.
  erewrite cmd_bind_Ret; [|unfold store_session; rewrite Es1; reflexivity].
  erewrite cmd_bind_Ret; [|unfold store_session; cbn; rewrite lookup_insert_eq; reflexivity].
  eexists. split; [reflexivity |]. cbn. rewrite insert_insert_eq. split_and!; try done.
  eapply (store_sessions w1 l ps p s); done.
Qed.

(** A token printed in the caller's buffer. *)
Lemma print_token_ok buf bs :
  (41 <= length buf)%nat → length bs = 20%nat → Forall byte_ok bs →
  ∃ b, print_id buf 0 bs = Ret b ∧ wr b CHALLENGE_SIZE 0 = Ret b ∧ str_of b = Some (hex bs) ∧
       length b = length buf.
Proof.
  intros Hl Hn Hb. destruct (hex_facts bs Hb) as [Hhl Hht]. rewrite Hn in Hhl.
  pose proof (print_id_ok [] bs buf Hb eq_refl) as E. rewrite Hn in E.
  exists (hex bs ++ 0 :: drop 41 buf). split_and!.
  - apply E; [by intros -> | simpl; lia].
  - rewrite wr_ok by (rewrite length_app, Hhl; unfold CHALLENGE_SIZE; simpl; lia). f_equal.
    rewrite insert_app_r_alt by (rewrite Hhl; unfold CHALLENGE_SIZE; lia). by rewrite Hhl.
  - by apply str_of_app.
  - rewrite length_app, Hhl. simpl. rewrite length_drop. lia.
Qed.

Lemma api_create_spec w l ps buf k :
  sessions w l ps → h_avail (w_heap w) = S (S k) → length buf = 256%nat →
  length (rdm (w_draw w)) = 20%nat → Forall byte_ok (rdm (w_draw w)) →
  let token := hex (rdm (w_draw w)) in
  ∃ w' b, ewf_session_create clock rdm (Some buf) 256 w = Ret ((EWF_SUCCESS, Some b), w') ∧
    length b = 256%nat ∧ str_of b = Some token ∧ sessions w' l (ps ++ [w_fresh w]) ∧
    w_sess w' = <[w_fresh w := Session 0 (cstr token) (clock (w_tick w))]> (w_sess w) ∧
    w_hdf w' = w_hdf w.
Proof.
  intros Hss Hav Hb Hn Hok token. destruct (hex_facts _ Hok) as [Hhl Hht]. rewrite Hn in Hhl. fold token in Hhl, Hht.
  destruct (print_token_ok buf (rdm (w_draw w))) as (b & E1 & E2 & Hbt & Hlb); [lia | done | done |].
  unfold ewf_session_create. change (256 <=? CHALLENGE_SIZE) with false. cbv iota.
  run.
  erewrite cmd_bind_Ret; [|unfold calloc_session; cbn [w_heap]; rewrite Hav; reflexivity].
  run. cbn [w_draw]. rewrite E1. run.
  rewrite E2. run.
  erewrite cmd_bind_Ret; [|unfold load_session; cbn [w_sess]; rewrite lookup_insert_eq; reflexivity].
  destruct (copy_ok (replicate (S SID_LEN) 0) (CHALLENGE_SIZE + 1) b token) as (i' & E3 & [Hi Hli _]); [done .. |].
  rewrite take_ge in Hi by (rewrite Hhl; done).
  assert (i' = cstr token) as ->.
  { destruct (str_of_split _ _ Hi) as [r ->]. rewrite length_app, Hhl in Hli. destruct r; [done | simpl in Hli; lia]. }
  erewrite cmd_bind_Ret; [|cbn [id]; rewrite E3; reflexivity]. cbv beta iota.
  run.
  erewrite cmd_bind_Ret; [|unfold store_session; cbn [w_sess]; rewrite lookup_insert_eq; reflexivity].
  match goal with |- context [_ ?x = Ret (_, _)] => set (w2 := x) end.
  destruct (created_sessions w w2 l ps (Session 0 (cstr token) (clock (w_tick w))) Hss) as [Hss2 Hnp]; try done.
  { cbn. by rewrite insert_insert_eq. }
  { intros a ns ds [? ? ? ? ? ?]. by split. }
  destruct (add_spec w2 l ps (w_fresh w) token Hss2 Hnp) as (w3 & E4 & Hss3 & Hfr & Hws).
  { eexists. cbn. rewrite lookup_insert_eq. split; [done |]. cbn. split; [by apply str_of_cstr | rewrite Hhl; done]. }
  { done. }
  exists w3, b. split_and!; try done; [| congruence | | by apply Hfr].
  - revert E4. unfold ewf_session_list_add, mbind, cmd_bind, mret, cmd_ret.
    destruct (on_list _ w2) as [[r w4]| | |]; try done. intros [= Hr ->]. by rewrite Hr.
  - rewrite Hws. cbn. by rewrite insert_insert_eq.
Qed.
End sessions.

(** ** The daemon's state *)
Section specs.
Context {H : Type} `{Hdf H} {D : Type} `{NbdOps D}.
Context (clock : nat → timeval) (rdm : nat → bytes).
Context (sha256 : bytes → bytes) (hmac_sha256 : bytes → bytes → bytes).
Context (cgi_parse : H → H).
Implicit Types a : api H D.

(** The request's data set, with a value set. *)
Definition data a : H := w_hdf (a_w a).
Definition put (n v : bytes) a : api H D := set_w (set_hdf (hdf_set (data a) n v) (a_w a)) a.
Definition failed (code msg : bytes) a : api H D :=
  put (lit "err.msg") msg (put (lit "err.code") code (put (lit "stat") (lit "fail") a)).

Lemma on_world_ok {X} (m : cmd (world H) X) a x w :
  m (a_w a) = Ret (x, w) → on_world m a = Ret (x, set_w w a).
Proof. intros E. unfold on_world, zoom. by rewrite E. Qed.

Lemma on_nbd_ok {X} (m : cmd D X) a x d :
  m (a_nbd a) = Ret (x, d) → on_nbd m a = Ret (x, set_nbd d a).
Proof. intros E. unfold on_nbd, zoom. by rewrite E. Qed.

Lemma on_data_get k a : on_data (hdf_get_value k) a = Ret (hdf_get (data a) k, a).
Proof. destruct a as [w ? ? ? ? ?]. by destruct w. Qed.

Lemma set_value_ok n v a :
  text n → (length n < 64)%nat → api_set_value (Some n) (Some v) a = Ret (tt, put n v a).
Proof.
  intros Ht Hl. unfold api_set_value. rewrite print_name_fits by (done || unfold INT_MAX; lia).
  run. cbv beta iota. by change (NBU_SUCCESS =? -1) with false.
Qed.

Lemma custom_error_ok code msg a : api_set_custom_error code msg a = Ret (tt, failed code msg a).
Proof.
  unfold api_set_custom_error, failed.
  do 2 (erewrite cmd_bind_Ret; [|apply set_value_ok; [by repeat constructor | simpl; lia]]).
  apply set_value_ok; [by repeat constructor | simpl; lia].
Qed.

Lemma set_error_ok e a : api_set_error e a = Ret (tt, failed (error_table e).1 (error_table e).2 a).
Proof. apply custom_error_ok. Qed.

(** Parameter names the code asks for. *)
Definition plain (n : bytes) : Prop :=
  text (query n) ∧ (length (query n) < 64)%nat ∧ existsb (Z.eqb 37) (query n) = false.

Lemma parameter_ok n a :
  plain n → ewf_fastcgi_get_parameter (Some n) a
  = Ret (match hdf_get (data a) (query n) with
         | Some v => (EWF_SUCCESS, Some v) | None => (EWF_ERROR, None) end, a).
Proof.
  intros (Ht & Hl & Hp). unfold ewf_fastcgi_get_parameter. fold (query n).
  rewrite print_name_fits by (done || unfold INT_MAX; lia).
  run. cbv beta iota. unfold hdf_get_valuef. rewrite Hp.
  erewrite cmd_bind_Ret; [|apply on_data_get]. by destruct (hdf_get _ _).
Qed.

Lemma sessions_put n v a l ps : sessions (a_w a) l ps → sessions (a_w (put n v a)) l ps.
Proof. apply sessions_hdf. Qed.

Lemma sessions_failed c m a l ps : sessions (a_w a) l ps → sessions (a_w (failed c m a)) l ps.
Proof. intros. by repeat apply sessions_put. Qed.

Lemma data_put n v k a : hdf_get (data (put n v a)) k = if decide (n = k) then Some v else hdf_get (data a) k.
Proof. case_decide; [subst; apply hdf_get_set | by apply hdf_get_other]. Qed.

Lemma failed_stat c m a :
  hdf_get (data (failed c m a)) (lit "stat") = Some (lit "fail") ∧
  hdf_get (data (failed c m a)) (lit "err.code") = Some c.
Proof. unfold failed. rewrite !data_put. by repeat (case_decide; simplify_eq). Qed.

(** What the configuration daemon answers to a query with a buffer of [n] bytes. *)
Definition nbd_says (args : list bytes) (n : nat) (d : D) (r : Z) (t : bytes) (d' : D) : Prop :=
  ∀ b, length b = n → ∃ b', nbd_query_op (Some b) (Z.of_nat n) args d = Ret ((r, Some b'), d') ∧
    (r = NBD_SUCCESS → str_of b' = Some t).

Definition nv (key : string) : list bytes := [str "nvram"; str "get"; str key].

Lemma nbd_get_ok args n a b r t d' :
  nbd_says args n (a_nbd a) r t d' → length b = n →
  ∃ b', on_nbd (nbd_get b (Z.of_nat n) args) a = Ret ((r, b'), set_nbd d' a) ∧
    length b' = n ∧ (r = NBD_SUCCESS → str_of b' = Some t).
Proof.
  intros Hs Hb. destruct (Hs b Hb) as (b' & E & Ht). exists b'.
  destruct (nbd_query_size _ _ _ _ _ _ _ E) as (b1 & [= <-] & Hl). split_and!; [| congruence | done].
  apply on_nbd_ok. unfold nbd_get. run_with E. done.
Qed.

(** *** The private methods' check *)

(** The token of a request names a session the API lets in. *)
Definition has_token a (ps : list loc) : bool :=
  match hdf_get (data a) (query (lit "token")) with
  | Some token =>
      match find_id (a_w a) token ps with
      | Some p => match w_sess (a_w a) !! p with
                  | Some s => api_alive (clock (w_tick (a_w a))) s
                  | None => false
                  end
      | None => false
      end
  | None => false
  end.

Definition auth_off (r : Z) (auth : bytes) : bool := (r =? NBD_SUCCESS) && bytes_eqb auth (lit "off").

(** A request with texts in its data set. *)
Definition token_text a : Prop := ∀ t, hdf_get (data a) (query (lit "token")) = Some t → text t.

Lemma off_test_ok r b auth a :
  (r = NBD_SUCCESS → str_of b = Some auth) →
  ∃ z, (if r =? NBD_SUCCESS then lift (nbu_string_matches b "off") else mret NBU_STRING_DIFFERENT) a
       = Ret (z, a) ∧ (r =? NBD_SUCCESS) && (z =? NBU_STRING_EQUAL) = auth_off r auth.
Proof.
  intros Hb. unfold auth_off. destruct (Z.eqb_spec r NBD_SUCCESS) as [->|]; [| by eexists].
  rewrite (matches_ok b auth) by (auto || by repeat constructor).
  eexists. split; [reflexivity |]. by destruct (bytes_eqb auth (lit "off")).
Qed.

Lemma check_auth_ok a l ps r auth d' :
  sessions (a_w a) l ps → nbd_says (nv "web_auth") 64 (a_nbd a) r auth d' → token_text a →
  ∃ a' ps', check_auth clock a = Ret (auth_off r auth || has_token a ps, a') ∧
    sessions (a_w a') l ps' ∧ a_buffer a' = a_buffer a ∧ a_out a' = a_out a ∧ a_nbd a' = d' ∧
    (auth_off r auth || has_token a ps = false →
     hdf_get (data a') (lit "stat") = Some (lit "fail") ∧
     hdf_get (data a') (lit "err.code") = Some (lit "115")).
Proof.
  intros Hss Hn Ht. unfold check_auth.
  destruct (nbd_get_ok _ _ a (local_buf 64) _ _ _ Hn eq_refl) as (b & E & Hl & Hb).
  run_with E. cbv beta iota.
  destruct (off_test_ok r b auth (set_nbd d' a) Hb) as (z & Ez & Hz).
  run_with Ez. rewrite Hz.
  destruct (auth_off r auth); [by exists (set_nbd d' a), ps |]. cbn [orb].
  set (a1 := set_nbd d' a). unfold has_token. change (data a) with (data a1).
  erewrite cmd_bind_Ret; [|apply parameter_ok; split_and!; [by repeat constructor | simpl; lia | done]].
  assert (∀ a2 ps2, sessions (a_w a2) l ps2 → a_buffer a2 = a_buffer a → a_out a2 = a_out a → a_nbd a2 = d' →
    ∃ a' ps', (api_set_error API_ERROR_NEED_AUTH;; mret false) a2 = Ret (false, a') ∧
      sessions (a_w a') l ps' ∧ a_buffer a' = a_buffer a ∧ a_out a' = a_out a ∧ a_nbd a' = d' ∧
      (false = false → hdf_get (data a') (lit "stat") = Some (lit "fail") ∧
                       hdf_get (data a') (lit "err.code") = Some (lit "115"))) as Hfail.
  { intros a2 ps2 Hs2 Hb2 Ho2 Hd2. erewrite cmd_bind_Ret; [|apply set_error_ok].
    eexists _, ps2. split; [reflexivity |]. split; [by apply sessions_failed |].
    split_and!; try done. intros _. apply failed_stat. }
  destruct (hdf_get (data a1) (query (lit "token"))) as [token|] eqn:Etok; [| by apply (Hfail a1 ps)].
  cbv iota beta. change (negb (EWF_SUCCESS =? EWF_SUCCESS)) with false. cbv iota.
  destruct (api_get_spec (a_w a1) l ps (cstr token) token Hss (str_of_cstr _ (Ht _ Etok)))
    as (w2 & q & E2 & Hsw & Hq).
  erewrite cmd_bind_Ret; [|by apply on_world_ok]. cbv beta iota. change (a_w a) with (a_w a1).
  pose proof (same_world_sessions _ _ _ _ Hsw Hss) as Hss2.
  destruct (find_id (a_w a1) token ps) as [p|] eqn:Ef; [| by apply (Hfail _ ps)].
  rewrite (Hq p eq_refl). change (negb (EWF_SUCCESS =? EWF_SUCCESS)) with false. cbv iota.
  destruct (find_id_elem _ _ _ _ Ef) as [Hp _].
  pose proof (ss_live _ _ _ Hss) as Hlive. eapply Forall_forall in Hlive as (t & s & Es & Hid & _); [|exact Hp].
  assert (w_sess w2 = w_sess (a_w a1) ∧ w_tick w2 = w_tick (a_w a1)) as [Ews Etk]
    by (by destruct Hsw as (? & -> & _)).
  change (w_sess (a_w a) !! p = Some s) with (w_sess (a_w a1) !! p = Some s) in Es.
  destruct (api_check_spec clock w2 l ps p s t Hss2) as (w3 & ps3 & E3 & Hss3 & _); [by rewrite Ews | done |].
  rewrite Etk in E3. erewrite cmd_bind_Ret; [|by apply on_world_ok]. rewrite Es.
  change (w_tick (a_w a)) with (w_tick (a_w a1)).
  destruct (api_alive (clock (w_tick (a_w a1))) s); [| by apply (Hfail _ ps3)].
  eexists _, ps3. split; [reflexivity |]. by split_and!.
Qed.

(** *** Requests *)
Lemma strncmp_prefix p t b u :
  text p → str_of b = Some t →
  ∃ z, strncmp (p ++ u) b (length p) = Ret z ∧ (z =? 0) = prefixb p t.
Proof.
  intros Hp. revert t b. induction Hp as [|x p Hx Hp IH]; intros t b Hb; simpl.
  { exists 0. destruct u; by destruct t. }
  destruct b as [|y b]; [done |]. simpl in Hb. destruct (Z.eqb_spec y 0) as [->|Hy].
  - simplify_eq. exists (x - 0). destruct (Z.eqb_spec x 0); [done |]. split; [done |].
    apply Z.eqb_neq. lia.
  - destruct (str_of b) as [t'|] eqn:Eb; [| done]. simplify_eq/=.
    destruct (Z.eqb_spec x y) as [->|Hxy].
    + destruct (Z.eqb_spec y 0); [done |]. destruct (IH t' b Eb) as (z & -> & Hz). by exists z.
    + exists (x - y). split; [done |]. apply Z.eqb_neq. lia.
Qed.

(** The box is downloading its upgrade. *)
Definition upgrading (r : Z) (st : bytes) : bool := (r =? NBD_SUCCESS) && prefixb (lit "downloading") st.

Definition shown (t : bytes) a : api H D :=
  MkApi (a_w a) (a_nbd a) (a_buffer a) (a_list a) (a_initialized a) (a_out a ++ [t]).

(** The state once the upgrade was looked at and a POST request was parsed. *)
Definition after_upgrade (r : Z) (st : bytes) (d : D) a : api H D :=
  let a := set_nbd d a in
  if upgrading r st then shown (lit "api/generic.xml") (failed (lit "120") (lit "The box being upgrade") a) else a.

Definition parsed (reqm : ewf_http_request_method_t) a : api H D :=
  if decide (reqm = EWF_HTTP_REQUEST_METHOD_POST) then set_w (set_hdf (cgi_parse (data a)) (a_w a)) a else a.

(** A request for the method [m], and the daemon's answer about the upgrade. *)
Record request a (m : api_method_t) (h : nat) (r : Z) (st : bytes) (d : D) : Prop := {
  rq_method : ∃ t, hdf_get (data a) (lit "CGI.RequestMethod") = Some t ∧
                   decode_method (cstr t) = Ret (request_method m);
  rq_handler : action_handler m = Some h;
  rq_status : nbd_says [str "autoconf"; str "get"; str "status"] 64 (a_nbd a) r st d;
}.

(** A request up to the access check. *)
Lemma handle_request_start code a m h name r st d :
  request a m h r st d →
  api_handle_request clock cgi_parse code (Some m) name a
  = (have_authoriz ← (match access_policy m with
                      | API_ACCESS_POLICY_PRIVATE => check_auth clock
                      | API_ACCESS_POLICY_PUBLIC => mret true
                      end);
     have_error ← (if have_authoriz : bool then run_action code h (request_method m) name else mret true);
     show_answer have_error) (parsed (request_method m) (after_upgrade r st d a)).
Proof.
  intros [(t & Et & Hdec) Hh Hst]. unfold api_handle_request, ewf_http_request_method, hdf_get_valuef.
  erewrite cmd_bind_Ret.
  2: { simpl existsb. cbv iota. erewrite cmd_bind_Ret; [|apply on_data_get]. rewrite Et, Hdec. reflexivity. }
  rewrite decide_False by (intros Hx; by apply Hx). rewrite Hh.
  destruct (nbd_get_ok _ _ a (local_buf 64) _ _ _ Hst eq_refl) as (b & E & Hl & Hb).
  run_with E. cbv beta iota.
  erewrite (cmd_bind_Ret _ _ (set_nbd d a) tt (after_upgrade r st d a)).
  2: { unfold after_upgrade, upgrading. destruct (Z.eqb_spec r NBD_SUCCESS) as [Hr|]; [| done]. rewrite andb_true_l.
       destruct (strncmp_prefix (lit "downloading") st b [0]) as (z & Ez & Hz); [by repeat constructor | auto |].
       erewrite cmd_bind_Ret; [|change 11%nat with (length (lit "downloading")); unfold str, cstr; rewrite Ez; reflexivity].
       rewrite Hz. destruct (prefixb _ st); [| done].
       erewrite cmd_bind_Ret; [|apply set_error_ok]. reflexivity. }
  erewrite (cmd_bind_Ret _ _ (after_upgrade r st d a) tt (parsed (request_method m) (after_upgrade r st d a)));
    [done |].
  unfold parsed. case_decide; reflexivity.
Qed.

Lemma print_template_ok name a :
  length (a_buffer a) = 256%nat → text name →
  ∃ b, print_template name a = Ret (tt, set_buffer b a) ∧ length b = 256%nat ∧
    str_of b = Some (take 255 (lit "api/" ++ name ++ lit ".xml")).
Proof.
  intros Hl Ht. unfold print_template. run.
  destruct (printf_ok (a_buffer a) 256 (lit "api/" ++ name ++ lit ".xml")) as (b & E & Hb & Hlb).
  - lia.
  - unfold INT_MAX. lia.
  - apply Forall_app. split; [by repeat constructor |]. apply Forall_app. split; [done | by repeat constructor].
  - unfold buf_of. rewrite E. exists b. split; [reflexivity |]. split; [lia | exact Hb].
Qed.

Lemma show_error_ok a :
  length (a_buffer a) = 256%nat →
  ∃ b, show_answer true a = Ret (tt, shown (lit "api/generic.xml") (set_buffer b a)).
Proof.
  intros Hl. unfold show_answer. destruct (print_template_ok generic a Hl) as (b & E & _ & Hb); [by repeat constructor |].
  exists b. run_with E. run.
  unfold ewf_fastcgi_display, c_str. cbn [a_buffer set_buffer]. rewrite Hb. reflexivity.
Qed.

(** C6: a private method of the API runs only for whom it may.  When authentication is
    off, or the token names a session that is activated and was used within
    [SESSION_TIMEOUT], the request goes on to the action; otherwise the answer is error
    115 on the generic page, and is the same whatever the action is: it did not run. *)
Theorem api_private_method_guarded a l ps m h name r st d r' auth d' :
  sessions (a_w a) l ps → length (a_buffer a) = 256%nat →
  access_policy m = API_ACCESS_POLICY_PRIVATE → request a m h r st d →
  let a1 := parsed (request_method m) (after_upgrade r st d a) in
  nbd_says (nv "web_auth") 64 d r' auth d' → token_text a1 →
  ∃ a2 ps', sessions (a_w a2) l ps' ∧
    if auth_off r' auth || has_token a1 ps
    then ∀ code, api_handle_request clock cgi_parse code (Some m) name a
                 = (e ← run_action code h (request_method m) name; show_answer e) a2
    else (∀ code, api_handle_request clock cgi_parse code (Some m) name a = Ret (tt, a2)) ∧
         hdf_get (data a2) (lit "stat") = Some (lit "fail") ∧
         hdf_get (data a2) (lit "err.code") = Some (lit "115") ∧
         a_out a2 = a_out a1 ++ [lit "api/generic.xml"].
Proof.
  intros Hss Hbuf Hpol Hreq a1 Hauth Htok.
  assert (sessions (a_w a1) l ps ∧ length (a_buffer a1) = 256%nat ∧ a_nbd a1 = d) as (Hss1 & Hb1 & Hd1).
  { pose proof (sessions_failed (lit "120") (lit "The box being upgrade") (set_nbd d a) l ps Hss) as Hsf.
    unfold a1, parsed, after_upgrade. destruct (upgrading r st); case_decide; split_and!; try done;
      apply sessions_hdf; done. }
  rewrite <- Hd1 in Hauth.
  destruct (check_auth_ok a1 l ps r' auth d' Hss1 Hauth Htok) as (a2 & ps2 & E & Hss2 & Hb2 & Ho2 & _ & Hf).
  destruct (auth_off r' auth || has_token a1 ps).
  - exists a2, ps2. split; [done |]. intros code.
    rewrite (handle_request_start code a m h name r st d Hreq), Hpol.
    run_with E. done.
  - destruct (Hf eq_refl) as [Hs1 Hs2].
    destruct (show_error_ok a2) as (b & Eb); [congruence |].
    exists (shown (lit "api/generic.xml") (set_buffer b a2)), ps2. split_and!.
    + exact Hss2.
    + intros code. rewrite (handle_request_start code a m h name r st d Hreq), Hpol.
      run_with E. exact Eb.
    + exact Hs1.
    + exact Hs2.
    + cbn [a_out shown set_buffer]. by rewrite Ho2.
Qed.

(** A box that downloads its upgrade still runs the methods: the answer with error
    120 is displayed, and the request goes on to the action as if nothing was. *)
Theorem api_upgrading_still_runs a m h name st d code :
  access_policy m = API_ACCESS_POLICY_PUBLIC → request a m h NBD_SUCCESS st d →
  prefixb (lit "downloading") st = true →
  ∃ a1, a_out a1 = a_out a ++ [lit "api/generic.xml"] ∧
    api_handle_request clock cgi_parse code (Some m) name a
    = (e ← run_action code h (request_method m) name; show_answer e) a1.
Proof.
  intros Hpol Hreq Hst. rewrite (handle_request_start code a m h name _ st d Hreq), Hpol.
  eexists. split; [| reflexivity]. unfold parsed, after_upgrade, upgrading. rewrite Hst.
  change (NBD_SUCCESS =? NBD_SUCCESS) with true. by case_decide.
Qed.
(** *** Activation of a token *)

(** A token that waits for its activation, in time for the box's method [auth]. *)
Definition window (auth : bytes) : Z :=
  if bytes_eqb auth (lit "passwd") then PRESESSION_TIMEOUT_FAST else PRESESSION_TIMEOUT.

Record pending a (l : loc) (ps : list loc) (token : bytes) (p : loc) (s : session) (auth : bytes)
  : Prop := {
  pd_sessions : sessions (a_w a) l ps;
  pd_token : hdf_get (data a) (query (lit "token")) = Some token;
  pd_text : text token;
  pd_find : find_id (a_w a) token ps = Some p;
  pd_session : w_sess (a_w a) !! p = Some s;
  pd_kept : api_expired (clock (w_tick (a_w a))) s = false;
  pd_waits : activated s ≠ 1;
  pd_window : tv_sec (clock (S (w_tick (a_w a)))) <= s32 (tv_sec (tv s) + window auth);
}.

(** A session that stays is still found by its id after a cleaning. *)
Lemma find_id_kept (w w' : world H) t ps p (old : loc → Prop) `{∀ q, Decision (old q)} :
  find_id w t ps = Some p → ¬ old p →
  (∀ q, q ∈ ps → ¬ old q → w_sess w' !! q = w_sess w !! q) →
  find_id w' t (filter (λ q, ¬ old q) ps) = Some p.
Proof.
  unfold find_id. intros Hf Hp Hk. destruct (list_find _ ps) as [[i q]|] eqn:E; [| done]. simplify_eq/=.
  apply list_find_Some in E as (Hi & Hq & Hlt). apply list_elem_of_split_length in Hi as (xs & ys & -> & ->).
  rewrite filter_app, filter_cons_True by done. rewrite list_find_app_r.
  - simpl. rewrite decide_True; [done |]. unfold id_of in *. rewrite Hk; [done | set_solver | done].
  - apply list_find_None, Forall_forall. intros r Hr. apply list_elem_of_filter in Hr as [Hor Hr].
    unfold id_of. rewrite Hk by set_solver. apply list_elem_of_lookup in Hr as [j Hj].
    apply (Hlt j); [by apply lookup_app_l_Some | by eapply lookup_lt_Some].
Qed.

(** The state after the checks of [checkToken] on a pending token: only sessions past
    their time are gone. *)
Record checked a (l : loc) (ps : list loc) (p : loc) (s : session) (w : world H) (kept : list loc) : Prop := {
  ck_sessions : sessions w l kept;
  ck_here : p ∈ kept;
  ck_sublist : kept `sublist_of` ps;
  ck_same : ∀ q, q ∈ kept → w_sess w !! q = w_sess (a_w a) !! q;
  ck_data : w_hdf w = data a;
  ck_tick : w_tick w = S (S (w_tick (a_w a)));
  ck_avail : h_avail (w_heap w) = h_avail (w_heap (a_w a));
}.

Lemma checkToken_start a l ps token p s auth d :
  pending a l ps token p s auth → nbd_says (nv "web_auth") 128 (a_nbd a) NBD_SUCCESS auth d →
  ∃ wb w kept, str_of wb = Some auth ∧ checked a l ps p s w kept ∧
    checkToken clock sha256 hmac_sha256 a
    = (method ← choose_method wb;
       match method with
       | None => mret tt
       | Some auth_button => check_button clock (Some p) token
       | Some (auth_passwd hash) => check_passwd clock sha256 hmac_sha256 (Some p) token hash
       end) (set_w w (set_nbd d a)).
Proof.
  intros [Hss Etok Ht Hf Es Hkept Hact Hwin] Hauth. unfold checkToken.
  destruct (api_cleaner_spec clock (a_w a) l ps Hss) as (w1 & E1 & Hss1 & Htk & _ & Hh & _ & Hav & Hw).
  set (old := stale_by _ _) in *. set (kept := filter (λ q, ¬ old q) ps) in *.
  assert (¬ old p) as Hp by (unfold old, stale_by; rewrite Es, Hkept; done).
  destruct (find_id_elem _ _ _ _ Hf) as [Hpin _].
  assert (∀ q, q ∈ ps → ¬ old q → w_sess w1 !! q = w_sess (a_w a) !! q) as Hk
    by (intros q _ Hq; rewrite Hw, decide_False; tauto).
  pose proof (find_id_kept _ w1 token ps p old Hf Hp Hk) as Hf1. fold kept in Hf1.
  erewrite cmd_bind_Ret; [|by apply on_world_ok]. set (a1 := set_w w1 a).
  erewrite cmd_bind_Ret; [|apply parameter_ok; split_and!; [by repeat constructor | simpl; lia | done]].
  change (data a1) with (w_hdf w1). rewrite Hh. fold (data a). rewrite Etok. cbv beta iota.
  destruct (api_get_spec w1 l kept (cstr token) token Hss1 (str_of_cstr _ Ht)) as (w2 & q & E2 & Hsw & Hq).
  rewrite Hf1 in *. specialize (Hq p eq_refl) as ->.
  erewrite cmd_bind_Ret; [|by apply (on_world_ok _ a1)]. cbv beta iota.
  change (negb (EWF_SUCCESS =? EWF_SUCCESS)) with false. cbv iota.
  set (a2 := set_w w2 a1).
  destruct (nbd_get_ok _ _ a2 (local_buf 128) _ _ _ Hauth eq_refl) as (wb & E3 & _ & Hwb).
  specialize (Hwb eq_refl). run_with E3. cbv beta iota.
  change (negb (NBD_SUCCESS =? NBD_SUCCESS)) with false. cbv iota.
  rewrite (matches_ok wb auth) by (done || by repeat constructor).
  run. run.
  destruct Hsw as (h2 & -> & Hs2). set (w2 := set_heap h2 w1) in *.
  assert (w_sess w2 !! p = Some s) as Es2 by (change (w_sess w2) with (w_sess w1); by rewrite Hk).
  erewrite cmd_bind_Ret; [|apply on_world_ok; unfold load_session; cbn [a_w set_nbd a2 set_w];
    rewrite Es2; reflexivity].
  rewrite (proj2 (Z.eqb_neq _ _)) by done. erewrite cmd_bind_Ret; [|by apply on_world_ok].
  cbn [a_w a_nbd set_nbd set_w a1 a2]. change (w_tick w2) with (w_tick w1). rewrite Htk.
  assert ((if (if bytes_eqb auth (lit "passwd") then NBU_STRING_EQUAL else NBU_STRING_DIFFERENT) =? NBU_STRING_EQUAL
           then PRESESSION_TIMEOUT_FAST else PRESESSION_TIMEOUT) = window auth) as ->
    by (unfold window; by destruct (bytes_eqb _ _)).
  rewrite (proj2 (Z.ltb_ge _ _)) by done.
  eexists wb, _, kept. split; [done |]. split; [| reflexivity]. split; cbn.
  - apply (ticked_sessions w2). eapply same_world_sessions; [by exists h2 | done].
  - by apply list_elem_of_filter.
  - apply sublist_filter.
  - intros q Hq. apply list_elem_of_filter in Hq as [Hq1 Hq2]. by apply Hk.
  - done.
  - done.
  - by rewrite (same_avail _ _ _ Hs2).
Qed.

(** How the box's setting and the request choose the method. *)
Definition chosen (auth : bytes) (hash : option bytes) : option auth_method :=
  if bytes_eqb auth (lit "all") then Some (match hash with Some h => auth_passwd h | None => auth_button end)
  else if bytes_eqb auth (lit "button") then Some auth_button
  else if bytes_eqb auth (lit "passwd") then auth_passwd <$> hash
  else None.

Lemma choose_method_ok wb auth a m :
  str_of wb = Some auth → chosen auth (hdf_get (data a) (query (lit "hash"))) = Some m →
  choose_method wb a = Ret (Some m, a).
Proof.
  intros Hwb Hm. unfold choose_method, chosen in *.
  rewrite !(matches_ok wb auth) by (done || by repeat constructor).
  assert (plain (lit "hash")) as Hh by (split_and!; [by repeat constructor | simpl; lia | done]).
  run. destruct (bytes_eqb auth (lit "all")).
  { change (NBU_STRING_EQUAL =? NBU_STRING_EQUAL) with true. cbv iota.
    erewrite cmd_bind_Ret; [|by apply parameter_ok]. simplify_eq.
    by destruct (hdf_get (data a) (query (lit "hash"))). }
  change (NBU_STRING_DIFFERENT =? NBU_STRING_EQUAL) with false. cbv iota.
  run. destruct (bytes_eqb auth (lit "button")); [by simplify_eq |].
  change (NBU_STRING_DIFFERENT =? NBU_STRING_EQUAL) with false. cbv iota.
  run. destruct (bytes_eqb auth (lit "passwd")); [| done].
  change (NBU_STRING_EQUAL =? NBU_STRING_EQUAL) with true. cbv iota.
  erewrite cmd_bind_Ret; [|by apply parameter_ok].
  destruct (hdf_get (data a) (query (lit "hash"))); by simplify_eq/=.
Qed.

(** A pending token up to the check of the method chosen. *)
Lemma checkToken_method a l ps token p s auth d m :
  pending a l ps token p s auth → nbd_says (nv "web_auth") 128 (a_nbd a) NBD_SUCCESS auth d →
  chosen auth (hdf_get (data a) (query (lit "hash"))) = Some m →
  ∃ w kept, checked a l ps p s w kept ∧ w_sess w !! p = Some s ∧
    checkToken clock sha256 hmac_sha256 a
    = match m with
      | auth_button => check_button clock (Some p) token
      | auth_passwd hash => check_passwd clock sha256 hmac_sha256 (Some p) token hash
      end (set_w w (set_nbd d a)).
Proof.
  intros Hp Ha Hm. destruct (checkToken_start a l ps token p s auth d Hp Ha) as (wb & w & kept & Hwb & Hck & E).
  exists w, kept. split_and!; [done | |].
  - rewrite (ck_same _ _ _ _ _ _ _ Hck p (ck_here _ _ _ _ _ _ _ Hck)). apply Hp.
  - rewrite E, (cmd_bind_Ret _ _ _ (Some m) (set_w w (set_nbd d a))); [by destruct m |].
    apply (choose_method_ok wb auth); [done |].
    change (data (set_w w (set_nbd d a))) with (w_hdf w). by rewrite (ck_data _ _ _ _ _ _ _ Hck).
Qed.

(** What a token's check ends with: the session activated and answered, or an error
    and every session as it was. *)
Definition ends (ok : bool) (code : bytes) (w : world H) (l : loc) (kept : list loc) (p : loc) (s : session)
    (token : bytes) a : Prop :=
  sessions (a_w a) l kept ∧
  if ok then w_sess (a_w a) = <[p := Session 1 (id s) (clock (w_tick w))]> (w_sess w) ∧
             hdf_get (data a) (lit "auth.token") = Some token
  else w_sess (a_w a) = w_sess w ∧ hdf_get (data a) (lit "stat") = Some (lit "fail") ∧
       hdf_get (data a) (lit "err.code") = Some code.

Lemma ends_failed code msg l kept p s token w a :
  sessions (a_w a) l kept → w_sess (a_w a) = w_sess w →
  ends false code w l kept p s token (failed code msg a).
Proof. intros Hs Hw. split; [by apply sessions_failed |]. split; [exact Hw | apply failed_stat]. Qed.

Lemma check_button_ok a l kept p s token w d r st d1 d2 :
  sessions w l kept → w_sess w !! p = Some s → length (a_buffer a) = 256%nat →
  nbd_says [str "status"; str "get"; str "web_autologin"] 256 d r st d1 →
  (∃ z o, nbd_query_op None 0 [str "nbctl"; str "halt_webautologin"] d1 = Ret ((z, o), d2)) →
  let ok := (r =? NBD_SUCCESS) && bytes_eqb st (lit "on") in
  ∃ a', check_button clock (Some p) token (set_w w (set_nbd d a)) = Ret (tt, a') ∧
    ends ok (if r =? NBD_SUCCESS then lit "203" else lit "0") w l kept p s token a' ∧
    a_nbd a' = if ok then d2 else d1.
Proof.
  intros Hss Es Hbuf Hst (z & o & Eh) ok. unfold check_button. run.
  set (a1 := set_w w (set_nbd d a)).
  destruct (nbd_get_ok _ _ a1 (a_buffer a) _ _ _ Hst Hbuf) as (b & E & Hl & Hb).
  run_with E. cbv beta iota. run.
  set (a2 := set_buffer b (set_nbd d1 a1)). unfold ok. destruct (Z.eqb_spec r NBD_SUCCESS) as [Hr|]; cbn [negb andb].
  2: { eexists. split; [apply set_error_ok |]. split; [by apply ends_failed | done]. }
  rewrite (matches_ok b st) by (auto || by repeat constructor).
  run. destruct (bytes_eqb st (lit "on")).
  2: { eexists. split; [apply custom_error_ok |]. split; [by apply ends_failed | done]. }
  change (NBU_STRING_EQUAL =? NBU_STRING_EQUAL) with true. cbv iota.
  destruct (api_validate_spec clock w l kept p s Hss Es) as (w3 & E3 & Hss3 & Hws3 & _).
  erewrite cmd_bind_Ret; [|by apply (on_world_ok _ a2)].
  erewrite cmd_bind_Ret.
  2: { apply on_nbd_ok. unfold nbd_halt_webautologin, nbd_set. run_with Eh. reflexivity. }
  eexists. split; [apply set_value_ok; [by repeat constructor | simpl; lia] |]. split; [| done]. split.
  - by apply sessions_put.
  - split; [exact Hws3 |]. by rewrite data_put, decide_True.
Qed.

(** The halves of a hash, copied. *)
Lemma copy_arg_ok src t :
  str_of src = Some t → (64 <= length t)%nat → copy_arg src = Ret (cstr (take 64 t)).
Proof.
  intros Hs Hl. unfold copy_arg, buf_of.
  destruct (copy_ok (local_buf 65) 65 src t ltac:(simpl; lia) ltac:(done) Hs) as (b & E & [Hb Hlb _]).
  rewrite E. cbn [mbind outcome_bind must]. change (Z.to_nat (65 - 1)) with 64%nat in Hb.
  assert (length (take 64 t) = 64%nat) as Ht by (rewrite length_take; lia).
  destruct (str_of_split _ _ Hb) as [r ->]. rewrite length_app, Ht in Hlb.
  destruct r; [| simpl in Hlb; lia]. rewrite wr_ok by (rewrite length_app, Ht; simpl; lia).
  rewrite insert_app_r_alt by (rewrite Ht; simpl; lia). by rewrite Ht.
Qed.

Lemma sessions_spend (w : world H) l ps : sessions w l ps → sessions (spend w) l ps.
Proof. intros [? ? (ns & [? ? ? ? ? ?]) ? ? ? ?]. split; try done. exists ns. by split. Qed.

Context (sha_ok : ∀ m, digest_ok (sha256 m)) (mac_ok : ∀ k m, digest_ok (hmac_sha256 k m)).

(** The hash that opens the box for a token. *)
Definition right_hash (token login password hash : bytes) : bool :=
  (Z.of_nat (length hash) =? 128)
  && (bytes_eqb (take 64 hash) (expected_login sha256 hmac_sha256 token login)
      && bytes_eqb (drop 64 hash) (expected_password hmac_sha256 token password)).

(** A test of a status that is known. *)
Ltac passed := cbv beta iota; rewrite ?Z.eqb_refl; cbn [negb]; cbv iota.

Lemma halves_ok hash :
  text hash → Z.of_nat (length hash) = 128 →
  copy_arg (cstr hash) = Ret (cstr (take 64 hash)) ∧
  ∃ rest, padd (cstr hash) 64 = Ret rest ∧ copy_arg rest = Ret (cstr (drop 64 hash)).
Proof.
  intros Hh Hl. assert (text (drop 64 hash)) as Hd by by apply Forall_drop.
  split; [apply copy_arg_ok; [by apply str_of_cstr | lia] |]. exists (cstr (drop 64 hash)). split.
  - unfold padd, cstr. rewrite (proj2 (Nat.leb_le _ _)) by (rewrite length_app; lia).
    by rewrite drop_app_le by lia.
  - rewrite (copy_arg_ok _ (drop 64 hash)) by (by apply str_of_cstr || (rewrite length_drop; lia)).
    by rewrite (take_ge (drop 64 hash)) by (rewrite length_drop; lia).
Qed.

Lemma compare_mac t k m :
  text t → nbu_string_compare (Some (cstr t)) (Some (cstr (hex (hmac_sha256 k m))))
  = Ret (if bytes_eqb t (hex (hmac_sha256 k m)) then NBU_STRING_EQUAL else NBU_STRING_DIFFERENT).
Proof.
  intros Ht. apply compare_loop_ok; [by apply str_of_cstr |]. apply str_of_cstr. by apply hex_facts, mac_ok.
Qed.

Lemma check_passwd_ok a l kept p s token hash w d login d1 password d2 k :
  sessions w l kept → w_sess w !! p = Some s → text token → text hash →
  nbd_says (nv "web_login") 256 d NBD_SUCCESS login d1 →
  nbd_says (nv "web_password") 256 d1 NBD_SUCCESS password d2 →
  h_avail (w_heap w) = S (S (S k)) →
  ∃ a', check_passwd clock sha256 hmac_sha256 (Some p) token hash (set_w w (set_nbd d a)) = Ret (tt, a') ∧
    ends (right_hash token login password hash) (lit "204") w l kept p s token a'.
Proof.
  intros Hss Es Htok Hh Hlog Hpw Hav. unfold check_passwd, right_hash.
  rewrite (strlen_ok _ hash) by by apply str_of_cstr. set (a1 := set_w w (set_nbd d a)).
  run. destruct (Z.eqb_spec (Z.of_nat (length hash)) 128) as [Hl|]; cbn [negb andb].
  2: { eexists. split; [apply custom_error_ok |]. by apply ends_failed. }
  destruct (halves_ok hash Hh Hl) as (E1 & rest & E2 & E3).
  erewrite cmd_bind_Ret; [|rewrite E1; reflexivity]. erewrite cmd_bind_Ret; [|rewrite E2; reflexivity].
  erewrite cmd_bind_Ret; [|rewrite E3; reflexivity].
  destruct (nbd_get_ok _ _ a1 (local_buf 256) _ _ _ Hlog eq_refl) as (b1 & E4 & _ & Hb1). specialize (Hb1 eq_refl).
  run_with E4. passed.
  erewrite cmd_bind_Ret; [|by eapply on_world_ok, crypto_sha256_ok]. passed.
  assert (str_of (cstr token) = Some token) as Htk by by apply str_of_cstr.
  erewrite cmd_bind_Ret.
  2: { eapply on_world_ok, crypto_hmac_ok; [| exact Htk | apply mac_ok |].
       - apply str_of_cstr. by apply hex_facts, sha_ok.
       - cbn. rewrite Hav. reflexivity. }
  passed. rewrite compare_mac by by apply Forall_take. run.
  unfold expected_login. destruct (bytes_eqb (take 64 hash) _); cbn [andb].
  2: { eexists. split; [apply custom_error_ok |]. apply ends_failed; [by do 2 apply sessions_spend | done]. }
  change (negb (NBU_STRING_EQUAL =? NBU_SUCCESS)) with false. cbv iota.
  match goal with |- context [_ ?x = Ret (tt, _)] => set (a2 := x) end.
  destruct (nbd_get_ok _ _ a2 (local_buf 256) _ _ _ Hpw eq_refl) as (b2 & E5 & _ & Hb2). specialize (Hb2 eq_refl).
  run_with E5. passed.
  erewrite cmd_bind_Ret.
  2: { eapply on_world_ok, crypto_hmac_ok; [exact Hb2 | exact Htk | apply mac_ok |]. cbn. rewrite Hav. reflexivity. }
  passed. rewrite compare_mac by by apply Forall_drop. run.
  match goal with |- context [_ ?x = Ret (tt, _)] => set (a3 := x) end.
  unfold expected_password. destruct (bytes_eqb (drop 64 hash) _).
  2: { eexists. split; [apply custom_error_ok |]. apply ends_failed; [by do 3 apply sessions_spend | done]. }
  passed. destruct (api_validate_spec clock (a_w a3) l kept p s) as (w3 & E6 & Hss3 & Hws3 & _);
    [by do 3 apply sessions_spend | done |].
  erewrite cmd_bind_Ret; [|by apply (on_world_ok _ a3)].
  eexists. split; [apply set_value_ok; [by repeat constructor | simpl; lia] |]. split.
  - by apply sessions_put.
  - split; [exact Hws3 |]. by rewrite data_put, decide_True.
Qed.

(** The outcome for a pending token: it is activated, and answered, when [ok], and is
    an error [code] otherwise; no other session is activated. *)
Definition token_outcome (ok : bool) (code : bytes) a l ps p (s : session) token a' : Prop :=
  ∃ ps', sessions (a_w a') l ps' ∧ ps' `sublist_of` ps ∧ p ∈ ps' ∧
    (∀ q, q ∈ ps' → q ≠ p → w_sess (a_w a') !! q = w_sess (a_w a) !! q) ∧
    w_sess (a_w a') !! p = Some (if ok then Session 1 (id s) (clock (S (S (w_tick (a_w a))))) else s) ∧
    if ok then hdf_get (data a') (lit "auth.token") = Some token
    else hdf_get (data a') (lit "stat") = Some (lit "fail") ∧
         hdf_get (data a') (lit "err.code") = Some code.

Lemma ends_outcome ok code a l ps p s token w kept a' :
  checked a l ps p s w kept → w_sess w !! p = Some s → ends ok code w l kept p s token a' →
  token_outcome ok code a l ps p s token a'.
Proof.
  intros [Hs Hp Hsub Hsame _ Htk _] Es [Hs' He]. exists kept.
  destruct ok; destruct He as [Hw He]; rewrite Hw; split_and!; try done; try apply He.
  - intros q Hq Hqp. rewrite lookup_insert_ne by done. by apply Hsame.
  - by rewrite lookup_insert_eq, Htk.
  - intros q Hq _. by apply Hsame.
Qed.

Lemma passwd_ok a l ps token p s auth d hash login d1 password d2 k :
  pending a l ps token p s auth → nbd_says (nv "web_auth") 128 (a_nbd a) NBD_SUCCESS auth d →
  chosen auth (hdf_get (data a) (query (lit "hash"))) = Some (auth_passwd hash) → text hash →
  nbd_says (nv "web_login") 256 d NBD_SUCCESS login d1 →
  nbd_says (nv "web_password") 256 d1 NBD_SUCCESS password d2 →
  h_avail (w_heap (a_w a)) = S (S (S k)) →
  ∃ a', checkToken clock sha256 hmac_sha256 a = Ret (tt, a') ∧
    token_outcome (right_hash token login password hash) (lit "204") a l ps p s token a'.
Proof.
  intros Hp Ha Hm Hh Hlog Hpw Hav.
  destruct (checkToken_method a l ps token p s auth d _ Hp Ha Hm) as (w & kept & Hck & Es & E).
  destruct (check_passwd_ok a l kept p s token hash w d login d1 password d2 k) as (a' & E' & He); try done.
  { apply Hck. } { apply Hp. } { by rewrite (ck_avail _ _ _ _ _ _ _ Hck). }
  exists a'. split; [by rewrite E | by eapply ends_outcome].
Qed.

(** C14: [checkToken] with a password.  A pending token is activated exactly when the
    request's hash is the concatenation of the HMACs, keyed by the token, of the digest
    of the box's login and of its password digest; otherwise the answer is error 204
    and the session stays as it was.  No other session is activated. *)
Theorem checkToken_passwd a l ps token p s auth d hash login d1 password d2 k :
  pending a l ps token p s auth → nbd_says (nv "web_auth") 128 (a_nbd a) NBD_SUCCESS auth d →
  chosen auth (hdf_get (data a) (query (lit "hash"))) = Some (auth_passwd hash) → text hash →
  nbd_says (nv "web_login") 256 d NBD_SUCCESS login d1 →
  nbd_says (nv "web_password") 256 d1 NBD_SUCCESS password d2 →
  h_avail (w_heap (a_w a)) = S (S (S k)) →
  ∃ a', checkToken clock sha256 hmac_sha256 a = Ret (tt, a') ∧
    token_outcome (right_hash token login password hash) (lit "204") a l ps p s token a'.
Proof. apply passwd_ok. Qed.

(** C20: [checkToken] with the button.  A pending token is activated exactly when the
    box says its button was pushed, and then the button is released; otherwise the
    answer is error 203, or error 0 when the box does not answer.  No other session is
    activated. *)
Theorem checkToken_button a l ps token p s auth d r st d1 d2 :
  pending a l ps token p s auth → nbd_says (nv "web_auth") 128 (a_nbd a) NBD_SUCCESS auth d →
  length (a_buffer a) = 256%nat →
  chosen auth (hdf_get (data a) (query (lit "hash"))) = Some auth_button →
  nbd_says [str "status"; str "get"; str "web_autologin"] 256 d r st d1 →
  (∃ z o, nbd_query_op None 0 [str "nbctl"; str "halt_webautologin"] d1 = Ret ((z, o), d2)) →
  let ok := (r =? NBD_SUCCESS) && bytes_eqb st (lit "on") in
  ∃ a', checkToken clock sha256 hmac_sha256 a = Ret (tt, a') ∧
    token_outcome ok (if r =? NBD_SUCCESS then lit "203" else lit "0") a l ps p s token a' ∧
    a_nbd a' = if ok then d2 else d1.
Proof.
  intros Hp Ha Hbuf Hm Hst Hhalt ok.
  destruct (checkToken_method a l ps token p s auth d _ Hp Ha Hm) as (w & kept & Hck & Es & E).
  destruct (check_button_ok a l kept p s token w d r st d1 d2) as (a' & E' & He & Hd); try done.
  { apply Hck. }
  exists a'. split_and!; [by rewrite E | by eapply ends_outcome | done].
Qed.

(** *** New tokens *)

(** The sessions the daemon keeps at the next cleaning. *)
Definition kept_now a (ps : list loc) : list loc :=
  filter (λ p, ¬ stale_by (api_expired (clock (w_tick (a_w a)))) (a_w a) p) ps.

Lemma count_ok (w : world H) l ps :
  sessions w l ps → (length ps <= 65)%nat → ewf_session_count w = Ret (Z.of_nat (length ps), w).
Proof.
  intros [Hl _ (ns & Hil) _ _ _ _] Hle. unfold ewf_session_count. run.
  rewrite Hl. unfold on_list, zoom. rewrite (count_spec _ _ _ _ Hil), length_fmap, u32_small by lia. by destruct w.
Qed.

(** The end of [getToken], once a session was created: the token and the method are
    answered, the sessions are as they were. *)
Lemma answer_token_ok a b token r auth d :
  length b = 256%nat → str_of b = Some token → nbd_says (nv "web_auth") 256 (a_nbd a) r auth d →
  ∃ a', (token ← lift (c_str b);
         api_set_value (Some (lit "auth.token")) (Some token);;
         '(r, b) ← on_nbd (nbd_nv_get (str "web_auth") b 256);
         mod_st (set_buffer b);;
         if r =? NBD_SUCCESS then
           t ← lift (c_str b); api_set_value (Some (lit "auth.method")) (Some t)
         else mret tt) a = Ret (tt, a') ∧
    hdf_get (data a') (lit "auth.token") = Some token ∧
    hdf_get (data a') (lit "err.code") = hdf_get (data a) (lit "err.code") ∧
    ∀ l ps, sessions (a_w a) l ps → sessions (a_w a') l ps ∧ w_sess (a_w a') = w_sess (a_w a).
Proof.
  intros Hl Hb Hn. assert (c_str b = Ret token) as -> by (unfold c_str; by rewrite Hb).
  run.
  erewrite cmd_bind_Ret; [|apply set_value_ok; [by repeat constructor | simpl; lia]].
  destruct (nbd_get_ok _ _ (put (lit "auth.token") token a) b _ _ _ Hn Hl) as (b2 & E & _ & Hb2).
  run_with E. cbv beta iota. run.
  destruct (Z.eqb_spec r NBD_SUCCESS) as [Hr|].
  - assert (c_str b2 = Ret auth) as -> by (unfold c_str; by rewrite (Hb2 Hr)).
    run. eexists. split; [apply set_value_ok; [by repeat constructor | simpl; lia] |].
    rewrite !data_put, !(decide_False (P := _ = _)) by done.
    change (data (set_buffer b2 (set_nbd d (put (lit "auth.token") token a)))) with (data (put (lit "auth.token") token a)).
    rewrite !data_put, decide_True, decide_False by done. split_and!; [done .. |].
    intros l ps Hs. split; [by do 2 apply sessions_put | done].
  - eexists. split; [reflexivity |].
    change (data (set_buffer b2 (set_nbd d (put (lit "auth.token") token a)))) with (data (put (lit "auth.token") token a)).
    rewrite !data_put, decide_True, decide_False by done. split_and!; [done .. |].
    intros l ps Hs. split; [by apply sessions_put | done].
Qed.

(** Error 205 with authentication off. *)
Lemma refuse_off_ok r auth a :
  ∃ a' h, (if auth_off r auth then api_set_custom_error (lit "205") (lit "Authentification disabled") else mret tt) a
          = Ret (tt, a') ∧ a_w a' = set_hdf h (a_w a) ∧ a_buffer a' = a_buffer a ∧ a_nbd a' = a_nbd a ∧
    (auth_off r auth = true → hdf_get (data a') (lit "err.code") = Some (lit "205")).
Proof.
  destruct (auth_off r auth).
  - eexists _, _. split; [apply custom_error_ok |]. split_and!; [reflexivity | done | done |].
    intros _. apply failed_stat.
  - exists a, (w_hdf (a_w a)). split_and!; try done. by destruct (a_w a).
Qed.

(** C19: [getToken] never holds more than 65 sessions.  When more than 64 are left
    after the cleaning the answer is error 201 and none is added; otherwise one session
    joins at the end, not activated, and its id is answered.  That is so with
    authentication off too, where the answer carries error 205 and a token at once.  The
    documentation of the API (apirest.doc) gives the limit as 64 simultaneous requests,
    and ewf_session.h defines MAXSESSION_COUNT as 64: with 64 sessions held the code,
    which compares with [>], accepts one more. *)
Theorem getToken_bounded a l ps r auth d r2 auth2 d2 k :
  sessions (a_w a) l ps → (length ps <= 65)%nat → length (a_buffer a) = 256%nat →
  length (rdm (w_draw (a_w a))) = 20%nat → Forall byte_ok (rdm (w_draw (a_w a))) →
  h_avail (w_heap (a_w a)) = S (S k) →
  nbd_says (nv "web_auth") 64 (a_nbd a) r auth d → nbd_says (nv "web_auth") 256 d r2 auth2 d2 →
  let token := hex (rdm (w_draw (a_w a))) in
  ∃ a' ps', getToken clock rdm a = Ret (tt, a') ∧ sessions (a_w a') l ps' ∧ (length ps' <= 65)%nat ∧
    if 64 <? Z.of_nat (length (kept_now a ps)) then
      ps' `sublist_of` kept_now a ps ∧
      hdf_get (data a') (lit "stat") = Some (lit "fail") ∧ hdf_get (data a') (lit "err.code") = Some (lit "201")
    else
      ps' = kept_now a ps ++ [w_fresh (a_w a)] ∧
      w_sess (a_w a') !! w_fresh (a_w a) = Some (Session 0 (cstr token) (clock (S (w_tick (a_w a))))) ∧
      (∀ q, q ∈ kept_now a ps → w_sess (a_w a') !! q = w_sess (a_w a) !! q) ∧
      hdf_get (data a') (lit "auth.token") = Some token ∧
      (auth_off r auth = true → hdf_get (data a') (lit "err.code") = Some (lit "205")).
Proof.
  clear cgi_parse. intros Hss Hle Hbuf Hn Hby Hav Hw1 Hw2 token. unfold getToken.
  destruct (api_cleaner_spec clock (a_w a) l ps Hss) as (w1 & E1 & Hss1 & Htk & Hdr & Hh & Hfr & Hav1 & Hw).
  fold (kept_now a ps) in Hss1. set (kept := kept_now a ps) in *.
  assert (length kept <= 65)%nat as Hk by (etrans; [apply sublist_length, sublist_filter | done]).
  erewrite cmd_bind_Ret; [|by apply on_world_ok].
  erewrite cmd_bind_Ret; [|by eapply on_world_ok, count_ok]. set (a1 := set_w w1 (set_w w1 a)).
  destruct (Z.ltb_spec 64 (Z.of_nat (length kept))) as [Hlt|Hge].
  - erewrite cmd_bind_Ret; [|apply custom_error_ok].
    destruct (api_cleaner_spec clock (a_w (failed (lit "201") (lit "Max token reached") a1)) l kept)
      as (w2 & E2 & Hss2 & _ & _ & Hh2 & _); [by apply sessions_failed |].
    erewrite cmd_bind_Ret; [|by apply on_world_ok]. eexists _, _. split; [reflexivity |].
    split; [exact Hss2 |]. split; [etrans; [apply sublist_length, sublist_filter | done] |].
    split; [apply sublist_filter |]. unfold data. cbn [a_w set_w]. rewrite Hh2. apply failed_stat.
  - destruct (nbd_get_ok _ _ a1 (local_buf 64) _ _ _ Hw1 eq_refl) as (b & E2 & _ & Hb).
    run_with E2. cbv beta iota.
    destruct (off_test_ok r b auth (set_nbd d a1) Hb) as (z & Ez & Hz). run_with Ez.
    rewrite Hz. destruct (refuse_off_ok r auth (set_nbd d a1)) as (a2 & h & Eo & Ea2 & Hb2 & Hd2 & Hc2).
    run_with Eo. run.
    cbn in Ea2, Hb2, Hd2. rewrite <- Hb2 in Hbuf.
    pose proof (sessions_hdf w1 l kept h Hss1) as Hss2.
    destruct (api_create_spec clock rdm (set_hdf h w1) l kept (a_buffer a2) k Hss2)
      as (w3 & b3 & E3 & Hl3 & Ht3 & Hss3 & Hws3 & Hh3); [by cbn; rewrite Hav1 | done | by cbn; rewrite Hdr .. |].
    rewrite <- Ea2 in E3.
    erewrite cmd_bind_Ret; [|by apply on_world_ok]. cbv beta iota. run.
    run. change (EWF_SUCCESS =? EWF_SUCCESS) with true. cbv iota.
    set (a3 := set_buffer b3 (set_w w3 a2)).
    destruct (answer_token_ok a3 b3 token r2 auth2 d2 Hl3) as (a4 & E4 & Htok & Hcode & Hs4);
      [by rewrite Ht3; cbn; rewrite Hdr | by cbn; rewrite Hd2 |].
    exists a4, (kept ++ [w_fresh (a_w a)]). split; [exact E4 |]. cbn in Hss3, Hws3. rewrite Hfr in Hss3, Hws3.
    destruct (Hs4 l _ Hss3) as [Hss4 Hws4]. split_and!; try done.
    + rewrite length_app. simpl. lia.
    + rewrite Hws4. cbn. by rewrite Hws3, lookup_insert_eq, Hdr, Htk.
    + intros q Hq. rewrite Hws4. cbn. rewrite Hws3. apply list_elem_of_filter in Hq as [Hq1 Hq2].
      rewrite lookup_insert_ne, Hw, decide_False; [done | tauto |]. intros <-.
      pose proof (ss_live _ _ _ Hss) as Hlv. eapply Forall_forall in Hlv as (t & s & Es & _); [| exact Hq2].
      by rewrite (ss_fresh _ _ _ Hss) in Es by lia.
    + intros Hoff. rewrite Hcode. unfold data. cbn [a_w a3 set_buffer set_w]. rewrite Hh3, <- Ea2. by apply Hc2.
Qed.
End specs.

(** ** A concrete daemon *)

(** Answers from a table of texts, when they fit. *)
Definition table : Type := list (list bytes * bytes).

Fixpoint table_answer (d : table) (args : list bytes) : option bytes :=
  match d with
  | [] => None
  | (k, t) :: d => if decide (k = args) then Some t else table_answer d args
  end.

Definition table_query (out : option bytes) (n : Z) (args : list bytes) : cmd table (Z * option bytes) := λ d,
  match out, table_answer d args with
  | Some b, Some t =>
      if (length t <? length b)%nat then Ret ((0, Some (t ++ 0 :: drop (S (length t)) b)), d)
      else Ret ((-1, Some b), d)
  | Some b, None => Ret ((-1, Some b), d)
  | None, _ => Ret ((0, None), d)
  end.

#[local, program] Instance table_nbd : NbdOps table := {| nbd_query_op := table_query |}.
Next Obligation.
  intros b n args d r o d'. unfold table_query. destruct (table_answer d args) as [t|]; [| intros [=]; subst; by exists b].
  destruct (Nat.ltb_spec (length t) (length b)); intros [=]; subst; [| by exists b].
  eexists. split; [done |]. rewrite length_app. simpl. rewrite length_drop. lia.
Defined.

Lemma table_says d args n t :
  table_answer d args = Some t → text t → (length t < n)%nat → nbd_says args n d NBD_SUCCESS t d.
Proof.
  intros Ha Ht Hn b Hb. eexists. split.
  - cbn [nbd_query_op table_nbd]. unfold table_query. rewrite Ha, (proj2 (Nat.ltb_lt _ _)) by lia. reflexivity.
  - intros _. by apply str_of_app.
Qed.

Definition demo_table : table :=
  [(nv "web_auth", lit "all"); (nv "web_login", lit "admin"); (nv "web_password", lit "secret");
   ([str "status"; str "get"; str "web_autologin"], lit "on");
   ([str "autoconf"; str "get"; str "status"], lit "downloading")].

(** One session, in the list since second 1000, activated or not, at second 1001. *)
Definition api_clock (n : nat) : timeval := Timeval (1001 + Z.of_nat n) 0.

Definition api_demo (act : Z) (q : gmap bytes bytes) : api (gmap bytes bytes) table :=
  MkApi (set_sess (<[7%positive := Session act (cstr (lit "ab")) (Timeval 1000 0)]> (w_sess (demo_world q)))
           (demo_world q))
    demo_table (replicate 256 0) HNull 0 [].

Lemma api_demo_sessions act q : sessions (a_w (api_demo act q)) 1%positive [7%positive].
Proof. eapply store_sessions; [apply demo_sessions | reflexivity | reflexivity]. Qed.

Ltac asked := apply table_says; [done | by repeat constructor | simpl; lia].

Definition demo_private : api_method_t :=
  ApiMethod EWF_HTTP_REQUEST_METHOD_GET API_ACCESS_POLICY_PRIVATE (Some 0%nat).
Definition demo_public : api_method_t :=
  ApiMethod EWF_HTTP_REQUEST_METHOD_GET API_ACCESS_POLICY_PUBLIC (Some 0%nat).

Definition demo_request : gmap bytes bytes :=
  <[lit "CGI.RequestMethod" := lit "GET"]> {[query (lit "token") := lit "ab"]}.

Lemma demo_asks act m :
  request_method m = EWF_HTTP_REQUEST_METHOD_GET → action_handler m = Some 0%nat →
  request (api_demo act demo_request) m 0 NBD_SUCCESS (lit "downloading") demo_table.
Proof.
  intros Hm Hh. split; [| done | asked]. exists (lit "GET"). rewrite Hm. split; reflexivity.
Qed.

(** The activated session goes on to the action, the other one is refused. *)
Lemma api_private_method_guarded_witness :
  (∃ a2, ∀ code, api_handle_request api_clock (λ h, h) code (Some demo_private) (lit "m") (api_demo 1 demo_request)
     = (e ← run_action code 0 EWF_HTTP_REQUEST_METHOD_GET (lit "m"); show_answer e) a2) ∧
  (∃ a2, (∀ code, api_handle_request api_clock (λ h, h) code (Some demo_private) (lit "m") (api_demo 0 demo_request)
     = Ret (tt, a2)) ∧ hdf_get (data a2) (lit "err.code") = Some (lit "115")).
Proof.
  split.
  - destruct (api_private_method_guarded api_clock (λ h, h) (api_demo 1 demo_request) 1%positive [7%positive]
      demo_private 0 (lit "m") NBD_SUCCESS (lit "downloading") demo_table NBD_SUCCESS (lit "all") demo_table)
      as (a2 & ps' & _ & Hx); try done.
    + apply api_demo_sessions.
    + by apply demo_asks.
    + asked.
    + intros t. vm_compute. intros [= <-]. by repeat constructor.
    + exists a2. exact Hx.
  - destruct (api_private_method_guarded api_clock (λ h, h) (api_demo 0 demo_request) 1%positive [7%positive]
      demo_private 0 (lit "m") NBD_SUCCESS (lit "downloading") demo_table NBD_SUCCESS (lit "all") demo_table)
      as (a2 & ps' & _ & Hx); try done.
    + apply api_demo_sessions.
    + by apply demo_asks.
    + asked.
    + intros t. vm_compute. intros [= <-]. by repeat constructor.
    + exists a2. destruct Hx as (Hx & _ & Hc & _). split; [exact Hx | exact Hc].
Defined.

Lemma api_upgrading_still_runs_witness :
  ∃ a1, a_out a1 = [lit "api/generic.xml"] ∧
    api_handle_request api_clock (λ h, h) (λ _, mret tt) (Some demo_public) (lit "m") (api_demo 0 demo_request)
    = (e ← run_action (λ _, mret tt) 0 EWF_HTTP_REQUEST_METHOD_GET (lit "m"); show_answer e) a1.
Proof.
  apply (api_upgrading_still_runs api_clock (λ h, h) (api_demo 0 demo_request) demo_public 0 (lit "m")
           (lit "downloading") demo_table (λ _, mret tt)); try done.
  by apply demo_asks.
Defined.

Definition demo_hash : bytes :=
  expected_login demo_digest (λ _ m, demo_digest m) (lit "ab") (lit "admin")
  ++ expected_password (λ _ m, demo_digest m) (lit "ab") (lit "secret").

Lemma demo_pending q :
  hdf_get q (query (lit "token")) = Some (lit "ab") →
  pending api_clock (api_demo 0 q) 1%positive [7%positive] (lit "ab") 7%positive
    (Session 0 (cstr (lit "ab")) (Timeval 1000 0)) (lit "all").
Proof.
  intros Hq. split; try done.
  - apply api_demo_sessions.
  - by repeat constructor.
Qed.

Lemma checkToken_passwd_witness :
  ∃ a', checkToken api_clock demo_digest (λ _ m, demo_digest m)
          (api_demo 0 (<[query (lit "hash") := demo_hash]> {[query (lit "token") := lit "ab"]})) = Ret (tt, a') ∧
    w_sess (a_w a') !! 7%positive = Some (Session 1 (cstr (lit "ab")) (Timeval 1003 0)) ∧
    hdf_get (data a') (lit "auth.token") = Some (lit "ab").
Proof.
  destruct (checkToken_passwd api_clock demo_digest (λ _ m, demo_digest m) demo_digest_ok (λ _ m, demo_digest_ok m)
    (api_demo 0 (<[query (lit "hash") := demo_hash]> {[query (lit "token") := lit "ab"]})) 1%positive [7%positive]
    (lit "ab") 7%positive (Session 0 (cstr (lit "ab")) (Timeval 1000 0)) (lit "all") demo_table demo_hash
    (lit "admin") demo_table (lit "secret") demo_table 47) as (a' & E & ps' & _ & _ & _ & _ & Hs & Ht).
  - by apply demo_pending.
  - asked.
  - vm_compute. reflexivity.
  - apply (bool_decide_unpack _). by vm_compute.
  - asked.
  - asked.
  - reflexivity.
  - assert (right_hash demo_digest (λ _ m, demo_digest m) (lit "ab") (lit "admin") (lit "secret") demo_hash = true)
      as Hr by (vm_compute; reflexivity).
    rewrite Hr in Hs, Ht. exists a'. split; [exact E |]. split; [exact Hs | exact Ht].
Defined.

Lemma checkToken_button_witness :
  ∃ a', checkToken api_clock demo_digest (λ _ m, demo_digest m)
          (api_demo 0 {[query (lit "token") := lit "ab"]}) = Ret (tt, a') ∧
    w_sess (a_w a') !! 7%positive = Some (Session 1 (cstr (lit "ab")) (Timeval 1003 0)).
Proof.
  destruct (checkToken_button api_clock demo_digest (λ _ m, demo_digest m)
    (api_demo 0 {[query (lit "token") := lit "ab"]}) 1%positive [7%positive]
    (lit "ab") 7%positive (Session 0 (cstr (lit "ab")) (Timeval 1000 0)) (lit "all") demo_table NBD_SUCCESS
    (lit "on") demo_table demo_table) as (a' & E & (ps' & _ & _ & _ & _ & Hs & _) & _).
  - by apply demo_pending.
  - asked.
  - reflexivity.
  - vm_compute. reflexivity.
  - asked.
  - by eexists _, _.
  - exists a'. split; [exact E | exact Hs].
Defined.

Lemma getToken_bounded_witness :
  ∃ a' ps', getToken api_clock (λ _, replicate 20 1) (api_demo 0 ∅) = Ret (tt, a') ∧
    sessions (a_w a') 1%positive ps' ∧ length ps' = 2%nat ∧
    activated <$> w_sess (a_w a') !! 8%positive = Some 0.
Proof.
  destruct (getToken_bounded api_clock (λ _, replicate 20 1) (api_demo 0 ∅) 1%positive [7%positive] NBD_SUCCESS
    (lit "all") demo_table NBD_SUCCESS (lit "all") demo_table 48) as (a' & ps' & E & Hs & _ & Hps & Hn & _).
  - apply api_demo_sessions.
  - simpl. lia.
  - reflexivity.
  - reflexivity.
  - apply Forall_replicate. unfold byte_ok. lia.
  - reflexivity.
  - asked.
  - asked.
  - exists a', ps'. split; [exact E |]. split; [exact Hs |]. split; [by rewrite Hps |].
    change (w_fresh (a_w (api_demo 0 ∅))) with 8%positive in Hn. by rewrite Hn.
Defined.
