(* ===== verification/ApiLink.v ===== *)
(** The REST API on top of the socket: the link of libnbd gives what the API's theorems
    ask of the configuration daemon, for any answers, fragments and signals. *)

From stdpp Require Import base tactics list gmap strings.
From S2P Require Import Prelude.
From S2P Require Import Dll.
From S2P Require Import CString.
From S2P Require Import NbuList.
From S2P Require Import NbuString.
From S2P Require Import NbuNet.
From S2P Require Import EwfHdf.
From S2P Require Import EwfSession.
From S2P Require Import EwfSessionProofs.
From S2P Require Import EwfSmith.
From S2P Require Import EwfSmithProofs.
From S2P Require Import NbdCore.
From S2P Require Import NbdQueries.
From S2P Require Import NbdProofs.
From S2P Require Import ApiSession.
From S2P Require Import Api.
From S2P Require Import ApiProofs.
Import NbuList NbuString NbuNet EwfHdf EwfSmith NbdCore NbdQueries ApiSession Api.

Section link.
Context {H : Type} `{Hdf H}.
Context (stack : bytes) (Hstack : length stack = 512%nat).

#[local] Instance stack_nbd : NbdOps link := link_nbd stack.

Lemma filled_text buf data :
  text data → (length data < length buf)%nat → str_of (filled buf data) = Some data.
Proof.
  intros Ht Hl. destruct data as [|c data].
  - destruct buf; [simpl in Hl; lia | done].
  - unfold filled. destruct (length buf - length (c :: data))%nat eqn:E; [lia |]. cbn [replicate]. by apply str_of_app.
Qed.

(** An answer on the stream is an answer to the API. *)
Lemma link_says l args n r data rest :
  query_ok args → ready l (answer r data ++ rest) → INT_MIN <= r <= INT_MAX →
  text data → (length data < n)%nat → Z.of_nat n < 2 ^ 32 →
  ∃ l', nbd_says (cstr <$> args) n l r data l' ∧ ready l' rest.
Proof.
  intros Hq Hr Hi Ht Hl Hn.
  destruct (nbd_query_ok stack l args r data rest n Hstack Hq Hr Hi) as (l' & Hr' & E); [lia | lia | done |].
  exists l'. split; [| done]. intros b Hb. eexists. split; [by apply E |]. intros _. apply filled_text; [done | lia].
Qed.

Context (clock : nat → timeval) (sha256 : bytes → bytes) (hmac_sha256 : bytes → bytes → bytes).
Context (sha_ok : ∀ m, digest_ok (sha256 m)) (mac_ok : ∀ k m, digest_ok (hmac_sha256 k m)).

(** A value of the box's configuration, as a query gets it. *)
Lemma nv_says l key n data rest :
  query_ok [lit "nvram"; lit "get"; lit key] → ready l (answer 0 data ++ rest) → text data →
  (length data < n)%nat → Z.of_nat n < 2 ^ 32 →
  ∃ l', nbd_says (nv key) n l NBD_SUCCESS data l' ∧ ready l' rest.
Proof.
  intros Hq Hr Ht Hl Hn. apply (link_says l [lit "nvram"; lit "get"; lit key]); done.
Qed.

(** C15: [checkToken] with a password, over the socket.  When the stream from the
    configuration daemon holds the box's method, login and password digest, cut into any
    fragments and interrupted by signals, a pending token is activated exactly when the
    request's hash is made of the HMACs of these values; otherwise the answer is error
    204.  No other session is activated. *)
Theorem checkToken_over_the_link (a : api H link) l ps token p s auth hash login password rest k :
  pending clock a l ps token p s auth →
  ready (a_nbd a) (answer 0 auth ++ answer 0 login ++ answer 0 password ++ rest) →
  text auth → (length auth < 128)%nat → text login → (length login < 256)%nat →
  text password → (length password < 256)%nat →
  chosen auth (hdf_get (data a) (query (lit "hash"))) = Some (auth_passwd hash) → text hash →
  h_avail (w_heap (a_w a)) = S (S (S k)) →
  ∃ a', checkToken clock sha256 hmac_sha256 a = Ret (tt, a') ∧
    token_outcome clock (right_hash sha256 hmac_sha256 token login password hash) (lit "204") a l ps p s token a'.
Proof.
  intros Hp Hr Ha Hal Hl Hll Hpw Hpl Hm Hh Hav.
  assert (∀ key, key ∈ ["web_auth"; "web_login"; "web_password"] →
          query_ok [lit "nvram"; lit "get"; lit key]) as Hq.
  { intros key Hk. apply list_elem_of_In in Hk. simpl in Hk. destruct_or! Hk; subst; try done;
      (split; [by repeat constructor | split; [simpl; lia | by vm_compute]]). }
  destruct (nv_says (a_nbd a) "web_auth" 128 auth _ ltac:(apply Hq; set_solver) Hr Ha Hal) as (l1 & Hs1 & Hr1); [done |].
  destruct (nv_says l1 "web_login" 256 login _ ltac:(apply Hq; set_solver) Hr1 Hl Hll) as (l2 & Hs2 & Hr2); [done |].
  destruct (nv_says l2 "web_password" 256 password _ ltac:(apply Hq; set_solver) Hr2 Hpw Hpl) as (l3 & Hs3 & _); [done |].
  by apply (passwd_ok clock sha256 hmac_sha256 sha_ok mac_ok a l ps token p s auth l1 hash login l2 password l3 k).
Qed.
End link.

(** A link that cuts its answers in the middle of their headers. *)
Definition socket_demo : link := sample_link
  [RData (answer 0 (lit "passwd") ++ [0; 0]); RIntr;
   RData ([0; 0] ++ be32 5 ++ lit "adm"); RData (lit "in" ++ answer 0 (lit "secret"))].

Definition socket_api : api (gmap bytes bytes) link :=
  set_w (a_w (api_demo 0 (<[query (lit "hash") := demo_hash]> {[query (lit "token") := lit "ab"]})))
    (MkApi (a_w (api_demo 0 ∅)) socket_demo (replicate 256 0) HNull 0 []).

Lemma checkToken_over_the_link_witness :
  ∃ a', checkToken (H0 := hdf_gmap) (H1 := link_nbd sample_stack) api_clock demo_digest (λ _ m, demo_digest m) socket_api = Ret (tt, a') ∧
    w_sess (a_w a') !! 7%positive = Some (Session 1 (cstr (lit "ab")) (Timeval 1003 0)).
Proof.
  destruct (checkToken_over_the_link sample_stack eq_refl api_clock demo_digest (λ _ m, demo_digest m)
    demo_digest_ok (λ _ m, demo_digest_ok m) socket_api 1%positive [7%positive] (lit "ab") 7%positive
    (Session 0 (cstr (lit "ab")) (Timeval 1000 0)) (lit "passwd") demo_hash (lit "admin") (lit "secret") [] 47)
    as (a' & E & ps' & _ & _ & _ & _ & Hs & _).
  - split; try done; [apply api_demo_sessions | by repeat constructor].
  - unfold ready, waiting. split_and!; try done; repeat constructor; done.
  - by repeat constructor.
  - simpl. lia.
  - by repeat constructor.
  - simpl. lia.
  - by repeat constructor.
  - simpl. lia.
  - vm_compute. reflexivity.
  - apply (bool_decide_unpack _). by vm_compute.
  - reflexivity.
  - assert (right_hash demo_digest (λ _ m, demo_digest m) (lit "ab") (lit "admin") (lit "secret") demo_hash = true)
      as Hr by (vm_compute; reflexivity).
    rewrite Hr in Hs. exists a'. split; [exact E | exact Hs].
Defined.
