(* ===== verification/ApiCtl.v ===== *)
(** The methods of the REST API: [src/efixo/efixo-api/src/src/ctl], [cfg.c] and
    [nbl_trash.c], and the table they are registered in.

    A method of the file [x.c] with the name [m] is [x_m] here; [auth.c] is in [Api].
    All of them share the global [buffer] of the daemon.  The XML library is a class;
    what [fork] answers is a parameter. *)

From stdpp Require Import base tactics list gmap strings.
From S2P Require Import Prelude.
From S2P Require Import CString.
From S2P Require Import NbuList.
From S2P Require Import NbuString.
From S2P Require Import NbuNet.
From S2P Require Import EwfHdf.
From S2P Require Import EwfSession.
From S2P Require Import EwfSmith.
From S2P Require Import NbdQueries.
From S2P Require Import NbdServices.
From S2P Require Import NbdVoip.
From S2P Require Import Api.
Import NbuList NbuString NbuNet EwfHdf EwfSmith NbdQueries NbdServices Api.

(** What ezxml answers: [ezxml_parse_str], [ezxml_child] with the nodes behind it by
    [next], [ezxml_get] with the same, [ezxml_child_txt] and [ezxml_txt]. *)
Class Ezxml (X : Type) := {
  ezxml_parse_str : option bytes → Z → option X;
  ezxml_children : X → bytes → list X;
  ezxml_get : X → list (bytes * Z) → list X;
  ezxml_child_txt : X → bytes → bytes;
  ezxml_txt : X → bytes;
}.

Module ApiCtl.

Definition NBD_UNCHANGED : Z := 1.
Definition NBD_ERROR : Z := -1.

Section ctl.
Context {H : Type} `{Hdf H} {D : Type} `{NbdLink D} {X : Type} `{Ezxml X}.

Abbreviation M := (cmd (api H D)).

(** *** What the methods share *)

(** [if (get(..., buffer, sizeof(buffer)) == NBD_SUCCESS) api_set_value(name, buffer);]. *)
Definition copy_value (get : bytes → Z → cmd D (Z * bytes)) (name : string) : M unit :=
  a ← state;
  '(r, b) ← on_nbd (get (a_buffer a) 256);
  mod_st (set_buffer b);;
  if r =? NBD_SUCCESS then t ← lift (c_str b); api_set_value (Some (lit name)) (Some t) else mret tt.

Definition from_status (key : string) := nbd_status_get (D := D) (str key).
Definition from_nv (key : string) := nbd_nv_get (D := D) (str key).

(** [nbu_string_printf(buffer, sizeof buffer, "<list>.%d.<field>", n)] and
    [api_set_value(buffer, value)]. *)
Definition print_item (list : string) (n : Z) (field : string) : M bytes :=
  a ← state;
  b ← lift (buf_of (nbu_string_printf (Some (a_buffer a)) 256 (lit list ++ 46 :: fmt_d n ++ 46 :: lit field)));
  mod_st (set_buffer b);;
  lift (c_str b).

Definition set_item (list : string) (n : Z) (field : string) (value : bytes) : M unit :=
  name ← print_item list n field; api_set_value (Some name) (Some value).

(** A parameter of the request, stored and committed. *)
Definition store_parameter (name key : string) : M unit :=
  '(r, param) ← ewf_fastcgi_get_parameter (Some (lit name));
  match param with
  | Some param =>
      on_nbd (nbd_nv_set (str key) (cstr param));;
      on_nbd (nbd_nv_commit (str "user"));;
      mret tt
  | None => mret tt
  end.

(** An XML answer, its length not set before. *)
Definition with_xml (get : option bytes → Z → cmd D (Z * option bytes * Z)) (body : X → M unit) : M unit :=
  '(r, buf_xml, size) ← on_nbd (get None 0);
  if r =? NBD_SUCCESS then
    match ezxml_parse_str buf_xml size with
    | Some root => body root
    | None => mret tt
    end
  else mret tt.

(** *** app.c *)
Definition samba_values (active state codeno : string) : M unit :=
  with_xml nbd_sambactl_status (λ root,
    api_set_value (Some (lit active)) (Some (ezxml_child_txt root (lit "active")));;
    api_set_value (Some (lit state)) (Some (ezxml_child_txt root (lit "state")));;
    api_set_value (Some (lit codeno)) (Some (ezxml_child_txt root (lit "codeno")))).

Definition app_getInfo : M unit :=
  copy_value (from_status "p910nd_status") "p910nd.status";;
  copy_value (from_nv "p910nd_bidir") "p910nd.bidir";;
  samba_values "smbd.active" "smbd.state" "smbd.codeno".

(** *** backup3g.c *)
Definition backup3g_forceDataLink : M unit := store_parameter "mode" "gprs_service_data".
Definition backup3g_forceVoipLink : M unit := store_parameter "mode" "gprs_service_voice".
Definition backup3g_getPinCode : M unit := copy_value (from_nv "gprs_pin") "backup3g.getPinCode".

Definition backup3g_setPinCode : M unit :=
  '(r, param) ← ewf_fastcgi_get_parameter (Some (lit "pincode"));
  match param with
  | Some param =>
      r ← on_nbd (nbd_nv_set (str "gprs_pin") (cstr param));
      if r =? NBD_SUCCESS then on_nbd (nbd_nv_commit (str "user"));; mret tt else mret tt
  | None => mret tt
  end.

(** *** dsl.c *)
Definition from_dsl (key : string) := nbd_dsl_get (str key).

Definition dsl_getInfo : M unit :=
  copy_value (from_status "adsl_status") "dsl.status";;
  copy_value (from_status "adsl_uptime") "dsl.uptime";;
  copy_value (from_status "adsl_counter") "dsl.counter";;
  copy_value (from_dsl "adsl_noise_down") "dsl.noise_down";;
  copy_value (from_dsl "adsl_noise_up") "dsl.noise_up";;
  copy_value (from_dsl "adsl_attenuation_down") "dsl.attenuation_down";;
  copy_value (from_dsl "adsl_attenuation_up") "dsl.attenuation_up";;
  copy_value (from_dsl "adsl_rate_down") "dsl.rate_down";;
  copy_value (from_dsl "adsl_rate_up") "dsl.rate_up";;
  copy_value (from_dsl "adsl_linemode") "dsl.linemode";;
  copy_value (from_dsl "adsl_crc") "dsl.crc".

(** *** firewall.c *)
Definition firewall_getInfo : M unit :=
  copy_value (from_nv "filter_mode") "firewall.filter_mode";;
  copy_value (from_nv "filter_simple_winsharedrop") "firewall.filter_simple_winsharedrop";;
  copy_value (from_nv "filter_simple_icmpdrop") "firewall.filter_simple_icmpdrop";;
  copy_value (from_nv "filter_simple_smtpdrop") "firewall.filter_simple_smtpdrop".

Definition smtp_filter (value : string) : M unit :=
  on_nbd (nbd_nv_set (str "filter_simple_smtpdrop") (str value));;
  on_nbd (nbd_nv_commit (str "user"));;
  on_nbd (nbd_sys_sync_run (str "/etc/init.d/firewall") (str "smtp"));;
  mret tt.

Definition firewall_enableSmtpFilter : M unit := smtp_filter "on".
Definition firewall_disableSmtpFilter : M unit := smtp_filter "off".

(** *** hotspot.c *)
Definition hotspot_getInfo : M unit :=
  copy_value (from_status "hotspot_status") "hotspot.status";;
  copy_value (from_nv "hotspot_active") "hotspot.enabled";;
  copy_value (from_nv "hotspot_mode") "hotspot.mode".

Fixpoint assoc_loop (nodes : list X) (n : Z) : M unit :=
  match nodes with
  | [] => mret tt
  | node :: nodes =>
      let n := n + 1 in
      set_item "hotspot_assoc_list" n "ipaddr" (ezxml_child_txt node (lit "ipaddr"));;
      set_item "hotspot_assoc_list" n "macaddr" (ezxml_child_txt node (lit "macaddr"));;
      assoc_loop nodes n
  end.

Definition hotspot_getClientList : M unit :=
  with_xml (nbd_status_xml (str "hotspot")) (λ root, assoc_loop (ezxml_children root (lit "assoc")) 0).

Definition hotspot_setMode : M unit := store_parameter "mode" "hotspot_mode".

Definition hotspot_active (value : string) : M unit :=
  on_nbd (nbd_nv_set (str "hotspot_active") (str value));;
  on_nbd (nbd_nv_commit (str "user"));;
  mret tt.

Definition hotspot_enable : M unit := hotspot_active "on".
Definition hotspot_disable : M unit := hotspot_active "off".
Definition hotspot_start : M unit := on_nbd nbd_hotspot_start;; mret tt.
Definition hotspot_stop : M unit := on_nbd nbd_hotspot_stop;; mret tt.
Definition hotspot_restart : M unit := on_nbd nbd_hotspot_restart;; mret tt.

(** *** lan.c *)

(** [nbu_string_compare(ezxml_child_txt(node, "type"), t) == NBU_SUCCESS]. *)
Definition has_type (node : X) (t : string) : M bool :=
  r ← lift (nbu_string_compare (Some (cstr (ezxml_child_txt node (lit "type")))) (Some (str t)));
  mret (r =? 0).

Fixpoint hosts_loop (nodes : list X) (n : Z) : M unit :=
  match nodes with
  | [] => mret tt
  | node :: nodes =>
      pc ← has_type node "pc";
      shown ← (if pc : bool then mret true else has_type node "stb");
      if shown : bool then
        let n := n + 1 in
        set_item "lan.hosts" n "name" (ezxml_child_txt node (lit "hostname"));;
        set_item "lan.hosts" n "ip" (ezxml_child_txt node (lit "ipaddr"));;
        set_item "lan.hosts" n "mac" (ezxml_child_txt node (lit "macaddr"));;
        set_item "lan.hosts" n "iface" (ezxml_child_txt node (lit "port"));;
        hosts_loop nodes n
      else hosts_loop nodes n
  end.

Definition lan_getHostsList : M unit :=
  with_xml (nbd_status_xml (str "lan_topology")) (λ root, hosts_loop (ezxml_children root (lit "device")) 0).

(** [api_set_value(name, parts[i])]. *)
Fixpoint set_parts (names : list string) (parts : list bytes) : M unit :=
  match names, parts with
  | name :: names, p :: parts =>
      t ← lift (c_str p);
      api_set_value (Some (lit name)) (Some t);;
      set_parts names parts
  | _, _ => mret tt
  end.

(** The result of [nbu_net_split_ip] is not looked at: [parts] is what it was when it
    fails. *)
Definition copy_address (key : string) (names : list string) (parts : list bytes) : M (list bytes) :=
  a ← state;
  '(r, b) ← on_nbd (from_nv key (a_buffer a) 256);
  mod_st (set_buffer b);;
  if r =? NBD_SUCCESS then
    '(_, parts) ← lift (nbu_net_split_ip (Some b) parts);
    set_parts names parts;;
    mret parts
  else mret parts.

Definition lan_getInfo : M unit :=
  copy_value (from_nv "lan_ipaddr") "lan.ipaddr";;
  copy_value (from_nv "lan_netmask") "lan.netmask";;
  copy_value (from_nv "dhcp_active") "lan.dhcpactive";;
  parts ← copy_address "dhcp_start"
    ["lan.dhcpstartp0"; "lan.dhcpstartp1"; "lan.dhcpstartp2"; "lan.dhcpstartp3"] (replicate 4 (local_buf 4));
  copy_address "dhcp_end" ["lan.dhcpendp0"; "lan.dhcpendp1"; "lan.dhcpendp2"; "lan.dhcpendp3"] parts;;
  copy_value (from_nv "dhcp_lease") "lan.dhcplease".

(** *** ppp.c *)

(** [nbu_string_printf(name, sizeof(name), "ppp_%s_<what>", data_infra)]. *)
Definition ppp_name (data_infra : bytes) (what : string) : outcome bytes :=
  t ← c_str data_infra;
  buf_of (nbu_string_printf (Some (local_buf 128)) 128 (lit "ppp_" ++ t ++ lit what)).

Definition ppp_getInfo : M unit :=
  '(r, data_infra) ← on_nbd (from_status "net_data_access" (local_buf 64) 64);
  if r =? NBD_SUCCESS then
    name ← lift (ppp_name data_infra "_status");
    t ← lift (c_str name);
    copy_value (nbd_status_get (cstr t)) "ppp.status";;
    name ← lift (ppp_name data_infra "_ipaddr");
    t ← lift (c_str name);
    copy_value (nbd_status_get (cstr t)) "ppp.ip_addr"
  else mret tt.

Definition ppp_getCredentials : M unit :=
  copy_value (from_nv "ppp_login") "ppp.login";;
  copy_value (from_nv "ppp_password") "ppp.password".

(** Whether a parameter was stored. *)
Definition store_credential (name key : string) : M bool :=
  '(r, param) ← ewf_fastcgi_get_parameter (Some (lit name));
  match param with
  | Some param => r ← on_nbd (nbd_nv_set (str key) (cstr param)); mret (r =? NBD_SUCCESS)
  | None => mret false
  end.

Definition ppp_setCredentials : M unit :=
  login ← store_credential "login" "ppp_login";
  password ← store_credential "password" "ppp_password";
  if (login : bool) || (password : bool) then
    on_nbd (nbd_nv_commit (str "user"));;
    on_nbd (nbd_sys_async_run (str "/etc/init.d/ppp") (str "reload"));;
    mret tt
  else mret tt.

(** *** printer.c, storage.c *)
Definition printer_getInfo : M unit :=
  copy_value (from_status "p910nd_status") "printer.p910nd_status";;
  copy_value (from_nv "p910nd_bidir") "printer.p910nd_bidir".

Definition storage_getInfo : M unit :=
  samba_values "storage.sambaactive" "storage.sambastate" "storage.sambacodeno".

(** *** system.c *)
Definition system_getInfo (NB5 : bool) : M unit :=
  copy_value (from_status "productID") "system.product_id";;
  copy_value (from_status "mac_addr") "system.mac_addr";;
  copy_value (nbd_user_config_get (str "net_mode")) "system.net_mode";;
  copy_value (from_status "net_data_access") "system.net_infra";;
  copy_value (from_status "uptime") "system.uptime";;
  copy_value (from_status "version_mainfirmware") "system.firmware_version";;
  copy_value (from_status "version_rescuefirmware") "system.rescue_version";;
  copy_value (from_status "version_bootloader") "system.bootloader_version";;
  if NB5 then mret tt else copy_value (from_status "version_dsldriver") "system.dsldriver_version".

Definition system_getWpaKey : M unit := copy_value (from_status "wpa_key") "system.wpa_key".

(** The parameter is read and nothing is done with it. *)
Definition system_setNetMode : M unit := ewf_fastcgi_get_parameter (Some (lit "mode"));; mret tt.

(** The child reboots the box over a link of its own and exits. *)
Definition system_reboot (pid : Z) : M unit :=
  if pid =? 0 then
    on_nbd nbd_open_op;;
    on_nbd nbd_sys_reboot;;
    on_nbd nbd_close_op;;
    lift Abort
  else mret tt.

(** *** nbl_trash.c *)

(** The status is looked for in the caller's buffer, not in the answer. *)
Definition nbl_voip_get_hook_status (status : bytes) (status_size : Z) : cmd D (Z * bytes) :=
  '(ret, _) ← nbd_status_get (str "voip_up") (local_buf 5) 5;
  if ret =? NBD_ERROR then mret (NBU_ERROR, status)
  else
    up ← lift (nbu_string_ncompare status 2 (str "up"));
    '(ret, status) ←
      (if up =? NBU_STRING_EQUAL then
         '(ret, status) ← nbd_status_get (str "voip_hookstate") status status_size;
         if ret =? NBD_SUCCESS then
           onhook ← lift (nbu_string_ncompare status 6 (str "onhook"));
           b ← lift (buf_of (nbu_string_printf (Some status) status_size
                               (if onhook =? NBU_SUCCESS then lit "onhook" else lit "offhook")));
           mret (ret, b)
         else mret (ret, status)
       else
         b ← lift (buf_of (nbu_string_printf (Some status) status_size (lit "unknown")));
         mret (ret, b));
    mret (if ret =? NBD_SUCCESS then NBU_SUCCESS else NBU_ERROR, status).

(** *** voip.c *)
Definition voip_call_type_str (type : Z) : bytes :=
  if type =? NbdVoip.CALL_PSTN then lit "pstn"
  else if type =? NbdVoip.CALL_VOIP then lit "voip"
  else if type =? NbdVoip.CALL_COMPLEX then lit "voip"
  else if type =? NbdVoip.CALL_3G then lit "radio"
  else lit "unknown".

Definition voip_getInfo : M unit :=
  copy_value (from_status "voip_up") "voip.status";;
  copy_value (from_status "net_voip_access") "voip.infra";;
  copy_value nbl_voip_get_hook_status "voip.hookstatus";;
  copy_value (from_nv "voip_callhistory") "voip.callhistory".

(** [sscanf(text, "%hu", &v)]: [v] keeps its value when there is no number. *)
Definition scan_hu (text : bytes) (v : Z) : Z :=
  let '(neg, s) := take_sign (skip_spaces text) in
  let '(z, n) := digits 10 s 0 0 in
  if (n =? 0)%nat then v else (if neg : bool then - z else z) mod 65536.

(** [type] and [direction] are on the stack and keep what is there. *)
Fixpoint calls_loop (nodes : list X) (n type direction : Z) : M unit :=
  match nodes with
  | [] => mret tt
  | node :: nodes =>
      let type := scan_hu (ezxml_child_txt node (lit "type")) type in
      set_item "call_list" n "type" (voip_call_type_str type);;
      let direction := scan_hu (ezxml_child_txt node (lit "direction")) direction in
      set_item "call_list" n "direction" (if direction =? 0 then lit "incoming" else lit "outgoing");;
      let number := ezxml_child_txt node (lit "number") in
      name ← print_item "call_list" n "number";
      (if (4 <? length number)%nat then
         b ← lift (buf_of (nbu_string_printf (Some (local_buf 128)) 128
                             (take (length number - 4) number ++ lit " XXXX")));
         buf2 ← lift (c_str b);
         api_set_value (Some name) (Some buf2)
       else api_set_value (Some name) (Some number));;
      set_item "call_list" n "length" (ezxml_child_txt node (lit "length"));;
      set_item "call_list" n "date" (ezxml_child_txt node (lit "date"));;
      calls_loop nodes (n + 1) type direction
  end.

Definition voip_getCallhistoryList (stack_type stack_direction : Z) : M unit :=
  with_xml (nbd_status_xml (str "voip_history")) (λ root,
    calls_loop (ezxml_children root (lit "call")) 0 stack_type stack_direction).

Definition voip_start : M unit := on_nbd NbdVoip.nbd_voip_start;; mret tt.
Definition voip_stop : M unit := on_nbd NbdVoip.nbd_voip_stop;; mret tt.
Definition voip_restart : M unit := on_nbd NbdVoip.nbd_voip_restart;; mret tt.

(** *** wan.c *)
Definition wan_getInfo : M unit :=
  copy_value (from_status "net_data_status") "wan.status";;
  copy_value (from_status "net_data_uptime") "wan.uptime";;
  copy_value (from_status "net_data_ipaddr") "wan.ip_addr";;
  copy_value (from_status "net_data_access") "wan.infra".

(** *** cfg.c *)
Definition cfg_set_error : Z := -100.
Definition cfg_set_invalidvalue : Z := -99.
Definition cfg_set_success : Z := 0.
Definition cfg_set_unchanged : Z := 1.

Definition value_cptb_mapping : list (bytes * bytes * bytes) :=
  [(lit "wlan_mode", lit "11n-only", lit "11n");
   (lit "wlan_mode", lit "11n-legacy", lit "11ng");
   (lit "wlan_mode", lit "legacy", lit "11g")].

Fixpoint mapping_loop (m : list (bytes * bytes * bytes)) (cfg_name value : bytes) : outcome bytes :=
  match m with
  | [] => Ret value
  | (name, old_value, new_value) :: m =>
      r ← nbu_string_compare (Some cfg_name) (Some (cstr name));
      r' ← (if r =? NBU_STRING_EQUAL then nbu_string_compare (Some value) (Some (cstr old_value))
            else Ret NBU_STRING_DIFFERENT);
      if (r =? NBU_STRING_EQUAL) && (r' =? NBU_STRING_EQUAL) then Ret (cstr new_value)
      else mapping_loop m cfg_name value
  end.

Definition cfg_set (cfg_name value : bytes) : cmd D Z :=
  value ← lift (mapping_loop value_cptb_mapping cfg_name value);
  ret ← nbd_nv_set cfg_name value;
  mret (if ret =? NBD_SUCCESS then cfg_set_success
        else if ret =? NBD_UNCHANGED then cfg_set_unchanged
        else if ret =? -4 then cfg_set_invalidvalue
        else cfg_set_error).

(** *** wlan.c *)
Definition wlan_getInfo : M unit :=
  copy_value nbd_wlan_macfiltering_mode "wlan.macfiltering";;
  copy_value nbd_wlan_active "wlan.active";;
  copy_value (from_nv "wlan_channel") "wlan.channel";;
  copy_value (from_nv "wlan_mode") "wlan.mode";;
  copy_value (from_nv "wlan_wl0_ssid") "wlan.wl0.ssid";;
  copy_value (from_nv "wlan_wl0_enc") "wlan.wl0.enc";;
  copy_value (from_nv "wlan_wl0_keytype") "wlan.wl0.keytype";;
  copy_value (from_nv "wlan_wl0_wpakey") "wlan.wl0.wpakey";;
  copy_value (from_nv "wlan_wl0_wepkeys_n0") "wlan.wl0.wepkey".

Fixpoint clients_loop (nodes : list X) (n : Z) : M unit :=
  match nodes with
  | [] => mret tt
  | node :: nodes =>
      let n := n + 1 in
      set_item "wlan.clients" n "mac_addr" (ezxml_txt node);;
      '(r, ipaddr) ← on_nbd (nbd_lan_mac2ip (cstr (ezxml_txt node)) (local_buf 16) 16);
      ipaddr ← lift (if negb (r =? NBD_SUCCESS) then wr ipaddr 0 0 else Ret ipaddr);
      name ← print_item "wlan.clients" n "ip_addr";
      t ← lift (c_str ipaddr);
      api_set_value (Some name) (Some t);;
      clients_loop nodes n
  end.

Definition wlan_getClientList : M unit :=
  with_xml (nbd_wlan_list_assoc None) (λ root,
    clients_loop (ezxml_get root [(lit "assoclist", 0); (lit "mac", -1)]) 0).

Definition wlan_soft (switch : cmd D Z) (msg : string) : M unit :=
  r ← on_nbd switch;
  if negb (r =? 0) then api_set_custom_error (lit "201") (lit msg)
  else on_nbd (nbd_nv_commit (str "user"));; mret tt.

Definition wlan_enable : M unit := wlan_soft nbd_wlan_enable "Unable to soft enable wireless".
Definition wlan_disable : M unit := wlan_soft nbd_wlan_disable "Unable to soft disable wireless".
Definition wlan_setChannel : M unit := store_parameter "channel" "wlan_channel".

Definition wlan_setWlanMode : M unit :=
  '(r, param) ← ewf_fastcgi_get_parameter (Some (lit "mode"));
  ret ← match param with
        | Some param => on_nbd (cfg_set (str "wlan_mode") (cstr param))
        | None => mret cfg_set_error
        end;
  if cfg_set_success <=? ret then
    if ret =? cfg_set_success then on_nbd (nbd_nv_commit (str "user"));; mret tt else mret tt
  else api_set_error API_ERROR_INVALID_ARG.

Definition wlan_setWl0Ssid : M unit := store_parameter "ssid" "wlan_wl0_ssid".
Definition wlan_setWl0Enc : M unit := store_parameter "enc" "wlan_wl0_enc".
Definition wlan_setWl0Keytype : M unit := store_parameter "keytype" "wlan_wl0_keytype".
Definition wlan_setWl0Wpakey : M unit := store_parameter "wpakey" "wlan_wl0_wpakey".
Definition wlan_setWl0Wepkey : M unit := store_parameter "wepkey" "wlan_wl0_wepkeys_n0".

Definition wlan_start : M unit := on_nbd nbd_wlan_start;; mret tt.

Definition wlan_stop : M unit :=
  on_nbd (nbd_sys_delay_run (str "1") (str "/usr/bin/wlan") (str "stop"));; mret tt.

(** [nbd_status_matches(key, c_str)]. *)
Definition nbd_status_matches key (t : string) : cmd D bool :=
  let c := str t in
  '(r, s) ← nbd_status_get key (local_buf (length c)) (Z.of_nat (length c));
  if r <? 0 then mret false else z ← lift (memcmp s c (length c)); mret (z =? 0).

Definition wlan_restart : M unit :=
  ses ← on_nbd (nbd_status_matches (str "ses_status") "up");
  on_nbd (nbd_sys_delay_run (str "1") (str "/usr/bin/wlan") (if ses : bool then str "ses_done" else str "restart"));;
  mret tt.

(** *** The table *)
Section table.
Context (clock : nat → timeval) (rdm : nat → bytes).
Context (sha256 : bytes → bytes) (hmac_sha256 : bytes → bytes → bytes) (table_size : Z → Z).
Context (NB5 : bool) (pid stack_type stack_direction : Z).

(** What [API_REGISTER_METHOD] is told, file by file. *)
Definition ctl_methods : list (string * ewf_http_request_method_t * api_access_policy_t * M unit) :=
  let GET := EWF_HTTP_REQUEST_METHOD_GET in
  let POST := EWF_HTTP_REQUEST_METHOD_POST in
  let PUBLIC := API_ACCESS_POLICY_PUBLIC in
  let PRIVATE := API_ACCESS_POLICY_PRIVATE in
  [("app.getInfo", GET, PUBLIC, app_getInfo);
   ("auth.getToken", GET, PUBLIC, getToken clock rdm);
   ("auth.checkToken", GET, PUBLIC, checkToken clock sha256 hmac_sha256);
   ("backup3g.forceDataLink", POST, PRIVATE, backup3g_forceDataLink);
   ("backup3g.forceVoipLink", POST, PRIVATE, backup3g_forceVoipLink);
   ("backup3g.getPinCode", GET, PRIVATE, backup3g_getPinCode);
   ("backup3g.setPinCode", POST, PRIVATE, backup3g_setPinCode);
   ("dsl.getInfo", GET, PUBLIC, dsl_getInfo);
   ("firewall.getInfo", GET, PRIVATE, firewall_getInfo);
   ("firewall.enableSmtpFilter", POST, PRIVATE, firewall_enableSmtpFilter);
   ("firewall.disableSmtpFilter", POST, PRIVATE, firewall_disableSmtpFilter);
   ("hotspot.getInfo", GET, PRIVATE, hotspot_getInfo);
   ("hotspot.getClientList", GET, PRIVATE, hotspot_getClientList);
   ("hotspot.setMode", POST, PRIVATE, hotspot_setMode);
   ("hotspot.enable", POST, PRIVATE, hotspot_enable);
   ("hotspot.disable", POST, PRIVATE, hotspot_disable);
   ("hotspot.start", POST, PRIVATE, hotspot_start);
   ("hotspot.stop", POST, PRIVATE, hotspot_stop);
   ("hotspot.restart", POST, PRIVATE, hotspot_restart);
   ("lan.getHostsList", GET, PUBLIC, lan_getHostsList);
   ("lan.getInfo", GET, PUBLIC, lan_getInfo);
   ("ppp.getInfo", GET, PUBLIC, ppp_getInfo);
   ("ppp.getCredentials", GET, PRIVATE, ppp_getCredentials);
   ("ppp.setCredentials", POST, PRIVATE, ppp_setCredentials);
   ("printer.getInfo", GET, PRIVATE, printer_getInfo);
   ("storage.getInfo", GET, PRIVATE, storage_getInfo);
   ("system.getInfo", GET, PUBLIC, system_getInfo NB5);
   ("system.getWpaKey", GET, PRIVATE, system_getWpaKey);
   ("system.setNetMode", POST, PRIVATE, system_setNetMode);
   ("system.reboot", POST, PRIVATE, system_reboot pid);
   ("voip.getInfo", GET, PRIVATE, voip_getInfo);
   ("voip.getCallhistoryList", GET, PRIVATE, voip_getCallhistoryList stack_type stack_direction);
   ("voip.start", POST, PRIVATE, voip_start);
   ("voip.stop", POST, PRIVATE, voip_stop);
   ("voip.restart", POST, PRIVATE, voip_restart);
   ("wan.getInfo", GET, PUBLIC, wan_getInfo);
   ("wlan.getInfo", GET, PRIVATE, wlan_getInfo);
   ("wlan.getClientList", GET, PRIVATE, wlan_getClientList);
   ("wlan.enable", POST, PRIVATE, wlan_enable);
   ("wlan.disable", POST, PRIVATE, wlan_disable);
   ("wlan.setChannel", POST, PRIVATE, wlan_setChannel);
   ("wlan.setWlanMode", POST, PRIVATE, wlan_setWlanMode);
   ("wlan.setWl0Ssid", POST, PRIVATE, wlan_setWl0Ssid);
   ("wlan.setWl0Enc", POST, PRIVATE, wlan_setWl0Enc);
   ("wlan.setWl0Keytype", POST, PRIVATE, wlan_setWl0Keytype);
   ("wlan.setWl0Wpakey", POST, PRIVATE, wlan_setWl0Wpakey);
   ("wlan.setWl0Wepkey", POST, PRIVATE, wlan_setWl0Wepkey);
   ("wlan.start", POST, PRIVATE, wlan_start);
   ("wlan.stop", POST, PRIVATE, wlan_stop);
   ("wlan.restart", POST, PRIVATE, wlan_restart)].

(** The action that an index of the table stands for. *)
Definition ctl_code (i : nat) : M unit :=
  match ctl_methods !! i with
  | Some (_, _, _, action) => action
  | None => undef
  end.

(** The constructors that run before [main]. *)
Fixpoint register_loop (ms : list (string * ewf_http_request_method_t * api_access_policy_t * M unit)) (i : nat)
    : M unit :=
  match ms with
  | [] => mret tt
  | (name, request_method, access_policy, _) :: ms =>
      api_register_method table_size (lit name) request_method access_policy (Some i);;
      register_loop ms (S i)
  end.

Definition register_methods : M unit := register_loop ctl_methods 0.

End table.

End ctl.

End ApiCtl.
