(* ===== verification/ApiCtlProofs.v ===== *)
(** The methods of the REST API: what each of them may ask the configuration daemon, what
    is asked for somebody who is not logged in (nothing that changes the box or is one of
    its secrets, but for what auth.checkToken needs to check who is there), and what the
    methods answer. *)

From stdpp Require Import base tactics list gmap strings.
From S2P Require Import Prelude.
From S2P Require Import Dll.
From S2P Require Import CString.
From S2P Require Import NbuList.
From S2P Require Import NbuString.
From S2P Require Import NbuNet.
From S2P Require Import EwfHdf.
From S2P Require Import EwfSession.
From S2P Require Import EwfSmith.
From S2P Require Import EwfSmithProofs.
From S2P Require Import NbdQueries.
From S2P Require Import NbdServices.
From S2P Require Import NbdVoip.
From S2P Require Import ApiSession.
From S2P Require Import Api.
From S2P Require Import ApiProofs.
From S2P Require Import ApiCtl.
Import NbuList NbuString NbuNet EwfHdf EwfSmith NbdQueries NbdServices ApiSession Api ApiCtl.

(** ** Queries *)

(** Queries that change nothing. *)
Definition reads (args : list bytes) : bool :=
  match args with
  | [p; v] => (bytes_eqb p (str "wlan") && (bytes_eqb v (str "active") || bytes_eqb v (str "macfiltering"))) ||
              (bytes_eqb p (str "sambactl") && bytes_eqb v (str "status"))
  | [p; v; k] => ((bytes_eqb p (str "status") || bytes_eqb p (str "nvram") || bytes_eqb p (str "dsl") ||
                   bytes_eqb p (str "autoconf")) && bytes_eqb v (str "get")) ||
                 (bytes_eqb p (str "status") && bytes_eqb v (str "xml")) ||
                 (bytes_eqb p (str "lan") && bytes_eqb v (str "mac2ip")) ||
                 (bytes_eqb p (str "wlan") && bytes_eqb v (str "list") && bytes_eqb k (str "assoc"))
  | _ => false
  end.

(** What only the owner of the box may read: keys, codes, logins and passwords, those of
    the web site included, the calls. *)
Definition secret (args : list bytes) : bool :=
  match args with
  | [p; _; k] =>
      existsb (bytes_eqb k)
        (if bytes_eqb p (str "nvram")
         then str <$> ["gprs_pin"; "ppp_login"; "ppp_password"; "wlan_wl0_wpakey"; "wlan_wl0_wepkeys_n0"; "web_login"; "web_password"]
         else str <$> ["wpa_key"; "voip_history"])
  | _ => false
  end.

(** Queries that change nothing and ask for no secret. *)
Definition harmless (args : list bytes) : bool := reads args && negb (secret args).

(** What [auth.checkToken] asks beyond that: the login and the password it compares the
    request's with, and the release of the button that let a visitor in. *)
Definition login_query (args : list bytes) : bool :=
  match args with
  | [p; v] => bytes_eqb p (str "nbctl") && bytes_eqb v (str "halt_webautologin")
  | [p; v; k] => bytes_eqb p (str "nvram") && bytes_eqb v (str "get") &&
                 (bytes_eqb k (str "web_login") || bytes_eqb k (str "web_password"))
  | _ => false
  end.

Definition checks_token (args : list bytes) : bool := harmless args || login_query args.

Section ctl_proofs.
Context {H : Type} `{Hdf H} {X : Type} `{Ezxml X}.
Context (answer : list nbd_event → list bytes → Z * bytes).

#[local] Instance ctl_daemon : NbdOps (list nbd_event) := every_daemon answer.
#[local] Instance ctl_link : NbdLink (list nbd_event) := every_link answer.

Abbreviation A := (api H (list nbd_event)).

(** Nothing but queries that [P] allows was sent between two histories. *)
Definition allowed (P : list bytes → bool) (e : nbd_event) : Prop :=
  match e with Asked args => P args = true | _ => True end.

Definition asked (P : list bytes → bool) (h h' : list nbd_event) : Prop :=
  ∃ qs, h' = h ++ qs ∧ Forall (allowed P) qs.

#[local] Instance asked_preorder P : PreOrder (asked P).
Proof.
  split.
  - intros h. exists []. by rewrite app_nil_r.
  - intros h1 h2 h3 (q1 & -> & F1) (q2 & -> & F2). exists (q1 ++ q2). rewrite app_assoc. split; [done|].
    by apply Forall_app.
Qed.

Definition asked_api (P : list bytes → bool) (a a' : A) : Prop := asked P (a_nbd a) (a_nbd a').

#[local] Instance asked_api_preorder P : PreOrder (asked_api P).
Proof. split; unfold asked_api; [by intros a|]. intros a1 a2 a3 F1 F2. by etrans. Qed.

Section rules.
Context (P : list bytes → bool).

Lemma ask_asks out n args : P args = true → within (asked P) (nbd_query_op out n args).
Proof.
  intros HP h [r o] h' E. cbn [nbd_query_op ctl_daemon every_daemon] in E. unfold ask in E.
  destruct (answer h args) as [st data]. unfold lift in E. destruct (deliver _ _ _ _); try done.
  injection E as _ <-. exists [Asked args]. split; [done|]. by constructor.
Qed.

Lemma get_asks b n args : P args = true → within (asked P) (nbd_get b n args).
Proof. intros HP. unfold nbd_get. within_bind; [by apply ask_asks|]. intros [r o]. repeat within_step. Qed.

Lemma set_asks args : P args = true → within (asked P) (nbd_set args).
Proof. intros HP. unfold nbd_set. within_bind; [by apply ask_asks|]. intros [r o]. within_ret. Qed.

Lemma get_new_asks out n args : P args = true → within (asked P) (nbd_get_new out n args).
Proof.
  intros HP h [[r o] l] h' E. unfold nbd_get_new in E. cbn [nbd_query_new_op ctl_link every_link] in E.
  destruct (answer h args) as [st data]. injection E as _ _ _ <-. exists [Asked args]. split; [done|]. by constructor.
Qed.

Lemma open_asks : within (asked P) nbd_open_op.
Proof. intros h r h' [= _ <-]. exists [Opened]. split; [done|]. by constructor. Qed.

Lemma close_asks : within (asked P) nbd_close_op.
Proof. intros h r h' [= <-]. exists [Closed]. split; [done|]. by constructor. Qed.

Lemma on_nbd_asks {Y} (m : cmd (list nbd_event) Y) : within (asked P) m → within (asked_api P) (on_nbd m).
Proof. apply within_zoom. by intros a h. Qed.

Lemma on_world_asks {Y} (m : cmd (world H) Y) : within (asked_api P) (on_world m).
Proof. apply (within_zoom _ _ _ (λ _ _, True)); [|by intros]. intros a w _. unfold asked_api. cbn. reflexivity. Qed.

Lemma on_data_asks {Y} (m : cmd H Y) : within (asked_api P) (on_data m).
Proof. apply on_world_asks. Qed.

Lemma buffer_asks b : within (asked_api P) (mod_st (set_buffer b)).
Proof. apply within_mod. intros a. unfold asked_api. cbn. reflexivity. Qed.

End rules.

Create HintDb ctl discriminated.
#[local] Hint Constants Opaque : ctl.

Ltac asks_step :=
  lazymatch goal with
  | |- within _ (_ ≫= _) => within_bind; [|intros ?]
  | |- within _ (mret _) => within_ret
  | |- within _ (lift _) => apply within_lift; apply _
  | |- within _ state => apply within_get; apply _
  | |- within _ undef => apply within_stuck; exact I
  | |- within _ (on_world _) => apply on_world_asks
  | |- within _ (on_data _) => apply on_data_asks
  | |- within _ (mod_st (set_buffer _)) => apply buffer_asks
  | |- within _ (on_nbd _) => apply on_nbd_asks; 
      first [apply open_asks | apply close_asks | (apply get_asks || apply set_asks || apply get_new_asks); reflexivity]
  | |- _ => first [solve [auto 2 with ctl] | case_match]
  end.
Ltac asks := repeat asks_step.

(** *** The parts of the methods *)
Section parts.
Context (P : list bytes → bool).

Lemma set_value_asks name value : within (asked_api P) (api_set_value name value).
Proof. unfold api_set_value. asks. Qed.
#[local] Hint Resolve set_value_asks : ctl.

Lemma custom_error_asks c m : within (asked_api P) (api_set_custom_error c m).
Proof. unfold api_set_custom_error. asks. Qed.

Lemma set_error_asks e : within (asked_api P) (api_set_error e).
Proof. apply custom_error_asks. Qed.

Lemma parameter_asks name : within (asked_api P) (ewf_fastcgi_get_parameter name).
Proof. unfold ewf_fastcgi_get_parameter, hdf_get_valuef. asks. Qed.

Lemma copy_value_asks get name :
  (∀ b, within (asked P) (get b 256)) → within (asked_api P) (copy_value get name).
Proof.
  intros Hg. unfold copy_value. within_step; [within_step|]. within_bind; [by apply on_nbd_asks|].
  intros [r b]. asks.
Qed.

Lemma print_item_asks l n f : within (asked_api P) (print_item l n f).
Proof. unfold print_item. asks. Qed.
#[local] Hint Resolve print_item_asks : ctl.

Lemma set_item_asks l n f v : within (asked_api P) (set_item l n f v).
Proof. unfold set_item. asks. Qed.

Lemma with_xml_asks get body :
  within (asked P) (get None 0) → (∀ root, within (asked_api P) (body root)) → within (asked_api P) (with_xml get body).
Proof.
  intros Hg Hb. unfold with_xml. within_bind; [by apply on_nbd_asks|]. intros [[r b] n].
  case_match; [|within_ret]. case_match; [done|within_ret].
Qed.

End parts.
#[local] Hint Resolve set_value_asks custom_error_asks set_error_asks parameter_asks print_item_asks set_item_asks : ctl.

Ltac ask_method :=
  repeat lazymatch goal with
  | |- within _ (copy_value _ _) => apply copy_value_asks; intros ?; apply get_asks; reflexivity
  | |- within _ (with_xml _ _) => apply with_xml_asks; [apply get_new_asks; reflexivity|intros ?]
  | |- _ => asks_step
  end.

(** *** Loops over the nodes of an answer *)
Section loops.
Context (P : list bytes → bool).

Lemma assoc_loop_asks nodes n : within (asked_api P) (assoc_loop nodes n).
Proof. revert n. induction nodes as [|x nodes IH]; intros n; cbn [assoc_loop]; [asks|]. do 2 (within_step; [asks|]). apply IH. Qed.

Lemma has_type_asks x t : within (asked_api P) (has_type x t).
Proof. unfold has_type. asks. Qed.

Lemma hosts_loop_asks nodes n : within (asked_api P) (hosts_loop nodes n).
Proof.
  revert n. induction nodes as [|x nodes IH]; intros n; cbn [hosts_loop]; [asks|].
  within_step; [apply has_type_asks|]. within_step; [case_match; [asks|apply has_type_asks]|].
  case_match; [|apply IH]. do 4 (within_step; [asks|]). apply IH.
Qed.

Lemma set_parts_asks names parts : within (asked_api P) (set_parts names parts).
Proof. revert parts. induction names as [|n names IH]; intros [|p parts]; cbn [set_parts]; asks. Qed.

Lemma calls_loop_asks nodes n t d : within (asked_api P) (calls_loop nodes n t d).
Proof.
  revert n t d. induction nodes as [|x nodes IH]; intros n t d; cbn [calls_loop]; [asks|].
  do 3 (within_step; [asks|]). within_step; [asks|]. do 2 (within_step; [asks|]). apply IH.
Qed.

Lemma clients_loop_asks nodes n :
  (∀ mac, P [str "lan"; str "mac2ip"; mac] = true) → within (asked_api P) (clients_loop nodes n).
Proof.
  intros HP. revert n. induction nodes as [|x nodes IH]; intros n; cbn [clients_loop]; [asks|].
  within_step; [asks|]. within_bind; [by apply on_nbd_asks, get_asks|]. intros [r ip]. do 4 (within_step; [asks|]). apply IH.
Qed.

End loops.
#[local] Hint Resolve assoc_loop_asks hosts_loop_asks set_parts_asks calls_loop_asks : ctl.

Lemma asked_weaken (P Q : list bytes → bool) {Y} (m : cmd A Y) :
  (∀ q, P q = true → Q q = true) → within (asked_api P) m → within (asked_api Q) m.
Proof.
  intros HPQ Hm a y a' E. destruct (Hm a y a' E) as (qs & E' & Hqs). exists qs. split; [done|].
  eapply Forall_impl; [exact Hqs|]. intros [| |q]; [done..|]. apply HPQ.
Qed.

(** *** The methods *)

(** The names that [ppp.getInfo] asks for begin with [ppp_]: none of them is a secret. *)
Lemma ppp_name_harmless infra what name t :
  text (lit what) → ppp_name infra what = Ret name → c_str name = Ret t →
  harmless [str "status"; str "get"; cstr t] = true.
Proof.
  intros Hw E Et. unfold ppp_name, buf_of in E. apply bind_Ret_inv in E as (i & Ei & E).
  unfold c_str in Ei, Et. apply must_Ret_inv in Ei, Et.
  destruct (printf_ok (local_buf 128) 128 (lit "ppp_" ++ i ++ lit what)) as (m & Em & Hm & _);
    [split; [lia|reflexivity]|unfold INT_MAX; lia| |].
  { apply Forall_app. split; [by repeat constructor|]. apply Forall_app. split; [by eapply str_of_text|done]. }
  rewrite Em in E. injection E as <-. rewrite Hm in Et. injection Et as <-. reflexivity.
Qed.

Lemma ppp_getInfo_asks : within (asked_api harmless) ppp_getInfo.
Proof.
  unfold ppp_getInfo. within_bind; [ask_method|]. intros [r infra]. case_match; [|within_ret].
  apply within_lift_bind. intros name En. apply within_lift_bind. intros t Et. within_step.
  - apply copy_value_asks. intros b. apply get_asks. eapply ppp_name_harmless; [|exact En|exact Et]. by repeat constructor.
  - apply within_lift_bind. intros name' En'. apply within_lift_bind. intros t' Et'.
    apply copy_value_asks. intros b. apply get_asks. eapply ppp_name_harmless; [|exact En'|exact Et']. by repeat constructor.
Qed.

Lemma copy_address_asks P key names parts :
  (∀ b, within (asked P) (from_nv key b 256)) → within (asked_api P) (copy_address key names parts).
Proof.
  intros HP. unfold copy_address. within_step; [within_step|]. within_bind; [by apply on_nbd_asks|].
  intros [r b]. asks.
Qed.

Lemma hook_status_asks b : within (asked reads) (nbl_voip_get_hook_status b 256).
Proof.
  unfold nbl_voip_get_hook_status. within_bind; [by apply get_asks|]. intros [r v]. case_match; [within_ret|].
  within_step; [within_step|]. within_bind; [|intros [r' b']; within_ret]. case_match; [|repeat within_step].
  within_bind; [by apply get_asks|]. intros [r' b']. case_match; repeat within_step.
Qed.

(** [auth.c]. *)
Lemma getToken_asks clock rdm : within (asked_api harmless) (getToken clock rdm).
Proof. unfold getToken. asks. Qed.

Section check_token.
Context (clock : nat → timeval) (sha256 : bytes → bytes) (hmac_sha256 : bytes → bytes → bytes).

Lemma choose_method_asks web_auth : within (asked_api checks_token) (choose_method web_auth).
Proof. unfold choose_method. asks. Qed.

Lemma check_button_asks session token : within (asked_api checks_token) (check_button clock session token).
Proof. unfold check_button. asks. Qed.

Lemma check_passwd_asks session token hash :
  within (asked_api checks_token) (check_passwd clock sha256 hmac_sha256 session token hash).
Proof. unfold check_passwd, bad_password, ewf_crypto_sha256_hash, ewf_crypto_hmac_sha256_mac. asks. Qed.

#[local] Hint Resolve choose_method_asks check_button_asks check_passwd_asks : ctl.

Lemma checkToken_asks : within (asked_api checks_token) (checkToken clock sha256 hmac_sha256).
Proof. unfold checkToken. asks. Qed.

End check_token.

Section table_proofs.
Context (clock : nat → timeval) (rdm : nat → bytes).
Context (sha256 : bytes → bytes) (hmac_sha256 : bytes → bytes → bytes).
Context (NB5 : bool) (pid stack_type stack_direction : Z).

Abbreviation methods := (ctl_methods clock rdm sha256 hmac_sha256 NB5 pid stack_type stack_direction).
Abbreviation code := (ctl_code clock rdm sha256 hmac_sha256 NB5 pid stack_type stack_direction).

(** What a method that is registered so may ask. *)
Definition may_ask (name : bytes) (rm : ewf_http_request_method_t) (pol : api_access_policy_t) (q : list bytes) : bool :=
  if bytes_eqb name (lit "auth.checkToken") then checks_token q
  else match rm, pol with
  | _, API_ACCESS_POLICY_PUBLIC => harmless q
  | EWF_HTTP_REQUEST_METHOD_GET, API_ACCESS_POLICY_PRIVATE => reads q
  | _, API_ACCESS_POLICY_PRIVATE => true
  end.

Lemma any_asks {Y} (m : cmd A Y) : within (asked_api reads) m → within (asked_api (λ _, true)) m.
Proof. by apply asked_weaken. Qed.

(** The public methods. *)
Lemma app_getInfo_asks : within (asked_api harmless) app_getInfo.
Proof. unfold app_getInfo, samba_values. ask_method. Qed.

Lemma dsl_getInfo_asks : within (asked_api harmless) dsl_getInfo.
Proof. unfold dsl_getInfo. ask_method. Qed.

Lemma lan_getHostsList_asks : within (asked_api harmless) lan_getHostsList.
Proof. unfold lan_getHostsList. ask_method. Qed.

Lemma lan_getInfo_asks : within (asked_api harmless) lan_getInfo.
Proof.
  unfold lan_getInfo. do 3 (within_step; [ask_method|]).
  do 2 (within_step; [apply copy_address_asks; intros b; apply get_asks; reflexivity|]). ask_method.
Qed.

Lemma system_getInfo_asks : within (asked_api harmless) (system_getInfo NB5).
Proof. unfold system_getInfo. ask_method. Qed.

Lemma wan_getInfo_asks : within (asked_api harmless) wan_getInfo.
Proof. unfold wan_getInfo. ask_method. Qed.

(** The private methods that only read. *)
Lemma voip_getInfo_asks : within (asked_api reads) voip_getInfo.
Proof. unfold voip_getInfo. do 2 (within_step; [ask_method|]). within_step; [apply copy_value_asks, hook_status_asks|]. ask_method. Qed.

Lemma wlan_getClientList_asks : within (asked_api reads) wlan_getClientList.
Proof. unfold wlan_getClientList. ask_method. by apply clients_loop_asks. Qed.

(** What [within] says of a method and its rights. *)
Definition right_method (m : string * ewf_http_request_method_t * api_access_policy_t * cmd A unit) : Prop :=
  let '(name, rm, pol, action) := m in within (asked_api (may_ask (lit name) rm pol)) action.

#[local] Hint Resolve app_getInfo_asks dsl_getInfo_asks lan_getHostsList_asks lan_getInfo_asks ppp_getInfo_asks
  system_getInfo_asks wan_getInfo_asks getToken_asks checkToken_asks voip_getInfo_asks wlan_getClientList_asks : ctl.

(** The methods that change the box. *)
Lemma store_parameter_asks P name key :
  (∀ q, P q = true) → within (asked_api P) (store_parameter name key).
Proof. intros HP. unfold store_parameter. within_bind; [asks|]. intros [r [param|]]; [|asks]. repeat (within_step; [by apply on_nbd_asks, set_asks|]). asks. Qed.

Lemma status_matches_asks P key t :
  P [str "status"; str "get"; key] = true → within (asked P) (nbd_status_matches key t).
Proof. intros HP. unfold nbd_status_matches. within_bind; [by apply get_asks|]. intros [r b]. case_match; repeat within_step. Qed.

Lemma cfg_set_asks P key v : (∀ q, P q = true) → within (asked P) (cfg_set key v).
Proof. intros HP. unfold cfg_set. within_step; [within_step|]. within_bind; [by apply set_asks|]. intros r. within_ret. Qed.

Lemma methods_right : Forall right_method methods.
Proof.
  unfold ctl_methods. cbv zeta. repeat apply Forall_cons_2; try apply Forall_nil_2; cbn [right_method];
    first [change (may_ask _ _ API_ACCESS_POLICY_PUBLIC) with harmless; solve [auto 2 with ctl]
          | change (may_ask _ _ API_ACCESS_POLICY_PUBLIC) with checks_token; solve [auto 2 with ctl]
          | change (may_ask _ EWF_HTTP_REQUEST_METHOD_GET API_ACCESS_POLICY_PRIVATE) with reads; solve [auto 2 with ctl]
          | by apply store_parameter_asks
          | unfold backup3g_getPinCode, backup3g_setPinCode, firewall_getInfo, firewall_enableSmtpFilter,
              firewall_disableSmtpFilter, smtp_filter, hotspot_getInfo, hotspot_getClientList, hotspot_enable,
              hotspot_disable, hotspot_active, hotspot_start, hotspot_stop, hotspot_restart, ppp_getCredentials,
              ppp_setCredentials, store_credential, printer_getInfo, storage_getInfo, samba_values, system_getWpaKey,
              system_setNetMode, system_reboot, voip_getCallhistoryList, voip_start, voip_stop, voip_restart,
              wlan_getInfo, wlan_enable, wlan_disable, wlan_soft, wlan_setWlanMode, wlan_start, wlan_stop,
              wlan_restart; ask_method ].
  - by apply on_nbd_asks, cfg_set_asks.
  - by apply on_nbd_asks, status_matches_asks.
Qed.

Lemma harmless_reads q : harmless q = true → reads q = true.
Proof. unfold harmless. by intros [? _]%andb_prop. Qed.

Lemma asked_impl (P Q : list bytes → bool) qs :
  (∀ q, P q = true → Q q = true) → Forall (allowed P) qs → Forall (allowed Q) qs.
Proof. intros HPQ Hqs. eapply Forall_impl; [exact Hqs|]. intros [| |q]; [done..|]. apply HPQ. Qed.

(** C8: Whatever the request and whatever the configuration daemon answers, and
    auth.checkToken apart, a method of the API that is registered for GET only asks
    queries that change nothing, and a public one only asks queries that change nothing
    and ask for none of the box's secrets.  The exception is auth.checkToken, a public
    GET method: beside such queries it asks for the login and the password of the web
    site, to compare the request's with them, and it releases the button that let a
    visitor in; it asks nothing else. *)
Theorem ctl_methods_rights i name rm pol action (a a' : A) :
  methods !! i = Some (name, rm, pol, action) → action a = Ret (tt, a') →
  ∃ qs, a_nbd a' = a_nbd a ++ qs ∧
    (name = "auth.checkToken" → Forall (allowed (λ q, harmless q || login_query q)) qs) ∧
    (name ≠ "auth.checkToken" →
       (rm = EWF_HTTP_REQUEST_METHOD_GET → Forall (allowed reads) qs) ∧
       (pol = API_ACCESS_POLICY_PUBLIC → Forall (allowed harmless) qs)).
Proof.
  intros Hi E. destruct (proj1 (Forall_lookup _ _) methods_right i _ Hi a tt a' E) as (qs & Eq & Hqs).
  exists qs. split; [done|]. unfold may_ask in Hqs. split.
  - intros ->. exact Hqs.
  - intros Hn. rewrite (proj2 (bytes_eqb_neq _ _)) in Hqs by (intros ?%(inj lit); done).
    split; intros ->; [destruct pol|destruct rm]; try done. by eapply asked_impl, Hqs; [apply harmless_reads].
Qed.

(** ** Requests *)

(** Nothing but harmless queries, the sessions and the table as they were. *)
Definition calm (a a' : A) : Prop :=
  asked_api harmless a a' ∧ w_sess (a_w a') = w_sess (a_w a) ∧ a_list a' = a_list a.

#[local] Instance calm_preorder : PreOrder calm.
Proof.
  split; unfold calm; [done|]. intros a1 a2 a3 (F1 & E1 & L1) (F2 & E2 & L2). split_and!; [by etrans|congruence..].
Qed.

Lemma calm_asks {Y} (m : cmd A Y) : within calm m → within (asked_api harmless) m.
Proof. intros Hm a y a' E. by apply Hm in E as [? _]. Qed.

Lemma on_nbd_calm {Y} (m : cmd (list nbd_event) Y) : within (asked harmless) m → within calm (on_nbd m).
Proof. apply within_zoom. by intros a d. Qed.

Lemma on_data_calm {Y} (m : cmd H Y) : within calm (on_data m).
Proof.
  apply (within_zoom _ _ _ (λ w w', w_sess w' = w_sess w)); [by intros a w; unfold calm, asked_api|].
  apply (within_zoom _ _ _ (λ _ _, True)); [by intros w h|by intros].
Qed.

Lemma get_calm b n args : harmless args = true → within calm (on_nbd (nbd_get b n args)).
Proof. intros Hh. by apply on_nbd_calm, get_asks. Qed.

#[local] Hint Resolve on_data_calm : ctl.

Ltac calm_step :=
  lazymatch goal with
  | |- within _ (_ ≫= _) => within_bind; [|intros ?]
  | |- within _ (mret _) => within_ret
  | |- within _ (lift _) => apply within_lift; apply _
  | |- within _ state => apply within_get; apply _
  | |- within _ undef => apply within_stuck; exact I
  | |- within _ (mod_st _) => apply within_mod; intros ?; unfold calm, asked_api; done
  | |- within _ (on_nbd _) => apply get_calm; reflexivity
  | |- _ => first [solve [auto 2 with ctl] | case_match]
  end.
Ltac calms := repeat calm_step.

Lemma set_value_calm name value : within calm (api_set_value name value).
Proof. unfold api_set_value. calms. Qed.
#[local] Hint Resolve set_value_calm : ctl.

Lemma set_error_calm e : within calm (api_set_error e).
Proof. unfold api_set_error, api_set_custom_error. calms. Qed.

Lemma parameter_calm name : within calm (ewf_fastcgi_get_parameter name).
Proof. unfold ewf_fastcgi_get_parameter, hdf_get_valuef. calms. Qed.

Lemma display_calm name : within calm (ewf_fastcgi_display name).
Proof. unfold ewf_fastcgi_display. calms. Qed.

#[local] Hint Resolve set_error_calm parameter_calm display_calm : ctl.

Lemma method_error_calm : within calm method_error.
Proof. unfold method_error. calms. Qed.

Lemma print_template_calm name : within calm (print_template name).
Proof. unfold print_template. calms. Qed.
#[local] Hint Resolve method_error_calm print_template_calm : ctl.

Lemma show_answer_calm e : within calm (show_answer e).
Proof. unfold show_answer. calms. Qed.

Lemma request_method_calm : within calm ewf_http_request_method.
Proof. unfold ewf_http_request_method, hdf_get_valuef. calms. Qed.

Lemma request_uri_calm : within calm ewf_http_request_uri.
Proof. unfold ewf_http_request_uri, hdf_get_valuef. calms. Qed.

(** Looking for a session changes none. *)
Definition same_store (w w' : world H) : Prop := w_sess w' = w_sess w.

#[local] Instance same_store_preorder : PreOrder same_store.
Proof. split; unfold same_store; [done|]. by intros w1 w2 w3 -> ->. Qed.

Lemma on_list_same {Y} (m : cmd (heap loc) Y) : within same_store (on_list m).
Proof. apply (within_zoom _ _ _ (λ _ _, True)); [by intros w h|by intros]. Qed.

Lemma session_get_calm sid : within calm (on_world (ewf_session_get sid)).
Proof.
  apply (within_zoom _ _ _ same_store); [by intros a w; unfold calm, asked_api|]. unfold ewf_session_get. destruct sid as [sid|]; [|within_ret].
  within_bind; [|intros [found p]; within_ret]. unfold for_each_session.
  within_bind; [by intros w l w' [= _ <-]|]. intros l. within_bind; [apply on_list_same|]. intros _.
  within_bind; [apply on_list_same|]. intros fuel. apply within_for_each; [apply _|apply on_list_same..|].
  intros [p|] x; [|by apply within_stuck]. within_bind; [|intros s; repeat within_step].
  intros w s w' E. unfold load_session, lift in E. destruct (must _) as [s1| | |]; try done. by injection E as _ <-.
Qed.

(** No session is activated. *)
Definition pending (a : A) : Prop := ∀ p s, w_sess (a_w a) !! p = Some s → activated s = 0.

Lemma pending_calm a a' : calm a a' → pending a → pending a'.
Proof. unfold pending. by intros (_ & -> & _). Qed.

(** A session that is not activated is not accepted. *)
Lemma session_check_pending session a r a' :
  pending a → on_world (ewf_session_check clock session) a = Ret (r, a') → r = EWF_ERROR.
Proof.
  intros Hp E. unfold on_world, zoom in E. destruct (ewf_session_check clock session (a_w a)) as [[r1 w1]| | |] eqn:E1; try done.
  injection E as <- <-. destruct session as [p|]; [|by injection E1 as <- <-]. cbn [ewf_session_check] in E1.
  apply cmd_bind_Ret_inv in E1 as (now & w2 & [= <- <-] & E1). apply cmd_bind_Ret_inv in E1 as (s & w3 & E2 & E1).
  unfold load_session, lift in E2. cbn [w_sess] in E2. destruct (w_sess (a_w a) !! p) as [s'|] eqn:Es; [|done].
  injection E2 as <- <-. rewrite (Hp p s' Es) in E1. by injection E1 as <- <-.
Qed.

Context (auth : bytes).
Hypothesis Hauth : ∀ h, answer h [str "nvram"; str "get"; str "web_auth"] = (0, cstr auth).
Hypothesis Htext : text auth ∧ (length auth < 64)%nat.
Hypothesis Hoff : auth ≠ lit "off".

Lemma check_auth_refuses a ok a' : pending a → check_auth clock a = Ret (ok, a') → ok = false.
Proof.
  intros Hp E. unfold check_auth in E. destruct Htext as [Ht Hl].
  assert (on_nbd (nbd_nv_get (str "web_auth") (local_buf 64) 64) a
    = Ret ((0, cstr auth ++ replicate (64 - length (cstr auth)) 0),
           set_nbd (a_nbd a ++ [Asked [str "nvram"; str "get"; str "web_auth"]]) a)) as E1.
  { unfold on_nbd, zoom, nbd_nv_get. change 64%Z with (Z.of_nat (length (local_buf 64))).
    by rewrite (every_get_text answer _ auth). }
  rewrite (cmd_bind_Ret _ _ _ _ _ E1) in E. cbv beta iota in E. change (0 =? NBD_SUCCESS) with true in E. cbv iota in E.
  rewrite (matches_ok _ auth) in E; [|by unfold cstr; rewrite <- app_assoc; apply str_of_app|by repeat constructor].
  rewrite (proj2 (bytes_eqb_neq _ _) Hoff) in E. apply cmd_bind_Ret_inv in E as (off & a1 & [= <- <-] & E).
  change (true && (NBU_STRING_DIFFERENT =? NBU_STRING_EQUAL)) with false in E. cbv iota in E.
  apply cmd_bind_Ret_inv in E as ([r token] & a1 & E2 & E). apply parameter_calm in E2.
  destruct (negb (r =? EWF_SUCCESS)).
  { by apply cmd_bind_Ret_inv in E as (? & ? & _ & [= <- _]). }
  apply cmd_bind_Ret_inv in E as ([r' session] & a2 & E3 & E). apply session_get_calm in E3.
  destruct (negb (r' =? EWF_SUCCESS)).
  { by apply cmd_bind_Ret_inv in E as (? & ? & _ & [= <- _]). }
  apply cmd_bind_Ret_inv in E as (r2 & a3 & E4 & E).
  apply session_check_pending in E4 as ->; [|do 2 (eapply pending_calm; [eassumption|]); done].
  by apply cmd_bind_Ret_inv in E as (? & ? & _ & [= <- _]).
Qed.

(** *** A request of somebody who is not logged in *)

(** The table after the constructors. *)
Definition entry (i : nat) (m : string * ewf_http_request_method_t * api_access_policy_t * cmd A unit)
    : bytes * api_method_t :=
  let '(name, rm, pol, _) := m in (lit name, ApiMethod rm pol (Some i)).

Definition entries : list (bytes * api_method_t) := imap entry methods.

Lemma hsearch_elem {Y} (es : list (bytes * Y)) key m : hsearch es key = Some m → (key, m) ∈ es.
Proof.
  induction es as [|[k y] es IH]; cbn; [done|]. destruct (bytes_eqb k key) eqn:E; [|intros ?; right; by apply IH].
  apply bytes_eqb_eq in E as ->. intros [= ->]. by left.
Qed.

Lemma entries_right key m :
  hsearch entries key = Some m →
  ∃ i, action_handler m = Some i ∧ within (asked_api (may_ask key (request_method m) (access_policy m))) (code i).
Proof.
  intros E%hsearch_elem. apply elem_of_lookup_imap in E as (i & [[[name rm] pol] action] & [= -> ->] & Hi).
  exists i. split; [done|]. cbn [request_method access_policy]. unfold ctl_code. rewrite Hi.
  apply (proj1 (Forall_lookup _ _) methods_right i _ Hi).
Qed.

(** What a request that names the method [name] may ask for a stranger. *)
Definition stranger_may (name : option bytes) (q : list bytes) : bool :=
  if decide (name = Some (lit "auth.checkToken")) then checks_token q else harmless q.

Lemma harmless_stranger name q : harmless q = true → stranger_may name q = true.
Proof. unfold stranger_may, checks_token. intros Hq. case_decide; by rewrite Hq. Qed.

Lemma harmless_asks {Y} name (m : cmd A Y) :
  within (asked_api harmless) m → within (asked_api (stranger_may name)) m.
Proof. apply asked_weaken, harmless_stranger. Qed.

Definition outside (a : A) : Prop := pending a ∧ ∃ size, a_list a = HLive size entries.

Lemma outside_calm a a' : calm a a' → outside a → outside a'.
Proof. intros Hc [Hp [size Hl]]. split; [by eapply pending_calm|]. exists size. destruct Hc as (_ & _ & ->). done. Qed.

(** [from name m]: as [within (asked_api (stranger_may name)) m], for strangers. *)
Definition from {Y} (name : option bytes) (m : cmd A Y) : Prop :=
  ∀ a y a', outside a → m a = Ret (y, a') → asked_api (stranger_may name) a a'.

Lemma from_bind {Y Z} name (m : cmd A Y) (f : Y → cmd A Z) :
  within calm m → (∀ y, from name (f y)) → from name (m ≫= f).
Proof.
  intros Hm Hf a z a' Ho E. apply cmd_bind_Ret_inv in E as (y & a1 & E1 & E). pose proof (Hm _ _ _ E1) as Hc.
  etrans; [exact (harmless_asks name m (calm_asks m Hm) _ _ _ E1)|]. eapply Hf; [|exact E]. by eapply outside_calm.
Qed.

Lemma from_calm {Y} name (m : cmd A Y) : within calm m → from name m.
Proof. intros Hm a y a' _. apply harmless_asks, calm_asks, Hm. Qed.

Context (cgi_parse : H → H).

Lemma check_auth_asks : within (asked_api harmless) (check_auth clock).
Proof. unfold check_auth. asks. Qed.

Lemma run_action_asks P h rm name :
  (∀ q, harmless q = true → P q = true) →
  within (asked_api P) (code h) → within (asked_api P) (run_action code h rm name).
Proof.
  intros HP Hc. unfold run_action. within_bind; [done|]. intros _.
  asks; (apply (asked_weaken harmless); [exact HP|apply calm_asks, print_template_calm]).
Qed.

(** After the access check: only a public method runs. *)
Lemma answer_from m h name :
  action_handler m = Some h → within (asked_api (may_ask name (request_method m) (access_policy m))) (code h) →
  from (Some name) (have_authoriz ← (match access_policy m with
                                 | API_ACCESS_POLICY_PRIVATE => check_auth clock
                                 | API_ACCESS_POLICY_PUBLIC => mret true
                                 end);
                have_error ← (if have_authoriz : bool then run_action code h (request_method m) name else mret true);
                show_answer have_error).
Proof.
  intros Hh Hm a [] a' [Hp _] E. destruct (access_policy m) eqn:Epol.
  - match type of E with ?c _ = _ => assert (within (asked_api (stranger_may (Some name))) c) as Hc; [|exact (Hc _ _ _ E)] end.
    within_bind; [within_ret|]. intros ok. within_bind; [|intros e; apply harmless_asks, calm_asks, show_answer_calm].
    case_match; [|within_ret]. apply run_action_asks; [apply harmless_stranger|].
    eapply asked_weaken; [|exact Hm]. intros q. unfold may_ask, stranger_may.
    destruct (bytes_eqb name (lit "auth.checkToken")) eqn:En.
    + apply bytes_eqb_eq in En as ->. by rewrite decide_True.
    + apply bytes_eqb_neq in En. rewrite decide_False by congruence. by destruct (request_method m).
  - apply cmd_bind_Ret_inv in E as (ok & a1 & E1 & E). pose proof (harmless_asks (Some name) _ check_auth_asks _ _ _ E1) as F1.
    apply check_auth_refuses in E1 as ->; [|done].
    apply cmd_bind_Ret_inv in E as (e & a2 & [= <- <-] & E). etrans; [exact F1|].
    exact (harmless_asks _ _ (calm_asks _ (show_answer_calm _)) _ _ _ E).
Qed.

Lemma handle_request_from m name :
  hsearch entries name = Some m → from (Some name) (api_handle_request clock cgi_parse code (Some m) name).
Proof.
  intros (h & Hh & Hm)%entries_right. unfold api_handle_request. apply from_bind; [apply request_method_calm|].
  intros reqm. case_decide as Hreq; [apply from_calm, method_error_calm|].
  subst reqm. rewrite Hh. apply from_bind; [by apply get_calm|]. intros [r buf].
  apply from_bind; [calms|]. intros _. apply from_bind; [unfold ewf_fastcgi_parse; calms|]. intros _.
  by apply answer_from.
Qed.

(** The method that a request names. *)
Definition named (a : A) : option bytes := hdf_get (data a) (query (lit "method")).

Lemma named_put n v a : n ≠ query (lit "method") → named (put n v a) = named a.
Proof. intros Hn. unfold named. by rewrite data_put, decide_False. Qed.

Lemma set_value_bind {Y} n v (f : unit → cmd A Y) a :
  text n → (length n < 64)%nat → (api_set_value (Some n) (Some v) ≫= f) a = f tt (put n v a).
Proof. intros Ht Hl. by apply cmd_bind_Ret, set_value_ok. Qed.

(** The request's method is looked up. *)
Lemma lookup_from a a' :
  outside a →
  (uri ← ewf_http_request_uri;
   match uri with
   | None => method_error
   | Some _ =>
       '(r, name) ← ewf_fastcgi_get_parameter (Some (lit "method"));
       match name with
       | None => method_error
       | Some name => '(r, m) ← ewf_hashtable_find name;
                      if r =? EWF_ERROR then method_error else api_handle_request clock cgi_parse code m name
       end
   end) a = Ret (tt, a') → asked_api (stranger_may (named a)) a a'.
Proof.
  intros Ho E. change (@ewf_http_request_uri H _ (list nbd_event)) with (@on_data H (list nbd_event) _ (hdf_get_value (lit "CGI.RequestURI"))) in E.
  rewrite (cmd_bind_Ret _ _ _ _ _ (on_data_get _ a)) in E.
  destruct (hdf_get (data a) (lit "CGI.RequestURI")); [|by apply (from_calm (named a) _ method_error_calm) in E].
  rewrite (cmd_bind_Ret _ _ _ _ _ (parameter_ok (lit "method") a ltac:(split_and!; [by repeat constructor|cbn; lia|done]))) in E.
  fold (named a) in E. destruct (named a) as [name|]; [|by apply (from_calm None _ method_error_calm) in E].
  pose proof Ho as [_ [size Hl]]. cbv beta iota in E.
  apply cmd_bind_Ret_inv in E as ([r1 m] & a1 & E1 & E). unfold ewf_hashtable_find in E1.
  apply cmd_bind_Ret_inv in E1 as (a2 & a3 & [= <- <-] & E1). rewrite Hl in E1.
  destruct (hsearch entries name) as [m'|] eqn:Em; injection E1 as <- <- <-.
  - by apply (handle_request_from m' name Em a tt a').
  - by apply (from_calm (Some name) _ method_error_calm) in E.
Qed.

(** C7: As long as no session is activated and authentication is not off, no request,
    whatever its method, its parameters and the answers of the configuration daemon,
    makes the API ask the daemon anything but queries that change nothing and ask for no
    secret; the requests that name auth.checkToken are the exception, by which a visitor
    logs in: they may also read the login and the password of the web site, to compare
    the request's with them, and release the button that let the visitor in, and nothing
    more. *)
Theorem api_outsider_harmless boxname a a' :
  pending a → (∃ size, a_list a = HLive size entries) →
  api_dispatch clock cgi_parse code boxname a = Ret (tt, a') →
  ∃ qs, a_nbd a' = a_nbd a ++ qs ∧
    if decide (hdf_get (data a) (query (lit "method")) = Some (lit "auth.checkToken"))
    then Forall (allowed (λ q, harmless q || login_query q)) qs
    else Forall (allowed harmless) qs.
Proof.
  intros Hp Hl E. unfold api_dispatch, ewf_fastcgi_set_content_type in E.
  do 3 (rewrite set_value_bind in E by (by repeat constructor || (cbn; lia))).
  apply lookup_from in E as (qs & Eq & Hqs); [|done]. rewrite !named_put in Hqs by done.
  exists qs. split; [exact Eq|]. unfold stranger_may in Hqs. fold (named a). by case_decide.
Qed.

End table_proofs.

(** ** Registration *)
Section registration.
Context (table_size : Z → Z).

(** The memory left, and the table. *)
Definition avail (a : A) : nat := h_avail (w_heap (a_w a)).

Lemma register_method_ok name rm pol i size es k (a : A) :
  a_initialized a = 1 → a_list a = HLive size es → avail a = S k →
  hsearch es name = None → Z.of_nat (length es) < size →
  ∃ a', api_register_method table_size name rm pol (Some i) a = Ret (tt, a') ∧ a_initialized a' = 1 ∧
    a_list a' = HLive size (es ++ [(name, ApiMethod rm pol (Some i))]) ∧ avail a' = k ∧
    w_sess (a_w a') = w_sess (a_w a) ∧ a_nbd a' = a_nbd a.
Proof.
  intros Hi Hl Hk Hn Hsz. unfold api_register_method, state. run. rewrite Hi. cbn [Z.eqb Pos.eqb andb]. run. run.
  unfold avail in Hk. unfold alloc at 1, mbind, cmd_bind. cbn [a_w set_methods]. rewrite Hk. cbn [negb].
  unfold ewf_hashtable_insert, state. run. cbn [a_list set_methods set_w]. rewrite Hl, Hn, (proj2 (Z.ltb_lt _ _)) by done.
  eexists. split; [reflexivity|]. done.
Qed.

Lemma register_loop_ok ms i size es (a : A) :
  a_initialized a = 1 → a_list a = HLive size es → (length ms <= avail a)%nat →
  NoDup (es.*1 ++ ((λ m, (entry 0 m).1) <$> ms)) → Z.of_nat (length es + length ms) <= size →
  ∃ a', register_loop table_size ms i a = Ret (tt, a') ∧ a_initialized a' = 1 ∧
    a_list a' = HLive size (es ++ imap (λ j, entry (i + j)) ms) ∧
    w_sess (a_w a') = w_sess (a_w a) ∧ a_nbd a' = a_nbd a.
Proof.
  revert i es a. induction ms as [|[[[name rm] pol] action] ms IH]; intros i es a Hi Hl Hk Hd Hsz.
  { exists a. by rewrite app_nil_r. }
  cbn [register_loop length] in *. destruct (avail a) as [|k] eqn:Ek; [lia|].
  destruct (register_method_ok (lit name) rm pol i size es k a) as (a1 & E1 & Hi1 & Hl1 & Hk1 & Hs1 & Hn1); [done|done|done| |lia|].
  { destruct (hsearch es (lit name)) as [m|] eqn:Em; [|done]. apply hsearch_elem in Em. exfalso.
    apply NoDup_app in Hd as (_ & Hd & _). apply (Hd (lit name)); [|by left].
    by apply (list_elem_of_fmap_2 fst) in Em. }
  run_with E1. destruct (IH (S i) (es ++ [(lit name, ApiMethod rm pol (Some i))]) a1 Hi1 Hl1) as (a2 & E2 & Hi2 & Hl2 & Hs2 & Hn2).
  - lia.
  - rewrite fmap_app, <- app_assoc. exact Hd.
  - rewrite length_app. cbn [length]. lia.
  - exists a2. split_and!; [exact E2|done| |congruence|congruence]. rewrite Hl2. cbn [imap]. rewrite <- app_assoc. cbn [app entry].
    do 3 f_equal; [by rewrite Nat.add_0_r|]. apply imap_ext. intros j x _. cbn. f_equal. lia.
Qed.

(** The first registration makes the table. *)
Lemma register_first name rm pol i k (a : A) :
  a_initialized a = 0 → avail a = S (S k) →
  ∃ a1, api_register_method table_size name rm pol (Some i) a = api_register_method table_size name rm pol (Some i) a1 ∧
    a_initialized a1 = 1 ∧ a_list a1 = HLive (table_size 97) [] ∧ avail a1 = k ∧
    w_sess (a_w a1) = w_sess (a_w a) ∧ a_nbd a1 = a_nbd a.
Proof.
  intros Hi Hk. unfold avail in Hk.
  set (h := w_heap (a_w a)).
  set (h1 := Heap (h_next h) (h_prev h) (h_data h) (h_lst h) (h_fresh h) k (h_log h)).
  exists (set_methods (HLive (table_size 97) []) 1 (set_w (set_heap h1 (a_w a)) a)). split; [|done].
  unfold api_register_method at 1, state. run. rewrite Hi. cbn [Z.eqb Pos.eqb andb].
  erewrite cmd_bind_Ret.
  2: { unfold ewf_hashtable_create. erewrite cmd_bind_Ret; [|unfold alloc; fold h; unfold h; rewrite Hk; reflexivity].
       cbn [negb]. run. cbn [negb]. run. reflexivity. }
  change (EWF_SUCCESS =? EWF_ERROR) with false. cbn [andb]. run. done.
Qed.

Context (clock : nat → timeval) (rdm : nat → bytes).
Context (sha256 : bytes → bytes) (hmac_sha256 : bytes → bytes → bytes).
Context (NB5 : bool) (pid stack_type stack_direction : Z).

Abbreviation methods := (ctl_methods clock rdm sha256 hmac_sha256 NB5 pid stack_type stack_direction).

Lemma hsearch_unique {Y} (es : list (bytes * Y)) key m : NoDup (es.*1) → (key, m) ∈ es → hsearch es key = Some m.
Proof.
  induction es as [|[k y] es IH]; cbn; intros Hd Hin; [by apply elem_of_nil in Hin|].
  apply NoDup_cons in Hd as [Hk Hd]. apply elem_of_cons in Hin as [[= -> ->]|Hin].
  - by rewrite (proj2 (bytes_eqb_eq _ _) eq_refl).
  - destruct (bytes_eqb k key) eqn:E; [|by apply IH]. apply bytes_eqb_eq in E as ->. exfalso. apply Hk.
    by apply (list_elem_of_fmap_2 fst) in Hin.
Qed.

Lemma method_names : NoDup ((λ m, (entry 0 m).1) <$> methods).
Proof. apply (bool_decide_unpack _). vm_compute. exact I. Qed.

(** Once the constructors have run, with memory for them and a table that has the slots
    asked for, every method of the API is found under its name, with its HTTP method,
    its access policy and its action. *)
Theorem api_methods_registered (a : A) :
  a_initialized a = 0 → (52 <= avail a)%nat → 97 <= table_size 97 →
  ∃ a', register_methods clock rdm sha256 hmac_sha256 table_size NB5 pid stack_type stack_direction a = Ret (tt, a') ∧
    a_list a' = HLive (table_size 97) (entries clock rdm sha256 hmac_sha256 NB5 pid stack_type stack_direction) ∧
    w_sess (a_w a') = w_sess (a_w a) ∧ a_nbd a' = a_nbd a ∧
    ∀ i name rm pol action, methods !! i = Some (name, rm, pol, action) →
      ewf_hashtable_find (lit name) a' = Ret ((EWF_SUCCESS, Some (ApiMethod rm pol (Some i))), a') ∧
      ctl_code clock rdm sha256 hmac_sha256 NB5 pid stack_type stack_direction i = action.
Proof.
  intros Hi Hk Hsz. destruct (avail a) as [|[|k]] eqn:Ek; [lia..|].
  destruct (register_first (lit "app.getInfo") EWF_HTTP_REQUEST_METHOD_GET API_ACCESS_POLICY_PUBLIC 0 k a Hi Ek)
    as (a1 & E1 & Hi1 & Hl1 & Hk1 & Hs1 & Hn1).
  destruct (register_loop_ok methods 0 (table_size 97) [] a1 Hi1 Hl1) as (a2 & E2 & Hi2 & Hl2 & Hs2 & Hn2).
  - rewrite Hk1. cbn. lia.
  - apply method_names.
  - change (length methods) with 50%nat. cbn. lia.
  - exists a2. split_and!; [|exact Hl2|congruence|congruence|].
    + unfold register_methods. rewrite <- E2. cbn [ctl_methods register_loop]. unfold mbind, cmd_bind. by rewrite E1.
    + intros i name rm pol action Hm. split; [|unfold ctl_code; by rewrite Hm].
      unfold ewf_hashtable_find, state. run. rewrite Hl2. cbn [app].
      rewrite (hsearch_unique _ _ (ApiMethod rm pol (Some i))); [done| |].
      * pose proof method_names as Hd. unfold entries. rewrite fmap_imap. erewrite imap_ext; [by rewrite imap_const|].
        intros j [[[n r] p] x] _. done.
      * apply elem_of_lookup_imap. by exists i, (name, rm, pol, action).
Qed.

End registration.
(** ** What the methods answer *)

(** The names of the modes before 11n became one word. *)
Definition modern (mode : bytes) : bytes :=
  if bytes_eqb mode (lit "11n-only") then lit "11n"
  else if bytes_eqb mode (lit "11n-legacy") then lit "11ng"
  else if bytes_eqb mode (lit "legacy") then lit "11g"
  else mode.

Lemma same_text mode t :
  text mode → text t →
  compare_loop (cstr mode) (cstr t) = Ret (if bytes_eqb mode t then NBU_STRING_EQUAL else NBU_STRING_DIFFERENT).
Proof. intros Hm Ht. apply compare_loop_ok; by apply str_of_cstr. Qed.

Lemma mapping_ok mode :
  text mode → mapping_loop value_cptb_mapping (str "wlan_mode") (cstr mode) = Ret (cstr (modern mode)).
Proof.
  intros Hm. unfold value_cptb_mapping, modern. cbn [mapping_loop nbu_string_compare].
  rewrite !(compare_loop_ok (str "wlan_mode") (cstr (lit "wlan_mode")) (lit "wlan_mode") (lit "wlan_mode")) by done.
  cbn [mbind outcome_bind]. change (bytes_eqb (lit "wlan_mode") (lit "wlan_mode")) with true. cbv iota.
  change (NBU_STRING_EQUAL =? NBU_STRING_EQUAL) with true. cbv iota.
  rewrite !same_text by (done || by repeat constructor).
  destruct (bytes_eqb mode (lit "11n-only")); [reflexivity|]. destruct (bytes_eqb mode (lit "11n-legacy")); [reflexivity|].
  by destruct (bytes_eqb mode (lit "legacy")).
Qed.

Definition set_mode (mode : bytes) : list bytes := [str "nvram"; str "set"; str "wlan_mode"; cstr (modern mode)].
Definition commit : list bytes := [str "nvram"; str "commit"; str "user"].

Lemma set_silent args h st :
  answer h args = (st, []) → nbd_set args h = Ret (st, h ++ [Asked args]).
Proof. intros Ha. unfold nbd_set, mbind, cmd_bind. cbn [nbd_query_op ctl_daemon every_daemon]. unfold ask. by rewrite Ha. Qed.

(** C13: The mode of the wireless network, under its old names as well: it is committed when
    the configuration daemon says that it changed, left when it says that it had this
    value, and refused with error 114 on any other status and when the parameter is
    missing; the daemon is then not asked to commit anything. *)
Theorem setWlanMode_spec (a : A) st :
  (∀ v, hdf_get (data a) (query (lit "mode")) = Some v →
     text v ∧ answer (a_nbd a) (set_mode v) = (st, []) ∧
     (answer (a_nbd a ++ [Asked (set_mode v)]) commit).2 = []) →
  wlan_setWlanMode a =
    Ret (tt, match hdf_get (data a) (query (lit "mode")) with
             | Some v =>
                 let a1 := set_nbd (a_nbd a ++ [Asked (set_mode v)]) a in
                 if st =? 0 then set_nbd (a_nbd a ++ [Asked (set_mode v); Asked commit]) a
                 else if st =? 1 then a1
                 else failed (lit "114") (lit "Invalid argument(s)") a1
             | None => failed (lit "114") (lit "Invalid argument(s)") a
             end).
Proof.
  intros Hv. unfold wlan_setWlanMode.
  erewrite cmd_bind_Ret; [|apply parameter_ok; split_and!; [by repeat constructor|cbn; lia|done]].
  destruct (hdf_get (data a) (query (lit "mode"))) as [v|]; cbv beta iota.
  2: { run. change (cfg_set_success <=? cfg_set_error) with false. cbv iota. by rewrite set_error_ok. }
  destruct (Hv v eq_refl) as (Ht & Hs & Hc).
  erewrite cmd_bind_Ret.
  2: { apply on_nbd_ok. unfold cfg_set. rewrite mapping_ok by done. run. run_with (set_silent (set_mode v) _ _ Hs). reflexivity. }
  change NBD_SUCCESS with 0. change NBD_UNCHANGED with 1. destruct (Z.eqb_spec st 0) as [->|H0'].
  - cbn [Z.leb Z.compare cfg_set_success Z.eqb]. destruct (answer (a_nbd a ++ [Asked (set_mode v)]) commit) as [r d] eqn:Er. cbn in Hc. subst d.
    erewrite cmd_bind_Ret; [|apply on_nbd_ok; exact (set_silent commit _ _ Er)].
    unfold set_nbd. cbn [a_nbd a_w a_buffer a_list a_initialized a_out]. by rewrite <- app_assoc.
  - destruct (Z.eqb_spec st 1) as [->|H1']; [done|].
    assert ((cfg_set_success <=? (if st =? -4 then cfg_set_invalidvalue else cfg_set_error)) = false) as -> by (by destruct (st =? -4)).
    by rewrite set_error_ok.
Qed.

(** The state of the hook is never shown: it is looked for behind the word [up] in the
    buffer of the answer, which the status of the line before left there, and not in the
    status that was asked for. *)
Theorem hook_status_unknown (b : bytes) st up h :
  length b = 256%nat → str_of b = Some st → prefixb (lit "up") st = false →
  answer h [str "status"; str "get"; str "voip_up"] = (0, cstr up) → text up → (length up < 5)%nat →
  ∃ b', nbl_voip_get_hook_status b 256 h = Ret ((NBU_SUCCESS, b'), h ++ [Asked [str "status"; str "get"; str "voip_up"]]) ∧
    str_of b' = Some (lit "unknown").
Proof.
  intros Hb Hst Hup Ha Ht Hl. unfold nbl_voip_get_hook_status, nbd_status_get.
  change 5%Z with (Z.of_nat (length (local_buf 5))). rewrite (cmd_bind_Ret _ _ _ _ _ (every_get_text answer _ up (local_buf 5) _ Ha Ht Hl)).
  cbv beta iota. change (0 =? NBD_ERROR) with false. cbv iota.
  destruct (printf_ok b 256 (lit "unknown")) as (b' & E & Hb' & _); [lia|unfold INT_MAX; lia|by repeat constructor|].
  exists b'. split; [|exact Hb'].
  destruct (strncmp_prefix (lit "up") st b [0]) as (z & Ez & Hz); [by repeat constructor|done|].
  assert (nbu_string_ncompare b 2 (str "up") = Ret NBU_STRING_DIFFERENT) as ->.
  { unfold nbu_string_ncompare. change (s32 2 <? 0) with false. cbv iota. rewrite strncmp_sym.
    change (strncmp (str "up") b (Z.to_nat 2) = Ret z) in Ez. rewrite Ez. cbn.
    rewrite Hup in Hz. zbool. by rewrite (proj2 (Z.eqb_neq (- z) 0)) by lia. }
  run. change (NBU_STRING_DIFFERENT =? NBU_STRING_EQUAL) with false. cbv iota. unfold buf_of. rewrite E. reflexivity.
Qed.

End ctl_proofs.

(** ** A box that answers *)
#[local] Instance no_xml : Ezxml unit := {|
  ezxml_parse_str _ _ := None;
  ezxml_children _ _ := [];
  ezxml_get _ _ := [];
  ezxml_child_txt _ _ := [];
  ezxml_txt _ := [];
|}.

(** Authentication by password; every change is accepted, every value is "x". *)
Definition box_says (h : list nbd_event) (args : list bytes) : Z * bytes :=
  match args with
  | [_; v; k] => if bytes_eqb v (str "get") then (0, if bytes_eqb k (str "web_auth") then str "passwd" else str "x")
                 else (0, [])
  | _ => (0, [])
  end.

Section box.
#[local] Instance box_daemon : NbdOps (list nbd_event) := every_daemon box_says.
#[local] Instance box_link : NbdLink (list nbd_event) := every_link box_says.

Abbreviation box_entries := (entries (H := gmap bytes bytes) (X := unit) box_says api_clock (λ _, []) (λ t, t) (λ _ t, t) false 1 0 0).
Abbreviation box_code := (ctl_code (H := gmap bytes bytes) (X := unit) api_clock (λ _, []) (λ t, t) (λ _ t, t) false 1 0 0).

(** The session 7 waits for its validation. *)
Definition box_state (q : gmap bytes bytes) (methods : htab) (init : Z) : api (gmap bytes bytes) (list nbd_event) :=
  MkApi (set_sess {[7%positive := Session 0 (cstr (lit "ab")) (Timeval 1000 0)]} (demo_world q)) [] (replicate 256 0)
    methods init [].

Definition change_key : gmap bytes bytes :=
  <[lit "CGI.RequestMethod" := lit "POST"]> (<[lit "CGI.RequestURI" := lit "/api"]>
  (<[query (lit "method") := lit "wlan.setWl0Wpakey"]> (<[query (lit "wpakey") := lit "mine"]>
  {[query (lit "token") := lit "ab"]}))).

Lemma box_pending q t i : pending (box_state q t i).
Proof. intros p s. cbn. intros [<- <-]%lookup_singleton_Some. done. Qed.

(** What is looked at of a result. *)
Definition looked {Y} (f : api (gmap bytes bytes) (list nbd_event) → Y)
    (r : outcome (unit * api (gmap bytes bytes) (list nbd_event))) : option Y :=
  match r with Ret (_, a) => Some (f a) | _ => None end.

(** A stranger wants to change the key of the wireless network with a token that was
    never validated: the answer is an error, and the daemon was asked two values. *)
Lemma api_outsider_harmless_witness :
  ∃ a', api_dispatch api_clock (λ h, h) box_code (lit "nb") (box_state change_key (HLive 97 box_entries) 1) = Ret (tt, a') ∧
    hdf_get (data a') (lit "err.code") = Some (lit "115") ∧ length (a_nbd a') = 2%nat ∧
    ∃ qs, a_nbd a' = [] ++ qs ∧ Forall (allowed harmless) qs.
Proof.
  assert (looked (λ a, (hdf_get (data a) (lit "err.code"), length (a_nbd a)))
    (api_dispatch api_clock (λ h, h) box_code (lit "nb") (box_state change_key (HLive 97 box_entries) 1))
    = Some (Some (lit "115"), 2%nat)) as Hf by (vm_compute; reflexivity).
  destruct (api_dispatch api_clock (λ h, h) box_code (lit "nb") (box_state change_key (HLive 97 box_entries) 1))
    as [[[] a']| | |] eqn:E; try discriminate Hf. cbn [looked] in Hf.
  exists a'. injection Hf as Hc Hn. split_and!; [reflexivity|exact Hc|exact Hn|].
  destruct (api_outsider_harmless box_says api_clock (λ _, []) (λ t, t) (λ _ t, t) false 1 0 0 (lit "passwd")
    ltac:(by intros h) ltac:(split; [by repeat constructor|cbn; lia]) ltac:(done) (λ h, h) (lit "nb")
    (box_state change_key (HLive 97 box_entries) 1) a' (box_pending _ _ _) ltac:(by exists 97) E) as (qs & Eq & Hqs).
  exists qs. split; [exact Eq|]. revert Hqs. rewrite decide_False; [intros Hqs; exact Hqs|]. vm_compute. discriminate.
Defined.

(** [wlan.getInfo] is private, and reads nine values. *)
Lemma ctl_methods_rights_witness :
  ∃ a', wlan_getInfo (box_state ∅ HNull 0) = Ret (tt, a') ∧ length (a_nbd a') = 9%nat ∧
    ∃ qs, a_nbd a' = [] ++ qs ∧ Forall (allowed reads) qs.
Proof.
  assert (looked (λ a, length (a_nbd a)) (wlan_getInfo (box_state ∅ HNull 0)) = Some 9%nat) as Hf
    by (vm_compute; reflexivity).
  destruct (wlan_getInfo (box_state ∅ HNull 0)) as [[[] a']| | |] eqn:E; try discriminate Hf. cbn [looked] in Hf.
  exists a'. injection Hf as Hn. split_and!; [reflexivity|exact Hn|].
  destruct (ctl_methods_rights box_says api_clock (λ _, []) (λ t, t) (λ _ t, t) false 1 0 0 36 "wlan.getInfo"
    EWF_HTTP_REQUEST_METHOD_GET API_ACCESS_POLICY_PRIVATE wlan_getInfo (box_state ∅ HNull 0) a' eq_refl E) as (qs & Eq & _ & Hqs).
  exists qs. split; [exact Eq|]. exact (proj1 (Hqs ltac:(discriminate)) eq_refl).
Defined.

Lemma api_methods_registered_witness :
  ∃ a', register_methods api_clock (λ _, []) (λ t, t) (λ _ t, t) (λ n, n) false 1 0 0
          (set_w (set_heap (Heap ∅ ∅ ∅ ∅ 1 60 []) (a_w (box_state ∅ HNull 0))) (box_state ∅ HNull 0)) = Ret (tt, a') ∧
    ewf_hashtable_find (lit "system.reboot") a' =
      Ret ((EWF_SUCCESS, Some (ApiMethod EWF_HTTP_REQUEST_METHOD_POST API_ACCESS_POLICY_PRIVATE (Some 29%nat))), a').
Proof.
  destruct (api_methods_registered box_says (λ n, n) api_clock (λ _, []) (λ t, t) (λ _ t, t) false 1 0 0
    (set_w (set_heap (Heap ∅ ∅ ∅ ∅ 1 60 []) (a_w (box_state ∅ HNull 0))) (box_state ∅ HNull 0)) eq_refl ltac:(cbn; lia) ltac:(lia))
    as (a' & E & _ & _ & _ & Hfind).
  exists a'. split; [exact E|]. exact (proj1 (Hfind 29%nat "system.reboot" _ _ _ eq_refl)).
Defined.

Lemma setWlanMode_spec_witness :
  let a := box_state {[query (lit "mode") := lit "legacy"]} HNull 0 in
  wlan_setWlanMode a
  = Ret (tt, set_nbd [Asked [str "nvram"; str "set"; str "wlan_mode"; str "11g"];
                      Asked [str "nvram"; str "commit"; str "user"]] a).
Proof.
  intros a. rewrite (setWlanMode_spec box_says a 0); [reflexivity|].
  intros v. vm_compute. intros [= <-]. split; [by repeat constructor|done].
Defined.

End box.
