(* ===== verification/LanTopology.v ===== *)
(** The daemon that watches the devices of the LAN: [src/efixo/efixo-lan-topology/src].

    [lan-topology.c] waits in [pselect] for the sockets of three plugins and polls the
    plugins every [POLL_INTERVAL] seconds: [neigh.c] follows the kernel's table of
    neighbours and probes silent devices, [plc.c] looks for power line adapters,
    [ssdp.c] listens for set top boxes.  What they learn goes to the configuration
    daemon through libnbd.

    What the kernel delivers is in the state, oldest first; what the daemon does is a
    list of actions.  The XML library is a parameter; logs are not modelled. *)

From stdpp Require Import base tactics list strings.
From S2P Require Import Prelude.
From S2P Require Import CString.
From S2P Require Import NbuNet.
From S2P Require Import NbdCore.
From S2P Require Import NbdQueries.
From S2P Require Import NbdServices.
From S2P Require Import EtkString.
Import NbuNet NbdQueries NbdServices EtkString.

Module LanTopology.

(** ** etk/common.h *)

(** Times are [unsigned long]; their difference is one of [long]s. *)
Definition time_after_eq (a b : Z) : outcome bool :=
  let d := s32 a - s32 b in
  if (LONG_MIN <=? d) && (d <=? LONG_MAX) then Ret (0 <=? d) else Undef.

(** A programme run, and a frame written to a socket. *)
Inductive action := Exec (argv : list bytes) | Wrote (fd : Z) (frame : bytes).

Record world (D : Type) := World {
  w_nbd : D;
  w_acts : list action;
  w_neigh : list (list bytes);       (* messages of the kernel, by wake-up *)
  w_plc : list bytes;                (* frames *)
  w_ssdp : list (Z * bytes);         (* sender and packet *)
}.
Arguments World {D}.
Arguments w_nbd {D}.
Arguments w_acts {D}.
Arguments w_neigh {D}.
Arguments w_plc {D}.
Arguments w_ssdp {D}.

(** The globals that [setup] fills; an address is the number of its four bytes. *)
Record config := Config {
  lan_ifname : bytes;      (* 16 *)
  lan_network : Z;
  lan_netmask : Z;
}.

Section topology.
Context {D : Type} `{NbdLink D}.

Abbreviation M := (cmd (world D)).

Definition on_nbd {A} (m : cmd D A) : M A :=
  zoom w_nbd (λ d w, World d (w_acts w) (w_neigh w) (w_plc w) (w_ssdp w)) m.

Definition act (a : action) : M unit :=
  mod_st (λ w, World (w_nbd w) (w_acts w ++ [a]) (w_neigh w) (w_plc w) (w_ssdp w)).

(** The bytes of an array on the stack. *)
Definition local (n : nat) : bytes := replicate n 165.

(** ** lan-topology.c *)
Definition POLL_INTERVAL : Z := 300.

(** The status of the queries is not looked at. *)
Definition setup : M config :=
  on_nbd nbd_open_op;;
  '(_, ipaddr) ← on_nbd (nbd_user_config_get (str "lan_ipaddr") (local 16) 16);
  '(_, netmask) ← on_nbd (nbd_user_config_get (str "lan_netmask") (local 16) 16);
  '(_, ifname) ← on_nbd (nbd_user_config_get (str "lan_ifname") (replicate 16 0) 16);
  on_nbd nbd_close_op;;
  ip ← lift (c_str ipaddr);
  match inet_aton ip with
  | None => lift Abort
  | Some ip =>
      mask ← lift (c_str netmask);
      match inet_aton mask with
      | None => lift Abort
      | Some mask => mret (Config ifname (Z.land ip mask) mask)
      end
  end.

(** [struct plugin]: [init] answers its value and [fd]; [poll] is told [now]. *)
Record plugin := Plugin {
  p_name : bytes;
  p_init : M (Z * Z);
  p_poll : option (Z → Z → M Z);
  p_event : Z → M Z;
}.

(** [FD_SET] in a set of 1024 descriptors. *)
Definition FD_SET (fd : Z) (rfds : list Z) : outcome (list Z) :=
  if (0 <=? fd) && (fd <? 1024) then Ret (fd :: rfds) else Undef.

(** The list, the set and the largest descriptor; [None] for a plugin that failed. *)
Fixpoint init_loop (ps : list plugin) (plugin_list : list (plugin * Z)) (rfds : list Z) (nfds : Z)
    : M (option (list (plugin * Z) * list Z * Z)) :=
  match ps with
  | [] => mret (Some (plugin_list, rfds, nfds))
  | p :: ps =>
      '(r, fd) ← p_init p;
      if r <? 0 then mret None
      else
        rfds ← lift (FD_SET fd rfds);
        init_loop ps (plugin_list ++ [(p, fd)]) rfds (Z.max nfds fd)
  end.

Definition plugin_init (ps : list plugin) : M (option (list (plugin * Z) * list Z * Z)) :=
  init_loop ps [] [] 0.

(** What [pselect] does next: a signal after some seconds, an error, or the descriptors
    that are ready (none after a timeout) and the clock read then. *)
Inductive wake := Intr (after : Z) | Broken | Awake (ready : list Z) (tv_sec : Z).

(** [now] and [poll_date]. *)
Record times := Times { t_now : Z; t_poll : Z }.

(** [to.tv_sec]. *)
Definition timeout (s : times) : Z := s32 (u32 (t_poll s - t_now s)).

Fixpoint poll_loop (ps : list (plugin * Z)) (now : Z) : M unit :=
  match ps with
  | [] => mret tt
  | (p, fd) :: ps =>
      match p_poll p with Some poll => poll now fd;; mret tt | None => mret tt end;;
      poll_loop ps now
  end.

Fixpoint event_loop (ps : list (plugin * Z)) (ready : list Z) : M unit :=
  match ps with
  | [] => mret tt
  | (p, fd) :: ps =>
      (if existsb (Z.eqb fd) ready then p_event p fd;; mret tt else mret tt);;
      event_loop ps ready
  end.

(** One turn of the loop: the times, and [false] when the loop was left. *)
Definition turn (ps : list (plugin * Z)) (w : wake) (s : times) : M (bool * times) :=
  match w with
  | Intr _ => mret (true, s)
  | Broken => mret (false, s)
  | Awake ready tv_sec =>
      let now := u32 tv_sec in
      due ← lift (time_after_eq now (t_poll s));
      if due : bool then
        let s := Times now (u32 (now + POLL_INTERVAL)) in
        poll_loop ps now;; event_loop ps ready;; mret (true, s)
      else event_loop ps ready;; mret (true, Times now (t_poll s))
  end.

Fixpoint main_loop (ps : list (plugin * Z)) (ws : list wake) (s : times) : M times :=
  match ws with
  | [] => mret s
  | w :: ws =>
      '(on, s) ← turn ps w s;
      if on : bool then main_loop ps ws s else mret s
  end.

Definition start_times (tv_sec : Z) : times :=
  let now := u32 tv_sec in Times now (u32 (now + POLL_INTERVAL)).

(** ** neigh.c *)
Definition NEIGH_TIMEOUT : Z := 1200.
Definition NUD_REACHABLE : Z := 2.
Definition NUD_STALE : Z := 4.
Definition NUD_DELAY : Z := 8.
Definition NUD_FAILED : Z := 32.
Definition NL_OK : Z := 0.

Definition rd16 (b : bytes) (o : Z) : outcome Z := h ← rd b o; l ← rd b (o + 1); Ret (h * 256 + l).

(** [%02x] of six bytes with a colon between them. *)
Definition mac_text (m : bytes) : bytes :=
  match m with
  | a :: m => fmt_02x a ++ foldr (λ b t, 58 :: fmt_02x b ++ t) [] m
  | [] => []
  end.

Section neigh.
Context (cfg : config).

(** [memcpy] stores 16 bytes in an object of 4: [spill] is what the 12 bytes behind it
    do. *)
Definition my_rcv (spill : bytes → outcome unit) (data : bytes) : M Z :=
  ndm_state ← lift (rd16 data 8);
  if negb (Z.land ndm_state (Z.lor NUD_REACHABLE (Z.lor NUD_STALE (Z.lor NUD_DELAY NUD_FAILED))) =? 0) then
    ip ← lift (mem_read (Some data) 16 16);
    lift (spill (drop 4 ip));;
    let host_ipaddr := NbdCore.be_val (take 4 ip) in
    if negb (Z.land host_ipaddr (lan_netmask cfg) =? lan_network cfg) then mret NL_OK
    else
      macaddr ← (if Z.land ndm_state NUD_FAILED =? 0
                 then ether ← lift (mem_read (Some data) 24 6); mret (mac_text ether)
                 else mret (lit "00:00:00:00:00:00"));
      on_nbd nbd_open_op;;
      on_nbd (nbd_lan_topology_update (cstr macaddr) (cstr (inet_ntoa host_ipaddr)) None);;
      on_nbd nbd_close_op;;
      mret NL_OK
  else mret NL_OK.

(** [nl_recvmsgs_default] hands the messages that are there to [my_rcv]. *)
Fixpoint rcv_all (spill : bytes → outcome unit) (msgs : list bytes) : M unit :=
  match msgs with
  | [] => mret tt
  | m :: msgs => my_rcv spill m;; rcv_all spill msgs
  end.

Definition neigh_event (spill : bytes → outcome unit) (fd : Z) : M Z :=
  w ← get_st;
  match w_neigh w with
  | [] => mret 0
  | msgs :: rest =>
      put_st (World (w_nbd w) (w_acts w) rest (w_plc w) (w_ssdp w));;
      rcv_all spill msgs;; mret 0
  end.

(** [ezxml_parse_str] and the walk from the first [device]: of each node,
    [ezxml_child_txt]. *)
Context (ezxml_devices : bytes → option (list (bytes → bytes))).

Definition ARP_PROBE (ipaddr macaddr ifname : bytes) : action :=
  Exec [lit "ip"; lit "neigh"; lit "add"; ipaddr; lit "lladdr"; macaddr; lit "dev"; ifname; lit "nud"; lit "probe"].

Definition probe_node (now : Z) (ifname : bytes) (node : bytes → bytes) : M unit :=
  z ← lift (memcmp (cstr (node (lit "type"))) (str "plc") 4);
  if z =? 0 then mret tt
  else
    alive ← lift (safe_strtol (cstr (node (lit "alive"))) 0);
    let activity := u32 alive in
    due ← lift (time_after_eq now (u32 (activity + NEIGH_TIMEOUT)));
    if due : bool then
      ifname ← lift (c_str ifname);
      act (ARP_PROBE (node (lit "ipaddr")) (node (lit "macaddr")) ifname)
    else mret tt.

Fixpoint probe_loop (now : Z) (ifname : bytes) (nodes : list (bytes → bytes)) : M unit :=
  match nodes with
  | [] => mret tt
  | n :: nodes => probe_node now ifname n;; probe_loop now ifname nodes
  end.

(** [stray] is what the pointer on the stack was; the link stays open when no answer
    came. *)
Definition neigh_poll (stray : option bytes) (now fd : Z) : M Z :=
  on_nbd nbd_open_op;;
  '(_, s, _) ← on_nbd (nbd_query_new_op stray 0 [str "status"; str "xml"; str "lan_topology"]);
  match s with
  | None => mret (-1)
  | Some s =>
      '(_, ifname) ← on_nbd (nbd_system_config_get (str "lan_ifname") (local 16) 16);
      on_nbd nbd_close_op;;
      t ← lift (c_str s);
      match ezxml_devices t with
      | None => mret (-1)
      | Some nodes => probe_loop now ifname nodes;; mret 0
      end
  end.

End neigh.

(** ** plc.c *)
Definition ETH_FRAME_LEN : nat := 1514.
Definition ETHER_MIN_LEN : nat := 64.

Definition le16_bytes (z : Z) : bytes := [u8 z; u8 (Z.shiftr z 8)].

Definition put (frame : bytes) (off : Z) (s : bytes) : outcome bytes :=
  b ← mem_write (Some frame) off s; must b.

(** The frame that is written: an Ethernet header of 14 bytes, one of HomePlug of 6. *)
Definition mme_frame (ether_shost ether_dhost : bytes) (query : Z) : outcome bytes :=
  let frame := replicate ETH_FRAME_LEN 0 in
  frame ← put frame 6 ether_shost;
  frame ← put frame 0 ether_dhost;
  frame ← put frame 12 [136; 225];
  frame ← put frame 14 (replicate 6 0);
  frame ← put frame 15 (le16_bytes query);
  frame ← put frame 17 [0; 176; 82];
  Ret (take (Nat.max 20 ETHER_MIN_LEN) frame).

(** A closed descriptor: the write fails. *)
Definition mme_request (fd : Z) (ether_shost ether_dhost : bytes) (query : Z) : M Z :=
  frame ← lift (mme_frame ether_shost ether_dhost query);
  if fd <? 0 then mret (-1) else act (Wrote fd frame);; mret 0.

Section plc.
Context (lan_ethaddr : bytes).

Definition mme_probe (fd : Z) : M Z :=
  let eth_addr := [0; 176; 82; 0; 0; 1] in
  mme_request fd lan_ethaddr eth_addr 40960;;
  mme_request fd lan_ethaddr eth_addr 41016;;
  mret 0.

(** The stations of a network that begins at [off]; each has 15 bytes, the network 18
    before them. *)
Fixpoint stations_loop (fd : Z) (frame : bytes) (off : Z) (k : nat) (j : Z) : M unit :=
  match k with
  | O => mret tt
  | S k =>
      MAC ← lift (mem_read (Some frame) (off + 18 + 15 * j) 6);
      mme_request fd lan_ethaddr MAC 40960;;
      stations_loop fd frame off k (j + 1)
  end.

(** [sizeof(struct hpav_network)] is 33: one station. *)
Fixpoint networks_loop (fd : Z) (frame : bytes) (k : nat) (i : Z) : M unit :=
  match k with
  | O => mret tt
  | S k =>
      let off := 21 + 33 * i in
      num ← lift (rd frame (off + 17));
      stations_loop fd frame off (Z.to_nat num) 0;;
      networks_loop fd frame k (i + 1)
  end.

(** [stack] is what [frame] held before the [read]. *)
Definition mme_discover (stack : bytes) (fd : Z) : M Z :=
  w ← get_st;
  match w_plc w with
  | [] => mret (-1)
  | data :: rest =>
      put_st (World (w_nbd w) (w_acts w) (w_neigh w) rest (w_ssdp w));;
      if (length data =? 0)%nat then mret (-1) else
      frame ← lift (overwrite stack (take ETH_FRAME_LEN data));
      t1 ← lift (rd frame 12); t2 ← lift (rd frame 13);
      if negb ((t1 =? 136) && (t2 =? 225)) then mret 0
      else
        m1 ← lift (rd frame 15); m2 ← lift (rd frame 16);
        if (m1 =? 57) && (m2 =? 160) then
          num ← lift (rd frame 20);
          networks_loop fd frame (Z.to_nat num) 0;;
          mret 0
        else if (m1 =? 1) && (m2 =? 160) then
          mac ← lift (mem_read (Some frame) 6 6);
          version ← lift (padd frame 23);
          on_nbd nbd_open_op;;
          on_nbd (nbd_plc_add (cstr (mac_text mac)) version);;
          on_nbd nbd_close_op;;
          mret 0
        else mret 0
  end.

(** [open_netdevice] answers -1 when the device cannot be opened; its result is not
    looked at. *)
Definition plc_init (open_netdevice : Z) : M (Z * Z) :=
  let fd := open_netdevice in
  r ← mme_probe fd; mret (r, fd).

Definition plc_poll (now fd : Z) : M Z := mme_probe fd.
Definition plc_event (stack : bytes) (fd : Z) : M Z := mme_discover stack fd.

End plc.

(** ** ssdp.c *)

(** [strtok_r(s, "\n\r", &ctx)]: the first line and what is behind it. *)
Definition eol (c : Z) : bool := (c =? 10) || (c =? 13).

Fixpoint skip_eol (s : bytes) : bytes :=
  match s with
  | c :: s' => if eol c then skip_eol s' else s
  | [] => []
  end.

Fixpoint span_line (s : bytes) : bytes * bytes :=
  match s with
  | [] => ([], [])
  | c :: s' => if eol c then ([], s') else let '(l, r) := span_line s' in (c :: l, r)
  end.

Definition strtok_line (s : bytes) : option (bytes * bytes) :=
  match skip_eol s with
  | [] => None
  | s => Some (span_line s)
  end.

(** [%N[^set]]: at least one and at most [n] characters that [stop] does not hold of. *)
Fixpoint scan_set (stop : Z → bool) (n : nat) (s : bytes) : bytes * bytes :=
  match n, s with
  | S n, c :: s' => if stop c then ([], s) else let '(a, r) := scan_set stop n s' in (c :: a, r)
  | _, _ => ([], s)
  end.

(** [sscanf(line, "%15[^:]:%127[^\r\n]", buf1, buf2)]: what is stored in the two objects
    and whether it answers 2.  [buf2] has 64 bytes. *)
Definition scan_header (line buf1 buf2 : bytes) : outcome (bool * bytes * bytes) :=
  let '(name, r) := scan_set (λ c, c =? 58) 15 line in
  if (length name =? 0)%nat then Ret (false, buf1, buf2)
  else
    buf1 ← overwrite buf1 (cstr name);
    match r with
    | c :: r =>
        if c =? 58 then
          let '(value, _) := scan_set eol 127 r in
          if (length value =? 0)%nat then Ret (false, buf1, buf2)
          else buf2 ← overwrite buf2 (cstr value); Ret (true, buf1, buf2)
        else Ret (false, buf1, buf2)
    | [] => Ret (false, buf1, buf2)
    end.

Definition tolower (c : Z) : Z := if isupper c then c + 32 else c.

(** [!strcasecmp(a, b)] of texts. *)
Definition same_nocase (a b : bytes) : bool := bytes_eqb (tolower <$> a) (tolower <$> b).

(** The headers [nt] and [nts] that were found, as [strdup] copied them; memory is there
    for them. *)
Record found := Found { f_nt : option bytes; f_nts : option bytes }.

(** The body of the loop over the lines. *)
Definition take_header (line : bytes) (buf1 buf2 : bytes) (f : found) : outcome (bytes * bytes * found) :=
  '(two, buf1, buf2) ← scan_header line buf1 buf2;
  if negb two then Ret (buf1, buf2, f)
  else
    '(p1, buf1) ← strtrim buf1; name ← c_str p1;
    '(p2, buf2) ← strtrim buf2; value ← c_str p2;
    let f :=
      match f_nt f with
      | None => if same_nocase name (lit "nt") then Found (Some (cstr value)) (f_nts f)
                else match f_nts f with
                     | None => if same_nocase name (lit "nts") then Found (f_nt f) (Some (cstr value)) else f
                     | Some _ => f
                     end
      | Some _ => match f_nts f with
                  | None => if same_nocase name (lit "nts") then Found (f_nt f) (Some (cstr value)) else f
                  | Some _ => f
                  end
      end in
    Ret (buf1, buf2, f).

Definition complete (f : found) : bool :=
  match f_nt f, f_nts f with Some _, Some _ => true | _, _ => false end.

Fixpoint lines_loop (fuel : nat) (s : bytes) (buf1 buf2 : bytes) (f : found) : outcome found :=
  match fuel with
  | O => NoFuel
  | S fuel =>
      match strtok_line s with
      | None => Ret f
      | Some (line, s) =>
          '(buf1, buf2, f) ← take_header line buf1 buf2 f;
          if complete f then Ret f else lines_loop fuel s buf1 buf2 f
      end
  end.

Definition SET_TOP_BOX : string := "urn:neufboxtv-org:device:SetTopBox:1".

(** [matches(s, c_str)]. *)
Definition matches (s : bytes) (t : string) : outcome bool :=
  z ← memcmp s (str t) (S (String.length t)); Ret (z =? 0).

(** [buf] is the packet and what the stack held behind it: nothing ends it. *)
Definition ssdp_notify_event (buf : bytes) (sin_addr : Z) : M Z :=
  s ← lift (c_str buf);
  f ← lift (lines_loop (S (length s)) s (local 16) (local 64) (Found None None));
  match f_nt f, f_nts f with
  | Some nt, Some nts =>
      box ← lift (matches nt SET_TOP_BOX);
      alive ← (if box : bool then lift (matches nts "ssdp:alive") else mret false);
      if alive : bool then
        let ipaddr := cstr (inet_ntoa sin_addr) in
        on_nbd nbd_open_op;;
        '(r, macaddr) ← on_nbd (nbd_lan_ip2mac ipaddr (local 32) 32);
        if r <? 0 then on_nbd nbd_close_op;; mret 0
        else
          on_nbd (nbd_stb_add macaddr ipaddr (str ""));;
          on_nbd nbd_close_op;;
          mret 0
      else mret 0
  | _, _ => mret 0
  end.

(** [stack] is what [char buf[1500]] held. *)
Definition ssdp_event (stack : bytes) (fd : Z) : M Z :=
  w ← get_st;
  match w_ssdp w with
  | [] => mret (-1)
  | (sender, pkt) :: rest =>
      put_st (World (w_nbd w) (w_acts w) (w_neigh w) (w_plc w) rest);;
      buf ← lift (overwrite stack (take 1500 pkt));
      z ← lift (memcmp buf (lit "NOTIFY") 6);
      if z =? 0 then ssdp_notify_event buf sender else mret 0
  end.

(** ** The plugins and the programme *)
Section main.
Context (ezxml_devices : bytes → option (list (bytes → bytes))) (spill : bytes → outcome unit).
Context (lan_ethaddr : bytes) (stray : option bytes) (stack : bytes).

(** What the calls of the three [init] functions to the system gave: the value of the
    function and the descriptor. *)
Context (neigh_socket ssdp_socket : Z * Z) (open_netdevice : Z).

Definition neigh_plugin (cfg : config) : plugin :=
  Plugin (lit "neigh") (mret neigh_socket) (Some (neigh_poll ezxml_devices stray)) (neigh_event cfg spill).

Definition plc_plugin : plugin :=
  Plugin (lit "plc") (plc_init lan_ethaddr open_netdevice) (Some (plc_poll lan_ethaddr)) (plc_event lan_ethaddr stack).

Definition ssdp_plugin : plugin :=
  Plugin (lit "ssdp") (mret ssdp_socket) None (ssdp_event stack).

Definition plugins (cfg : config) : list plugin := [neigh_plugin cfg; plc_plugin; ssdp_plugin].

(** [tv_sec] is the clock before the loop; [ws] what [pselect] does. *)
Definition main (tv_sec : Z) (ws : list wake) : M times :=
  cfg ← setup;
  r ← plugin_init (plugins cfg);
  match r with
  | None => lift Abort
  | Some (plugin_list, _, _) => main_loop plugin_list ws (start_times tv_sec)
  end.

End main.

End topology.

End LanTopology.
