(* ===== verification/LanTopologyProofs.v ===== *)
(** The daemon of the LAN's devices: it polls in time, silent devices are probed, the
    configuration daemon is told what the kernel and the boxes say, and where packets of
    the network go past the buffers. *)

From stdpp Require Import base tactics list strings.
From S2P Require Import Prelude.
From S2P Require Import CString.
From S2P Require Import NbuNet.
From S2P Require Import NbdCore.
From S2P Require Import NbdQueries.
From S2P Require Import NbdServices.
From S2P Require Import EtkString.
From S2P Require Import EtkStringProofs.
From S2P Require Import LanTopology.
Import NbuNet NbdQueries NbdServices EtkString LanTopology.

(** ** The clock of the loop *)

(** Uptimes that the loop can handle: below 2^31 seconds, 68 years. *)
Definition uptime (t : Z) : Prop := 0 <= t /\ t + POLL_INTERVAL <= LONG_MAX.

Lemma time_after_eq_ok a b : 0 <= a <= LONG_MAX → 0 <= b <= LONG_MAX → time_after_eq a b = Ret (b <=? a).
Proof.
  intros Ha Hb. unfold time_after_eq. rewrite !s32_small by (unfold INT_MIN, LONG_MAX, INT_MAX in *; lia).
  rewrite (proj2 (Z.leb_le LONG_MIN _)), (proj2 (Z.leb_le _ LONG_MAX)) by (unfold LONG_MIN, LONG_MAX, INT_MIN, INT_MAX in *; lia).
  cbn [andb]. f_equal. apply eq_true_iff_eq. rewrite !Z.leb_le. lia.
Qed.

(** Between two turns the next poll is ahead, and not further than the interval. *)
Record timed (s : times) : Prop := {
  ti_now : uptime (t_now s);
  ti_poll : t_now s < t_poll s <= t_now s + POLL_INTERVAL;
}.

Lemma timed_timeout s : timed s → timeout s = t_poll s - t_now s.
Proof.
  intros [[H1 H2] H3]. unfold timeout, POLL_INTERVAL, LONG_MAX, INT_MAX in *.
  rewrite u32_small by lia. apply s32_small. unfold INT_MIN, INT_MAX. lia.
Qed.

Lemma start_timed t : uptime t → timed (start_times t).
Proof.
  intros [H1 H2]. unfold start_times. unfold POLL_INTERVAL, LONG_MAX, INT_MAX in *.
  rewrite !u32_small by (rewrite ?u32_small; lia). split; cbn; unfold uptime, POLL_INTERVAL, LONG_MAX, INT_MAX; lia.
Qed.

(** The next times and whether the plugins are polled. *)
Definition tick (w : wake) (s : times) : times * bool :=
  match w with
  | Awake _ t => if t_poll s <=? t then (Times t (t + POLL_INTERVAL), true) else (Times t (t_poll s), false)
  | _ => (s, false)
  end.

(** What [pselect] promises: a signal before the timeout, or an answer at most [d]
    seconds behind it; and the clock goes forward. *)
Definition prompt (d : Z) (w : wake) (s : times) : Prop :=
  match w with
  | Intr after => 0 <= after <= timeout s
  | Broken => True
  | Awake _ t => t_now s <= t <= t_now s + timeout s + d ∧ uptime t
  end.

Fixpoint prompts (d : Z) (ws : list wake) (s : times) : Prop :=
  match ws with
  | [] => True
  | w :: ws => prompt d w s ∧ prompts d ws (tick w s).1
  end.

Lemma tick_timed d w s : timed s → prompt d w s → timed (tick w s).1.
Proof.
  intros Hs Hw. destruct w as [after| |ready t]; [done..|]. destruct Hw as [Ht Hu]. unfold tick.
  destruct (Z.leb_spec (t_poll s) t); split; cbn; [done| |done|]; destruct Hs as [_ ?]; unfold POLL_INTERVAL in *; lia.
Qed.

(** The dates of the polls of a run, and its last date. *)
Fixpoint polls (ws : list wake) (s : times) : list Z :=
  match ws with
  | [] => []
  | w :: ws => (if (tick w s).2 then [t_now (tick w s).1] else []) ++ polls ws (tick w s).1
  end.

Definition ends (ws : list wake) (s : times) : times := foldl (λ s w, (tick w s).1) s ws.

Definition awake (w : wake) : Prop := match w with Awake _ _ => True | _ => False end.

Lemma polls_in_time d ws s T :
  0 <= d → timed s → prompts d ws s → Forall awake ws →
  t_poll s <= T + POLL_INTERVAL → T + POLL_INTERVAL + d <= t_now (ends ws s) →
  ∃ τ, τ ∈ polls ws s ∧ T < τ <= T + POLL_INTERVAL + d.
Proof.
  intros Hd. revert s. induction ws as [|w ws IH]; intros s Hs Hp Ha HT Hend.
  { cbn in Hend. destruct Hs as [_ ?]. lia. }
  destruct Hp as [Hw Hp]. apply Forall_cons in Ha as [Haw Ha].
  pose proof (tick_timed d w s Hs Hw) as Hs1. destruct w as [| |ready t]; [done..|].
  destruct Hw as [Ht _]. rewrite timed_timeout in Ht by done. cbn [polls ends foldl] in *.
  unfold tick in *. destruct (Z.leb_spec (t_poll s) t); cbn [fst snd t_now t_poll app] in *.
  - destruct (decide (T < t)).
    + exists t. split; [left|lia].
    + destruct (IH _ Hs1 Hp Ha) as (τ & Hin & Hτ); [cbn; lia|done|]. exists τ. split; [by right|done].
  - apply (IH _ Hs1 Hp Ha); [cbn; lia|done].
Qed.

(** ** Runs of the loop *)
Section runs.
Context {D : Type} `{NbdLink D}.

Abbreviation W := (world D).

(** What is done is done. *)
Definition later (w w' : W) : Prop := w_acts w `prefix_of` w_acts w'.

#[local] Instance later_preorder : PreOrder later.
Proof. split; unfold later; [by intros w|]. intros w1 w2 w3 H1 H2. by etrans. Qed.

Abbreviation grows := (within later).

Lemma grows_nbd {X} (m : cmd D X) : grows (on_nbd m).
Proof. apply (within_zoom _ _ _ (λ _ _, True)); [by unfold later|by intros]. Qed.

Lemma grows_act a : grows (act a).
Proof. apply within_mod. intros w. by exists [a]. Qed.

Ltac grow := repeat first [within_step | apply grows_nbd | apply grows_act | case_match].

Definition tame (p : plugin) : Prop :=
  (∀ now fd poll, p_poll p = Some poll → grows (poll now fd)) ∧ ∀ fd, grows (p_event p fd).

Lemma poll_loop_grows ps now : Forall (λ p, tame p.1) ps → grows (poll_loop ps now).
Proof.
  induction 1 as [|[p fd] ps [Hp _] Hps IH]; [within_ret|]. cbn [poll_loop].
  within_bind; [|done]. destruct (p_poll p) as [poll|] eqn:E; [|within_ret].
  within_bind; [by eapply Hp|]. intros _. within_ret.
Qed.

Lemma event_loop_grows ps ready : Forall (λ p, tame p.1) ps → grows (event_loop ps ready).
Proof.
  induction 1 as [|[p fd] ps [_ Hp] Hps IH]; [within_ret|]. cbn [event_loop].
  within_bind; [|done]. case_match; [|within_ret].
  within_bind; [apply Hp|]. intros _. within_ret.
Qed.

(** A turn is what the clock says, and polls when it is time. *)
Lemma turn_ok d ps w s x x' :
  timed s → prompt d w s → awake w → Forall (λ p, tame p.1) ps → turn ps w s x = Ret (x'.1, x'.2) →
  x'.1 = (true, (tick w s).1) ∧
  ((tick w s).2 = true → ∃ x1, poll_loop ps (t_now (tick w s).1) x = Ret (tt, x1) ∧ w_acts x1 `prefix_of` w_acts x'.2) ∧
  w_acts x `prefix_of` w_acts x'.2.
Proof.
  intros Hs Hw Ha Hps E. destruct w as [| |ready t]; [done..|]. destruct Hw as [Ht [Hu1 Hu2]].
  cbn [turn] in E. unfold POLL_INTERVAL in Hu2. rewrite (u32_small t) in E by (unfold LONG_MAX, INT_MAX in *; lia).
  destruct Hs as [[Hn1 Hn2] Hp]. unfold POLL_INTERVAL in *.
  rewrite time_after_eq_ok in E by (unfold LONG_MAX, INT_MAX in *; lia).
  apply cmd_bind_Ret_inv in E as (due & x1 & [= <- <-] & E). unfold tick. destruct (t_poll s <=? t).
  - apply cmd_bind_Ret_inv in E as ([] & x1 & E1 & E). apply cmd_bind_Ret_inv in E as ([] & x2 & E2 & E).
    destruct x' as [r x']. cbn [fst snd] in E. injection E as <- <-.
    rewrite u32_small by (unfold POLL_INTERVAL, LONG_MAX, INT_MAX in *; lia). split; [done|].
    pose proof (poll_loop_grows ps t Hps _ _ _ E1). pose proof (event_loop_grows ps ready Hps _ _ _ E2).
    split; [|by etrans]. intros _. by exists x1.
  - apply cmd_bind_Ret_inv in E as ([] & x1 & E1 & E). destruct x' as [r x']. cbn [fst snd] in E.
    injection E as <- <-. split; [done|]. split; [done|]. by apply (event_loop_grows ps ready Hps _ _ _ E1).
Qed.

(** Every poll that the clock says takes place. *)
Lemma run_polls d ps ws s x s' x' τ :
  timed s → prompts d ws s → Forall awake ws → Forall (λ p, tame p.1) ps →
  main_loop ps ws s x = Ret (s', x') →
  s' = ends ws s ∧ w_acts x `prefix_of` w_acts x' ∧
  (τ ∈ polls ws s → ∃ x1 x2, poll_loop ps τ x1 = Ret (tt, x2) ∧ w_acts x2 `prefix_of` w_acts x').
Proof.
  intros Hs Hp Ha Hps. revert s x Hs Hp. induction Ha as [|w ws Haw Ha IH]; intros s x Hs Hp E.
  { injection E as <- <-. split_and!; [done|done|]. by intros ?%elem_of_nil. }
  destruct Hp as [Hw Hp]. cbn [main_loop] in E. apply cmd_bind_Ret_inv in E as ([on s1] & x1 & E1 & E).
  destruct (turn_ok d ps w s x ((on, s1), x1) Hs Hw Haw Hps E1) as ([= -> ->] & Hpoll & Hg). cbn [fst snd] in *.
  destruct (IH _ _ (tick_timed d w s Hs Hw) Hp E) as (-> & Hg1 & Hrest). split_and!; [done|by etrans|].
  cbn [polls]. intros [Hin|Hin]%elem_of_app; [|by apply Hrest].
  destruct ((tick w s).2) eqn:Et; [|by apply elem_of_nil in Hin]. apply list_elem_of_singleton in Hin as ->.
  destruct (Hpoll eq_refl) as (x2 & E2 & Hg2). exists x, x2. split; [done|by etrans].
Qed.

(** *** The handlers *)
Lemma rcv_all_grows cfg spill msgs : grows (rcv_all cfg spill msgs).
Proof. induction msgs as [|m msgs IH]; cbn [rcv_all]; [grow|]. within_bind; [unfold my_rcv; grow|done]. Qed.

Lemma neigh_event_grows cfg spill fd : grows (neigh_event cfg spill fd).
Proof.
  intros w x w' E. unfold neigh_event in E. apply cmd_bind_Ret_inv in E as (w0 & w1 & [= <- <-] & E).
  destruct (w_neigh w) as [|msgs rest]; [by injection E as _ <-|].
  apply cmd_bind_Ret_inv in E as ([] & w2 & [= <-] & E).
  match type of E with ?m _ = _ => assert (grows m) as Hg; [|exact (Hg _ _ _ E)] end.
  within_bind; [apply rcv_all_grows|]. intros _. grow.
Qed.

Lemma probe_loop_grows now ifname nodes : grows (probe_loop now ifname nodes).
Proof.
  induction nodes as [|n nodes IH]; cbn [probe_loop]; [grow|].
  within_bind; [unfold probe_node; grow|done].
Qed.

Lemma neigh_poll_grows ezxml stray now fd : grows (neigh_poll ezxml stray now fd).
Proof. unfold neigh_poll. grow. apply probe_loop_grows. Qed.

Lemma mme_request_grows fd src dst q : grows (mme_request fd src dst q).
Proof. unfold mme_request. grow. Qed.

Lemma mme_probe_grows src fd : grows (mme_probe src fd).
Proof. unfold mme_probe. grow; apply mme_request_grows. Qed.

Lemma stations_grows src fd frame off k j : grows (stations_loop src fd frame off k j).
Proof.
  revert j. induction k as [|k IH]; intros j; cbn [stations_loop]; [grow|].
  within_bind; [grow|]. intros MAC. within_bind; [apply mme_request_grows|]. intros _. apply IH.
Qed.

Lemma networks_grows src fd frame k i : grows (networks_loop src fd frame k i).
Proof.
  revert i. induction k as [|k IH]; intros i; cbn [networks_loop]; [grow|].
  within_bind; [grow|]. intros num. within_bind; [apply stations_grows|]. intros _. apply IH.
Qed.

Lemma plc_event_grows src stack fd : grows (plc_event src stack fd).
Proof.
  intros w x w' E. unfold plc_event, mme_discover in E. apply cmd_bind_Ret_inv in E as (w0 & w1 & [= <- <-] & E).
  destruct (w_plc w) as [|data rest]; [by injection E as _ <-|].
  apply cmd_bind_Ret_inv in E as ([] & w2 & [= <-] & E).
  match type of E with ?m _ = _ => assert (grows m) as Hg; [|exact (Hg _ _ _ E)] end. grow; apply networks_grows.
Qed.

Lemma ssdp_event_grows stack fd : grows (ssdp_event stack fd).
Proof.
  intros w x w' E. unfold ssdp_event in E. apply cmd_bind_Ret_inv in E as (w0 & w1 & [= <- <-] & E).
  destruct (w_ssdp w) as [|[sender pkt] rest]; [by injection E as _ <-|].
  apply cmd_bind_Ret_inv in E as ([] & w2 & [= <-] & E).
  match type of E with ?m _ = _ => assert (grows m) as Hg; [|exact (Hg _ _ _ E)] end. unfold ssdp_notify_event. grow.
Qed.

Lemma plugins_tame ezxml spill src stray stack ns ss od cfg :
  Forall tame (plugins ezxml spill src stray stack ns ss od cfg).
Proof.
  repeat constructor.
  - intros now fd poll [= <-]. apply neigh_poll_grows.
  - intros fd. apply neigh_event_grows.
  - intros now fd poll [= <-]. apply mme_probe_grows.
  - intros fd. apply plc_event_grows.
  - done.
  - intros fd. apply ssdp_event_grows.
Qed.

End runs.

(** ** Requests *)

(** The request on the wire: Ethernet, then HomePlug with its code in little endian. *)
Definition request (src dst : bytes) (query : Z) : bytes :=
  dst ++ src ++ [136; 225; 0; u8 query; u8 (Z.shiftr query 8); 0; 176; 82] ++ replicate 44 0.

Lemma mme_frame_ok src dst q :
  length src = 6%nat → length dst = 6%nat → mme_frame src dst q = Ret (request src dst q).
Proof.
  intros Hs Hd. do 6 (destruct src as [|? src]; [done|]). do 6 (destruct dst as [|? dst]; [done|]).
  by destruct src, dst.
Qed.

(** ** Silent devices *)
Section silent.
Context (answer : list nbd_event → list bytes → Z * bytes).

#[local] Instance topo_daemon : NbdOps (list nbd_event) := every_daemon answer.
#[local] Instance topo_link : NbdLink (list nbd_event) := every_link answer.

Abbreviation W := (world (list nbd_event)).

Definition with_nbd (h : list nbd_event) (w : W) : W := World h (w_acts w) (w_neigh w) (w_plc w) (w_ssdp w).

Lemma answered_text args t (w : W) n :
  (∀ h, answer h args = (0, cstr t)) → text t → (length t < n)%nat →
  on_nbd (nbd_get (local n) (Z.of_nat n) args) w
  = Ret ((0, cstr t ++ replicate (n - length (cstr t)) 0), with_nbd (w_nbd w ++ [Asked args]) w).
Proof.
  intros Ha Ht Hl. unfold on_nbd, zoom. assert (length (local n) = n) as Hn by apply length_replicate.
  rewrite <- Hn at 2. rewrite (every_get_text answer args t) by (rewrite ?Hn; done). by rewrite Hn.
Qed.

Lemma answered_nothing args (w : W) :
  (∀ h, (answer h args).2 = []) →
  ∃ r, on_nbd (nbd_set args) w = Ret (r, with_nbd (w_nbd w ++ [Asked args]) w).
Proof.
  intros Ha. unfold on_nbd, zoom, nbd_set, mbind, cmd_bind. cbn [nbd_query_op topo_daemon every_daemon]. unfold ask.
  specialize (Ha (w_nbd w)). destruct (answer (w_nbd w) args) as [st data]. cbn in Ha. subst data. by eexists.
Qed.

(** A node that is no adapter and was last seen [NEIGH_TIMEOUT] seconds ago is probed. *)
Lemma probe_node_ok now ifname buf node ty a (w : W) x w' :
  text ifname → str_of buf = Some ifname → node (lit "type") = ty → text ty → ty ≠ lit "plc" →
  safe_strtol (cstr (node (lit "alive"))) 0 = Ret a → 0 <= a → a + NEIGH_TIMEOUT <= now → now <= LONG_MAX →
  probe_node now buf node w = Ret (x, w') →
  w_acts w' = w_acts w ++ [ARP_PROBE (node (lit "ipaddr")) (node (lit "macaddr")) ifname].
Proof.
  intros Hi Hb Hty Ht Hne Ha Ha0 Hnow Hmax E. unfold probe_node in E. rewrite Hty in E.
  destruct (memcmp_lit_ok (cstr ty) ty (lit "plc")) as (z & Ez & Hz); [by apply str_of_cstr|apply (bool_decide_unpack _); by vm_compute|].
  change (memcmp (cstr ty) (cstr (lit "plc")) 4 = Ret z) in Ez.
  apply cmd_bind_Ret_inv in E as (z' & w1 & E1 & E). unfold lift in E1. change (str "plc") with (cstr (lit "plc")) in E1.
  rewrite Ez in E1. injection E1 as <- <-. rewrite (proj2 (Z.eqb_neq z 0)) in E by naive_solver.
  unfold lift in E. rewrite Ha in E. apply cmd_bind_Ret_inv in E as (a' & w1 & [= <- <-] & E).
  unfold NEIGH_TIMEOUT, LONG_MAX, INT_MAX in *. cbv zeta in E.
  rewrite (u32_small a), u32_small in E by lia.
  rewrite time_after_eq_ok, (proj2 (Z.leb_le _ _)) in E by (unfold LONG_MAX, INT_MAX; lia).
  apply cmd_bind_Ret_inv in E as (due & w1 & [= <- <-] & E). unfold c_str in E. rewrite Hb in E. cbn [must] in E.
  apply cmd_bind_Ret_inv in E as (i & w1 & [= <- <-] & E). by injection E as _ <-.
Qed.

Lemma probe_loop_ok now ifname buf nodes node ty a (w : W) x w' :
  text ifname → str_of buf = Some ifname → node ∈ nodes → node (lit "type") = ty → text ty → ty ≠ lit "plc" →
  safe_strtol (cstr (node (lit "alive"))) 0 = Ret a → 0 <= a → a + NEIGH_TIMEOUT <= now → now <= LONG_MAX →
  probe_loop now buf nodes w = Ret (x, w') →
  ARP_PROBE (node (lit "ipaddr")) (node (lit "macaddr")) ifname ∈ w_acts w'.
Proof.
  intros Hi Hb Hin Hty Ht Hne Ha Ha0 Hnow Hmax. revert w.
  induction nodes as [|n nodes IH]; intros w E; [by apply elem_of_nil in Hin|]. cbn [probe_loop] in E.
  apply cmd_bind_Ret_inv in E as ([] & w1 & E1 & E). apply elem_of_cons in Hin as [<-|Hin]; [|by apply (IH Hin w1)].
  apply (probe_node_ok _ ifname _ _ ty a) in E1; [|done..].
  apply probe_loop_grows in E as [k ->]. rewrite E1. apply elem_of_app. left. apply elem_of_app. right. by left.
Qed.

Context (ezxml : bytes → option (list (bytes → bytes))) (xml : bytes) (nodes : list (bytes → bytes)) (ifname : bytes).

(** What the configuration daemon answers: the devices, and the name of the interface. *)
Hypothesis Hxml : ∀ h, answer h [str "status"; str "xml"; str "lan_topology"] = (0, cstr xml).
Hypothesis Hif : ∀ h, answer h [str "nvram"; str "get"; str "lan_ifname"] = (0, cstr ifname).
Hypothesis Hparse : ezxml xml = Some nodes.
Hypothesis Htexts : text xml ∧ text ifname ∧ (length ifname < 16)%nat.

(** A device of the list, last seen at [a]. *)
Definition seen (node : bytes → bytes) (a : Z) : Prop :=
  node ∈ nodes ∧ text (node (lit "type")) ∧ node (lit "type") ≠ lit "plc" ∧
  safe_strtol (cstr (node (lit "alive"))) 0 = Ret a ∧ 0 <= a.

Lemma neigh_poll_ok stray now fd node a (w : W) x w' :
  seen node a → a + NEIGH_TIMEOUT <= now → now <= LONG_MAX →
  neigh_poll ezxml stray now fd w = Ret (x, w') →
  ARP_PROBE (node (lit "ipaddr")) (node (lit "macaddr")) ifname ∈ w_acts w'.
Proof.
  destruct Htexts as (Hx & Hi & Hl). intros (Hin & Ht & Hne & Ha & Ha0) Hnow Hmax E. unfold neigh_poll in E.
  apply cmd_bind_Ret_inv in E as (z & w1 & _ & E).
  apply cmd_bind_Ret_inv in E as ([[r s] len] & w2 & E1 & E).
  unfold on_nbd, zoom in E1. cbn [nbd_query_new_op topo_link every_link] in E1. rewrite Hxml in E1.
  injection E1 as <- <- <- <-.
  change 16%Z with (Z.of_nat 16) in E. unfold nbd_system_config_get in E. rewrite (cmd_bind_Ret _ _ _ _ _ (answered_text _ _ _ _ Hif Hi Hl)) in E.
  apply cmd_bind_Ret_inv in E as ([] & w3 & _ & E). unfold lift in E. rewrite c_str_cstr in E by done.
  apply cmd_bind_Ret_inv in E as (t & w4 & [= <- <-] & E). rewrite Hparse in E.
  apply cmd_bind_Ret_inv in E as ([] & w5 & E & [= _ <-]).
  eapply probe_loop_ok; [exact Hi| |exact Hin|done|exact Ht|exact Hne|exact Ha|exact Ha0|exact Hnow|exact Hmax|exact E].
  unfold cstr. rewrite <- app_assoc. by apply str_of_app.
Qed.

(** *** Quiet runs return *)

(** A device whose node can be read. *)
Definition listed (node : bytes → bytes) : Prop :=
  text (node (lit "type")) ∧
  ∃ a, safe_strtol (cstr (node (lit "alive"))) 0 = Ret a ∧ 0 <= a ∧ a + NEIGH_TIMEOUT <= LONG_MAX.

Definition returns {X} (m : cmd W X) : Prop := ∀ w, ∃ x w', m w = Ret (x, w').

Lemma returns_ret {X} (x : X) : returns (mret x).
Proof. intros w. by exists x, w. Qed.

Lemma returns_lift {X} (x : X) : returns (lift (Ret x)).
Proof. intros w. by exists x, w. Qed.

Lemma returns_bind {X Y} (m : cmd W X) (f : X → cmd W Y) : returns m → (∀ x, returns (f x)) → returns (m ≫= f).
Proof.
  intros Hm Hf w. destruct (Hm w) as (x & w1 & E). rewrite (cmd_bind_Ret _ _ _ _ _ E). apply Hf.
Qed.

Lemma probe_node_returns now buf node :
  0 <= now <= LONG_MAX → str_of buf = Some ifname → listed node → returns (probe_node now buf node).
Proof.
  intros Hnow Hb (Ht & a & Ha & Ha0 & Ha1). unfold probe_node.
  destruct (memcmp_lit_ok (cstr (node (lit "type"))) (node (lit "type")) (lit "plc")) as (z & Ez & _);
    [by apply str_of_cstr|apply (bool_decide_unpack _); by vm_compute|].
  change (memcmp (cstr (node (lit "type"))) (str "plc") 4 = Ret z) in Ez. rewrite Ez.
  apply returns_bind; [apply returns_lift|]. intros z'. destruct (z' =? 0); [apply returns_ret|].
  intros w. rewrite Ha. run. unfold NEIGH_TIMEOUT, LONG_MAX, INT_MAX in *. cbv zeta. rewrite (u32_small a), u32_small by lia.
  rewrite time_after_eq_ok by (unfold LONG_MAX, INT_MAX; lia). run.
  destruct (_ <=? now); [|apply returns_ret]. unfold c_str. rewrite Hb. cbn [must]. run. by eexists _, _.
Qed.

Lemma neigh_poll_returns stray now fd :
  0 <= now <= LONG_MAX → Forall listed nodes → returns (neigh_poll ezxml stray now fd).
Proof.
  destruct Htexts as (Hx & Hi & Hl). intros Hnow Hall w. unfold neigh_poll. run.
  erewrite cmd_bind_Ret; [|unfold on_nbd, zoom; cbn [nbd_query_new_op topo_link every_link]; rewrite Hxml; reflexivity].
  cbv beta iota. change 16%Z with (Z.of_nat 16). unfold nbd_system_config_get. run_with (answered_text _ _ _ _ Hif Hi Hl).
  cbv beta iota. run.
  rewrite c_str_cstr by done. run. rewrite Hparse. set (w1 := World _ _ _ _ _). generalize w1. clear w1.
  change (returns (probe_loop now (cstr ifname ++ replicate (16 - length (cstr ifname)) 0) nodes ≫= λ _, mret 0)).
  apply returns_bind; [|intros _; apply returns_ret].
  assert (str_of (cstr ifname ++ replicate (16 - length (cstr ifname)) 0) = Some ifname) as Hb.
  { unfold cstr. rewrite <- app_assoc. by apply str_of_app. }
  clear -Htexts Hall Hnow Hb. induction Hall as [|n ns Hn Hns IH]; cbn [probe_loop]; [apply returns_ret|].
  apply returns_bind; [by apply probe_node_returns|done].
Qed.

Lemma plc_poll_returns src now fd : length src = 6%nat → returns (plc_poll src now fd).
Proof.
  intros Hs. unfold plc_poll, mme_probe. repeat (apply returns_bind; [|intros _]); [| |apply returns_ret];
    unfold mme_request; rewrite mme_frame_ok by done; (apply returns_bind; [apply returns_lift|]); intros fr w;
    (destruct (fd <? 0); [apply returns_ret|]); by eexists _, _.
Qed.

(** Nothing comes from the sockets. *)
Definition quiet (w : wake) : Prop := match w with Awake [] _ => True | _ => False end.

Lemma quiet_event_loop_returns (ps : list (plugin * Z)) : returns (event_loop ps []).
Proof. induction ps as [|[p fd] ps IH]; [apply returns_ret|]. cbn. apply returns_bind; [apply returns_ret|done]. Qed.

Lemma quiet_turn d (ps : list (plugin * Z)) w s (x : W) :
  (∀ now, 0 <= now <= LONG_MAX → returns (poll_loop ps now)) →
  timed s → prompt d w s → quiet w → ∃ x', turn ps w s x = Ret ((true, (tick w s).1), x').
Proof.
  intros Hps [[Hn1 Hn2] Htp] Hpw Hq. destruct w as [| |[|] t]; try done. destruct Hpw as [Ht [Hu1 Hu2]].
  cbn [turn]. unfold tick, POLL_INTERVAL, LONG_MAX, INT_MAX in *. rewrite (u32_small t) by lia.
  rewrite time_after_eq_ok by (unfold LONG_MAX, INT_MAX; lia). run. destruct (t_poll s <=? t).
  - destruct (Hps t ltac:(lia) x) as ([] & x1 & E1). run_with E1.
    destruct (quiet_event_loop_returns ps x1) as ([] & x2 & E2). run_with E2. rewrite u32_small by lia. by eexists.
  - destruct (quiet_event_loop_returns ps x) as ([] & x2 & E2). run_with E2. by eexists.
Qed.

Lemma quiet_run_returns d (ps : list (plugin * Z)) ws s :
  (∀ now, 0 <= now <= LONG_MAX → returns (poll_loop ps now)) →
  timed s → prompts d ws s → Forall quiet ws → returns (main_loop ps ws s).
Proof.
  intros Hps Hs Hp Hq. revert s Hs Hp. induction Hq as [|w ws Hw Hq IH]; intros s Hs Hp x; [apply returns_ret|].
  destruct Hp as [Hpw Hp]. cbn [main_loop]. destruct (quiet_turn d ps w s x Hps Hs Hpw Hw) as [x1 E]. run_with E.
  apply IH; [by eapply tick_timed|done].
Qed.

Lemma plugins_poll_returns spill src stray stack ns ss od cfg fds now :
  length src = 6%nat → Forall listed nodes → 0 <= now <= LONG_MAX →
  returns (poll_loop (zip (plugins ezxml spill src stray stack ns ss od cfg) fds) now).
Proof.
  intros Hs Hall Hnow. destruct fds as [|fd1 [|fd2 [|fd3 fds]]]; cbn [zip zip_with plugins poll_loop p_poll neigh_plugin plc_plugin ssdp_plugin];
    repeat first [apply returns_ret | by apply neigh_poll_returns | by apply plc_poll_returns
                 | apply returns_bind; [|intros ?]].
Qed.

(** C26: A device of the LAN that was last seen at [a] and has gone silent is probed:
    whatever the plugins' sockets deliver, if [pselect] answers at most [d] seconds late
    and no signal comes in between, the ARP probe is sent at the latest 300 seconds and
    [d] after the device has been silent for 1200 seconds (or after the daemon started).
    Such a run can fail only in what a packet does: it returns when the sockets stay
    quiet. *)
Theorem silent_device_probed spill src stray stack ns ss od cfg fds d ws s T node a (w : W) :
  0 <= d → timed s → prompts d ws s → Forall awake ws →
  seen node a → t_now s <= T → a + NEIGH_TIMEOUT <= T → T + POLL_INTERVAL + d <= t_now (ends ws s) →
  length fds = 3%nat → length src = 6%nat → Forall listed nodes →
  let run := main_loop (zip (plugins ezxml spill src stray stack ns ss od cfg) fds) ws s w in
  (∀ s' w', run = Ret (s', w') → ARP_PROBE (node (lit "ipaddr")) (node (lit "macaddr")) ifname ∈ w_acts w') ∧
  (Forall quiet ws → ∃ s' w', run = Ret (s', w')).
Proof.
  intros Hd Hs Hp Haw Hseen HT Ha Hend Hfds Hsrc Hall run. split.
  2: { intros Hq. apply (quiet_run_returns d); [|done..]. intros now. by apply plugins_poll_returns. }
  intros s' w' E.
  assert (Forall (λ p : plugin * Z, tame p.1) (zip (plugins ezxml spill src stray stack ns ss od cfg) fds)) as Htame.
  { apply Forall_forall. intros [p fd] Hin. apply elem_of_zip_l in Hin.
    by apply (proj1 (Forall_forall _ _) (plugins_tame ezxml spill src stray stack ns ss od cfg)). }
  destruct (polls_in_time d ws s T) as (τ & Hin & Hτ); [done..| |done|].
  { destruct Hs as [_ ?]. unfold POLL_INTERVAL in *. lia. }
  assert (uptime (t_now (ends ws s))) as [Hu1 Hu2].
  { clear -Hs Hp Haw. revert s Hs Hp. induction ws as [|w ws IH]; intros s Hs Hp; [by destruct Hs|].
    destruct Hp as [Hw Hp]. apply Forall_cons in Haw as [_ Haw]. apply IH; [done|by eapply tick_timed|done]. }
  destruct (run_polls d _ ws s w s' w' τ Hs Hp Haw Htame E) as (-> & _ & Hpoll).
  destruct (Hpoll Hin) as (w1 & w2 & E2 & Hg).
  destruct fds as [|fd1 [|fd2 [|fd3 [|]]]]; try discriminate Hfds. cbn [zip zip_with plugins poll_loop] in E2.
  apply cmd_bind_Ret_inv in E2 as ([] & w3 & E3 & E2). cbn [p_poll neigh_plugin] in E3.
  apply cmd_bind_Ret_inv in E3 as (r & w4 & E3 & [= <-]).
  assert (w_acts w4 `prefix_of` w_acts w2) as Hg2.
  { apply Forall_cons in Htame as [_ Htame]. by apply (poll_loop_grows _ τ Htame _ _ _ E2). }
  apply (neigh_poll_ok stray τ fd1 node a) in E3; [|done|unfold POLL_INTERVAL in *; lia|unfold POLL_INTERVAL in *; lia].
  destruct Hg as [k1 ->], Hg2 as [k2 ->]. apply elem_of_app. left. apply elem_of_app. by left.
Qed.

End silent.

(** ** Signals *)
Definition elapsed (ws : list wake) : Z :=
  foldr (λ w n, match w with Intr after => after + n | _ => n end) 0 ws.

(** Signals that come faster than the interval keep the loop from polling for ever: the
    time that passed is not taken off the next timeout. *)
Theorem signals_starve_polls {D} (ps : list (@plugin D * Z)) s n (w : world D) :
  timed s →
  ∃ ws, prompts 0 ws s ∧ Z.of_nat n <= elapsed ws ∧ polls ws s = [] ∧ main_loop ps ws s w = Ret (s, w).
Proof.
  intros Hs. exists (replicate n (Intr 1)). induction n as [|n (Hp & He & Hq & Hr)]; [done|].
  cbn [replicate prompts prompt polls main_loop tick fst snd app elapsed foldr]. split_and!.
  - lia.
  - rewrite timed_timeout by done. destruct Hs. lia.
  - exact Hp.
  - fold (elapsed (replicate n (Intr 1))). lia.
  - exact Hq.
  - run. exact Hr.
Qed.

(** ** Power line adapters *)

Section plc_proofs.
Context {D : Type} `{NbdLink D}.

Definition done_more (acts : list action) (w : world D) : world D :=
  World (w_nbd w) (w_acts w ++ acts) (w_neigh w) (w_plc w) (w_ssdp w).

Lemma mme_request_ok fd src dst q (w : world D) :
  0 <= fd → length src = 6%nat → length dst = 6%nat →
  mme_request fd src dst q w = Ret (0, done_more [Wrote fd (request src dst q)] w).
Proof.
  intros Hfd Hs Hd. unfold mme_request, lift. rewrite mme_frame_ok by done. run.
  by rewrite (proj2 (Z.ltb_ge fd 0)) by lia.
Qed.

Lemma FD_SET_ok fd rfds : 0 <= fd < 1024 → FD_SET fd rfds = Ret (fd :: rfds).
Proof. intros Hfd. unfold FD_SET. by rewrite (proj2 (Z.leb_le 0 fd)), (proj2 (Z.ltb_lt fd 1024)) by lia. Qed.

(** [plc_init] goes on with the descriptor -1 when the device cannot be opened, and the
    set of descriptors is written at -1. *)
Theorem plc_without_device ezxml spill src stray stack ns ss cfg (w : world D) :
  length src = 6%nat → 0 <= ns.1 → 0 <= ns.2 < 1024 →
  plugin_init (plugins ezxml spill src stray stack ns ss (-1) cfg) w = Undef.
Proof.
  intros Hl Hr Hfd. destruct ns as [r fd]. unfold plugin_init. cbn [plugins init_loop]. run. cbn [fst snd] in *.
  rewrite (proj2 (Z.ltb_ge r 0)) by lia. rewrite FD_SET_ok by lia. run.
  unfold plc_plugin, plc_init, mme_probe, mme_request, lift. cbn [p_init].
  rewrite !mme_frame_ok by done. run. done.
Qed.

(** The address of a station in a frame. *)
Definition station (frame : bytes) (j : nat) : bytes := take 6 (drop (39 + 15 * j) frame).

Lemma stations_ok fd src frame k j (w : world D) :
  0 <= fd → length src = 6%nat → (39 + 15 * (j + k) <= length frame + 9)%nat →
  stations_loop src fd frame 21 k (Z.of_nat j) w
  = Ret (tt, done_more ((λ j, Wrote fd (request src (station frame j) 40960)) <$> seq j k) w).
Proof.
  intros Hfd Hs. revert j w. induction k as [|k IH]; intros j w Hl; cbn [stations_loop].
  { unfold done_more. cbn. rewrite app_nil_r. by destruct w. }
  rewrite mem_read_Ret by lia. run.
  replace (Z.to_nat (21 + 18 + 15 * Z.of_nat j)) with (39 + 15 * j)%nat by lia.
  change (Z.to_nat 6) with 6%nat. fold (station frame j).
  assert (length (station frame j) = 6%nat) as Hst by (unfold station; rewrite length_take, length_drop; lia).
  run_with (mme_request_ok fd src (station frame j) 40960 w Hfd Hs Hst).
  replace (Z.of_nat j + 1) with (Z.of_nat (S j)) by lia. rewrite IH by lia. cbn [seq fmap list_fmap].
  unfold done_more. cbn. by rewrite <- app_assoc.
Qed.

Lemma stations_out fd src frame k j (w : world D) :
  0 <= fd → length src = 6%nat → (length frame + 9 < 39 + 15 * (j + k))%nat → (0 < k)%nat →
  stations_loop src fd frame 21 k (Z.of_nat j) w = Undef.
Proof.
  intros Hfd Hs. revert j w. induction k as [|k IH]; intros j w Hl Hk; [lia|]. cbn [stations_loop].
  destruct (decide (39 + 15 * j + 6 <= length frame)%nat) as [Hin|Hout].
  - rewrite mem_read_Ret by lia. run.
    set (m := take _ _). assert (length m = 6%nat) as Hm by (unfold m; rewrite length_take, length_drop; lia).
    run_with (mme_request_ok fd src m 40960 w Hfd Hs Hm).
    replace (Z.of_nat j + 1) with (Z.of_nat (S j)) by lia. destruct k as [|k]; [lia|]. apply IH; lia.
  - unfold mem_read. cbn [Z.eqb]. rewrite (proj2 (Z.leb_gt _ _)) by lia. done.
Qed.

(** The bytes that tell a list of networks, and how many stations the first one has. *)
Record networks_frame (frame : bytes) (k : nat) : Prop := {
  nf_type : frame !! 12%nat = Some 136 ∧ frame !! 13%nat = Some 225;
  nf_code : frame !! 15%nat = Some 57 ∧ frame !! 16%nat = Some 160;
  nf_num : frame !! 20%nat = Some 1;
  nf_stations : frame !! 38%nat = Some (Z.of_nat k);
}.

(** C28: On the answer of an adapter that lists one network, [mme_discover] asks each of
    its stations for its description, in order, when there are at most 98 of them; from
    99 on, and the count is a byte of the packet, it reads past the end of the frame. *)
Theorem mme_discover_stations stack fd src data rest k (w : world D) :
  let frame := data ++ drop (length data) stack in
  0 <= fd → length src = 6%nat → length stack = 1514%nat → (0 < length data <= 1514)%nat →
  w_plc w = data :: rest → networks_frame frame k →
  mme_discover src stack fd w =
    if (k <=? 98)%nat
    then Ret (0, done_more ((λ j, Wrote fd (request src (station frame j) 40960)) <$> seq 0 k)
                   (World (w_nbd w) (w_acts w) (w_neigh w) rest (w_ssdp w)))
    else Undef.
Proof.
  intros frame Hfd Hs Hst Hd Hw [[H12 H13] [H15 H16] H20 H38].
  assert (length frame = 1514%nat) as Hf by (unfold frame; rewrite length_app, length_drop; lia).
  unfold mme_discover. run. rewrite Hw. run. rewrite (proj2 (Nat.eqb_neq _ 0)) by lia.
  unfold ETH_FRAME_LEN. rewrite take_ge by lia. unfold overwrite. rewrite (proj2 (Nat.leb_le _ _)) by lia. run. fold frame.
  rewrite (rd_ok frame 12 136), (rd_ok frame 13 225) by (done || lia). do 2 run. cbn [Z.eqb Pos.eqb andb negb].
  rewrite (rd_ok frame 15 57), (rd_ok frame 16 160) by (done || lia). do 2 run. cbn [Z.eqb Pos.eqb andb].
  rewrite (rd_ok frame 20 1) by (done || lia). run. change (Z.to_nat 1) with 1%nat. cbn [networks_loop].
  change (21 + 33 * 0 + 17) with 38. rewrite (rd_ok frame 38 (Z.of_nat k)) by (done || lia).
  change (21 + 33 * 0) with 21. destruct (Nat.leb_spec k 98) as [Hk|Hk].
  - erewrite cmd_bind_Ret; [reflexivity|]. run. rewrite Nat2Z.id. run_with (stations_ok fd src frame k 0 _ Hfd Hs ltac:(lia)). done.
  - apply cmd_bind_Undef. run. rewrite Nat2Z.id. apply cmd_bind_Undef. apply (stations_out fd src frame k 0); [done|done|lia|lia].
Qed.

End plc_proofs.

(** ** Set top boxes *)

(** A header of a packet: a name, a value, as the line [name: value]. *)
Record header_ok (h : bytes * bytes) : Prop := {
  ho_name : text h.1 ∧ Forall (λ c, eol c = false ∧ c ≠ 58) h.1 ∧ trimmed h.1;
  ho_value : text h.2 ∧ Forall (λ c, eol c = false) h.2 ∧ trimmed h.2;
  ho_sizes : (0 < length h.1 <= 15)%nat ∧ (0 < length h.2 <= 62)%nat;
}.

Definition line_of (h : bytes * bytes) : bytes := h.1 ++ 58 :: 32 :: h.2.

Definition render (hs : list (bytes * bytes)) : bytes := hs ≫= λ h, line_of h ++ [13; 10].

(** The headers found so far, and one more. *)
Definition note (f : found) (h : bytes * bytes) : found :=
  match f_nt f with
  | None => if same_nocase h.1 (lit "nt") then Found (Some (cstr h.2)) (f_nts f)
            else match f_nts f with
                 | None => if same_nocase h.1 (lit "nts") then Found (f_nt f) (Some (cstr h.2)) else f
                 | Some _ => f
                 end
  | Some _ => match f_nts f with
              | None => if same_nocase h.1 (lit "nts") then Found (f_nt f) (Some (cstr h.2)) else f
              | Some _ => f
              end
  end.

Lemma scan_set_ok stop n s r :
  Forall (λ c, stop c = false) s → (length s <= n)%nat →
  (length s = n ∨ match r with c :: _ => stop c = true | [] => True end) →
  scan_set stop n (s ++ r) = (s, r).
Proof.
  intros Hs. revert n. induction Hs as [|c s Hc Hs IH]; intros n Hl Hr; cbn [app length] in *.
  - destruct n, r as [|c r]; cbn; try done. destruct Hr as [?|Hr]; [done|]. by rewrite Hr.
  - destruct n as [|n]; [lia|]. cbn. rewrite Hc, IH; [done|lia|]. destruct Hr; [left; lia|by right].
Qed.

Lemma trim_ok a t r :
  text (a ++ t) → white a → trimmed t → (0 < length t)%nat →
  strtrim ((a ++ t) ++ 0 :: r) = Ret (t ++ 0 :: r, (a ++ t) ++ 0 :: r).
Proof.
  intros Ht Ha Htr Hl. destruct (strtrim_ok a t [] r) as [E _].
  - by rewrite app_nil_r.
  - done.
  - constructor.
  - done.
  - destruct t as [|x t _] using rev_ind; [cbn in Hl; lia|]. rewrite app_assoc, last_snoc.
    unfold trimmed in Htr. rewrite last_snoc in Htr. destruct (head (t ++ [x])) as [y|] eqn:E; [by destruct Htr|].
    by destruct t.
  - rewrite !app_nil_r in E. cbn in E. rewrite E. by rewrite <- app_assoc.
Qed.

Lemma overwrite_text m t : (length t < length m)%nat → ∃ r, overwrite m (cstr t) = Ret (t ++ 0 :: r) ∧ (length t + S (length r) = length m)%nat.
Proof.
  intros Hl. exists (drop (S (length t)) m). unfold overwrite, cstr. rewrite length_app, Nat.add_1_r. cbn [length].
  rewrite (proj2 (Nat.leb_le _ _)) by lia. rewrite <- app_assoc. split; [done|]. rewrite length_drop. lia.
Qed.

Lemma take_header_ok h b1 b2 f :
  header_ok h → length b1 = 16%nat → length b2 = 64%nat →
  ∃ b1' b2', take_header (line_of h) b1 b2 f = Ret (b1', b2', note f h) ∧ length b1' = 16%nat ∧ length b2' = 64%nat.
Proof.
  destruct h as [n v]. intros [(Tn & Hn & Mn) (Tv & Hv & Mv) [Ln Lv]] H1 H2. cbn [fst snd] in *.
  unfold take_header, scan_header, line_of. cbn [fst snd].
  rewrite (scan_set_ok _ 15 n); [|by eapply Forall_impl; [exact Hn|]; intros c [_ ?]; apply Z.eqb_neq|lia|right; done].
  rewrite (proj2 (Nat.eqb_neq _ 0)) by lia.
  destruct (overwrite_text b1 n) as (r1 & -> & L1); [lia|]. cbn [mbind outcome_bind Z.eqb Pos.eqb].
  rewrite <- (app_nil_r (32 :: v)).
  rewrite (scan_set_ok eol 127 (32 :: v) []); [|by constructor|cbn; lia|by right].
  cbn [length Nat.eqb]. destruct (overwrite_text b2 (32 :: v)) as (r2 & -> & L2); [cbn; lia|].
  cbn [mbind outcome_bind negb].
  pose proof (trim_ok [] n r1 Tn ltac:(constructor) Mn ltac:(lia)) as E1. cbn [app] in E1. rewrite E1.
  cbn [mbind outcome_bind].
  unfold c_str. rewrite str_of_app by done. cbn [must mbind outcome_bind].
  pose proof (trim_ok [32] v r2 ltac:(by constructor) ltac:(by repeat constructor) Mv ltac:(lia)) as E2.
  cbn [app] in E2 |- *. rewrite E2. cbn [mbind outcome_bind].
  rewrite str_of_app by done. cbn [must mbind outcome_bind]. eexists _, _. split; [reflexivity|].
  cbn [length] in *. rewrite !length_app. cbn [length]. lia.
Qed.

Lemma span_line_ok l c s : Forall (λ c, eol c = false) l → eol c = true → span_line (l ++ c :: s) = (l, s).
Proof. intros Hl Hc. induction Hl as [|x l Hx Hl IH]; cbn; [by rewrite Hc|]. by rewrite Hx, IH. Qed.

Lemma skip_eol_ok p s :
  Forall (λ c, eol c = true) p → match s with c :: _ => eol c = false | [] => True end → skip_eol (p ++ s) = s.
Proof.
  intros Hp Hs. induction Hp as [|c p Hc Hp IH]; cbn; [|by rewrite Hc].
  destruct s as [|c s]; [done|]. cbn. by rewrite Hs.
Qed.

(** The next line, whatever ends the one before. *)
Lemma strtok_line_ok p l c s :
  Forall (λ c, eol c = true) p → Forall (λ c, eol c = false) l → (0 < length l)%nat → eol c = true →
  strtok_line (p ++ l ++ c :: s) = Some (l, s).
Proof.
  intros Hp Hl Hn Hc. unfold strtok_line. rewrite skip_eol_ok; [|done|by destruct Hl; [cbn in Hn; lia|]].
  rewrite <- (span_line_ok l c s Hl Hc). by destruct l; [cbn in Hn; lia|].
Qed.

Lemma line_of_ok h : header_ok h → Forall (λ c, eol c = false) (line_of h) ∧ (0 < length (line_of h))%nat.
Proof.
  intros [(_ & Hn & _) (_ & Hv & _) _]. unfold line_of. split.
  - apply Forall_app. split; [by eapply Forall_impl; [exact Hn|]; intros c [? _]|]. by repeat constructor.
  - rewrite length_app. cbn. lia.
Qed.

Lemma note_complete f hs : complete f = true → foldl note f hs = f.
Proof.
  intros Hf. induction hs as [|h hs IH]; [done|]. cbn.
  assert (note f h = f) as -> by (unfold note, complete in *; by repeat case_match). done.
Qed.

Lemma lines_loop_ok fuel p hs tl b1 b2 f :
  Forall header_ok hs → Forall (λ c, eol c = true) p → Forall (λ c, eol c = true) tl →
  length b1 = 16%nat → length b2 = 64%nat → (length hs < fuel)%nat →
  lines_loop fuel (p ++ render hs ++ tl) b1 b2 f = Ret (foldl note f hs).
Proof.
  intros Hhs Hp Htl. revert fuel p b1 b2 f Hp. induction Hhs as [|h hs Hh Hhs IH]; intros fuel p b1 b2 f Hp H1 H2 Hfuel.
  - destruct fuel as [|fuel]; [cbn in Hfuel; lia|]. cbn. unfold strtok_line.
    rewrite <- (app_nil_r (p ++ tl)), skip_eol_ok; [done|by apply Forall_app|done].
  - destruct fuel as [|fuel]; [cbn in Hfuel; lia|]. destruct (line_of_ok h Hh) as [Hl Hn]. cbn [render mbind list_bind].
    replace (p ++ ((line_of h ++ [13; 10]) ++ (hs ≫= λ h, line_of h ++ [13; 10])) ++ tl)
      with (p ++ line_of h ++ 13 :: [10] ++ render hs ++ tl) by (unfold render; by rewrite <- !app_assoc).
    cbn [lines_loop]. rewrite strtok_line_ok by done.
    destruct (take_header_ok h b1 b2 f Hh H1 H2) as (b1' & b2' & -> & H1' & H2'). cbn [mbind outcome_bind foldl].
    destruct (complete (note f h)) eqn:Ec; [by rewrite note_complete|].
    apply IH; [by repeat constructor|done|done|cbn in Hfuel; lia].
Qed.

(** The value of the first header of a name. *)
Definition value_of (key : string) (hs : list (bytes * bytes)) : option bytes :=
  snd <$> List.find (λ h, same_nocase h.1 (lit key)) hs.

Definition orelse {A} (a b : option A) : option A := match a with Some _ => a | None => b end.

Lemma nt_not_nts n : same_nocase n (lit "nt") = true → same_nocase n (lit "nts") = false.
Proof.
  unfold same_nocase. rewrite bytes_eqb_eq. intros ->. reflexivity.
Qed.

Lemma foldl_note hs f :
  foldl note f hs = Found (orelse (f_nt f) (cstr <$> value_of "nt" hs)) (orelse (f_nts f) (cstr <$> value_of "nts" hs)).
Proof.
  revert f. induction hs as [|[n v] hs IH]; intros [a b]; [by destruct a, b|]. cbn [foldl]. rewrite IH.
  unfold value_of. cbn [List.find]. unfold note. cbn [f_nt f_nts fst snd].
  destruct (same_nocase n (lit "nt")) eqn:E1, (same_nocase n (lit "nts")) eqn:E2;
    try (by rewrite (nt_not_nts n E1) in E2); by destruct a, b.
Qed.

Definition NOTIFY : bytes := lit "NOTIFY * HTTP/1.1".

(** The request line is no header. *)
Lemma first_line fuel s f :
  complete f = false →
  ∃ b1, lines_loop (S fuel) (NOTIFY ++ 13 :: s) (local 16) (local 64) f = lines_loop fuel s b1 (local 64) f ∧
    length b1 = 16%nat.
Proof.
  intros Hf. cbn [lines_loop]. pose proof (strtok_line_ok [] NOTIFY 13 s) as E.
  change ([] ++ NOTIFY ++ 13 :: s) with (NOTIFY ++ 13 :: s) in E.
  rewrite E by ((apply (bool_decide_unpack _); by vm_compute) || (vm_compute; lia) || done). clear E.
  assert (∃ b1, take_header NOTIFY (local 16) (local 64) f = Ret (b1, local 64, f) ∧ length b1 = 16%nat) as (b1 & -> & H1).
  { eexists. split; [vm_compute; reflexivity|reflexivity]. }
  exists b1. cbn [mbind outcome_bind]. by rewrite Hf.
Qed.

(** A value that does not fit [buf2]. *)
Lemma take_header_overflows name value b1 f :
  Forall (λ c, eol c = false ∧ c ≠ 58) name → Forall (λ c, eol c = false) value →
  (0 < length name <= 15)%nat → (64 <= length value)%nat → length b1 = 16%nat →
  take_header (name ++ 58 :: value) b1 (local 64) f = Undef.
Proof.
  intros Hn Hv Ln Lv Hb. unfold take_header, scan_header.
  rewrite (scan_set_ok _ 15 name); [|by eapply Forall_impl; [exact Hn|]; intros c [_ ?]; apply Z.eqb_neq|lia|right; done].
  rewrite (proj2 (Nat.eqb_neq _ 0)) by lia. destruct (overwrite_text b1 name) as (r1 & -> & L1); [lia|].
  cbn [mbind outcome_bind Z.eqb Pos.eqb]. rewrite <- (take_drop 127 value), (scan_set_ok eol 127 (take 127 value)).
  - rewrite length_take, (proj2 (Nat.eqb_neq _ 0)) by lia. unfold overwrite, cstr.
    rewrite length_app, length_take, (proj2 (Nat.leb_gt _ _)); [done|]. unfold local. rewrite length_replicate. cbn [length]. lia.
  - by apply Forall_take.
  - rewrite length_take. lia.
  - destruct (decide (length value <= 127)%nat); [right; by rewrite drop_ge by lia|left; rewrite length_take; lia].
Qed.

Section ssdp_proofs.
Context (answer : list nbd_event → list bytes → Z * bytes).

#[local] Instance ssdp_daemon : NbdOps (list nbd_event) := every_daemon answer.
#[local] Instance ssdp_link : NbdLink (list nbd_event) := every_link answer.

Abbreviation W := (world (list nbd_event)).

(** A packet: the request line, the headers, and what ends it. *)
Definition packet (hs : list (bytes * bytes)) (tl : bytes) : bytes := NOTIFY ++ 13 :: [10] ++ render hs ++ tl.

Lemma render_text hs : Forall header_ok hs → text (render hs) ∧ (length hs <= length (render hs))%nat.
Proof.
  induction 1 as [|h hs [(Tn & _) (Tv & _) _] Hhs [IH1 IH2]]; [split; [constructor|done]|].
  change (render (h :: hs)) with ((line_of h ++ [13; 10]) ++ render hs). split.
  - apply Forall_app. split; [|done]. apply Forall_app. split; [|by repeat constructor].
    unfold line_of. apply Forall_app. split; [done|]. by repeat constructor.
  - rewrite !length_app. cbn [length]. lia.
Qed.

Lemma packet_lines hs tl f :
  complete f = false → Forall header_ok hs → Forall (λ c, eol c = true) tl →
  lines_loop (S (length (packet hs tl))) (packet hs tl) (local 16) (local 64) f = Ret (foldl note f hs).
Proof.
  intros Hf Hhs Htl. destruct (first_line (length (packet hs tl)) ([10] ++ render hs ++ tl) f Hf) as (b1 & E & H1).
  fold (packet hs tl) in E. rewrite E. apply lines_loop_ok; [done|by repeat constructor|done|done|done|].
  destruct (render_text hs Hhs) as [_ Hr]. unfold packet. rewrite length_app, app_comm_cons, !length_app.
  change (length NOTIFY) with 17%nat. lia.
Qed.

Lemma matches_value v t : text v → text (lit t) → length (lit t) = String.length t →
  matches (cstr v) t = Ret (bytes_eqb v (lit t)).
Proof.
  intros Hv Ht Hl. unfold matches. destruct (memcmp_lit_ok (cstr v) v (lit t)) as (z & E & Hz); [by apply str_of_cstr|done|].
  rewrite Hl in E. unfold str. rewrite E. cbn. f_equal. apply eq_true_iff_eq. by rewrite Z.eqb_eq, bytes_eqb_eq.
Qed.

Lemma value_text key hs v : Forall header_ok hs → value_of key hs = Some v → text v.
Proof.
  unfold value_of. intros Hhs E. apply fmap_Some in E as ([n v'] & E & ->). apply List.find_some in E as [Hin _].
  apply list_elem_of_In in Hin. by destruct (proj1 (Forall_forall _ _) Hhs _ Hin) as [_ (? & _) _].
Qed.

(** What a set top box announces. *)
Definition announces (hs : list (bytes * bytes)) : bool :=
  match value_of "nt" hs, value_of "nts" hs with
  | Some nt, Some nts => bytes_eqb nt (lit SET_TOP_BOX) && bytes_eqb nts (lit "ssdp:alive")
  | _, _ => false
  end.

Definition box_queries (sender : Z) (mac : bytes) : list nbd_event :=
  let ip := cstr (inet_ntoa sender) in
  [Opened; Asked [str "lan"; str "ip2mac"; ip];
   Asked [str "stb"; str "add"; cstr mac ++ replicate (32 - length (cstr mac)) 0; ip; str ""]; Closed].

(** C27: A NOTIFY packet printed from headers that fit the buffers is read back: the box
    that sent it is added to the set top boxes, under the MAC address that the
    configuration daemon knows for its address, exactly when its first [NT] and [NTS]
    headers, in whatever case and order, announce a set top box alive; nothing else is
    done on any other packet. *)
Theorem ssdp_box_added hs tl junk sender mac (w : W) :
  Forall header_ok hs → Forall (λ c, eol c = true) tl →
  (∀ h, answer h [str "lan"; str "ip2mac"; cstr (inet_ntoa sender)] = (0, cstr mac)) →
  (∀ h args, (answer h (str "stb" :: args)).2 = []) →
  text mac → (length mac < 32)%nat →
  ssdp_notify_event (packet hs tl ++ 0 :: junk) sender w
  = Ret (0, with_nbd (w_nbd w ++ if announces hs then box_queries sender mac else []) w).
Proof.
  intros Hhs Htl Hmac Hstb Tm Lm. unfold ssdp_notify_event.
  assert (text (packet hs tl)) as Tp.
  { unfold packet. apply Forall_app. split; [apply (bool_decide_unpack _); by vm_compute|]. constructor; [done|].
    apply Forall_app. split; [by repeat constructor|]. apply Forall_app. split; [by apply render_text|].
    eapply Forall_impl; [exact Htl|]. intros c Hc ->. done. }
  unfold c_str. rewrite str_of_app by done. cbn [must]. run.
  rewrite (packet_lines hs tl (Found None None)) by done. run. rewrite foldl_note. cbn [f_nt f_nts orelse]. unfold announces.
  destruct (value_of "nt" hs) as [nt|] eqn:Ent; cbn [fmap option_fmap option_map].
  2: { rewrite app_nil_r. by destruct w. }
  destruct (value_of "nts" hs) as [nts|] eqn:Ents; cbn [fmap option_fmap option_map].
  2: { rewrite app_nil_r. by destruct w. }
  pose proof (value_text _ _ _ Hhs Ent) as Tnt. pose proof (value_text _ _ _ Hhs Ents) as Tnts.
  rewrite (matches_value nt) by (done || (apply (bool_decide_unpack _); by vm_compute)). run.
  destruct (bytes_eqb nt (lit SET_TOP_BOX)); cbn [andb].
  2: { run. rewrite app_nil_r. by destruct w. }
  rewrite (matches_value nts) by (done || (apply (bool_decide_unpack _); by vm_compute)). run.
  destruct (bytes_eqb nts (lit "ssdp:alive")).
  2: { rewrite app_nil_r. by destruct w. }
  unfold nbd_lan_ip2mac, nbd_stb_add. run. change 32 with (Z.of_nat 32).
  run_with (answered_text answer [str "lan"; str "ip2mac"; cstr (inet_ntoa sender)] mac
              (with_nbd (w_nbd w ++ [Opened]) w) 32 Hmac Tm Lm).
  cbn [Z.ltb Z.compare].
  match goal with |- context [on_nbd (nbd_set ?args)] => destruct (answered_nothing answer args
    (with_nbd ((w_nbd w ++ [Opened]) ++ [Asked [str "lan"; str "ip2mac"; cstr (inet_ntoa sender)]]) w)
    ltac:(intros ?; apply Hstb)) as [r E] end.
  run_with E. run. unfold box_queries, with_nbd. cbn [w_nbd w_acts w_neigh w_plc w_ssdp].
  rewrite <- !app_assoc. reflexivity.
Qed.

End ssdp_proofs.

(** A header whose value has 64 characters or more is stored past the end of [buf2]: the
    packet of any host of the LAN is enough. *)
Theorem ssdp_long_value_overflows {D} `{NbdLink D} name value r junk sender (w : world D) :
  text name → text value → text r →
  Forall (λ c, eol c = false ∧ c ≠ 58) name → Forall (λ c, eol c = false) value →
  (0 < length name <= 15)%nat → (64 <= length value)%nat →
  ssdp_notify_event ((NOTIFY ++ 13 :: [10] ++ (name ++ 58 :: value) ++ 13 :: r) ++ 0 :: junk) sender w = Undef.
Proof.
  intros Tn Tv Tr Hn Hv Ln Lv. unfold ssdp_notify_event. set (s := NOTIFY ++ _).
  assert (text s) as Ts.
  { unfold s. apply Forall_app. split; [apply (bool_decide_unpack _); by vm_compute|]. constructor; [done|].
    constructor; [done|]. apply Forall_app. split; [|by constructor]. apply Forall_app. split; [done|by constructor]. }
  unfold c_str. rewrite str_of_app by done. cbn [must]. run. apply cmd_bind_Undef. unfold lift.
  assert (∃ n, length s = S n) as [n ->] by (by exists (length s - 1)%nat).
  destruct (first_line (S n) ([10] ++ (name ++ 58 :: value) ++ 13 :: r) (Found None None)) as (b1 & E & H1); [done|].
  change (NOTIFY ++ _) with s in E. rewrite E. cbn [lines_loop]. rewrite strtok_line_ok; [|by repeat constructor| | |done].
  - by rewrite take_header_overflows.
  - apply Forall_app. split; [by eapply Forall_impl; [exact Hn|]; intros c [? _]|by constructor].
  - rewrite length_app. cbn. lia.
Qed.

(** ** Runs of the daemon *)
Ltac is_text := apply (bool_decide_unpack _); vm_compute; exact I.

(** The devices are asked for under [status]; anything else is answered by the name of
    the interface. *)
Definition sample_answer (h : list nbd_event) (args : list bytes) : Z * bytes :=
  match args with
  | a :: _ => if bytes_eqb a (str "status") then (0, str "<lan_topology/>") else (0, str "br0")
  | [] => (-1, [])
  end.

Definition sample_node (key : bytes) : bytes :=
  if bytes_eqb key (lit "type") then lit "pc"
  else if bytes_eqb key (lit "alive") then lit "100"
  else if bytes_eqb key (lit "ipaddr") then lit "192.168.1.20"
  else lit "00:11:22:33:44:55".

Lemma sample_seen : seen [sample_node] sample_node 100.
Proof. split_and!; [by left|is_text|by vm_compute|by vm_compute|lia]. Qed.

Definition sample_wakes : list wake := Awake [] <$> [300; 600; 900; 1200; 1500; 1800].

Lemma sample_prompts : timed (start_times 0) ∧ prompts 1 sample_wakes (start_times 0).
Proof.
  split; [by apply start_timed; unfold uptime, POLL_INTERVAL, LONG_MAX, INT_MAX|].
  cbn. unfold uptime, timeout, POLL_INTERVAL, LONG_MAX, INT_MAX. cbn. split_and!; (lia || done).
Qed.

Lemma sample_quiet : Forall awake sample_wakes ∧ Forall quiet sample_wakes.
Proof. split; unfold sample_wakes; cbn; repeat (apply Forall_cons_2; [exact I|]); by apply Forall_nil. Qed.

Lemma silent_device_probed_witness :
  let world0 := World [] [] [] [] [] in
  let ps := plugins (H := every_link sample_answer) (λ _, Some [sample_node]) (λ _, Ret tt)
              (replicate 6 1) None (local 1514) (0, 3) (0, 5) 4 (Config (lit "br0") 0 0) in
  ∃ s' w', main_loop (zip ps [3; 4; 5]) sample_wakes (start_times 0) world0 = Ret (s', w') ∧
    ARP_PROBE (lit "192.168.1.20") (lit "00:11:22:33:44:55") (lit "br0") ∈ w_acts w'.
Proof.
  destruct sample_prompts as [Hs Hp], sample_quiet as [Haw Hq].
  destruct (silent_device_probed sample_answer (λ _, Some [sample_node]) (lit "<lan_topology/>") [sample_node] (lit "br0"))
    with (spill := λ _ : bytes, Ret tt) (src := replicate 6 1) (stray := @None bytes) (stack := local 1514)
      (ns := (0, 3)) (ss := (0, 5)) (od := 4) (cfg := Config (lit "br0") 0 0) (fds := [3; 4; 5]) (d := 1)
      (ws := sample_wakes) (s := start_times 0) (T := 1300) (node := sample_node) (a := 100)
      (w := World (@nil nbd_event) [] [] [] []) as [Hprobe Hret];
    [by intros h|by intros h|done|split_and!; [is_text..|cbn; lia]|lia|exact Hs|exact Hp|exact Haw
    |exact sample_seen|by vm_compute|unfold NEIGH_TIMEOUT; lia|by vm_compute|done|done
    |constructor; [|constructor]; split; [is_text|exists 100; split_and!; by vm_compute]|].
  destruct (Hret Hq) as (s' & w' & E). exists s', w'. split; [exact E|exact (Hprobe s' w' E)].
Defined.

Definition sample_frame : bytes :=
  replicate 12 0 ++ [136; 225; 0; 57; 160; 0; 0; 0; 1] ++ replicate 17 0 ++ [2] ++ replicate 30 7.

Lemma mme_discover_stations_witness :
  mme_discover (H := every_link sample_answer) (replicate 6 1) (replicate 1514 0) 4 (World [] [] [] [sample_frame] [])
  = Ret (0, World [] (replicate 2 (Wrote 4 (request (replicate 6 1) (replicate 6 7) 40960))) [] [] []).
Proof.
  rewrite (mme_discover_stations (replicate 1514 0) 4 (replicate 6 1) sample_frame [] 2);
    [reflexivity|lia|done|done|cbn; lia|done|by constructor].
Defined.

Definition sample_headers : list (bytes * bytes) :=
  [(lit "HOST", lit "239.255.255.250:1900"); (lit "NTS", lit "ssdp:alive"); (lit "nt", lit SET_TOP_BOX)].

Definition box_answer (h : list nbd_event) (args : list bytes) : Z * bytes :=
  match args with
  | a :: _ => if bytes_eqb a (str "lan") then (0, str "00:17:33:00:00:01") else (0, [])
  | [] => (-1, [])
  end.

Lemma ssdp_box_added_witness :
  ssdp_notify_event (H := every_link box_answer) (packet sample_headers [13; 10] ++ 0 :: replicate 7 165) 3232235796
    (World [] [] [] [] [])
  = Ret (0, World (box_queries 3232235796 (lit "00:17:33:00:00:01")) [] [] [] []).
Proof.
  rewrite (ssdp_box_added box_answer sample_headers [13; 10] (replicate 7 165) 3232235796 (lit "00:17:33:00:00:01"));
    [reflexivity| |by repeat constructor|by intros h|by intros h args|is_text|cbn; lia].
  repeat constructor; cbn; try done; try lia; is_text.
Defined.
