(* ===== verification/Www.v ===== *)
(** The web site of the box: what its pages share, under [src/efixo/efixo-www/src/src].

    The transactions on the configuration and the copies between it and the data set of a
    request ([dbl.h], [dbl.c]), the helpers ([nbl_utils.c], [nbl_net.c], [nbl_wlan.c],
    [nbl_voip.c], [nbl_tv.c]), the hooks of the web server ([main.c]) and the pages of
    the installation kit ([kit/*.c]).  The pages themselves are in [WwwPages].

    A macro that may leave its handler takes the rest of the handler as an argument. *)

From stdpp Require Import base tactics list gmap strings.
From S2P Require Import Prelude.
From S2P Require Import CString.
From S2P Require Import NbuList.
From S2P Require Import NbuString.
From S2P Require Import NbuNet.
From S2P Require Import EwfHdf.
From S2P Require Import EwfSession.
From S2P Require Import EwfSmith.
From S2P Require Import EwfDispatch.
From S2P Require Import NbdQueries.
From S2P Require Import NbdServices.
From S2P Require Import NbdVoip.
From S2P Require Import ApiCtl.
Import NbuList NbuString NbuNet EwfHdf EwfSmith NbdQueries NbdServices.

Module Www.

Definition NBD_SUCCESS : Z := 0.
Definition NBD_ERROR : Z := -1.

Definition NV_SET_INVALID_VALUE : Z := -4.
Definition NV_SET_ERROR : Z := -1.
Definition NV_SET_SUCCESS : Z := 0.
Definition NV_SET_UNCHANGED : Z := 1.
Definition NV_COMMIT_SUCCESS : Z := 0.
Definition NV_COMMIT_UNCHANGED : Z := 1.

(** [struct trx]. *)
Record trx := Trx { trx_id : Z; sum_set_stat : Z }.

(** The state of the server: the request and what is sent, the link to the configuration
    daemon, the global [buffer] of the pages and the one of [nbl_utils.c]. *)
Record site (H D : Type) := Site {
  st_web : EwfDispatch.web H;
  st_nbd : D;
  st_buffer : bytes;
  st_utils : bytes;
}.

Arguments Site {H D}.
Arguments st_web {H D}.
Arguments st_nbd {H D}.
Arguments st_buffer {H D}.
Arguments st_utils {H D}.

(** A text used as a format without arguments: [%%] is a percent sign, any other
    directive is undefined. *)
Fixpoint as_format (fuel : nat) (t : bytes) : outcome bytes :=
  match fuel, t with
  | O, _ | _, [] => Ret []
  | S n, 37 :: 37 :: t => r ← as_format n t; Ret (37 :: r)
  | S n, 37 :: _ => Undef
  | S n, c :: t => r ← as_format n t; Ret (c :: r)
  end.

(** *** nbl_wlan.c *)
Definition wlan_error_11n_legacy_mode_and_wep_invalid : Z := -100.
Definition wlan_error_11n_only_mode_and_wpa_psk_invalid : Z := -99.
Definition wlan_error_11n_only_mode_and_wpa_wpa2_psk_invalid : Z := -98.
Definition wlan_error_11n_only_mode_and_wep_invalid : Z := -97.
Definition wlan_compatibility_ok : Z := 0.

(** [nbu_string_matches(s, t) == NBU_STRING_EQUAL]. *)
Definition equals (s : bytes) (t : string) : outcome bool :=
  r ← nbu_string_matches s t; Ret (r =? NBU_STRING_EQUAL).

(** [!nbu_string_matches(...) == NBU_STRING_EQUAL]: the negation binds first. *)
Definition negated_matches (s : bytes) (t : string) : outcome bool :=
  r ← nbu_string_matches s t; Ret ((if r =? 0 then 1 else 0) =? NBU_STRING_EQUAL).

Definition nbl_wlan_check_compatibility (wlan_mode wlan_enc : bytes) : outcome Z :=
  g ← equals wlan_mode "11g";
  if g : bool then Ret wlan_compatibility_ok
  else
    ng ← equals wlan_mode "11ng";
    if ng : bool then
      ok ← negated_matches wlan_enc "WEP";
      Ret (if ok : bool then wlan_compatibility_ok else wlan_error_11n_legacy_mode_and_wep_invalid)
    else
      n ← equals wlan_mode "11n";
      if n : bool then
        wep ← equals wlan_enc "WEP";
        if wep : bool then Ret wlan_error_11n_only_mode_and_wep_invalid
        else
          wpa ← equals wlan_enc "WPA-PSK";
          if wpa : bool then Ret wlan_error_11n_only_mode_and_wpa_psk_invalid
          else
            both ← equals wlan_enc "WPA-WPA2-PSK";
            if both : bool then Ret wlan_error_11n_only_mode_and_wpa_wpa2_psk_invalid
            else Ret wlan_compatibility_ok
      else Ret wlan_compatibility_ok.

(** *** nbl_utils.c *)
Record nbl_utils_ltime := Ltime { sec : Z; min : Z; hour : Z; day : Z }.

(** [/] and [%] of C round towards zero. *)
Definition nbl_utils_timestamp2ltime (timestamp : Z) : nbl_utils_ltime :=
  let ts := timestamp in
  let ts1 := Z.quot ts 60 in
  let ts2 := Z.quot ts1 60 in
  Ltime (Z.rem ts 60) (Z.rem ts1 60) (Z.rem ts2 24) (Z.quot ts2 24).

(** The last place of [cr] in the text. *)
Fixpoint last_index (str : bytes) (cr : Z) (i icr : Z) : outcome Z :=
  match str with
  | [] => Undef
  | c :: str => if c =? 0 then Ret icr else last_index str cr (i + 1) (if c =? cr then i else icr)
  end.

(** The two buffers that it leaves. *)
Definition nbl_utils_strcut (str : bytes) (cr : Z) (buf1 : bytes) (buf1_size : Z) (buf2 : bytes) (buf2_size : Z)
    : outcome (bytes * bytes) :=
  icr ← last_index str cr 0 (-1);
  if negb (icr =? -1) then
    head ← fmt_prec_s str (Z.to_nat icr);
    buf1 ← buf_of (nbu_string_printf (Some buf1) buf1_size head);
    rest ← padd str (Z.to_nat (icr + 1));
    buf2 ← buf_of (nbu_string_copy (Some buf2) buf2_size (Some rest));
    Ret (buf1, buf2)
  else
    buf1 ← buf_of (nbu_string_copy (Some buf1) buf1_size (Some str));
    buf2 ← buf_of (nbu_string_copy (Some buf2) buf2_size (Some [0]));
    Ret (buf1, buf2).

Section site.
Context {H : Type} `{Hdf H} {D : Type} `{NbdLink D} {X : Type} `{Ezxml X}.

(** PCRE, and ClearSilver's trees: the children of a node, by name and value, if there is
    such a node. *)
Context (pcre_match : bytes → bytes → option bool).
Context (hdf_obj_children : H → bytes → option (list (bytes * option bytes))).

(** Which box the site is built for. *)
Context (CIBOX NB5 NB6 : bool).

Abbreviation S := (site H D).
Abbreviation M := (cmd S).

Definition set_web (w : EwfDispatch.web H) (s : S) : S := Site w (st_nbd s) (st_buffer s) (st_utils s).
Definition set_nbd (d : D) (s : S) : S := Site (st_web s) d (st_buffer s) (st_utils s).
Definition set_buffer (b : bytes) (s : S) : S := Site (st_web s) (st_nbd s) b (st_utils s).
Definition set_utils (b : bytes) (s : S) : S := Site (st_web s) (st_nbd s) (st_buffer s) b.

Definition site_state : M S := get_st.
Definition on_web {A} (m : cmd (EwfDispatch.web H) A) : M A := zoom st_web set_web m.
Definition on_world {A} (m : cmd (world H) A) : M A := on_web (EwfDispatch.on_web m).
Definition on_cgi {A} (m : cmd H A) : M A := on_web (EwfDispatch.on_cgi m).
Definition on_nbd {A} (m : cmd D A) : M A := zoom st_nbd set_nbd m.

(** *** ewf_hdf.h, as the handlers use it *)
Definition ewf_hdf_sget (name : string) : M (option bytes) := on_cgi (EwfHdf.ewf_hdf_sget pcre_match (lit name)).
Definition ewf_hdf_set (name : bytes) (value : option bytes) : M unit :=
  on_cgi (EwfHdf.ewf_hdf_set (Some name) value);; mret tt.
Definition ewf_hdf_set_int (name : bytes) (z : Z) : M unit :=
  on_cgi (EwfHdf.ewf_hdf_setf (Some name) (Some (fmt_d z)));; mret tt.
Definition ewf_hdf_set_error (name error_id : string) : M unit :=
  on_cgi (EwfHdf.ewf_hdf_set_error (Some (lit name)) (lit error_id));; mret tt.
Definition ewf_hdf_form_set_error (error_id : string) : M unit :=
  on_cgi (EwfHdf.ewf_hdf_form_set_error (lit error_id));; mret tt.
Definition ewf_hdf_query_error := ewf_hdf_form_set_error.
Definition ewf_hdf_query_var_error := ewf_hdf_set_error.

Definition EWF_HDF_GET (name : string) (k : bytes → M unit) : M unit :=
  v ← ewf_hdf_sget name;
  match v with None => mret tt | Some v => k v end.

Definition EWF_HDF_GET_DEFAULT (name dflval : string) : M bytes :=
  v ← on_cgi (EwfHdf.ewf_hdf_sget_default pcre_match (lit name) (Some (lit dflval)));
  lift (must v).

Definition ewf_hdf_sget_int (name : string) : M Z := on_cgi (EwfHdf.ewf_hdf_sget_int pcre_match (lit name)).

Definition EWF_HDF_GET_INT (name : string) (k : Z → M unit) : M unit :=
  v ← ewf_hdf_sget_int name;
  if v =? -1 then mret tt else k v.

(** [ewf_hdf_sget_copy(name, buffer, sizeof buffer)]. *)
Definition sget_buffer (name : string) : M Z :=
  s ← site_state;
  '(r, b) ← on_cgi (EwfHdf.ewf_hdf_sget_copy pcre_match (lit name) (st_buffer s) 256);
  mod_st (set_buffer b);;
  mret r.

Definition ewf_hdf_exist (name : string) : M bool :=
  h ← on_cgi get_st; mret (match hdf_obj_children h (lit name) with Some _ => true | None => false end).

(** [EWF_HDF_FOREACH(name, &ctx_var);] and [ctx_var.name]: the loop has an empty body and
    leaves the name of the last child; without one the name was never set. *)
Definition last_child (name : string) : M bytes :=
  h ← on_cgi get_st;
  lift (must (children ← hdf_obj_children h (lit name); fst <$> last children)).

Definition ewf_utils_redirect (uri : string) : M unit := on_web (EwfDispatch.ewf_utils_redirect (lit uri)).

(** [atoi]. *)
Definition atoi (t : bytes) : Z := s32 (st_val (strtol t 10)).

(** *** Queries into the buffer *)
Definition get_buffer (get : bytes → Z → cmd D (Z * bytes)) : M Z :=
  s ← site_state;
  '(r, b) ← on_nbd (get (st_buffer s) 256);
  mod_st (set_buffer b);;
  mret r.

(** [if(get(..., buffer, sizeof(buffer)) == NBD_SUCCESS) ewf_hdf_set(name, buffer);]. *)
Definition set_from_buffer (name : string) : M unit :=
  s ← site_state;
  t ← lift (c_str (st_buffer s));
  ewf_hdf_set (lit name) (Some t).

Definition show (get : bytes → Z → cmd D (Z * bytes)) (name : string) : M unit :=
  r ← get_buffer get;
  if r =? NBD_SUCCESS then set_from_buffer name else mret tt.

Definition from_status (key : string) := nbd_status_get (D := D) (str key).
Definition from_nv (key : string) := nbd_user_config_get (D := D) (str key).

Definition commit : M unit := on_nbd nbd_user_config_commit;; mret tt.
Definition sys_async_run (script arg : string) : M unit := on_nbd (nbd_sys_async_run (str script) (str arg));; mret tt.
Definition sys_sync_run (script arg : string) : M unit := on_nbd (nbd_sys_sync_run (str script) (str arg));; mret tt.

(** [nbd_autoconf_matches(key, c_str)]. *)
Definition nbd_autoconf_matches key (t : string) : cmd D bool :=
  let c := str t in
  '(r, s) ← nbd_autoconf_get key (local_buf (length c)) (Z.of_nat (length c));
  if r <? 0 then mret false else z ← lift (memcmp s c (length c)); mret (z =? 0).

(** *** dbl.h *)

(** The status, and the transaction. *)
Definition __nv_trx_init : M (Z * trx) :=
  id ← on_nbd (nbd_user_config_cursor_new (local_buf 16));
  let trx := Trx (s32 id) 0 in
  if trx_id trx <=? 0 then ewf_hdf_query_error "system";; mret (-1, trx)
  else mret (0, trx).

Definition __nv_set_with_trx (t : trx) (nvname : string) (hdfname valuevar : bytes) : M (Z * trx) :=
  ret ← on_nbd (nbd_user_config_cset (trx_id t) (str nvname) valuevar);
  if (ret =? NV_SET_SUCCESS) || (ret =? NV_SET_UNCHANGED) then mret (NV_SET_SUCCESS, t)
  else if ret =? NV_SET_INVALID_VALUE then
    on_cgi (EwfHdf.ewf_hdf_set_error (Some hdfname) (lit "value"));;
    mret (ret, Trx (trx_id t) (-1))
  else
    ewf_hdf_query_error "system";;
    mret (NV_SET_ERROR, t).

Definition __nv_trx_commit (t : trx) : M Z :=
  if sum_set_stat t =? -1 then mret NV_COMMIT_UNCHANGED
  else on_nbd (nbd_user_config_cursor_commit (trx_id t)).

Definition __nv_trx_close (t : trx) : M Z := on_nbd (nbd_user_config_cursor_close (trx_id t)).

Definition NV_TRX_INIT (k : trx → M unit) : M unit :=
  '(r, t) ← __nv_trx_init;
  if negb (r =? 0) then mret tt else k t.

(** [hdfname] is the text of the macro's argument. *)
Definition NV_SET_WTRX_as (t : trx) (nvname : string) (hdfname valuevar : bytes) (k : trx → M unit) : M unit :=
  '(r, t) ← __nv_set_with_trx t nvname hdfname valuevar;
  if r =? NV_SET_ERROR then on_nbd (nbd_user_config_cursor_close (trx_id t));; mret tt
  else k t.

Definition NV_SET_WTRX (t : trx) (nvname hdfname : string) (valuevar : bytes) (k : trx → M unit) : M unit :=
  NV_SET_WTRX_as t nvname (lit hdfname) valuevar k.

Definition NV_TRX_XCOMMIT (t : trx) : M Z :=
  ret ← __nv_trx_commit t;
  __nv_trx_close t;;
  mret ret.

(** The variable has the name of the entry and [size] bytes. *)
Definition NV_GET (nvvar : string) (size : nat) (k : bytes → M unit) : M unit :=
  '(r, b) ← on_nbd (nbd_user_config_get (str nvvar) (local_buf size) (Z.of_nat size));
  if negb (r =? 0) then mret tt else k b.

Definition STATUS_GET (stvar : string) (size : nat) (k : bytes → M unit) : M unit :=
  '(r, b) ← on_nbd (nbd_status_get (str stvar) (local_buf size) (Z.of_nat size));
  if negb (r =? 0) then mret tt else k b.

(** *** dbl.c *)
Definition nv_to_hdf (nvram_name hdf_name : string) : M Z :=
  '(r, buf) ← on_nbd (nbd_user_config_get (str nvram_name) (local_buf 256) 256);
  if r =? NBD_SUCCESS then
    t ← lift (c_str buf);
    ewf_hdf_set (lit hdf_name) (Some t);; mret EWF_SUCCESS
  else mret EWF_ERROR.

Definition status_to_hdf (status_name hdf_name : string) : M Z :=
  '(r, buf) ← on_nbd (nbd_status_get (str status_name) (local_buf 256) 256);
  if r =? NBD_SUCCESS then
    t ← lift (c_str buf);
    ewf_hdf_set (lit hdf_name) (Some t);; mret EWF_SUCCESS
  else mret EWF_ERROR.

Definition hdf_to_nv (hdf_name nvram_name : string) : M Z :=
  value ← ewf_hdf_sget hdf_name;
  match value with
  | Some value => on_nbd (nbd_user_config_set (str nvram_name) (cstr value))
  | None => mret NV_SET_ERROR
  end.

Definition NV_TO_HDF (nvvar : string) : M unit := nv_to_hdf nvvar nvvar;; mret tt.
Definition STATUS_TO_HDF (stvar : string) : M unit := status_to_hdf stvar stvar;; mret tt.

(** *** nbl_utils.c: queries *)
Definition nbl_utils_box_upgrading : M Z :=
  s ← site_state;
  '(ret, b) ← on_nbd (if CIBOX then nbd_status_get (str "autoconf_status") (st_utils s) 256
                      else nbd_autoconf_get (str "status") (st_utils s) 256);
  mod_st (set_utils b);;
  if ret =? NBD_SUCCESS then
    downloading ← lift (equals b "downloading");
    burning ← (if downloading : bool then mret true else lift (equals b "burning"));
    mret (if (downloading : bool) || (burning : bool) then NBU_SUCCESS else NBU_ERROR)
  else mret ret.

(** The child process asks for the reboot over a link of its own and exits; [pid] is what
    [fork] answers. *)
Definition nbl_utils_box_reboot (pid : Z) : M Z :=
  if pid =? 0 then
    on_nbd nbd_open_op;;
    on_nbd (nbd_spy_event (str "reboot"));;
    on_nbd nbd_sys_reboot;;
    on_nbd nbd_close_op;;
    lift Abort
  else mret (if pid =? -1 then NBU_ERROR else NBU_SUCCESS).

(** *** nbl_voip.c, nbl_tv.c *)
Definition nbl_voip_get_hook_status (status : bytes) (status_size : Z) : cmd D (Z * bytes) :=
  '(ret, buf) ← nbd_status_get (str "voip_up") (local_buf 32) 32;
  if ret =? NBD_ERROR then mret (NBU_ERROR, status)
  else
    up ← lift (equals buf "up");
    '(ret, status) ←
      (if up : bool then
         '(ret, buf) ← nbd_status_get (str "voip_hookstate") buf 32;
         if ret =? NBD_SUCCESS then
           onhook ← lift (equals buf "onhook");
           b ← lift (buf_of (nbu_string_printf (Some status) status_size
                               (if onhook : bool then lit "onhook" else lit "offhook")));
           mret (ret, b)
         else mret (ret, status)
       else
         b ← lift (buf_of (nbu_string_printf (Some status) status_size (lit "unknown")));
         mret (ret, b));
    mret (if ret =? NBD_SUCCESS then NBU_SUCCESS else NBU_ERROR, status).

Definition nbl_tv_get_status (buf : bytes) (buf_size : Z) : cmd D (Z * bytes) :=
  count ← nbd_stb_list_count (local_buf 16);
  b ← lift (buf_of (nbu_string_printf (Some buf) buf_size (if count =? 0 then lit "down" else lit "up")));
  mret (NBU_SUCCESS, b).

(** *** nbl_net.c *)
Definition NBL_NET_GETIPSRC_ERR_DNS_TMPFAIL : Z := -1000.
Definition NBL_NET_GETIPSRC_ERR_DNS_UNKNOWNDEST : Z := -999.

(** What [getaddrinfo] answers: an address in figures, or one of its errors. *)
Inductive resolved := Resolved (ip : bytes) | Again | Noname | Failed | Empty.

Definition nbl_net_get_ipsrc_from_ipdest (resolve : bytes → resolved) (host_dest buf : bytes) (buf_size : Z)
    : cmd D (Z * bytes) :=
  if buf_size <? 16 then mret (NBU_ERROR, buf)
  else
    '(r, lan_ip) ← nbd_user_config_get (str "lan_ipaddr") (local_buf 16) 16;
    if negb (r =? NBD_SUCCESS) then mret (NBU_ERROR, buf) else
    '(r, lan_netmask) ← nbd_user_config_get (str "lan_netmask") (local_buf 16) 16;
    if negb (r =? NBD_SUCCESS) then mret (NBU_ERROR, buf) else
    '(r, ipaddr_data) ← nbd_status_get (str "net_data_ipaddr") (local_buf 16) 16;
    if negb (r =? NBD_SUCCESS) then mret (NBU_ERROR, buf) else
    match resolve host_dest with
    | Again => mret (NBL_NET_GETIPSRC_ERR_DNS_TMPFAIL, buf)
    | Noname => mret (NBL_NET_GETIPSRC_ERR_DNS_UNKNOWNDEST, buf)
    | Failed | Empty => mret (NBU_ERROR, buf)
    | Resolved ipaddr_dest =>
        lan_ip ← lift (c_str lan_ip);
        lan_netmask ← lift (c_str lan_netmask);
        match inet_aton lan_ip, inet_aton lan_netmask, inet_aton ipaddr_dest with
        | Some lan_ip_addr, Some lan_netmask_addr, Some ip_dest_addr =>
            c ← lift (rd ipaddr_data 0);
            b ← lift (buf_of (nbu_string_copy (Some buf) buf_size
                  (Some (if (Z.land ip_dest_addr lan_netmask_addr =? Z.land lan_ip_addr lan_netmask_addr) || (c =? 0)
                         then str "0.0.0.0" else ipaddr_data))));
            mret (NBU_SUCCESS, b)
        | _, _, _ => mret (NBU_ERROR, buf)
        end
    end.

(** *** main.c *)
Definition WEBAPP_SMITH_AUTOLOGIN_OFF : Z := -500.

Definition webapp_alt_login (method : bytes) : cmd D Z :=
  button ← lift (equals method "button");
  if button : bool then
    on ← ApiCtl.nbd_status_matches (str "web_autologin") "on";
    mret (if on : bool then EWF_SMITH_LOGIN_SUCCESS else WEBAPP_SMITH_AUTOLOGIN_OFF)
  else mret EWF_SMITH_LOGIN_METHOD_NOT_ALLOWED.

(** The request that is served. *)
Definition webapp_pre_dispatch (request : EwfDispatch.ewf_request_t) : M EwfDispatch.ewf_request_t :=
  r ← nbl_utils_box_upgrading;
  if r =? 0 then
    ewf_hdf_set (lit "old_uri") (EwfDispatch.uri request);;
    mret (EwfDispatch.Request (EwfDispatch.type request) (Some (lit "/upgrading")))
  else mret request.

Definition webapp_config_set (name value : bytes) : cmd D Z :=
  r ← nbd_user_config_set name value;
  mret (if r <? NBD_SUCCESS then EWF_ERROR else EWF_SUCCESS).

(** *** kit/kit_helper.c *)

(** [nbu_string_compare(a, b) == NBU_STRING_EQUAL]. *)
Definition same (a b : bytes) : outcome bool :=
  r ← nbu_string_compare (Some a) (Some b); Ret (r =? NBU_STRING_EQUAL).

(** An entry of [request_name_maps]: [nbd_dsl_get], [nbd_status_get] or
    [nbd_user_config_get] to read, [nbd_user_config_set] or nothing to write. *)
Inductive reader := nbd_dsl_reader | nbd_status_reader | nbd_nv_reader.

Record request_name := RequestName {
  rn_name : string;
  func_read : option reader;
  func_write : bool;
  forcedvalue : option string;
  rn_access : ewf_page_access;
}.

Definition request_name_maps : list request_name :=
  [ RequestName "adsl_attenuation_down" (Some nbd_dsl_reader) false None EWF_ACCESS_PUBLIC;
    RequestName "adsl_attenuation_up" (Some nbd_dsl_reader) false None EWF_ACCESS_PUBLIC;
    RequestName "adsl_noise_down" (Some nbd_dsl_reader) false None EWF_ACCESS_PUBLIC;
    RequestName "adsl_noise_up" (Some nbd_dsl_reader) false None EWF_ACCESS_PUBLIC;
    RequestName "adsl_rate_down" (Some nbd_dsl_reader) false None EWF_ACCESS_PUBLIC;
    RequestName "adsl_rate_up" (Some nbd_dsl_reader) false None EWF_ACCESS_PUBLIC;
    RequestName "adsl_status" (Some nbd_status_reader) false None EWF_ACCESS_PUBLIC;
    RequestName "filter_simple_smtpdrop" (Some nbd_nv_reader) false None EWF_ACCESS_PUBLIC ] ++
  (if CIBOX then
     [ RequestName "hotspot_active" None false (Some "off") EWF_ACCESS_PUBLIC;
       RequestName "hotspot_mode" None false (Some "sfr") EWF_ACCESS_PUBLIC ]
   else
     [ RequestName "hotspot_active" None true None EWF_ACCESS_PUBLIC;
       RequestName "hotspot_mode" None true None EWF_ACCESS_PUBLIC ]) ++
  [ RequestName "link_lan4_status" (Some nbd_status_reader) false None EWF_ACCESS_PUBLIC;
    RequestName "mac_addr" (Some nbd_status_reader) false None EWF_ACCESS_PUBLIC;
    RequestName "net_mode" (Some nbd_nv_reader) false None EWF_ACCESS_PUBLIC;
    RequestName "net_data_ipaddr" (Some nbd_status_reader) false None EWF_ACCESS_PUBLIC;
    RequestName "net_data_status" (Some nbd_status_reader) false None EWF_ACCESS_PUBLIC;
    RequestName "ppp_login" (Some nbd_nv_reader) true None EWF_ACCESS_PUBLIC;
    RequestName "ppp_password" (Some nbd_nv_reader) true None EWF_ACCESS_PUBLIC;
    RequestName "version_mainfirmware" (Some nbd_status_reader) false None EWF_ACCESS_PUBLIC;
    RequestName "wlan_wl0_enc" (Some nbd_nv_reader) true None EWF_ACCESS_PRIVATE;
    RequestName "wlan_wl0_keytype" None true None EWF_ACCESS_PRIVATE;
    RequestName "wlan_wl0_primarykey" None false (Some "0") EWF_ACCESS_PRIVATE;
    RequestName "wlan_wl0_ssid" (Some nbd_nv_reader) true None EWF_ACCESS_PRIVATE;
    RequestName "wlan_wl0_wepkeys_n0" (Some nbd_nv_reader) true None EWF_ACCESS_PRIVATE;
    RequestName "wlan_wl0_wpakey" (Some nbd_nv_reader) true None EWF_ACCESS_PRIVATE;
    RequestName "wpa_key" (Some nbd_status_reader) false None EWF_ACCESS_PRIVATE ].

Definition old_vars_compatibility_maps : list (string * string) :=
  [ ("chilli_active", "hotspot_active"); ("chilli_mode", "hotspot_mode");
    ("link_adsl_status", "adsl_status"); ("ppp_ipaddr", "net_data_ipaddr");
    ("ppp_status", "net_data_status") ].

Fixpoint compatibility_loop (maps : list (string * string)) (name : bytes) : outcome bytes :=
  match maps with
  | [] => Ret name
  | (oldname, newname) :: maps =>
      eq ← same name (str oldname);
      if eq : bool then Ret (str newname) else compatibility_loop maps name
  end.

Definition _kit_helper_var_compatibility (name : bytes) : outcome bytes :=
  compatibility_loop old_vars_compatibility_maps name.

(** [request_name_maps[i].access_policy == EWF_ACCESS_PRIVATE && !nbd_status_matches(...)]. *)
Definition kit_denied (e : request_name) : cmd D bool :=
  match rn_access e with
  | EWF_ACCESS_PUBLIC => mret false
  | EWF_ACCESS_PRIVATE => on ← ApiCtl.nbd_status_matches (str "web_autologin") "on"; mret (negb on)
  end.

Definition kit_read (r : reader) (name buf : bytes) (buf_size : Z) : cmd D (Z * bytes) :=
  match r with
  | nbd_dsl_reader => nbd_dsl_get name buf buf_size
  | nbd_status_reader => nbd_status_get name buf buf_size
  | nbd_nv_reader => nbd_user_config_get name buf buf_size
  end.

Fixpoint kit_get_loop (maps : list request_name) (name buf : bytes) (buf_size : Z) : cmd D (Z * bytes) :=
  match maps with
  | [] => mret (-1, buf)
  | e :: maps =>
      eq ← lift (same name (str (rn_name e)));
      if eq : bool then
        denied ← kit_denied e;
        if denied : bool then mret (-1, buf)
        else
          match forcedvalue e, func_read e with
          | Some v, _ => b ← lift (buf_of (nbu_string_printf (Some buf) buf_size (lit v))); mret (0, b)
          | None, Some r => kit_read r name buf buf_size
          | None, None => mret (-1, buf)
          end
      else kit_get_loop maps name buf buf_size
  end.

Definition kit_helper_get (name buf : bytes) (buf_size : Z) : cmd D (Z * bytes) :=
  name ← lift (_kit_helper_var_compatibility name);
  kit_get_loop request_name_maps name buf buf_size.

Fixpoint kit_set_loop (maps : list request_name) (name value : bytes) : cmd D Z :=
  match maps with
  | [] => mret (-1)
  | e :: maps =>
      eq ← lift (same name (str (rn_name e)));
      if eq : bool then
        denied ← kit_denied e;
        if denied : bool then mret (-1)
        else if func_write e then nbd_user_config_set name value else mret (-1)
      else kit_set_loop maps name value
  end.

Definition kit_helper_set (name value : bytes) : cmd D Z :=
  name ← lift (_kit_helper_var_compatibility name);
  kit_set_loop request_name_maps name value.

(** An action: [ACTION_COMMIT], [ACTION_INITSCRIPT] or [ACTION_FUNC]. *)
Inductive kit_action := ACTION_COMMIT | ACTION_INITSCRIPT | ACTION_FUNC (f : cmd D Z).

Definition script_action_maps : list (string * string * kit_action) :=
  (if CIBOX then []
   else [ ("hotspot", "stop", ACTION_FUNC nbd_hotspot_stop);
          ("hotspot", "restart", ACTION_FUNC nbd_hotspot_restart);
          ("hotspot", "commit", ACTION_COMMIT) ]) ++
  [ ("net_mode", "restart", ACTION_INITSCRIPT);
    ("ppp", "restart", ACTION_INITSCRIPT);
    ("wlan", "ses_stop", ACTION_FUNC nbd_wlan_ses_done);
    ("wlan", "restart", ACTION_FUNC nbd_wlan_restart);
    ("wlan", "commit", ACTION_COMMIT) ].

Definition old_script_action_compatibility_maps : list (string * option string * string * option string) :=
  [ ("chillispot", None, "hotspot", None); ("ses", Some "stop", "wlan", Some "ses_stop") ].

(** An entry without an old action ends the loop, one with it does not. *)
Fixpoint old_action_loop (maps : list (string * option string * string * option string)) (scriptname action : bytes)
    : outcome (bytes * bytes) :=
  match maps with
  | [] => Ret (scriptname, action)
  | (oldscriptname, oldaction, newname, newaction) :: maps =>
      eq ← same scriptname (str oldscriptname);
      if eq : bool then
        match oldaction with
        | None => Ret (str newname, action)
        | Some a =>
            eq ← same action (str a);
            if eq : bool then new ← must newaction; old_action_loop maps (str newname) (str new)
            else old_action_loop maps scriptname action
        end
      else old_action_loop maps scriptname action
  end.

Fixpoint action_loop (maps : list (string * string * kit_action)) (scriptname action : bytes) : cmd D Z :=
  match maps with
  | [] => mret (-1)
  | (s, a, typeaction) :: maps =>
      eq ← lift (same scriptname (str s));
      eq ← (if eq : bool then lift (same action (str a)) else mret false);
      if eq : bool then
        match typeaction with
        | ACTION_FUNC f => f
        | ACTION_INITSCRIPT =>
            buf ← lift (buf_of (nbu_string_printf (Some (local_buf 256)) 256 (lit "/etc/init.d/" ++ lit s)));
            nbd_sys_async_run buf (str a)
        | ACTION_COMMIT => nbd_user_config_commit;; mret 0
        end
      else action_loop maps scriptname action
  end.

Definition kit_helper_action (scriptname action : bytes) : cmd D Z :=
  '(scriptname, action) ← lift (old_action_loop old_script_action_compatibility_maps scriptname action);
  action_loop script_action_maps scriptname action.

(** *** kit/action.c, kit/get.c, kit/set.c *)
Definition kit_action_form : M unit :=
  action ← ewf_hdf_sget "action";
  script ← ewf_hdf_sget "script";
  match action, script with
  | Some action, Some script => on_nbd (kit_helper_action (cstr script) (cstr action));; mret tt
  | _, _ => mret tt
  end.

Definition kit_get_form : M unit :=
  name ← ewf_hdf_sget "name";
  match name with
  | Some name =>
      r ← get_buffer (kit_helper_get (cstr name));
      if r =? NBD_SUCCESS then ewf_hdf_set (lit "name") (Some name);; set_from_buffer "value" else mret tt
  | None => mret tt
  end.

Definition kit_set_form : M unit :=
  name ← ewf_hdf_sget "name";
  value ← ewf_hdf_sget "value";
  match name, value with
  | Some name, Some value =>
      ret ← on_nbd (kit_helper_set (cstr name) (cstr value));
      ewf_hdf_set (lit "name") (Some name);;
      if ret =? NV_SET_SUCCESS then commit;; ewf_hdf_set (lit "status") (Some (lit "OK"))
      else if ret =? NV_SET_UNCHANGED then ewf_hdf_set (lit "status") (Some (lit "NC"))
      else ewf_hdf_set (lit "status") (Some (lit "KO"))
  | _, _ => mret tt
  end.

End site.

End Www.
