(* ===== verification/WwwPages.v ===== *)
(** The pages of the web site: the handlers of [src/efixo/efixo-www/src/src/wui].

    The display, form and AJAX handlers of the file [x.c] are [x_display], [x_form] and
    [x_ajax]; a handler that serves both displays and AJAX requests is [x_display]. *)

From stdpp Require Import base tactics list gmap strings.
From S2P Require Import Prelude.
From S2P Require Import Dll.
From S2P Require Import CString.
From S2P Require Import NbuList.
From S2P Require Import NbuString.
From S2P Require Import NbuNet.
From S2P Require Import EwfHdf.
From S2P Require Import EwfSession.
From S2P Require Import EwfSmith.
From S2P Require Import EwfDispatch.
From S2P Require Import NbdQueries.
From S2P Require Import NbdServices.
From S2P Require Import NbdVoip.
From S2P Require Import ApiCtl.
From S2P Require Import Www.
Import NbuList NbuString NbuNet EwfHdf EwfSmith NbdQueries NbdServices Www.

Module WwwPages.

Definition nat_error_invalid_protocol : Z := -997.
Definition nat_error_invalid_ip : Z := -996.
Definition nat_error_invalid_dstport : Z := -995.
Definition nat_error_invalid_extport : Z := -993.
Definition nat_error_extport_already_use : Z := -991.
Definition nat_error_extport_reserved : Z := -990.
Definition lan_error_dhcpd_static_ip_already_exist : Z := -989.
Definition lan_error_dhcpd_static_mac_already_exist : Z := -988.
Definition lan_error_ip_invalid : Z := -986.
Definition lan_error_mac_invalid : Z := -985.
Definition lan_error_dnshost_already_exist : Z := -984.
Definition lan_error_dnshost_hostname_already_used : Z := -983.
Definition backup3g_error_invalid_puk : Z := -1000.
Definition backup3g_error_invalid_newpin : Z := -999.
Definition wlan_error_mac_already_used : Z := -999.
Definition sambactl_error_invalid_name : Z := -998.

Section pages.
Context {H : Type} `{Hdf H} {D : Type} `{NbdLink D} {X : Type} `{Ezxml X}.
Context (pcre_match : bytes → bytes → option bool).
Context (hdf_obj_children : H → bytes → option (list (bytes * option bytes))).
Context (CIBOX NB5 NB6 : bool).

Abbreviation S := (site H D).
Abbreviation M := (cmd S).
Abbreviation sget := (ewf_hdf_sget pcre_match).
Abbreviation sget_into_buffer := (sget_buffer pcre_match).
Abbreviation EWF_HDF_GET := (EWF_HDF_GET pcre_match).
Abbreviation EWF_HDF_GET_DEFAULT := (EWF_HDF_GET_DEFAULT pcre_match).
Abbreviation EWF_HDF_GET_INT := (EWF_HDF_GET_INT pcre_match).
Abbreviation hdf_to_nv := (hdf_to_nv pcre_match).

(** *** What the handlers share *)

(** The name of an item, in the buffer. *)
Definition print_name (text : bytes) : M bytes :=
  s ← site_state;
  b ← lift (buf_of (nbu_string_printf (Some (st_buffer s)) 256 text));
  mod_st (set_buffer b);;
  lift (c_str b).

Definition set_item (label : string) (n : Z) (field : string) (value : bytes) : M unit :=
  name ← print_name (lit label ++ 46 :: fmt_d n ++ 46 :: lit field);
  ewf_hdf_set name (Some value).

(** [ezxml_txt(ezxml_child(node, name))]. *)
Definition txt_of_child (node : X) (name : string) : bytes :=
  match ezxml_children node (lit name) with [] => [] | c :: _ => ezxml_txt c end.

(** An XML answer that is parsed and freed. *)
Definition with_xml (get : option bytes → Z → cmd D (Z * option bytes * Z)) (body : X → M unit) : M unit :=
  '(r, buf_xml, size) ← on_nbd (get None 0);
  if r =? NBD_SUCCESS then
    match ezxml_parse_str buf_xml size with
    | Some root => body root
    | None => mret tt
    end
  else mret tt.

(** [ewf_hdf_set(name, parts[i])]. *)
Fixpoint set_parts (names : list string) (parts : list bytes) : M unit :=
  match names, parts with
  | name :: names, p :: parts =>
      t ← lift (c_str p);
      ewf_hdf_set (lit name) (Some t);;
      set_parts names parts
  | _, _ => mret tt
  end.

(** An address of the configuration, shown in parts; the result of [nbu_net_split_ip] is
    not looked at. *)
Definition show_parts (key : string) (names : list string) (parts : list bytes) : M (list bytes) :=
  r ← get_buffer (from_nv key);
  if r =? NBD_SUCCESS then
    s ← site_state;
    '(_, parts) ← lift (nbu_net_split_ip (Some (st_buffer s)) parts);
    set_parts names parts;;
    mret parts
  else mret parts.

(** The fields of each node of an answer, numbered from [n]: the name of the item's field
    and the name of the child it is taken from. *)
Fixpoint set_fields (label : string) (n : Z) (fields : list (string * string)) (text : string → bytes) : M unit :=
  match fields with
  | [] => mret tt
  | (field, child) :: fields => set_item label n field (text child);; set_fields label n fields text
  end.

Fixpoint list_loop (label : string) (fields : list (string * string)) (text : X → string → bytes) (nodes : list X)
    (n : Z) : M unit :=
  match nodes with
  | [] => mret tt
  | node :: nodes => set_fields label n fields (text node);; list_loop label fields text nodes (n + 1)
  end.

(** [ezxml_child_txt(node, child)] and [ezxml_txt(ezxml_child(node, child))]. *)
Definition child_txt (node : X) (child : string) : bytes := ezxml_child_txt node (lit child).

Definition parts0 : list bytes := replicate 4 (local_buf 4).

(** The arguments of a variadic query end at the first NULL. *)
Fixpoint until_null (args : list (option bytes)) : list bytes :=
  match args with Some a :: args => cstr a :: until_null args | _ => [] end.

(** *** network_dhcp.c *)
Definition network_dhcp_display : M unit :=
  show (from_nv "dhcp_active") "dhcp_active";;
  parts ← show_parts "dhcp_start" ["dhcp_start_p0"; "dhcp_start_p1"; "dhcp_start_p2"; "dhcp_start_p3"] parts0;
  parts ← show_parts "dhcp_end" ["dhcp_end_p0"; "dhcp_end_p1"; "dhcp_end_p2"; "dhcp_end_p3"] parts;
  show (from_nv "dhcp_lease") "dhcp_lease";;
  show_parts "lan_ipaddr" ["dhcp_static_ipaddr_p0"; "dhcp_static_ipaddr_p1"; "dhcp_static_ipaddr_p2"] parts;;
  with_xml (nbd_user_config_xml (str "dhcp_static")) (λ root,
    list_loop "dhcp_static_list" [("ipaddr", "ipaddr"); ("macaddr", "macaddr")] child_txt
      (ezxml_children root (lit "pair")) 0).

(** [nbu_net_join_ip(parts[0], parts[1], parts[2], p3, buf, 16)] and
    [nbu_net_validate_full_ip]: the address, if it is one of the LAN. *)
Definition lan_address (parts : list bytes) (p3 lan_netmask : bytes) : outcome (option bytes) :=
  '(r, ip) ← nbu_net_join_ip (parts !! 0%nat) (parts !! 1%nat) (parts !! 2%nat) (Some (cstr p3))
               (Some (local_buf 16)) 16;
  if negb (r =? NBU_SUCCESS) then Ret None
  else
    ip ← must ip;
    r ← nbu_net_validate_full_ip (Some ip) (Some lan_netmask);
    Ret (if r =? NBU_SUCCESS then Some ip else None).

Definition same_text (a b : bytes) : M bool :=
  r ← lift (nbu_string_compare (Some a) (Some b)); mret (r =? NBU_STRING_EQUAL).

Definition dhcp_restart : M unit := sys_async_run "/etc/init.d/dhcpd" "restart".

(** The user added a static lease. *)
Definition dhcp_add (lan_ipaddr lan_netmask : bytes) : M unit :=
  EWF_HDF_GET "dhcp_static_ipaddr_p3" (λ dhcp_static_ipaddr_p3,
  EWF_HDF_GET "dhcp_static_macaddr_p0" (λ p0,
  EWF_HDF_GET "dhcp_static_macaddr_p1" (λ p1,
  EWF_HDF_GET "dhcp_static_macaddr_p2" (λ p2,
  EWF_HDF_GET "dhcp_static_macaddr_p3" (λ p3,
  EWF_HDF_GET "dhcp_static_macaddr_p4" (λ p4,
  EWF_HDF_GET "dhcp_static_macaddr_p5" (λ p5,
  '(r, parts_lan_ip) ← lift (nbu_net_split_ip (Some lan_ipaddr) parts0);
  if negb (r =? NBU_SUCCESS) then ewf_hdf_query_error "system"
  else
    static_ipaddr ← lift (lan_address parts_lan_ip dhcp_static_ipaddr_p3 lan_netmask);
    match static_ipaddr with
    | None => ewf_hdf_query_var_error "dhcp_static_ipaddr" "invalid"
    | Some static_ipaddr =>
        box ← same_text static_ipaddr lan_ipaddr;
        if box : bool then ewf_hdf_query_var_error "dhcp_static_ipaddr" "boxip"
        else
          '(r, static_macaddr) ← lift (nbu_net_join_mac (Some (cstr p0)) (Some (cstr p1)) (Some (cstr p2))
                                   (Some (cstr p3)) (Some (cstr p4)) (Some (cstr p5)) (Some (local_buf 18)) 18);
          if negb (r =? NBU_SUCCESS) then ewf_hdf_query_var_error "dhcp_static_macaddr" "invalid"
          else
            static_macaddr ← lift (must static_macaddr);
            ret ← on_nbd (nbd_dhcpd_add_static_ip static_ipaddr static_macaddr);
            if negb (ret =? NBD_SUCCESS) then
              if ret =? lan_error_ip_invalid then ewf_hdf_set_error "dhcp_static_ipaddr" "invalid"
              else if ret =? lan_error_mac_invalid then ewf_hdf_set_error "dhcp_static_macaddr" "invalid"
              else if ret =? lan_error_dhcpd_static_ip_already_exist
              then ewf_hdf_set_error "dhcp_static_ipaddr" "already_use"
              else if ret =? lan_error_dhcpd_static_mac_already_exist
              then ewf_hdf_set_error "dhcp_static_macaddr" "already_use"
              else ewf_hdf_form_set_error "unknown"
            else dhcp_restart
    end))))))).

Definition dhcp_remove : M unit :=
  EWF_HDF_GET_INT "row" (λ row,
  r ← on_nbd (nbd_dhcpd_del_static_ip (s32 (row + 1)));
  if r =? NBD_SUCCESS then dhcp_restart else mret tt).

(** Is the address read into [buffer] the one given? *)
Definition is_gateway (ip : bytes) : M bool := s ← site_state; same_text (st_buffer s) ip.

(** [strtol(text, NULL, 10)] into an [int]. *)
Definition to_int (t : bytes) : Z := s32 (st_val (strtol t 10)).

Definition dhcp_store (dhcp_active dhcp_start dhcp_end dhcp_lease : bytes) : M unit :=
  NV_TRX_INIT (λ trx,
  NV_SET_WTRX trx "dhcp_active" "dhcp_active" (cstr dhcp_active) (λ trx,
  NV_SET_WTRX trx "dhcp_start" "dhcp_start" dhcp_start (λ trx,
  NV_SET_WTRX trx "dhcp_end" "dhcp_end" dhcp_end (λ trx,
  NV_SET_WTRX trx "dhcp_lease" "dhcp_lease" (cstr dhcp_lease) (λ trx,
  r ← NV_TRX_XCOMMIT trx;
  if r =? NV_COMMIT_SUCCESS then dhcp_restart else mret tt))))).

Definition dhcp_config (lan_ipaddr lan_netmask : bytes) : M unit :=
  EWF_HDF_GET "dhcp_active" (λ dhcp_active,
  EWF_HDF_GET "dhcp_start_p3" (λ dhcp_start_p3,
  EWF_HDF_GET "dhcp_end_p3" (λ dhcp_end_p3,
  EWF_HDF_GET "dhcp_lease" (λ dhcp_lease,
  '(r, parts_lan_ip) ← lift (nbu_net_split_ip (Some lan_ipaddr) parts0);
  if negb (r =? NBU_SUCCESS) then ewf_hdf_query_error "system"
  else
    dhcp_start ← lift (lan_address parts_lan_ip dhcp_start_p3 lan_netmask);
    match dhcp_start with
    | None => ewf_hdf_query_var_error "dhcp_start_p3" "invalid"
    | Some dhcp_start =>
        dhcp_end ← lift (lan_address parts_lan_ip dhcp_end_p3 lan_netmask);
        match dhcp_end with
        | None => ewf_hdf_query_var_error "dhcp_end_p3" "invalid"
        | Some dhcp_end =>
            r ← get_buffer (from_nv "lan_ipaddr");
            bad_start ← (if r =? NBD_SUCCESS then is_gateway dhcp_start else mret false);
            if bad_start : bool then ewf_hdf_query_var_error "dhcp_start_p3" "invalid"
            else
              bad_end ← (if r =? NBD_SUCCESS then is_gateway dhcp_end else mret false);
              if bad_end : bool then ewf_hdf_query_var_error "dhcp_end_p3" "invalid"
              else if to_int dhcp_end_p3 <=? to_int dhcp_start_p3 then ewf_hdf_query_error "invalid_ip_range"
              else dhcp_store dhcp_active dhcp_start dhcp_end dhcp_lease
        end
    end)))).

Definition network_dhcp_form : M unit :=
  NV_GET "lan_ipaddr" 16 (λ lan_ipaddr,
  NV_GET "lan_netmask" 16 (λ lan_netmask,
  action ← EWF_HDF_GET_DEFAULT "action" "config";
  add ← lift (equals (cstr action) "add");
  if add : bool then dhcp_add lan_ipaddr lan_netmask
  else
    remove ← same_text (cstr action) (str "remove");
    if remove : bool then dhcp_remove else dhcp_config lan_ipaddr lan_netmask)).

(** *** network_route.c *)
Definition network_route_display : M unit :=
  show_parts "lan_ipaddr" ["route_gateway_p0"; "route_gateway_p1"; "route_gateway_p2"] parts0;;
  with_xml (nbd_user_config_xml (str "route")) (λ root,
    list_loop "route_list" [("destination", "destination"); ("gateway", "gateway"); ("genmask", "genmask")] child_txt
      (ezxml_children root (lit "rule")) 1).

(** [parts[i]]: the value of the request cut to three characters, or the empty text. *)
Definition sget_part (name : string) (part : bytes) : M bytes :=
  r ← sget_into_buffer name;
  if r =? EWF_SUCCESS then
    s ← site_state;
    lift (buf_of (nbu_string_copy (Some part) 4 (Some (st_buffer s))))
  else lift (wr part 0 0).

Fixpoint sget_parts (names : list string) (parts : list bytes) : M (list bytes) :=
  match names, parts with
  | name :: names, p :: parts => p ← sget_part name p; ps ← sget_parts names parts; mret (p :: ps)
  | _, _ => mret []
  end.

Definition join_parts (parts : list bytes) : outcome (Z * option bytes) :=
  nbu_net_join_ip (parts !! 0%nat) (parts !! 1%nat) (parts !! 2%nat) (parts !! 3%nat) (Some (local_buf 16)) 16.

(** [restart], the three addresses and [parts]. *)
Definition route_destination (parts : list bytes) : M (option bytes * list bytes) :=
  parts ← sget_parts ["route_destination_p0"; "route_destination_p1"; "route_destination_p2"; "route_destination_p3"] parts;
  '(r, dest_ip) ← lift (join_parts parts);
  if r =? 0 then mret (dest_ip, parts)
  else ewf_hdf_set_error "route_destination" "invalid_ip";; mret (None, parts).

Definition route_genmask (parts : list bytes) : M (option bytes * list bytes) :=
  parts ← sget_parts ["route_genmask_p0"; "route_genmask_p1"; "route_genmask_p2"; "route_genmask_p3"] parts;
  '(r, dest_mask) ← lift (join_parts parts);
  if r =? 0 then
    r ← lift (nbu_net_validate_netmask dest_mask);
    if r =? 0 then mret (dest_mask, parts)
    else ewf_hdf_set_error "route_genmask" "invalid_netmask";; mret (None, parts)
  else ewf_hdf_set_error "route_genmask" "invalid_netmask";; mret (None, parts).

Definition route_gateway (parts : list bytes) : M (option bytes) :=
  r ← get_buffer (from_nv "lan_ipaddr");
  if r =? NBD_SUCCESS then
    s ← site_state;
    '(r, parts) ← lift (nbu_net_split_ip (Some (st_buffer s)) parts);
    if r =? 0 then
      p3 ← lift (must (parts !! 3%nat));
      p3 ← sget_part "route_gateway_p3" p3;
      '(r, gateway_ip) ← lift (join_parts (<[3%nat := p3]> parts));
      if r =? 0 then mret gateway_ip
      else ewf_hdf_set_error "route_gateway" "invalid_ip";; mret None
    else mret None
  else mret None.

Definition route_add : M unit :=
  '(dest_ip, parts) ← route_destination parts0;
  '(dest_mask, parts) ← route_genmask parts;
  gateway_ip ← route_gateway parts;
  match dest_ip, dest_mask, gateway_ip with
  | Some dest_ip, Some dest_mask, Some gateway_ip =>
      r ← on_nbd (nbd_uroute_add dest_ip dest_mask gateway_ip);
      if negb (r =? NBD_SUCCESS) then ewf_hdf_form_set_error "unknown" else mret tt
  | _, _, _ => mret tt
  end.

(** [action] is NULL when the request has none. *)
Definition network_route_form : M unit :=
  action ← sget "action";
  action ← lift (must action);
  add ← lift (nbu_string_ncompare (cstr action) 3 (str "add"));
  if add =? NBU_STRING_EQUAL then route_add
  else
    remove ← lift (nbu_string_ncompare (cstr action) 6 (str "remove"));
    if remove =? NBU_STRING_EQUAL then
      row ← ewf_hdf_sget_int pcre_match "row";
      r ← on_nbd (nbd_uroute_del row);
      if negb (r =? NBD_SUCCESS) then ewf_hdf_form_set_error "unknown" else mret tt
    else mret tt.

(** *** network_lan.c *)
Definition network_lan_display : M unit :=
  show_parts "lan_ipaddr" ["lan_ipaddr_start_part1"; "lan_ipaddr_start_part2"; "lan_ipaddr_start_part3";
    "lan_ipaddr_start_part4"] parts0;;
  show_parts "lan_netmask" ["lan_netmask_start_part1"; "lan_netmask_start_part2"; "lan_netmask_start_part3";
    "lan_netmask_start_part4"] parts0;;
  mret tt.

(** [nbu_net_join_ip(ewf_hdf_sget(...), ..., buf, 16)]; the arguments are evaluated from
    the first to the last. *)
Definition sget_joined (n1 n2 n3 n4 : string) (buf : bytes) (len : Z) : M (Z * option bytes) :=
  p1 ← sget n1; p2 ← sget n2; p3 ← sget n3; p4 ← sget n4;
  lift (nbu_net_join_ip (cstr <$> p1) (cstr <$> p2) (cstr <$> p3) (cstr <$> p4) (Some buf) len).

Definition lan_error (ret : Z) : M unit :=
  if ret =? nbu_net_err_invalid_ip then ewf_hdf_set_error "lan_ipaddr" "invalid_ip"
  else if ret =? nbu_net_err_invalid_mask then ewf_hdf_set_error "lan_netmask" "invalid_netmask"
  else if ret =? nbu_net_err_ip_is_network then ewf_hdf_set_error "lan_ipaddr" "ip_is_network"
  else if ret =? nbu_net_err_ip_is_broadcast then ewf_hdf_set_error "lan_ipaddr" "ip_is_broadcast"
  else ewf_hdf_set_error "lan_ipaddr" "error";; ewf_hdf_set_error "lan_netmask" "error".

(** Is the address in the network of the hotspot? *)
Definition in_hotspot_net (buf_ip : bytes) : M bool :=
  c ← lift (strncmp buf_ip (str "192.168.") 8);
  if c =? 0 then
    p3 ← sget "lan_ipaddr_start_part3";
    p3 ← lift (must p3);
    mret (st_val (strtol p3 10) =? 2)
  else mret false.

Definition network_lan_form : M unit :=
  '(r, buf_ip) ← sget_joined "lan_ipaddr_start_part1" "lan_ipaddr_start_part2" "lan_ipaddr_start_part3"
                   "lan_ipaddr_start_part4" (local_buf 16) 16;
  if negb (r =? NBU_SUCCESS) then ewf_hdf_set_error "lan_ipaddr" "invalid_ip"
  else
    '(r, buf_netmask) ← sget_joined "lan_netmask_start_part1" "lan_netmask_start_part2" "lan_netmask_start_part3"
                          "lan_netmask_start_part4" (local_buf 16) 16;
    if negb (r =? NBU_SUCCESS) then ewf_hdf_set_error "lan_netmask" "invalid_netmask"
    else
      ret ← lift (nbu_net_validate_full_ip buf_ip buf_netmask);
      if negb (ret =? NBU_SUCCESS) then lan_error ret
      else
        buf_ip ← lift (must buf_ip);
        buf_netmask ← lift (must buf_netmask);
        hotspot ← in_hotspot_net buf_ip;
        if hotspot : bool then ewf_hdf_set_error "lan_ipaddr" "ip_is_in_hotspot_net"
        else
          r ← on_nbd (nbd_lan_set_ipaddr buf_ip buf_netmask);
          if r =? NBD_SUCCESS then commit;; ewf_utils_redirect "/reboot"
          else ewf_hdf_form_set_error "error".

(** *** network_dns.c *)
Definition network_dns_display : M unit :=
  with_xml (nbd_user_config_xml (str "dns")) (λ root,
    list_loop "DnshostsList" [("ip", "ip"); ("hostname", "domain")] child_txt (ezxml_children root (lit "host")) 1).

(** Was something changed? *)
Definition dns_add (k : bool → M unit) : M unit :=
  EWF_HDF_GET "dnshosts_ip_p0" (λ p0,
  EWF_HDF_GET "dnshosts_ip_p1" (λ p1,
  EWF_HDF_GET "dnshosts_ip_p2" (λ p2,
  EWF_HDF_GET "dnshosts_ip_p3" (λ p3,
  EWF_HDF_GET "dnshosts_hostname" (λ dnshosts_hostname,
  '(r, buf_ip) ← lift (nbu_net_join_ip (Some (cstr p0)) (Some (cstr p1)) (Some (cstr p2)) (Some (cstr p3))
                         (Some (local_buf 16)) 16);
  v ← (if r =? NBU_SUCCESS then lift (nbu_net_validate_ip buf_ip) else mret NBU_ERROR);
  if (r =? NBU_SUCCESS) && (v =? NBU_SUCCESS) then
    buf_ip ← lift (must buf_ip);
    ret ← on_nbd (nbd_dnshosts_add buf_ip (cstr dnshosts_hostname));
    if ret =? NBD_SUCCESS then k true
    else
      (if ret =? lan_error_dnshost_already_exist then ewf_hdf_form_set_error "duplicate"
       else if ret =? lan_error_dnshost_hostname_already_used then ewf_hdf_form_set_error "hostname_already_used"
       else ewf_hdf_form_set_error "unknown");;
      k false
  else ewf_hdf_set_error "dnshosts_ip" "invalid";; k false))))).

Definition network_dns_form : M unit :=
  EWF_HDF_GET "action" (λ action,
  let finish := λ restart : bool,
    if restart then commit;; sys_sync_run "/etc/init.d/dhcpd" "restart" else mret tt in
  add ← lift (equals (cstr action) "add");
  if add : bool then dns_add finish
  else
    EWF_HDF_GET_INT "row" (λ row,
    ret ← on_nbd (nbd_dnshosts_del row);
    if ret =? NBD_SUCCESS then finish true
    else ewf_hdf_form_set_error "unknown";; finish false)).

(** *** network_nat.c *)
Definition nat_rule_fields : list (string * string) :=
  [("RuleName", "rulename"); ("Proto", "proto"); ("ExtPort", "extport"); ("DstIP", "dstip"); ("DstPort", "dstport");
   ("Activated", "activated")].

Definition network_nat_display : M unit :=
  r ← get_buffer (from_nv "lan_ipaddr");
  (if r =? NBD_SUCCESS then
     s ← site_state;
     '(_, ip_parts) ← lift (nbu_net_split_ip (Some (st_buffer s)) parts0);
     set_parts ["DstIPPart1"; "DstIPPart2"; "DstIPPart3"] ip_parts;;
     set_parts ["ListDstIPPart1"; "ListDstIPPart2"; "ListDstIPPart3"] ip_parts;;
     set_parts ["dmz_ip0"; "dmz_ip1"; "dmz_ip2"] ip_parts
   else mret tt);;
  with_xml (nbd_user_config_xml (str "nat")) (λ root,
    list_loop "List" nat_rule_fields txt_of_child (ezxml_children root (lit "rule")) 1);;
  show (from_nv "upnpd_active") "upnpd_active";;
  count ← on_nbd nbd_nat_upnp_count;
  ewf_hdf_set_int (lit "upnpd_rules_count") (s32 count);;
  show (from_nv "dmz_active") "dmz_active";;
  r ← get_buffer (from_nv "dmz_ipaddr");
  (if r =? NBD_SUCCESS then
     s ← site_state;
     '(_, ip_parts) ← lift (nbu_net_split_ip (Some (st_buffer s)) (replicate 4 (replicate 4 0)));
     set_parts ["dmz_ip3"] (drop 3 ip_parts)
   else mret tt);;
  show (from_nv "nat_alg_sip") "sipalg_active".

(** [nbu_string_printf(field, size, text)]: the user's text is the format. *)
Definition print_as_format (size : nat) (text : bytes) : M bytes :=
  t ← lift (as_format (length text) text);
  lift (buf_of (nbu_string_printf (Some (replicate size 0)) (Z.of_nat size) t)).

(** A field of the rule; [restart] counts those that are there. *)
Definition nat_field (name : string) (size : nat) : M (option bytes) :=
  v ← sget name;
  match v with Some v => b ← print_as_format size v; mret (Some b) | None => mret None end.

(** A range [p0-p1]; [p1] is looked at only when [p0] is there. *)
Definition nat_range (n0 n1 : string) (size : nat) : M (option bytes) :=
  p0 ← sget n0;
  match p0 with
  | None => mret None
  | Some p0 =>
      p1 ← sget n1;
      match p1 with
      | None => mret None
      | Some p1 =>
          b ← lift (buf_of (nbu_string_printf (Some (replicate size 0)) (Z.of_nat size) (p0 ++ 45 :: p1)));
          mret (Some b)
      end
  end.

(** The four parts joined into the buffer, if they are an address. *)
Definition sget_ip (n0 n1 n2 n3 : string) : M bool :=
  s ← site_state;
  '(r, b) ← sget_joined n0 n1 n2 n3 (st_buffer s) 256;
  b ← lift (must b);
  mod_st (set_buffer b);;
  if r =? 0 then v ← lift (nbu_net_validate_ip (Some b)); mret (v =? 0) else mret false.

Definition nat_dstip : M (option bytes) :=
  ok ← sget_ip "nat_dstip_p0" "nat_dstip_p1" "nat_dstip_p2" "nat_dstip_p3";
  if ok : bool then
    s ← site_state;
    t ← lift (c_str (st_buffer s));
    b ← print_as_format 16 t; mret (Some b)
  else ewf_hdf_set_error "nat_dstip" "invalid_ip";; mret None.

(** The ports that are reserved. *)
Fixpoint ports_loop (nodes : list X) (number : Z) : M unit :=
  match nodes with
  | [] => mret tt
  | child :: nodes => set_item "PrivatePortList" (number + 1) "Port" (ezxml_txt child);; ports_loop nodes (number + 1)
  end.

Definition nat_error (ret : Z) (range : bool) : M unit :=
  if ret =? nat_error_invalid_protocol then ewf_hdf_set_error "nat_proto" "invalid_protocol"
  else if ret =? nat_error_invalid_ip then ewf_hdf_set_error "nat_dstip" "invalid_ip"
  else if ret =? nat_error_invalid_dstport then
    if range then ewf_hdf_set_error "nat_dstrange" "invalid_dstportrange"
    else ewf_hdf_set_error "nat_dstport" "invalid_dstport"
  else if ret =? nat_error_invalid_extport then
    if range then ewf_hdf_set_error "nat_extrange" "invalid_extportrange"
    else ewf_hdf_set_error "nat_extport" "invalid_extport"
  else if ret =? nat_error_extport_already_use then
    if range then ewf_hdf_set_error "nat_extrange" "extport_already_use"
    else ewf_hdf_set_error "nat_extport" "extport_already_use"
  else if ret =? nat_error_extport_reserved then
    (if range then ewf_hdf_set_error "nat_extrange" "extport_reserved"
     else ewf_hdf_set_error "nat_extport" "extport_reserved");;
    with_xml nbd_system_xml_privateport (λ root, ports_loop (ezxml_children root (lit "cmn")) 0)
  else ewf_hdf_form_set_error "unknown".

Definition nat_add : M unit :=
  rulename ← nat_field "nat_rulename" 16;
  proto ← nat_field "nat_proto" 8;
  r ← sget_into_buffer "nat_range";
  range ← (if r =? 0 then s ← site_state; same_text (st_buffer s) (str "true") else mret false);
  ext_port ← (if range : bool then nat_range "nat_extrange_p0" "nat_extrange_p1" 16 else nat_field "nat_extport" 16);
  dst_ip ← nat_dstip;
  dst_port ← (if range : bool then nat_range "nat_dstrange_p0" "nat_dstrange_p1" 16 else nat_field "nat_dstport" 16);
  nat_active ← sget "nat_active";
  activated ← print_as_format 4 (default (lit "off") nat_active);
  match rulename, proto, ext_port, dst_ip, dst_port with
  | Some rulename, Some proto, Some ext_port, Some dst_ip, Some dst_port =>
      ret ← on_nbd (nbd_nat_add rulename proto ext_port dst_ip dst_port activated);
      if ret =? NBD_SUCCESS then commit else nat_error ret range
  | _, _, _, _, _ => ewf_hdf_form_set_error "unknown"
  end.

Definition nat_remove : M unit :=
  name ← last_child hdf_obj_children "Query.action_remove";
  r ← on_nbd (nbd_nat_del_by_index (atoi name));
  if r =? NBD_SUCCESS then commit else mret tt.

Definition nat_activate (query active : string) : M unit :=
  name ← last_child hdf_obj_children query;
  let number := atoi name in
  if negb (number =? -1) then
    r ← on_nbd (nbd_nat_active number (str active));
    if r =? NBD_SUCCESS then commit else mret tt
  else mret tt.

Definition nat_upnpd_submit : M unit :=
  r ← sget_into_buffer "upnpd_active";
  if r =? 0 then
    s ← site_state;
    r ← on_nbd (nbd_user_config_set (str "upnpd_active") (st_buffer s));
    if r =? NBD_SUCCESS then commit;; sys_async_run "/etc/init.d/miniupnpd" "restart" else mret tt
  else mret tt.

(** A value of the request stored: was it? *)
Definition sget_store (name key : string) : M bool :=
  r ← sget_into_buffer name;
  if r =? 0 then
    s ← site_state;
    r ← on_nbd (nbd_user_config_set (str key) (st_buffer s));
    mret (r =? NBD_SUCCESS)
  else mret false.

Definition nat_dmz_submit : M unit :=
  ok ← sget_ip "dmz_ip0" "dmz_ip1" "dmz_ip2" "dmz_ip3";
  stored ← (if ok : bool then
              s ← site_state;
              r ← on_nbd (nbd_user_config_set (str "dmz_ipaddr") (st_buffer s));
              mret (r =? NBD_SUCCESS)
            else ewf_hdf_set_error "dmz_ip3" "invalid";; mret false);
  active ← sget_store "dmz_active" "dmz_active";
  if (stored : bool) || (active : bool) then on_nbd nbd_nat_dmz_setup;; commit else mret tt.

Definition nat_sipalg_submit : M unit :=
  stored ← sget_store "sipalg_active" "nat_alg_sip";
  if stored : bool then
    s ← site_state;
    on_nbd (nbd_nat_sipalg (st_buffer s));;
    commit
  else mret tt.

(** [action != NULL && nbu_string_compare(action, t) == NBU_SUCCESS]. *)
Definition action_is (action : option bytes) (t : string) : M bool :=
  match action with Some a => same_text (cstr a) (str t) | None => mret false end.

Definition network_nat_form : M unit :=
  action ← sget "action";
  add ← ewf_hdf_exist hdf_obj_children "Query.action_add";
  if add : bool then nat_add else
  remove ← ewf_hdf_exist hdf_obj_children "Query.action_remove";
  if remove : bool then nat_remove else
  disable ← ewf_hdf_exist hdf_obj_children "Query.action_disable";
  if disable : bool then nat_activate "Query.action_disable" "off" else
  enable ← ewf_hdf_exist hdf_obj_children "Query.action_enable";
  if enable : bool then nat_activate "Query.action_enable" "on" else
  upnpd ← action_is action "upnpd_submit";
  if upnpd : bool then nat_upnpd_submit else
  dmz ← action_is action "dmz_submit";
  if dmz : bool then nat_dmz_submit else
  sipalg ← action_is action "sipalg_submit";
  if sipalg : bool then nat_sipalg_submit else mret tt.

(** *** network_nat_upnp.c *)
Definition network_nat_upnp_display : M unit :=
  with_xml nbd_nat_upnp_list (λ root,
    list_loop "UpnpList" [("Proto", "proto"); ("ExtPort", "extport"); ("DstIP", "dstip"); ("DstPort", "dstport")] child_txt
      (ezxml_children root (lit "rule")) 0).

(** *** network_accesscontrol.c *)
Definition acm_host_active (n : bytes) (value : string) : M unit :=
  name ← print_name (lit "acm_host_list_n" ++ n ++ lit "_active");
  on_nbd (nbd_user_config_set (cstr name) (str value));;
  commit.

(** [nbu_string_compare(ewf_hdf_sget(name), "on")] with a value that may be NULL. *)
Definition acm_except_active (name key : string) : M unit :=
  v ← sget name;
  r ← lift (nbu_string_compare (cstr <$> v) (Some (str "on")));
  on_nbd (nbd_user_config_set (str key) (if r =? NBU_STRING_EQUAL then str "on" else str "off"));;
  mret tt.

Definition acm_except_submit : M unit :=
  hdf_to_nv "url_1" "acm_except_list_n1_url";;
  hdf_to_nv "url_2" "acm_except_list_n2_url";;
  hdf_to_nv "url_3" "acm_except_list_n3_url";;
  hdf_to_nv "url_4" "acm_except_list_n4_url";;
  hdf_to_nv "url_5" "acm_except_list_n5_url";;
  acm_except_active "active_1" "acm_except_list_n1_active";;
  acm_except_active "active_2" "acm_except_list_n2_active";;
  acm_except_active "active_3" "acm_except_list_n3_active";;
  acm_except_active "active_4" "acm_except_list_n4_active";;
  acm_except_active "active_5" "acm_except_list_n5_active";;
  commit.

Definition network_accesscontrol_form : M unit :=
  active ← sget "acm_active_submit";
  (match active with
   | Some _ => hdf_to_nv "acm_active" "acm_active";; commit
   | None =>
       disabled ← sget "action_disabled";
       match disabled with
       | Some n => acm_host_active n "off"
       | None =>
           enabled ← sget "action_enabled";
           match enabled with
           | Some n => acm_host_active n "on"
           | None =>
               except ← sget "action_except_submit";
               match except with Some _ => acm_except_submit | None => mret tt end
           end
       end
   end);;
  sys_async_run "/etc/init.d/httpfilter.sh" "restart".

(** *** network_firewall.c *)
Definition network_firewall_display : M unit :=
  show (from_nv "filter_mode") "filter_mode";;
  show (from_nv "filter_simple_winsharedrop") "filter_simple_winsharedrop";;
  show (from_nv "filter_simple_smtpdrop") "filter_simple_smtpdrop";;
  show (from_nv "filter_simple_icmpdrop") "filter_simple_icmpdrop";;
  show (from_nv "filter_simple_ipv6drop") "filter_simple_ipv6drop";;
  with_xml (nbd_user_config_xml (str "filter")) (λ root,
    list_loop "FilterList" [("RuleName", "rulename"); ("Proto", "proto"); ("Direction", "direction"); ("DstIP", "dstip");
        ("DstPort", "dstport"); ("SrcIP", "srcip"); ("SrcPort", "srcport"); ("Policy", "policy")] txt_of_child
      (ezxml_children root (lit "rule")) 1).

Definition firewall_restart : M unit :=
  sys_sync_run "/etc/init.d/ipv6" "lanfilter_restart";;
  sys_sync_run "/etc/init.d/firewall" "icmp";;
  sys_sync_run "/etc/init.d/firewall" "smtp";;
  sys_sync_run "/etc/init.d/firewall" "win".

Definition firewall_rules : M unit :=
  remove_filter_id ← ewf_hdf_sget_int pcre_match "remove_filter";
  (if 0 <? remove_filter_id then
     r ← on_nbd (nbd_firewall_del_by_index remove_filter_id);
     if r =? NBD_SUCCESS then commit else mret tt
   else mret tt);;
  add ← sget "new.add";
  match add with
  | None => mret tt
  | Some _ =>
      rulename ← sget "new.rulename";
      proto ← sget "new.proto";
      direction ← sget "new.direction";
      dstip ← sget "new.dstip";
      dstport ← sget "new.dstport";
      srcip ← sget "new.srcip";
      srcport ← sget "new.srcport";
      policy ← sget "new.policy";
      let fields := [rulename; proto; direction; dstip; dstport; srcip; srcport; policy] in
      if existsb (λ f : option bytes, if f then true else false) fields then
        ret ← on_nbd (nbd_set ([str "firewall"; str "add"] ++ until_null fields));
        if ret =? NBD_SUCCESS then commit else mret tt
      else ewf_hdf_form_set_error "unknown"
  end.

Definition network_firewall_form : M unit :=
  mode ← sget "filter_mode";
  match mode with
  | None => firewall_rules
  | Some _ =>
      EWF_HDF_GET "filter_mode" (λ filter_mode,
      winshare ← EWF_HDF_GET_DEFAULT "filter_simple_winsharedrop" "off";
      smtp ← EWF_HDF_GET_DEFAULT "filter_simple_smtpdrop" "off";
      icmp ← EWF_HDF_GET_DEFAULT "filter_simple_icmpdrop" "off";
      ipv6 ← EWF_HDF_GET_DEFAULT "filter_simple_ipv6drop" "off";
      NV_TRX_INIT (λ trx,
      NV_SET_WTRX trx "filter_mode" "filter_mode" (cstr filter_mode) (λ trx,
      NV_SET_WTRX trx "filter_simple_winsharedrop" "filter_simple_winsharedrop" (cstr winshare) (λ trx,
      NV_SET_WTRX trx "filter_simple_smtpdrop" "filter_simple_smtpdrop" (cstr smtp) (λ trx,
      NV_SET_WTRX trx "filter_simple_icmpdrop" "filter_simple_icmpdrop" (cstr icmp) (λ trx,
      NV_SET_WTRX trx "filter_simple_ipv6drop" "filter_simple_ipv6drop" (cstr ipv6) (λ trx,
      r ← NV_TRX_XCOMMIT trx;
      (if r =? NV_COMMIT_SUCCESS then firewall_restart else mret tt);;
      firewall_rules)))))))
  end.

(** *** network_ddns.c *)
Definition network_ddns_display : M unit :=
  status_to_hdf "net_data_infra" "net_data_infra";;
  show (from_status "net_data_status") "internet_status";;
  with_xml nbd_ddnsctl_status (λ root,
    ewf_hdf_set (lit "ddns_active") (Some (txt_of_child root "active"));;
    ewf_hdf_set (lit "ddns_status") (Some (txt_of_child root "status")));;
  nv_to_hdf "ddns_username" "ddns_username";;
  nv_to_hdf "ddns_password" "ddns_password";;
  r ← get_buffer (from_nv "ddns_hostname");
  if r =? NBD_SUCCESS then
    s ← site_state;
    '(r, (host, domain)) ← lift (nbu_net_split_hostname (Some (st_buffer s)) (Some (local_buf 256)) 256
                                   (Some (local_buf 256)) 256);
    if r =? 0 then
      host ← lift (must host); host ← lift (c_str host);
      domain ← lift (must domain); domain ← lift (c_str domain);
      ewf_hdf_set (lit "ddns_hostname_p0") (Some host);;
      ewf_hdf_set (lit "ddns_hostname_p1") (Some domain)
    else mret tt
  else mret tt.

(** [query_tree]: the children of [Query]. *)
Definition ewf_hdf_query_replay : M unit :=
  h ← on_cgi get_st;
  on_cgi (ewf_hdf_copy_cgi_query_tree
            (match hdf_obj_children h (lit "Query") with
             | Some l => (λ c, (Some c.1, c.2)) <$> l
             | None => []
             end));;
  mret tt.

Definition network_ddns_form : M unit :=
  EWF_HDF_GET "ddns_active" (λ ddns_active,
  EWF_HDF_GET "ddns_username" (λ ddns_username,
  EWF_HDF_GET "ddns_password" (λ ddns_password,
  EWF_HDF_GET "ddns_hostname_p0" (λ ddns_hostname_p0,
  EWF_HDF_GET "ddns_hostname_p1" (λ ddns_hostname_p1,
  '(r, ddns_hostname) ← lift (nbu_net_join_hostname (Some (cstr ddns_hostname_p0)) (Some (cstr ddns_hostname_p1))
                                (Some (local_buf 256)) 256);
  if negb (r =? NBU_SUCCESS) then ewf_hdf_query_var_error "ddns_hostname" "value";; ewf_hdf_query_replay
  else
    ddns_hostname ← lift (must ddns_hostname);
    NV_TRX_INIT (λ trx,
    NV_SET_WTRX trx "ddns_active" "ddns_active" (cstr ddns_active) (λ trx,
    NV_SET_WTRX trx "ddns_username" "ddns_username" (cstr ddns_username) (λ trx,
    NV_SET_WTRX trx "ddns_password" "ddns_password" (cstr ddns_password) (λ trx,
    NV_SET_WTRX trx "ddns_hostname" "ddns_hostname" ddns_hostname (λ trx,
    r ← NV_TRX_XCOMMIT trx;
    if r =? NV_COMMIT_SUCCESS then sys_sync_run "/etc/init.d/yaddns" "restart" else mret tt)))))))))).

(** *** network_gprs.c *)
Definition network_gprs_display : M unit :=
  status_to_hdf "gprs_active_data" "gprs_active_data";;
  status_to_hdf "gprs_device_state" "gprs_device_state";;
  status_to_hdf "gprs_sim_status" "gprs_sim_status";;
  status_to_hdf "gprs_sim_pinstatus" "gprs_sim_pinstatus";;
  status_to_hdf "gprs_sim_pinremaining" "gprs_sim_pinremaining";;
  status_to_hdf "gprs_sim_pukremaining" "gprs_sim_pukremaining";;
  nv_to_hdf "gprs_service_data" "gprs_service_data";;
  nv_to_hdf "gprs_service_voice" "gprs_service_voice";;
  nv_to_hdf "gprs_pin" "gprs_pin";;
  nv_to_hdf "gprs_apn" "gprs_apn";;
  mret tt.

Definition gprs_editcfg : M unit :=
  EWF_HDF_GET "gprs_service_data" (λ gprs_service_data,
  EWF_HDF_GET "gprs_service_voice" (λ gprs_service_voice,
  EWF_HDF_GET "gprs_pin" (λ gprs_pin,
  EWF_HDF_GET "gprs_apn" (λ gprs_apn,
  NV_TRX_INIT (λ trx,
  NV_SET_WTRX trx "gprs_service_data" "gprs_service_data" (cstr gprs_service_data) (λ trx,
  NV_SET_WTRX trx "gprs_service_voice" "gprs_service_voice" (cstr gprs_service_voice) (λ trx,
  NV_SET_WTRX trx "gprs_pin" "gprs_pin" (cstr gprs_pin) (λ trx,
  NV_SET_WTRX trx "gprs_apn" "gprs_apn" (cstr gprs_apn) (λ trx,
  r ← NV_TRX_XCOMMIT trx;
  if r =? NV_COMMIT_SUCCESS then sys_sync_run "/etc/init.d/backup3g" "reload" else mret tt))))))))).

Definition gprs_unlocksim : M unit :=
  EWF_HDF_GET "gprs_pukcode" (λ gprs_pukcode,
  EWF_HDF_GET "gprs_newpincode" (λ gprs_newpincode,
  ret ← on_nbd (nbd_backup3g_puk_unlock (cstr gprs_pukcode) (cstr gprs_newpincode));
  if ret =? NBD_SUCCESS then
    on_nbd (nbd_nv_commit (str "user"));;
    sys_sync_run "/etc/init.d/backup3g" "reload"
  else if ret =? backup3g_error_invalid_puk then ewf_hdf_query_var_error "gprs_pukcode" "invalid"
  else if ret =? backup3g_error_invalid_newpin then ewf_hdf_query_var_error "gprs_newpincode" "invalid"
  else ewf_hdf_query_error "unknown")).

Definition network_gprs_form : M unit :=
  EWF_HDF_GET "action" (λ action,
  editcfg ← lift (equals (cstr action) "editcfg");
  if editcfg : bool then gprs_editcfg
  else
    unlocksim ← lift (equals (cstr action) "unlocksim");
    if unlocksim : bool then gprs_unlocksim else mret tt).

(** *** network_wan.c; [has_net_infra_bridge] is a parameter of the build. *)
Definition network_wan_display (has_net_infra_bridge : bool) : M unit :=
  STATUS_TO_HDF "net_data_access";;
  (if has_net_infra_bridge then NV_TO_HDF "net_mode" else mret tt);;
  NV_TO_HDF "ppp_login";;
  NV_TO_HDF "ppp_password";;
  NV_TO_HDF "ipv6_enable".

(** The cursor is opened before the values of the request are looked at. *)
Definition network_wan_form (has_net_infra_bridge : bool) : M unit :=
  NV_TRX_INIT (λ trx,
  net_mode ← EWF_HDF_GET_DEFAULT "net_mode" "router";
  EWF_HDF_GET "ppp_login" (λ ppp_login,
  EWF_HDF_GET "ppp_password" (λ ppp_password,
  ipv6_enable ← EWF_HDF_GET_DEFAULT "ipv6_enable" "off";
  reboot ← (if has_net_infra_bridge then
              r ← on_nbd (nbd_user_config_set (str "net_mode") (cstr net_mode));
              if r =? NV_SET_SUCCESS then on_nbd (nbd_nv_commit (str "user"));; mret true else mret false
            else mret false);
  NV_SET_WTRX trx "ppp_login" "ppp_login" (cstr ppp_login) (λ trx,
  NV_SET_WTRX trx "ppp_password" "ppp_password" (cstr ppp_password) (λ trx,
  NV_SET_WTRX trx "ipv6_enable" "ipv6_enable" (cstr ipv6_enable) (λ trx,
  r ← NV_TRX_XCOMMIT trx;
  (if r =? NV_COMMIT_SUCCESS
   then sys_async_run "/etc/init.d/ppp" "reload";; sys_async_run "/etc/init.d/ipv6" "reload"
   else mret tt);;
  if reboot : bool then ewf_utils_redirect "/reboot" else mret tt)))))).

(** *** network.c *)
Definition network_form : M unit :=
  EWF_HDF_GET "stbconfig" (λ stbconfig,
  EWF_HDF_GET "stbconfig_iface" (λ stbconfig_iface,
  NV_TRX_INIT (λ trx,
  NV_SET_WTRX trx "tv_config" "stbconfig" (cstr stbconfig) (λ trx,
  NV_SET_WTRX trx "tv_ifname" "stbconfig_iface" (cstr stbconfig_iface) (λ trx,
  r ← NV_TRX_XCOMMIT trx;
  if r =? NV_COMMIT_SUCCESS then sys_async_run "/etc/init.d/igmp" "restart" else mret tt))))).

(** *** Lists of hosts *)
Definition host_fields : list (string * string) :=
  [("name", "hostname"); ("ip", "ipaddr"); ("mac", "macaddr"); ("iface", "port")].

(** [nbu_string_compare(ezxml_child_txt(node, child), t) == NBU_SUCCESS]. *)
Definition child_is (child t : string) (node : X) : M bool := same_text (cstr (child_txt node child)) (str t).

(** The nodes that are [shown], numbered from one. *)
Fixpoint hosts_loop (label : string) (fields : list (string * string)) (shown : X → M bool) (nodes : list X) (n : Z)
    : M unit :=
  match nodes with
  | [] => mret tt
  | node :: nodes =>
      b ← shown node;
      if b : bool then
        set_fields label (n + 1) fields (child_txt node);; hosts_loop label fields shown nodes (n + 1)
      else hosts_loop label fields shown nodes n
  end.

Definition show_hosts (label : string) (fields : list (string * string)) (shown : X → M bool) : M unit :=
  with_xml (nbd_status_xml (str "lan_topology")) (λ root,
    hosts_loop label fields shown (ezxml_children root (lit "device")) 0).

(** *** wifi.c *)
Definition wifi_key : M unit :=
  s ← site_state;
  wep ← lift (equals (st_buffer s) "WEP");
  if wep : bool then
    nv_to_hdf "wlan_wl0_wepkeys_n0" "wifi_key";; nv_to_hdf "wlan_wl0_keytype" "wifi_keytype";; mret tt
  else
    wpa ← lift (equals (st_buffer s) "WPA-PSK");
    wpa ← (if wpa : bool then mret true else lift (equals (st_buffer s) "WPA2-PSK"));
    wpa ← (if wpa : bool then mret true else lift (equals (st_buffer s) "WPA-WPA2-PSK"));
    if wpa : bool then
      nv_to_hdf "wlan_wl0_wpakey" "wifi_key";; nv_to_hdf "wlan_wl0_enctype" "wifi_keytype";; mret tt
    else mret tt.

Definition wifi_display : M unit :=
  show nbd_wlan_active "wifi_status";;
  nv_to_hdf "wlan_wl0_ssid" "wifi_ssid";;
  nv_to_hdf "wlan_closed" "wifi_closed";;
  (if NB5 then mret tt else show (from_nv "wlan_autochannel") "wifi_autochannel");;
  show nbd_wlan_get_current_channel "wifi_channel";;
  (if NB5 || NB6 then show (from_nv "wlan_ht40") "wifi_ht40" else mret tt);;
  show (from_nv "wlan_mode") "wifi_mode";;
  r ← get_buffer (from_nv "wlan_wl0_enc");
  (if r =? NBD_SUCCESS then set_from_buffer "wifi_encryption";; wifi_key else mret tt);;
  show nbd_wlan_macfiltering_mode "wifi_macfiltering";;
  show_hosts "hosts" host_fields (child_is "port" "wlan0").

(** *** wifi_config.c *)
Definition wifi_config_display : M unit :=
  show nbd_wlan_active "ap_active";;
  show (from_status "wlan_wlan0_cap_interrupter") "wlan_cap.wlan0.interrupter";;
  nv_to_hdf "wlan_wl0_ssid" "ap_ssid";;
  nv_to_hdf "wlan_closed" "ap_closed";;
  r ← get_buffer (from_nv "wlan_autochannel");
  (if r =? NBD_SUCCESS then
     s ← site_state;
     on ← lift (strncmp (st_buffer s) (str "on") 2);
     if on =? 0 then ewf_hdf_set (lit "ap_channel") (Some (lit "auto"))
     else nv_to_hdf "wlan_channel" "ap_channel";; mret tt
   else mret tt);;
  nv_to_hdf "wlan_mode" "ap_mode";;
  if NB5 || NB6 then nv_to_hdf "wlan_ht40" "ap_ht40";; mret tt else mret tt.

(** Was the access point switched? *)
Definition wifi_switch (ap_active : bytes) : M bool :=
  off ← lift (equals (cstr ap_active) "off");
  if off : bool then
    on_nbd nbd_wlan_stop;;
    on_nbd nbd_wlan_disable;;
    commit;;
    mret true
  else
    on ← lift (equals (cstr ap_active) "on");
    if on : bool then
      r ← on_nbd nbd_wlan_enable;
      if r =? NBD_SUCCESS then commit;; mret true else mret false
    else mret false.

(** The literals are values as well: their text with the quotes is the name of the
    error. *)
Definition quoted (t : string) : bytes := 34 :: lit t ++ [34].

Definition set_channel (trx : trx) (ap_channel : bytes) (k : Www.trx → M unit) : M unit :=
  auto ← lift (equals (cstr ap_channel) "auto");
  if auto : bool then NV_SET_WTRX_as trx "wlan_autochannel" (quoted "on") (str "on") k
  else
    NV_SET_WTRX_as trx "wlan_autochannel" (quoted "off") (str "off") (λ trx,
    NV_SET_WTRX trx "wlan_channel" "ap_channel" (cstr ap_channel) k).

Definition set_ht40 (trx : trx) (ap_ht40 : bytes) (k : Www.trx → M unit) : M unit :=
  if NB5 || NB6 then NV_SET_WTRX trx "wlan_ht40" "ap_ht40" (cstr ap_ht40) k else k trx.

Definition wifi_config_form : M unit :=
  NV_GET "wlan_wl0_enc" 64 (λ wlan_wl0_enc,
  EWF_HDF_GET "ap_active" (λ ap_active,
  EWF_HDF_GET "ap_mode" (λ ap_mode,
  EWF_HDF_GET "ap_ssid" (λ ap_ssid,
  EWF_HDF_GET "ap_closed" (λ ap_closed,
  EWF_HDF_GET "ap_channel" (λ ap_channel,
  ap_ht40 ← (if NB5 || NB6 then EWF_HDF_GET_DEFAULT "ap_ht40" "off" else mret []);
  c ← lift (nbl_wlan_check_compatibility (cstr ap_mode) wlan_wl0_enc);
  if negb (c =? wlan_compatibility_ok) then ewf_hdf_form_set_error "enc_mode_incompatibility"
  else
    switched ← wifi_switch ap_active;
    NV_TRX_INIT (λ trx,
    NV_SET_WTRX trx "wlan_wl0_ssid" "ap_ssid" (cstr ap_ssid) (λ trx,
    NV_SET_WTRX trx "wlan_closed" "ap_closed" (cstr ap_closed) (λ trx,
    set_channel trx ap_channel (λ trx,
    NV_SET_WTRX trx "wlan_mode" "ap_mode" (cstr ap_mode) (λ trx,
    set_ht40 trx ap_ht40 (λ trx,
    r ← NV_TRX_XCOMMIT trx;
    if (switched : bool) || (r =? NV_COMMIT_SUCCESS) then on_nbd nbd_wlan_restart;; mret tt else mret tt)))))))))))).

(** *** wifi_security.c *)
Definition wifi_security_display : M unit :=
  nv_to_hdf "wlan_wl0_enc" "wlan_encryptiontype";;
  nv_to_hdf "wlan_wl0_keytype" "wlan_keytype";;
  nv_to_hdf "wlan_wl0_wepkeys_n0" "wlan_wepkey";;
  nv_to_hdf "wlan_wl0_enctype" "wlan_wpaenctype";;
  nv_to_hdf "wlan_wl0_wpakey" "wlan_wpakey";;
  mret tt.

Definition wifi_security_finish (trx : trx) : M unit :=
  r ← NV_TRX_XCOMMIT trx;
  if r =? NV_COMMIT_SUCCESS then on_nbd nbd_wlan_restart;; mret tt else mret tt.

(** [wlan_keytype] is used as a text of the error. *)
Definition security_wep (wlan_encryptiontype : bytes) : M unit :=
  EWF_HDF_GET "wlan_keytype" (λ wlan_keytype,
  hexa ← lift (equals (cstr wlan_keytype) "hexa");
  pattern ← on_cgi (ewf_hdf_get_env (if hexa : bool then lit "Var.wlan_wepkey.Regex.hexa"
                                     else lit "Var.wlan_wepkey.Regex.ascii"));
  wlan_wepkey ← on_cgi (ewf_hdf_get (lit "wlan_wepkey"));
  if ewf_utils_pcre_validate pcre_match wlan_wepkey pattern =? NBU_ERROR
  then on_cgi (EwfHdf.ewf_hdf_set_error (Some (lit "wlan_wepkey")) wlan_keytype);; mret tt
  else
    NV_TRX_INIT (λ trx,
    NV_SET_WTRX trx "wlan_wl0_enc" "wlan_encryptiontype" (cstr wlan_encryptiontype) (λ trx,
    NV_SET_WTRX trx "wlan_wl0_keytype" "wlan_keytype" (cstr wlan_keytype) (λ trx,
    match wlan_wepkey with
    | Some wlan_wepkey => NV_SET_WTRX trx "wlan_wl0_wepkeys_n0" "wlan_wepkey" (cstr wlan_wepkey) wifi_security_finish
    | None => wifi_security_finish trx
    end)))).

Definition security_wpa (wlan_encryptiontype : bytes) : M unit :=
  EWF_HDF_GET "wlan_wpaenctype" (λ wlan_wpaenctype,
  EWF_HDF_GET "wlan_wpakey" (λ wlan_wpakey,
  wpa2 ← lift (equals (cstr wlan_encryptiontype) "WPA2-PSK");
  let wlan_wpaenctype := if wpa2 : bool then lit "aes" else wlan_wpaenctype in
  NV_TRX_INIT (λ trx,
  NV_SET_WTRX trx "wlan_wl0_enc" "wlan_encryptiontype" (cstr wlan_encryptiontype) (λ trx,
  NV_SET_WTRX trx "wlan_wl0_wpakey" "wlan_wpakey" (cstr wlan_wpakey) (λ trx,
  NV_SET_WTRX trx "wlan_wl0_enctype" "wlan_wpaenctype" (cstr wlan_wpaenctype) wifi_security_finish))))).

Definition wifi_security_form : M unit :=
  NV_GET "wlan_mode" 32 (λ wlan_mode,
  EWF_HDF_GET "wlan_encryptiontype" (λ wlan_encryptiontype,
  c ← lift (nbl_wlan_check_compatibility wlan_mode (cstr wlan_encryptiontype));
  if negb (c =? wlan_compatibility_ok) then ewf_hdf_form_set_error "enc_mode_incompatibility"
  else
    wep ← lift (equals (cstr wlan_encryptiontype) "WEP");
    if wep : bool then security_wep wlan_encryptiontype else security_wpa wlan_encryptiontype)).

(** *** wifi_macfiltering.c *)
Fixpoint macs_loop (nodes : list X) (n : Z) : M unit :=
  match nodes with
  | [] => mret tt
  | node :: nodes =>
      name ← print_name (lit "List." ++ fmt_d (n + 1));
      ewf_hdf_set name (Some (ezxml_txt node));;
      macs_loop nodes (n + 1)
  end.

Definition wifi_macfiltering_display : M unit :=
  show nbd_wlan_macfiltering_mode "MACFiltering";;
  with_xml (nbd_user_config_xml (str "wlan_filter")) (λ root, macs_loop (ezxml_children root (lit "mac")) 0).

Definition raw (name : string) : M (option bytes) := v ← on_cgi (ewf_hdf_get (lit name)); mret (cstr <$> v).

Definition macfiltering_add : M bool :=
  p0 ← raw "mac_address_p0"; p1 ← raw "mac_address_p1"; p2 ← raw "mac_address_p2";
  p3 ← raw "mac_address_p3"; p4 ← raw "mac_address_p4"; p5 ← raw "mac_address_p5";
  s ← site_state;
  '(r, b) ← lift (nbu_net_join_mac p0 p1 p2 p3 p4 p5 (Some (st_buffer s)) 256);
  b ← lift (must b);
  mod_st (set_buffer b);;
  v ← (if r =? NBU_SUCCESS then lift (nbu_net_validate_mac (Some b)) else mret NBU_ERROR);
  ret ← (if (r =? NBU_SUCCESS) && (v =? NBU_SUCCESS) then on_nbd (nbd_wlan_add_mac b) else mret NBD_ERROR);
  if ret =? NBD_SUCCESS then mret true
  else if ret =? wlan_error_mac_already_used then ewf_hdf_set_error "mac_address" "alreadyused";; mret false
  else ewf_hdf_set_error "mac_address" "invalid";; mret false.

(** [action] is NULL when the request has none. *)
Definition wifi_macfiltering_form : M unit :=
  mac_filtering ← sget "mac_filtering";
  restart ← match mac_filtering with
            | Some mode => on_nbd (nbd_wlan_macfiltering (cstr mode));; mret true
            | None =>
                action ← sget "action";
                action ← lift (must action);
                add ← lift (equals (cstr action) "add");
                if add : bool then macfiltering_add
                else
                  remove ← lift (equals (cstr action) "remove");
                  if remove : bool then
                    r ← sget_into_buffer "mac_address";
                    if r =? EWF_SUCCESS then
                      s ← site_state;
                      on_nbd (nbd_wlan_del_mac (st_buffer s));;
                      mret true
                    else mret false
                  else mret false
            end;
  if restart : bool then commit else mret tt.

(** *** hotspot.c *)
Definition hotspot_display : M unit :=
  disabled ← on_nbd (nbd_autoconf_matches (str "hotspot_enable") "false");
  (if disabled : bool then ewf_hdf_set (lit "hotspot_enable") (Some (lit "false")) else mret tt);;
  status_to_hdf "hotspot_status" "hotspot_status";;
  nv_to_hdf "hotspot_active" "hotspot_active";;
  off ← on_nbd (NbdVoip.nbd_user_config_matches (str "hotspot_active") "off");
  (if off : bool then on_cgi (ewf_hdf_owset (Some (lit "hotspot_status")) (Some (lit "off")));; mret tt else mret tt);;
  nv_to_hdf "hotspot_mode" "hotspot_mode";;
  show nbd_hotspot_ssid "hotspot_ssid";;
  with_xml (nbd_status_xml (str "hotspot")) (λ root,
    list_loop "hotspot_assoc_list" [("ipaddr", "ipaddr"); ("macaddr", "macaddr")] child_txt
      (ezxml_children root (lit "assoc")) 1).

Definition hotspot_ajax : M unit :=
  show (nbd_autoconf_get (str "hotspot_enable")) "hotspot_enable";;
  show (from_nv "hotspot_active") "hotspot_active";;
  show (from_status "hotspot_status") "hotspot_status";;
  show nbd_hotspot_ssid "hotspot_ssid".

(** *** hotspot_config.c *)
Definition hotspot_config_display : M unit :=
  disabled ← on_nbd (nbd_autoconf_matches (str "hotspot_enable") "false");
  (if disabled : bool then ewf_hdf_set (lit "hotspot_enable") (Some (lit "false")) else mret tt);;
  status_to_hdf "hotspot_status" "hotspot_status";;
  nv_to_hdf "hotspot_active" "hotspot_active";;
  nv_to_hdf "hotspot_mode" "hotspot_mode";;
  show nbd_hotspot_ssid "hotspot_ssid".

Definition hotspot_on (hotspot_active : bytes) : M unit :=
  hotspot_conditions ← EWF_HDF_GET_DEFAULT "hotspot_conditions" "decline";
  EWF_HDF_GET "hotspot_mode" (λ hotspot_mode,
  accept ← lift (equals (cstr hotspot_conditions) "accept");
  if negb accept then ewf_hdf_set_error "hotspot_conditions" "no_accept"
  else
    NV_TRX_INIT (λ trx,
    NV_SET_WTRX trx "hotspot_active" "hotspot_active" (cstr hotspot_active) (λ trx,
    NV_SET_WTRX trx "hotspot_mode" "hotspot_mode" (cstr hotspot_mode) (λ trx,
    r ← NV_TRX_XCOMMIT trx;
    if r =? NV_COMMIT_SUCCESS then
      fon ← lift (equals (cstr hotspot_mode) "sfr_fon");
      (if fon : bool then ewf_hdf_set (lit "hotspot_chosefon") (Some (lit "yes")) else mret tt);;
      get_buffer (from_status "net_data_access");;
      s ← site_state;
      gprs ← same_text (st_buffer s) (str "gprs");
      if gprs : bool then mret tt
      else ewf_hdf_set (lit "Page.Action") (Some (lit "work"));; on_nbd nbd_hotspot_restart;; mret tt
    else mret tt)))).

Definition hotspot_off (hotspot_active : bytes) : M unit :=
  NV_TRX_INIT (λ trx,
  NV_SET_WTRX trx "hotspot_active" "hotspot_active" (cstr hotspot_active) (λ trx,
  r ← NV_TRX_XCOMMIT trx;
  if r =? NV_COMMIT_SUCCESS then
    ewf_hdf_set (lit "Page.Action") (Some (lit "work"));; on_nbd nbd_hotspot_stop;; mret tt
  else mret tt)).

Definition hotspot_config_form : M unit :=
  disabled ← on_nbd (nbd_autoconf_matches (str "hotspot_enable") "false");
  if disabled : bool then mret tt
  else
    EWF_HDF_GET "hotspot_active" (λ hotspot_active,
    on ← lift (equals (cstr hotspot_active) "on");
    if on : bool then hotspot_on hotspot_active
    else
      off ← lift (equals (cstr hotspot_active) "off");
      if off : bool then hotspot_off hotspot_active else mret tt).

(** *** eco.c, eco_config.c *)
Definition eco_display : M unit :=
  status_to_hdf "eco_status" "eco_status";;
  nv_to_hdf "eco_profile" "eco_profile";;
  nv_to_hdf "eco_voip_active" "eco_voip_active";;
  nv_to_hdf "eco_cpl_active" "eco_cpl_active";;
  mret tt.

Definition eco_config_display : M unit :=
  NV_TO_HDF "eco_profile";;
  NV_TO_HDF "eco_voip_active";;
  NV_TO_HDF "eco_cpl_active";;
  NV_TO_HDF "eco_link_lan1_active";;
  NV_TO_HDF "eco_link_lan2_active";;
  NV_TO_HDF "eco_link_lan3_active";;
  NV_TO_HDF "eco_link_lan4_active";;
  NV_TO_HDF "eco_link_ftth_active";;
  NV_TO_HDF "eco_link_lan1_eee";;
  NV_TO_HDF "eco_link_lan2_eee";;
  NV_TO_HDF "eco_link_lan3_eee";;
  NV_TO_HDF "eco_link_lan4_eee";;
  NV_TO_HDF "eco_link_ftth_eee";;
  NV_TO_HDF "eco_led_active".

(** Entries whose names in the configuration and in the request are the same. *)
Fixpoint set_all (trx : trx) (values : list (string * bytes)) (k : Www.trx → M unit) : M unit :=
  match values with
  | [] => k trx
  | (name, v) :: values => NV_SET_WTRX trx name name (cstr v) (λ trx, set_all trx values k)
  end.

Definition eco_config_form : M unit :=
  EWF_HDF_GET "eco_profile" (λ eco_profile,
  eco_voip_active ← EWF_HDF_GET_DEFAULT "eco_voip_active" "on";
  eco_cpl_active ← EWF_HDF_GET_DEFAULT "eco_cpl_active" "on";
  EWF_HDF_GET "eco_link_lan1_active" (λ lan1,
  EWF_HDF_GET "eco_link_lan2_active" (λ lan2,
  EWF_HDF_GET "eco_link_lan3_active" (λ lan3,
  EWF_HDF_GET "eco_link_lan4_active" (λ lan4,
  EWF_HDF_GET "eco_link_ftth_active" (λ ftth,
  lan1_eee ← EWF_HDF_GET_DEFAULT "eco_link_lan1_eee" "off";
  lan2_eee ← EWF_HDF_GET_DEFAULT "eco_link_lan2_eee" "off";
  lan3_eee ← EWF_HDF_GET_DEFAULT "eco_link_lan3_eee" "off";
  lan4_eee ← EWF_HDF_GET_DEFAULT "eco_link_lan4_eee" "off";
  ftth_eee ← EWF_HDF_GET_DEFAULT "eco_link_ftth_eee" "off";
  EWF_HDF_GET "eco_led_active" (λ eco_led_active,
  NV_TRX_INIT (λ trx,
  set_all trx [("eco_profile", eco_profile); ("eco_voip_active", eco_voip_active); ("eco_cpl_active", eco_cpl_active);
    ("eco_link_lan1_active", lan1); ("eco_link_lan2_active", lan2); ("eco_link_lan3_active", lan3);
    ("eco_link_lan4_active", lan4); ("eco_link_ftth_active", ftth); ("eco_link_lan1_eee", lan1_eee);
    ("eco_link_lan2_eee", lan2_eee); ("eco_link_lan3_eee", lan3_eee); ("eco_link_lan4_eee", lan4_eee);
    ("eco_link_ftth_eee", ftth_eee); ("eco_led_active", eco_led_active)] (λ trx,
  r ← NV_TRX_XCOMMIT trx;
  if r =? NV_COMMIT_SUCCESS then on_nbd nbd_eco_update;; mret tt else mret tt))))))))).

(** *** service.c, service_printer.c *)
Definition service_display : M unit :=
  with_xml nbd_sambactl_status (λ root,
    ewf_hdf_set (lit "samba_active") (Some (txt_of_child root "active"));;
    ewf_hdf_set (lit "samba_state") (Some (txt_of_child root "state"));;
    ewf_hdf_set (lit "samba_codeno") (Some (txt_of_child root "codeno")));;
  status_to_hdf "p910nd_status" "print_server_status";;
  with_xml nbd_usharectl_status (λ root,
    ewf_hdf_set (lit "upnpav_active") (Some (txt_of_child root "active"));;
    ewf_hdf_set (lit "upnpav_state") (Some (txt_of_child root "state"));;
    ewf_hdf_set (lit "upnpav_codeno") (Some (txt_of_child root "codeno"))).

Definition service_printer_display : M unit :=
  show (from_status "p910nd_status") "PrinterSharingStatus";;
  show (from_nv "p910nd_bidir") "PrinterSharingBidir".

Definition service_printer_form : M unit :=
  EWF_HDF_GET "printer_sharing_bidir" (λ printer_sharing_bidir,
  NV_TRX_INIT (λ trx,
  NV_SET_WTRX trx "p910nd_bidir" "printer_sharing_bidir" (cstr printer_sharing_bidir) (λ trx,
  r ← NV_TRX_XCOMMIT trx;
  if r =? NV_COMMIT_SUCCESS then sys_async_run "/etc/init.d/p910nd" "restart" else mret tt))).

(** *** index.c *)
Fixpoint gruiks_loop (nodes : list X) (cpt : Z) : M unit :=
  match nodes with
  | [] => mret tt
  | node :: nodes =>
      name ← print_name (lit "gruiks." ++ fmt_d cpt);
      ewf_hdf_set name (Some (ezxml_txt node));;
      gruiks_loop nodes (cpt + 1)
  end.

Definition index_display : M unit :=
  show (from_status "net_data_access") "internet_access";;
  show (from_status "net_data_status") "internet_status";;
  show (from_status "net_voip_access") "voip_access";;
  show (from_status "voip_up") "voip_status";;
  show nbl_tv_get_status "tv_status";;
  with_xml nbd_gruiks (λ root, gruiks_loop (ezxml_children root (lit "gruik")) 0);;
  STATUS_TO_HDF "ipv6_status";;
  STATUS_TO_HDF "ipv6_lock";;
  NV_TO_HDF "ipv6_enable".

(** *** state_voip.c *)
Definition state_voip_form : M unit :=
  EWF_HDF_GET "action" (λ action,
  cleanup ← lift (equals (cstr action) "cleanup");
  if cleanup : bool then on_nbd NbdVoip.nbd_voip_callhistory_flush;; mret tt
  else
    led ← lift (equals (cstr action) "led_notification");
    if led : bool then
      EWF_HDF_GET "led_notification_active" (λ led_notification_active,
      NV_TRX_INIT (λ trx,
      NV_SET_WTRX trx "voip_usermissedcall" "led_notification_active" (cstr led_notification_active) (λ trx,
      r ← NV_TRX_XCOMMIT trx;
      if r =? NV_COMMIT_SUCCESS then on_nbd NbdVoip.nbd_voip_manage_missed_calls;; mret tt else mret tt)))
    else
      conf ← lift (equals (cstr action) "conf");
      if conf : bool then
        EWF_HDF_GET "callhistory_active" (λ callhistory_active,
        NV_TRX_INIT (λ trx,
        NV_SET_WTRX trx "voip_callhistory" "callhistory_active" (cstr callhistory_active) (λ trx,
        r ← NV_TRX_XCOMMIT trx;
        if r =? NV_COMMIT_SUCCESS then on_nbd NbdVoip.nbd_voip_callhistory_flush;; mret tt else mret tt)))
      else mret tt).

Definition state_voip_ajax : M unit :=
  show (from_status "voip_up") "voip_linestatus";;
  show nbl_voip_get_hook_status "voip_hookstatus";;
  show (from_status "net_voip_access") "voip_access".

(** *** state_device_plug.c, lanpopup.c *)
Definition state_device_plug_display : M unit := show_hosts "hosts" host_fields (child_is "type" "plc").

Definition lanpopup_display : M unit :=
  iface_wanted ← sget "portfilter";
  (match iface_wanted with Some i => ewf_hdf_set (lit "PortFilter") (Some i) | None => mret tt end);;
  show_hosts "hosts" host_fields (λ node,
    wanted ← match iface_wanted with
             | None => mret true
             | Some i => same_text (cstr (child_txt node "port")) (cstr i)
             end;
    if wanted : bool then child_is "type" "pc" node else mret false);;
  ip ← on_web EwfDispatch.ewf_utils_client_ip;
  ewf_hdf_set (lit "RemoteAddress") ip.

(** *** reboot.c, rootfs.c, maintenance.c *)
Definition reboot_form (pid : Z) : M unit :=
  ewf_hdf_set (lit "IsRebooting") (Some (lit "true"));;
  nbl_utils_box_reboot pid;;
  mret tt.

Definition rootfs_display : M unit :=
  r ← get_buffer (from_nv "rootfs");
  if r =? NBD_SUCCESS then set_from_buffer "rootfs_choose"
  else ewf_hdf_set (lit "rootfs_choose") (Some (lit "flash")).

Definition rootfs_form : M unit :=
  r ← sget_into_buffer "rootfs";
  if r =? NBD_SUCCESS then
    s ← site_state;
    r ← on_nbd (nbd_sys_set_rootfs (st_buffer s));
    if r =? NBD_SUCCESS then commit;; ewf_utils_redirect "/reboot" else mret tt
  else mret tt.

Definition owset (name value : string) : M unit :=
  on_cgi (ewf_hdf_owset (Some (lit name)) (Some (lit value)));; mret tt.

Definition maintenance_display : M unit :=
  show (from_nv "web_auth") "web_auth";;
  if NB5 then mret tt
  else
    ewf_hdf_set (lit "ADSLProfile") (Some (lit "auto"));;
    r ← get_buffer (from_nv "adsl_profile");
    if r =? NBD_SUCCESS then
      s ← site_state;
      manual ← same_text (st_buffer s) (str "0");
      if manual : bool then owset "ADSLProfile" "manual"
      else
        rescue ← same_text (st_buffer s) (str "6");
        owset "ADSLProfile" (if rescue : bool then "rescue" else "auto")
    else mret tt.

(** *** maintenance_dsl_config.c *)
Definition maintenance_dsl_config_display : M unit :=
  show nbd_dsl_mod_get "DslMod";;
  show nbd_dsl_lpair_get "DslLpair";;
  show nbd_dsl_trellis_get "DslTrellis";;
  show nbd_dsl_snr_get "DslSnr";;
  show nbd_dsl_bitswap_get "DslBitswap";;
  show nbd_dsl_sesdrop_get "DslSesdrop";;
  show nbd_dsl_sra_get "DslSra";;
  show (from_status "adsl_diag") "DslDiag".

(** [strncat(buffer, v ? v : "", 1)]. *)
Definition cat_first (buffer : bytes) (v : option bytes) : outcome bytes :=
  match v with
  | Some (c :: _) => n ← strlen buffer; buffer ← wr buffer n c; wr buffer (n + 1) 0
  | _ => Ret buffer
  end.

Fixpoint cat_all (buffer : bytes) (vs : list (option bytes)) : outcome bytes :=
  match vs with [] => Ret buffer | v :: vs => buffer ← cat_first buffer v; cat_all buffer vs end.

Fixpoint get_all (names : list string) : M (list (option bytes)) :=
  match names with
  | [] => mret []
  | n :: names => v ← on_cgi (ewf_hdf_get (lit n)); vs ← get_all names; mret (v :: vs)
  end.

(** A parameter of the line: was it stored? *)
Definition dsl_store (name : string) (store : bytes → cmd D Z) : M bool :=
  r ← sget_into_buffer name;
  if r =? 0 then s ← site_state; r ← on_nbd (store (st_buffer s)); mret (r =? NBD_SUCCESS) else mret false.

Definition dsl_diag : M unit :=
  r ← sget_into_buffer "dsl_diag";
  if r =? 0 then
    s ← site_state;
    on ← lift (equals (st_buffer s) "on");
    on_nbd (if on : bool then nbd_dsl_diag_start else nbd_dsl_diag_stop);; mret tt
  else mret tt.

Definition maintenance_dsl_config_form : M unit :=
  mods ← get_all ["dsl_mod_a"; "dsl_mod_d"; "dsl_mod_l"; "dsl_mod_t"; "dsl_mod_2"; "dsl_mod_p"; "dsl_mod_e"; "dsl_mod_m"];
  s ← site_state;
  b ← lift (b ← wr (st_buffer s) 0 0; cat_all b mods);
  mod_st (set_buffer b);;
  r ← on_nbd (nbd_dsl_mod_set b);
  let modulation := r =? NBD_SUCCESS in
  lpair ← dsl_store "dsl_lpair" nbd_dsl_lpair_set;
  trellis ← dsl_store "dsl_trellis" nbd_dsl_trellis_set;
  snr ← dsl_store "dsl_snr" nbd_dsl_snr_set;
  bitswap ← dsl_store "dsl_bitswap" nbd_dsl_bitswap_set;
  sesdrop ← dsl_store "dsl_sesdrop" nbd_dsl_sesdrop_set;
  sra ← dsl_store "dsl_sra" nbd_dsl_sra_set;
  dsl_diag;;
  if existsb (λ b : bool, b) [modulation; lpair; trellis; snr; bitswap; sesdrop; sra] then
    on_nbd (nbd_user_config_set (str "adsl_profile") (str "0"));;
    on_nbd nbd_dsl_restart;;
    mret tt
  else mret tt.

(** *** stb/stb_info.c *)
Definition stb_fields : list (string * string) :=
  [("name", "hostname"); ("ip", "ipaddr"); ("mac", "macaddr"); ("port", "port")].

Definition constants (values : list (string * string)) : M unit :=
  foldr (λ kv m, ewf_hdf_set (lit kv.1) (Some (lit kv.2));; m) (mret tt) values.

Definition stb_ftth : M unit :=
  constants [("dsl_profile", "1"); ("dsl_downstreamrate", "20000"); ("dsl_upstreamrate", "20000");
    ("dsl_downstreamnoise", "5"); ("dsl_upstreamnoise", "5"); ("dsl_downstreamattn", "5"); ("dsl_upstreamattn", "5");
    ("dsl_linemode", "G.DMT"); ("dsl_crc", "0")];;
  status_to_hdf "net_data_status" "dsl_status";;
  status_to_hdf "net_data_uptime" "dsl_uptime";;
  status_to_hdf "net_data_counter" "dsl_counter";;
  status_to_hdf "net_data_status" "ppp_status";;
  status_to_hdf "net_data_uptime" "ppp_uptime";;
  status_to_hdf "net_data_counter" "ppp_counter";;
  status_to_hdf "net_data_gateway" "ppp_server";;
  status_to_hdf "net_data_ipaddr" "ppp_ipaddr";;
  status_to_hdf "net_data_gateway" "ppp_gateway";;
  mret tt.

Definition stb_adsl : M unit :=
  nv_to_hdf "adsl_profile" "dsl_profile";;
  status_to_hdf "adsl_status" "dsl_status";;
  status_to_hdf "adsl_uptime" "dsl_uptime";;
  status_to_hdf "adsl_counter" "dsl_counter";;
  show nbd_dsl_rate_down_get "dsl_downstreamrate";;
  show nbd_dsl_rate_up_get "dsl_upstreamrate";;
  show nbd_dsl_noise_down_get "dsl_downstreamnoise";;
  show nbd_dsl_noise_up_get "dsl_upstreamnoise";;
  show nbd_dsl_attenuation_down_get "dsl_downstreamattn";;
  show nbd_dsl_attenuation_up_get "dsl_upstreamattn";;
  show nbd_dsl_linemode_get "dsl_linemode";;
  show nbd_dsl_crc_get "dsl_crc";;
  status_to_hdf "ppp_adsl_status" "ppp_status";;
  status_to_hdf "ppp_adsl_uptime" "ppp_uptime";;
  status_to_hdf "ppp_adsl_counter" "ppp_counter";;
  status_to_hdf "ppp_adsl_gateway" "ppp_server";;
  status_to_hdf "ppp_adsl_ipaddr" "ppp_ipaddr";;
  status_to_hdf "ppp_adsl_gateway" "ppp_gateway";;
  mret tt.

Definition stb_info_display (has_net_infra_ftth has_net_infra_adsl : bool) : M unit :=
  on_web (EwfDispatch.ewf_renderer_force_content_type_output EwfDispatch.CONTENT_TYPE_XML);;
  status_to_hdf "version_mainfirmware" "version_mainfirmware";;
  status_to_hdf "version_rescuefirmware" "version_rescuefirmware";;
  status_to_hdf "productID" "productID";;
  status_to_hdf "mac_addr" "mac_addr";;
  '(r, net_infra) ← on_nbd (nbd_status_get (str "net_tv_access") (local_buf 256) 256);
  net_infra ← (if r =? NBD_SUCCESS then
                 t ← lift (c_str net_infra);
                 ewf_hdf_set (lit "net_infra") (Some t);; mret net_infra
               else lift (buf_of (nbu_string_copy (Some net_infra) 256 (Some (str "adsl")))));
  nv_to_hdf "net_mode" "net_mode";;
  status_to_hdf "uptime" "uptime";;
  ftth ← (if has_net_infra_ftth then lift (equals net_infra "ftth") else mret false);
  (if ftth : bool then stb_ftth else if has_net_infra_adsl then stb_adsl else mret tt);;
  status_to_hdf "voip_linestatus" "voip_linestatus";;
  status_to_hdf "voip_hookstate" "voip_hookstate";;
  nv_to_hdf "lan_ipaddr" "lan_ipaddr";;
  nv_to_hdf "lan_netmask" "lan_netmask";;
  show_hosts "lan_hosts" stb_fields (child_is "type" "pc").

(** *** maintenance_admin.c *)
Section admin.
Context (sha256 : bytes → bytes).

(** The status and [buf]. *)
Definition get_validation_method (buf : bytes) (buf_size : Z) : M (Z * bytes) :=
  '(r, web_auth) ← on_nbd (nbd_user_config_get (str "web_auth") (local_buf 16) 16);
  if negb (r =? NBD_SUCCESS) then mret (-1, buf)
  else
    off ← lift (equals web_auth "off");
    off ← (if off : bool then mret true else lift (equals web_auth "button"));
    b ← lift (buf_of (nbu_string_copy (Some buf) buf_size
               (Some (if off : bool then (if CIBOX then str "off" else str "button") else str "passwd"))));
    mret (0, b).

Definition maintenance_admin_display : M unit :=
  nv_to_hdf "web_login" "web_login";;
  nv_to_hdf "web_auth" "web_auth";;
  '(r, checkmethod) ← get_validation_method (local_buf 16) 16;
  if r =? 0 then
    t ← lift (c_str checkmethod);
    ewf_hdf_set (lit "WebAuthChangeCheckMethod") (Some t)
  else mret tt.

(** The digest of a text, in a string that the caller frees. *)
Definition hash (text : bytes) : M (Z * option bytes) := on_world (ewf_crypto_sha256_hash sha256 (Some (cstr text))).

Definition check_old_password (k : M unit) : M unit :=
  EWF_HDF_GET "web_old_login" (λ web_old_login,
  EWF_HDF_GET "web_old_password" (λ web_old_password,
  '(r, web_curr_login) ← on_nbd (nbd_user_config_get (str "web_login") (local_buf 128) 128);
  if negb (r =? NBD_SUCCESS) then mret tt
  else
    '(r, web_curr_password) ← on_nbd (nbd_user_config_get (str "web_password") (local_buf 128) 128);
    if negb (r =? NBD_SUCCESS) then mret tt
    else
      login ← same_text web_curr_login (cstr web_old_login);
      if negb login then ewf_hdf_set_error "web_old_login" "no_match"
      else
        '(ret, passwd_hash) ← hash web_old_password;
        if negb (ret =? EWF_SUCCESS) then ewf_hdf_form_set_error "unknown"
        else
          r ← lift (nbu_string_compare (Some web_curr_password) passwd_hash);
          if negb (r =? NBU_STRING_EQUAL) then ewf_hdf_set_error "web_old_password" "no_match" else k)).

Definition check_button_on (k : M unit) : M unit :=
  STATUS_GET "web_autologin" 8 (λ web_autologin,
  on ← lift (equals web_autologin "on");
  if negb on then ewf_hdf_form_set_error "autologin_off" else k).

(** The anti-CSRF check. *)
Definition admin_check (checkmethod : bytes) (k : M unit) : M unit :=
  passwd ← lift (equals checkmethod "passwd");
  if passwd : bool then check_old_password k
  else
    button ← lift (equals checkmethod "button");
    if button : bool then check_button_on k else k.

(** [all] or [passwd]. *)
Definition wants_password (web_auth : bytes) : M bool :=
  all ← lift (equals (cstr web_auth) "all");
  if all : bool then mret true else lift (equals (cstr web_auth) "passwd").

(** The new login and the digest of the new password, if one is wanted. *)
Definition new_password (k : bytes → option bytes → M unit) : M unit :=
  EWF_HDF_GET "web_login" (λ web_login,
  EWF_HDF_GET "web_password" (λ web_password,
  EWF_HDF_GET "web_password_check" (λ web_password_check,
  if (0 <? length web_password)%nat then
    r ← same_text (cstr web_password) (cstr web_password_check);
    if negb r then ewf_hdf_set_error "web_password" "no_match"
    else
      '(ret, passwd_hash) ← hash web_password;
      if negb (ret =? EWF_SUCCESS) then ewf_hdf_form_set_error "unknown"
      else
        web_password_hash ← lift (buf_of (nbu_string_copy (Some (local_buf 65)) 65 passwd_hash));
        k web_login (Some web_password_hash)
  else k web_login None))).

Definition admin_commit (checkmethod web_auth : bytes) (trx : trx) : M unit :=
  ret ← NV_TRX_XCOMMIT trx;
  if ret =? NV_COMMIT_SUCCESS then
    on_cgi (ewf_hdf_form_set_success (lit "done"));;
    button ← lift (equals checkmethod "button");
    (if button : bool then on_nbd nbd_halt_webautologin;; mret tt else mret tt);;
    off ← lift (equals (cstr web_auth) "off");
    if off : bool then ewf_utils_redirect "/maintenance/admin" else mret tt
  else mret tt.

(** [credentials] are the login and the digest, for the methods with a password. *)
Definition admin_store (checkmethod web_auth : bytes) (credentials : option (bytes * option bytes)) : M unit :=
  NV_TRX_INIT (λ trx,
  NV_SET_WTRX trx "web_auth" "web_auth" (cstr web_auth) (λ trx,
  match credentials with
  | None => admin_commit checkmethod web_auth trx
  | Some (web_login, None) =>
      NV_SET_WTRX trx "web_login" "web_login" (cstr web_login) (admin_commit checkmethod web_auth)
  | Some (web_login, Some web_password_hash) =>
      NV_SET_WTRX trx "web_login" "web_login" (cstr web_login) (λ trx,
      NV_SET_WTRX trx "web_password" "web_password_hash" web_password_hash (admin_commit checkmethod web_auth))
  end)).

Definition maintenance_admin_form : M unit :=
  EWF_HDF_GET "web_auth" (λ web_auth,
  '(r, checkmethod) ← get_validation_method (local_buf 16) 16;
  if negb (r =? 0) then ewf_hdf_form_set_error "system"
  else
    admin_check checkmethod (
      wanted ← wants_password web_auth;
      if wanted : bool then
        new_password (λ web_login h, admin_store checkmethod web_auth (Some (web_login, h)))
      else
        off ← lift (equals (cstr web_auth) "off");
        (if off : bool then on_world ewf_smith_logout;; mret tt else mret tt);;
        admin_store checkmethod web_auth None)).

End admin.

(** *** login.c, logout.c *)
Definition logout_display : M unit :=
  on_world ewf_smith_logout;;
  ewf_utils_redirect "/index".

Definition login_display : M unit :=
  page_ref ← sget "page_ref";
  (match page_ref with Some p => on_cgi (ewf_hdf_set_env (lit "Page.Referer") p);; mret tt | None => mret tt end);;
  nv_to_hdf "web_auth" "method";;
  if CIBOX then mret tt else status_to_hdf "web_autologin" "web_auth_button_status";; mret tt.

Section login.
Context (clock : nat → timeval) (random : nat → option bytes).
Context (sha256 : bytes → bytes) (hmac_sha256 : bytes → bytes → bytes).
Context (conf_get : conf_get_fn) (login_alt_method : option (loc → bytes → cmd (world H) Z)).

Definition login_error (ret : Z) : bytes :=
  if ret =? EWF_SMITH_LOGIN_INVALID_ARGS then lit "LOGINORPASS_INVALID"
  else if ret =? EWF_SMITH_LOGIN_INVALID_SESSION then lit "SESSION_INVALID"
  else if ret =? EWF_SMITH_LOGIN_METHOD_NOT_ALLOWED then lit "METHOD_NOT_ALLOWED"
  else if ret =? WEBAPP_SMITH_AUTOLOGIN_OFF then lit "AUTOLOGIN_OFF"
  else lit "SYSTEM_ERROR".

Definition login_form : M unit :=
  page_ref ← sget "page_ref";
  let page_ref := match page_ref with
                  | Some p => if bytes_eqb p (lit "/login") then lit "/login" else p
                  | None => lit "/login"
                  end in
  page_ref_norm ← lift (buf_of (nbu_string_copy (Some (local_buf 64)) 64 (Some (cstr page_ref))));
  t ← lift (c_str page_ref_norm);
  ret ← on_world (ewf_smith_login clock random pcre_match sha256 hmac_sha256 conf_get login_alt_method);
  if ret =? EWF_SMITH_LOGIN_SUCCESS then
    (if CIBOX then mret tt else on_nbd nbd_halt_webautologin;; mret tt);;
    on_web (EwfDispatch.ewf_utils_redirect t)
  else
    on_cgi (ewf_hdf_set_env (lit "Page.Referer") t);;
    ewf_hdf_set (lit "Error.login") (Some (login_error ret)).

End login.

(** *** The handlers, as their pages are registered *)
Inductive kind := Display | Form | Ajax.

Section handlers.
Context (clock : nat → timeval) (random : nat → option bytes).
Context (sha256 : bytes → bytes) (hmac_sha256 : bytes → bytes → bytes).
Context (conf_get : conf_get_fn) (login_alt_method : option (loc → bytes → cmd (world H) Z)).
Context (pid : Z) (has_net_infra_bridge has_net_infra_ftth has_net_infra_adsl : bool).

Definition public_handlers : list (string * kind * M unit) :=
  [ ("/index", Display, index_display);
    ("/login", Display, login_display);
    ("/login", Form, login_form clock random sha256 hmac_sha256 conf_get login_alt_method);
    ("/logout", Display, logout_display);
    ("/stb/info", Display, stb_info_display has_net_infra_ftth has_net_infra_adsl);
    ("/kit/get", Form, kit_get_form pcre_match CIBOX);
    ("/kit/set", Form, kit_set_form pcre_match CIBOX);
    ("/kit/action", Form, kit_action_form pcre_match CIBOX) ].

Definition private_handlers : list (string * kind * M unit) :=
  [ ("/network/dhcp", Display, network_dhcp_display);
    ("/network/dhcp", Form, network_dhcp_form);
    ("/network/route", Display, network_route_display);
    ("/network/route", Form, network_route_form);
    ("/network/lan", Display, network_lan_display);
    ("/network/lan", Form, network_lan_form);
    ("/network/dns", Display, network_dns_display);
    ("/network/dns", Form, network_dns_form);
    ("/network/nat", Display, network_nat_display);
    ("/network/nat", Form, network_nat_form);
    ("/network/nat/upnp", Display, network_nat_upnp_display);
    ("/network/accesscontrol", Form, network_accesscontrol_form);
    ("/network/firewall", Display, network_firewall_display);
    ("/network/firewall", Form, network_firewall_form);
    ("/network/ddns", Display, network_ddns_display);
    ("/network/ddns", Form, network_ddns_form);
    ("/network/gprs", Display, network_gprs_display);
    ("/network/gprs", Form, network_gprs_form);
    ("/network/wan", Display, network_wan_display has_net_infra_bridge);
    ("/network", Form, network_form);
    ("/wifi", Display, wifi_display);
    ("/wifi/config", Display, wifi_config_display);
    ("/wifi/config", Form, wifi_config_form);
    ("/wifi/security", Display, wifi_security_display);
    ("/wifi/security", Form, wifi_security_form);
    ("/wifi/macfiltering", Display, wifi_macfiltering_display);
    ("/wifi/macfiltering", Form, wifi_macfiltering_form);
    ("/hotspot", Display, hotspot_display);
    ("/hotspot", Ajax, hotspot_ajax);
    ("/hotspot/config", Display, hotspot_config_display);
    ("/hotspot/config", Form, hotspot_config_form);
    ("/eco", Display, eco_display);
    ("/eco/config", Display, eco_config_display);
    ("/eco/config", Form, eco_config_form);
    ("/service", Display, service_display);
    ("/service/printer", Display, service_printer_display);
    ("/service/printer", Form, service_printer_form);
    ("/state/voip", Form, state_voip_form);
    ("/state/voip", Ajax, state_voip_ajax);
    ("/state/device/plug", Display, state_device_plug_display);
    ("/lanpopup", Display, lanpopup_display);
    ("/reboot", Form, reboot_form pid);
    ("/rootfs", Display, rootfs_display);
    ("/rootfs", Form, rootfs_form);
    ("/maintenance", Display, maintenance_display);
    ("/maintenance/dsl/config", Display, maintenance_dsl_config_display);
    ("/maintenance/dsl/config", Form, maintenance_dsl_config_form);
    ("/maintenance/admin", Display, maintenance_admin_display);
    ("/maintenance/admin", Form, maintenance_admin_form sha256) ].

End handlers.

End pages.

End WwwPages.
