(* ===== verification/WwwStorage.v ===== *)
(** The web site of the box: the pages of the file shares and the media server
    ([wui/service_samba.c], [wui/service_upnpav.c]), of the disks ([wui/state_device.c]), of
    the profile of the line ([wui/maintenance_dsl.c]) and of the language
    ([wui/maintenance_webui.c]), under [src/efixo/efixo-www/src/src]. *)

From stdpp Require Import base tactics list gmap strings.
From S2P Require Import Prelude.
From S2P Require Import CString.
From S2P Require Import NbuList.
From S2P Require Import NbuString.
From S2P Require Import EwfHdf.
From S2P Require Import EwfSession.
From S2P Require Import EwfSmith.
From S2P Require Import EwfDispatch.
From S2P Require Import NbdQueries.
From S2P Require Import NbdServices.
From S2P Require Import ApiCtl.
From S2P Require Import Www.
From S2P Require Import WwwPages.
Import NbuList NbuString EwfHdf EwfSession EwfSmith NbdQueries NbdServices Www WwwPages.

Module WwwStorage.

Definition disk_error_umount_failed_busy : Z := -980.

Section storage.
Context {H : Type} `{Hdf H} {D : Type} `{NbdLink D} {X : Type} `{Ezxml X}.
Context (pcre_match : bytes → bytes → option bool).

Abbreviation S := (site H D).
Abbreviation M := (cmd S).

(** *** service_samba.c, service_upnpav.c *)

(** A list of texts that the handler makes, reads and destroys: it takes its memory from
    the same budget as the rest of the program. *)
Definition on_texts {A} (m : cmd (heap bytes) A) : M A :=
  on_world (zoom (λ w : world H, heap_empty (h_avail (w_heap w)))
    (λ h w, set_heap (Heap (h_next (w_heap w)) (h_prev (w_heap w)) (h_data (w_heap w)) (h_lst (w_heap w))
                        (h_fresh (w_heap w)) (h_avail h) (h_log (w_heap w))) w) m).

(** [nbu_string_split(stock_share, ",", &list_arg)] and the two pieces when there are two. *)
Definition share_parts (stock_share : bytes) : cmd (heap bytes) (option (option bytes * option bytes)) :=
  '(r, list_arg) ← nbu_string_split (length stock_share + 2) (cstr stock_share) (str ",");
  n ← (if r =? NBU_SUCCESS then nbu_list_count list_arg else mret 0);
  pair ← (if n =? 2 then
            stock_uuid ← nbu_list_get_at_index list_arg 0;
            stock_dir ← nbu_list_get_at_index list_arg 1;
            mret (Some (stock_uuid, stock_dir))
          else mret None);
  nbu_list_destroy list_arg;;
  mret pair.

(** [errno = 0; i = strtol(idx, NULL, 10);]: [None] when errno was set. *)
Definition share_index (idx : bytes) : option Z :=
  let r := strtol idx 10 in if st_erange r then None else Some (st_val r).

(** [nbu_string_compare(action, t) == NBU_STRING_EQUAL]. *)
Definition text_is (v : option bytes) (t : string) : M bool :=
  r ← lift (nbu_string_compare (cstr <$> v) (Some (str t))); mret (r =? NBU_STRING_EQUAL).

(** A field stored: how much it adds to [restart]. *)
Definition stored (name : string) : M Z :=
  r ← hdf_to_nv pcre_match name name; mret (if r =? NV_SET_SUCCESS then 1 else 0).

Definition samba_addshare : M Z :=
  stock_name ← ewf_hdf_sget pcre_match "samba_stockage_name";
  stock_share ← ewf_hdf_sget pcre_match "samba_stockage_share";
  match stock_name, stock_share with
  | Some stock_name, Some stock_share =>
      parts ← on_texts (share_parts stock_share);
      match parts with
      | Some (stock_uuid, stock_dir) =>
          ret ← on_nbd (nbd_set ([str "sambactl"; str "add_share"] ++
                          until_null [Some stock_name; stock_uuid; stock_dir]));
          if ret =? NBD_SUCCESS then mret 1
          else if ret =? sambactl_error_invalid_name
               then ewf_hdf_set_error "samba_stockage_name" "invalid_name";; mret 0
               else ewf_hdf_form_set_error "unknown";; mret 0
      | None => ewf_hdf_form_set_error "unknown";; mret 0
      end
  | _, _ => mret 0
  end.

(** The entry of the request is the name of the index's field. *)
Definition delshare (name : string) (del : Z → cmd D Z) : M Z :=
  idx ← ewf_hdf_sget pcre_match name;
  match idx with
  | Some idx =>
      ok ← (match share_index idx with
            | None => mret false
            | Some i => r ← on_nbd (del i); mret (r =? NBD_SUCCESS)
            end);
      if ok : bool then mret 1 else ewf_hdf_form_set_error "unknown";; mret 0
  | None => mret 0
  end.

Definition samba_config : M Z :=
  a ← stored "samba_active"; b ← stored "samba_name"; c ← stored "samba_workgroup"; mret (a + b + c).

Definition service_samba_form : M unit :=
  action ← on_cgi (ewf_hdf_get (lit "action"));
  match action with
  | None => mret tt
  | Some _ =>
      add ← text_is action "addshare";
      restart ← (if add : bool then samba_addshare
                 else
                   del ← text_is action "delshare";
                   if del : bool then delshare "samba_share_idx" nbd_sambactl_del_share else samba_config);
      if 0 <? restart then commit;; on_nbd nbd_sambactl_restart;; mret tt else mret tt
  end.

Definition service_samba_ajax : M unit :=
  with_xml nbd_sambactl_status (λ root,
    ewf_hdf_set (lit "samba_active") (Some (child_txt root "active"));;
    ewf_hdf_set (lit "samba_state") (Some (child_txt root "state"));;
    ewf_hdf_set (lit "samba_codeno") (Some (child_txt root "codeno"))).

Definition upnpav_addshare : M Z :=
  stock_share ← ewf_hdf_sget pcre_match "upnpav_stockage_share";
  match stock_share with
  | Some stock_share =>
      parts ← on_texts (share_parts stock_share);
      match parts with
      | Some (stock_uuid, stock_dir) =>
          ret ← on_nbd (nbd_set ([str "usharectl"; str "add_share"] ++ until_null [stock_uuid; stock_dir]));
          if negb (ret =? NBD_SUCCESS) then ewf_hdf_form_set_error "unknown";; mret 0 else mret 1
      | None => ewf_hdf_form_set_error "unknown";; mret 0
      end
  | None => mret 0
  end.

Definition service_upnpav_form : M unit :=
  action ← on_cgi (ewf_hdf_get (lit "action"));
  match action with
  | None => mret tt
  | Some _ =>
      add ← text_is action "addshare";
      restart ← (if add : bool then upnpav_addshare
                 else
                   del ← text_is action "delshare";
                   if del : bool then delshare "upnpav_share_idx" nbd_usharectl_del_share
                   else a ← stored "upnpav_active"; b ← stored "upnpav_name"; mret (a + b));
      if 0 <? restart then commit;; on_nbd nbd_usharectl_restart;; mret tt else mret tt
  end.

Definition service_upnpav_ajax : M unit :=
  with_xml nbd_usharectl_status (λ root,
    ewf_hdf_set (lit "upnpav_active") (Some (child_txt root "active"));;
    ewf_hdf_set (lit "upnpav_status") (Some (child_txt root "status"));;
    ewf_hdf_set (lit "upnpav_errno") (Some (child_txt root "errno"));;
    ewf_hdf_set (lit "upnpav_sharedcount") (Some (child_txt root "sharedcount"))).

(** *** state_device.c *)
Definition umount (unmount : bytes → cmd D Z) : M unit :=
  r ← sget_buffer pcre_match "devpath";
  if r =? EWF_SUCCESS then
    s ← site_state;
    ret ← on_nbd (unmount (st_buffer s));
    if ret =? disk_error_umount_failed_busy then
      set_from_buffer "devpathbusy";;
      ewf_hdf_form_set_error "disk_error_umount_failed_busy"
    else if negb (ret =? 0) then ewf_hdf_form_set_error "disk_error_umount_failed"
    else mret tt
  else mret tt.

Definition state_device_form : M unit :=
  EWF_HDF_GET pcre_match "action" (λ action,
  plain ← lift (equals (cstr action) "umount");
  if plain : bool then umount nbd_disk_umount
  else
    force ← lift (equals (cstr action) "umountforce");
    if force : bool then umount nbd_disk_umount_force else mret tt).

(** *** maintenance_dsl.c *)
Definition show_profile : M unit :=
  s ← site_state;
  manual ← lift (equals (st_buffer s) "0");
  if manual : bool then owset "ADSLProfile" "manual"
  else
    rescue ← lift (equals (st_buffer s) "6");
    owset "ADSLProfile" (if rescue : bool then "rescue" else "auto").

(** The numbers of the noise margins of the modulation. *)
Fixpoint show_number (numbers : list (string * string)) : M unit :=
  match numbers with
  | [] => mret tt
  | (snr, number) :: numbers =>
      s ← site_state;
      eq ← same_text (st_buffer s) (str snr);
      if eq : bool then owset "ADSLProfileNumber" number else show_number numbers
  end.

Definition show_margin (numbers : list (string * string)) : M unit :=
  r ← get_buffer (from_nv "adsl_userprofile_snr");
  if r =? NBD_SUCCESS then show_number numbers else mret tt.

Definition maintenance_dsl_display : M unit :=
  ewf_hdf_set (lit "ADSLProfile") (Some (lit "auto"));;
  r ← get_buffer (from_nv "adsl_profile");
  (if r =? NBD_SUCCESS then show_profile else mret tt);;
  r ← get_buffer (from_nv "adsl_userprofile_mod");
  if r =? NBD_SUCCESS then
    ewf_hdf_set (lit "ADSLProfileNumber") (Some (lit "1"));;
    s ← site_state;
    dlt ← same_text (st_buffer s) (str "dlt");
    if dlt : bool then show_margin [("224", "1")]
    else
      adlt2pe ← same_text (st_buffer s) (str "adlt2pe");
      if adlt2pe : bool then show_margin [("224", "2"); ("192", "3"); ("160", "4"); ("128", "5"); ("96", "6")]
      else mret tt
  else mret tt.

(** A value stored: how much it adds to [restart]. *)
Definition set_counted (key : string) (value : bytes) : M Z :=
  r ← on_nbd (nbd_user_config_set (str key) value); mret (if r =? NBD_SUCCESS then 1 else 0).

(** [strdup(buffer)] after [nbd_user_config_get("adsl_oldprofile", ...)]. *)
Definition old_profile : M (option bytes) :=
  r ← get_buffer (from_nv "adsl_oldprofile");
  if r =? NBD_SUCCESS then
    s ← site_state;
    t ← lift (c_str (st_buffer s));
    m ← on_world (calloc_bytes (length t + 1));
    mret (match m with Some _ => Some t | None => None end)
  else mret None.

(** The profile is saved if it is neither manual nor rescue. *)
Definition save_profile : M unit :=
  r ← get_buffer (from_nv "adsl_profile");
  if r =? NBD_SUCCESS then
    s ← site_state;
    manual ← same_text (st_buffer s) (str "0");
    rescue ← (if manual : bool then mret true else same_text (st_buffer s) (str "6"));
    if rescue : bool then mret tt else on_nbd (nbd_user_config_set (str "adsl_oldprofile") (st_buffer s));; mret tt
  else mret tt.

(** The number of a profile, its modulation and its noise margin. *)
Definition user_profiles : list (string * (string * string)) :=
  [ ("1", ("dlt", "224")); ("2", ("adlt2pe", "224")); ("3", ("adlt2pe", "192"));
    ("4", ("adlt2pe", "160")); ("5", ("adlt2pe", "128")); ("6", ("adlt2pe", "96")) ].

Fixpoint set_user_profile (profiles : list (string * (string * string))) (profile_number : option bytes) : M Z :=
  match profiles with
  | [] => mret 0
  | (number, (modulation, snr)) :: profiles =>
      eq ← text_is profile_number number;
      if eq : bool then
        a ← set_counted "adsl_userprofile_mod" (str modulation);
        b ← set_counted "adsl_userprofile_snr" (str snr);
        mret (a + b)
      else set_user_profile profiles profile_number
  end.

(** Without an old profile the query ends at its key. *)
Definition profile_auto (oldprofile : option bytes) : M Z :=
  r ← on_nbd (nbd_set ([str "nvram"; str "set"; str "adsl_profile"] ++ until_null [oldprofile]));
  mret (if r =? NBD_SUCCESS then 1 else 0).

Definition profile_manual (profile_number : option bytes) : M Z :=
  save_profile;;
  a ← set_counted "adsl_profile" (str "0");
  b ← set_user_profile user_profiles profile_number;
  mret (a + b).

Definition maintenance_dsl_form : M unit :=
  oldprofile ← old_profile;
  profile ← ewf_hdf_sget pcre_match "adsl_profile";
  profile_number ← ewf_hdf_sget pcre_match "adsl_profile_n";
  auto ← text_is profile "auto";
  restart ← (if auto : bool then profile_auto oldprofile
             else
               manual ← text_is profile "manual";
               if manual : bool then profile_manual profile_number
               else
                 rescue ← text_is profile "rescue";
                 if rescue : bool then save_profile;; set_counted "adsl_profile" (str "6") else mret 0);
  if 0 <? restart then commit;; on_nbd nbd_dsl_restart;; mret tt else mret tt.

(** *** maintenance_webui.c: the language.  The signal that is raised makes the server read
    its files again after the request. *)
Definition maintenance_webui_form : M unit :=
  EWF_HDF_GET pcre_match "lang" (λ lang,
  NV_TRX_INIT (λ trx,
  NV_SET_WTRX trx "web_lang" "lang" (cstr lang) (λ trx,
  r ← NV_TRX_XCOMMIT trx;
  if r =? NV_COMMIT_SUCCESS then ewf_utils_redirect "/maintenance/webui" else mret tt))).

(** *** network_accesscontrol.c: the lists.  [ezxml_siblings] gives a node and those that
    follow it, whatever their names. *)
Section acm.
Context (ezxml_siblings : X → list X).

Definition acm_list (key label : string) (fields : list (string * string)) : M unit :=
  with_xml (nbd_user_config_xml (str key)) (λ root,
    list_loop label fields child_txt
      (match ezxml_children root (lit "n1") with [] => [] | node :: _ => ezxml_siblings node end) 1).

Definition network_accesscontrol_display : M unit :=
  nv_to_hdf "acm_active" "acm_active";;
  acm_list "acm_host_list" "acm_host"
    [("macaddress", "macaddress"); ("timestart", "timestart"); ("timestop", "timestop"); ("active", "active");
     ("behavior", "behavior")];;
  acm_list "acm_except_list" "acm_except" [("url", "url"); ("active", "active")].

(** The handlers, as their pages are registered. *)
Definition storage_handlers : list (string * kind * M unit) :=
  [ ("/service/samba", Form, service_samba_form);
    ("/service/samba", Ajax, service_samba_ajax);
    ("/service/upnpav", Form, service_upnpav_form);
    ("/service/upnpav", Ajax, service_upnpav_ajax);
    ("/state/device", Form, state_device_form);
    ("/maintenance/dsl", Display, maintenance_dsl_display);
    ("/maintenance/dsl", Form, maintenance_dsl_form);
    ("/maintenance/webui", Form, maintenance_webui_form);
    ("/network/accesscontrol", Display, network_accesscontrol_display) ].

End acm.

End storage.

End WwwStorage.
