(* ===== verification/WwwProofs.v ===== *)
(** The web site: the transactions of its pages, who may change what, and what the forms
    store. *)

From stdpp Require Import base tactics list gmap strings.
From S2P Require Import Prelude.
From S2P Require Import Dll.
From S2P Require Import CString.
From S2P Require Import NbuList.
From S2P Require Import NbuString.
From S2P Require Import NbuNet.
From S2P Require Import EwfHdf.
From S2P Require Import EwfSession.
From S2P Require Import EwfSessionProofs.
From S2P Require Import EwfSmith.
From S2P Require Import EwfSmithProofs.
From S2P Require Import EwfDispatch.
From S2P Require Import NbdQueries.
From S2P Require Import NbdServices.
From S2P Require Import NbdVoip.
From S2P Require Import ApiCtl.
From S2P Require Import ApiCtlProofs.
From S2P Require Import Www.
From S2P Require Import WwwPages.
From S2P Require Import WwwStorage.
Import NbuList NbuString NbuNet EwfHdf EwfSmith NbdQueries NbdServices Www WwwPages WwwStorage.

(** ** Cursors

    What a history of queries does with the cursors of the configuration: a page has at
    most one open, sets values in it, commits it when all were accepted, and closes it. *)
Inductive cursors := Idle | Open (id : Z) (clean : bool) | Broken.

Definition new_query : list bytes := [str "nvram"; str "cursor"; str "new"].
Definition close_query (id : Z) : list bytes := [str "nvram"; str "cursor"; str "close"; cursor id].
Definition commit_query (id : Z) : list bytes := [str "nvram"; str "cursor"; str "commit"; cursor id].

(** Queries that have nothing to do with cursors. *)
Definition neutral (args : list bytes) : bool :=
  match args with
  | p :: v :: _ => negb (bytes_eqb p (str "nvram") && (bytes_eqb v (str "cursor") || bytes_eqb v (str "cset")))
  | _ => true
  end.

Section protocol.
Context (answer : list nbd_event → list bytes → Z * bytes).

#[local] Instance site_daemon : NbdOps (list nbd_event) := every_daemon answer.

(** The cursor that the daemon opens, and whether it takes a value. *)
Definition opened (h : list nbd_event) : Z :=
  match nbd_user_config_cursor_new (local_buf 16) h with Ret (id, _) => s32 id | _ => 0 end.

Definition accepted (h : list nbd_event) (args : list bytes) : bool :=
  match nbd_set args h with Ret (r, _) => (r =? NV_SET_SUCCESS) || (r =? NV_SET_UNCHANGED) | _ => false end.

(** What a transaction that sets these entries in the cursor [id] has to ask: one after
    the other; an invalid value spoils the transaction, any other error ends it there;
    the cursor is committed when every value was accepted and closed in every case, and
    [after] is asked once the commit succeeded. *)
Definition status (h : list nbd_event) (args : list bytes) : Z :=
  match nbd_set args h with Ret (r, _) => r | _ => -1 end.

Definition cset_query (id : Z) (key : string) (v : bytes) : list bytes := [str "nvram"; str "cset"; cursor id; str key; v].

Fixpoint transaction (after : list bytes) (h : list nbd_event) (id : Z) (sets : list (string * bytes)) (clean : bool)
    : list (list bytes) :=
  match sets with
  | [] =>
      if clean then [commit_query id; close_query id] ++ (if status h (commit_query id) =? 0 then [after] else [])
      else [close_query id]
  | (key, v) :: sets =>
      let q := cset_query id key v in
      let r := status h q in
      q :: (if (r =? 0) || (r =? 1) then transaction after (h ++ [Asked q]) id sets clean
            else if r =? -4 then transaction after (h ++ [Asked q]) id sets false
            else [close_query id])
  end.

Definition query_step (h : list nbd_event) (args : list bytes) (st : cursors) : cursors :=
  if neutral args then st
  else if decide (args = new_query) then
    match st with Idle => if 0 <? opened h then Open (opened h) true else Idle | _ => Broken end
  else
    match st with
    | Open id clean =>
        if decide (args = close_query id) then Idle
        else if decide (args = commit_query id) then (if clean then st else Broken)
        else if decide (take 3 args = [str "nvram"; str "cset"; cursor id]) then Open id (clean && accepted h args)
        else Broken
    | _ => Broken
    end.

Definition event_step (h : list nbd_event) (e : nbd_event) (st : cursors) : cursors :=
  match e with Asked args => query_step h args st | _ => st end.

Fixpoint track (h : list nbd_event) (es : list nbd_event) (st : cursors) : cursors :=
  match es with [] => st | e :: es => track (h ++ [e]) es (event_step h e st) end.

Definition cursors_of (h : list nbd_event) : cursors := track [] h Idle.

Lemma track_app h es es' st : track h (es ++ es') st = track (h ++ es) es' (track h es st).
Proof.
  revert h st. induction es as [|e es IH]; intros h st; cbn; [by rewrite app_nil_r|].
  rewrite IH. by rewrite <- app_assoc.
Qed.

Lemma cursors_of_snoc h e : cursors_of (h ++ [e]) = event_step h e (cursors_of h).
Proof. unfold cursors_of. by rewrite track_app. Qed.

Lemma neutral_cursors h h' : asked neutral h h' → cursors_of h' = cursors_of h.
Proof.
  intros (qs & -> & Hqs). induction qs as [|e qs IH] using rev_ind; [by rewrite app_nil_r|].
  apply Forall_app in Hqs as [Hqs He]. rewrite app_assoc, cursors_of_snoc. rewrite (IH Hqs).
  apply Forall_cons in He as [He _]. destruct e as [| |args]; [done..|]. cbn [event_step]. unfold query_step.
  change (neutral args = true) in He. by rewrite He.
Qed.

End protocol.

(** ** What a page asks *)
Section pages_proofs.
Context {H : Type} `{Hdf H} {X : Type} `{Ezxml X}.
Context (answer : list nbd_event → list bytes → Z * bytes).
Context (pcre_match : bytes → bytes → option bool).
Context (hdf_obj_children : H → bytes → option (list (bytes * option bytes))).

#[local] Existing Instance asked_preorder.
#[local] Instance site_ops : NbdOps (list nbd_event) := every_daemon answer.
#[local] Instance site_link : NbdLink (list nbd_event) := every_link answer.

Abbreviation S := (site H (list nbd_event)).

(** Nothing but queries that [P] allows. *)
Definition asked_site (P : list bytes → bool) (s s' : S) : Prop := asked P (st_nbd s) (st_nbd s').

#[local] Instance asked_site_preorder P : PreOrder (asked_site P).
Proof. split; unfold asked_site; [by intros s|]. intros s1 s2 s3 F1 F2. by etrans. Qed.

Section rules.
Context (P : list bytes → bool).

Lemma site_nbd_asks {Y} (m : cmd (list nbd_event) Y) : within (asked P) m → within (asked_site P) (on_nbd m).
Proof. apply within_zoom. by intros s h. Qed.

Lemma site_web_asks {Y} (m : cmd (EwfDispatch.web H) Y) : within (asked_site P) (on_web m).
Proof. apply (within_zoom _ _ _ (λ _ _, True)); [|by intros]. intros s w _. unfold asked_site. cbn. reflexivity. Qed.

Lemma site_world_asks {Y} (m : cmd (world H) Y) : within (asked_site P) (on_world m).
Proof. apply site_web_asks. Qed.

Lemma site_cgi_asks {Y} (m : cmd H Y) : within (asked_site P) (on_cgi m).
Proof. apply site_web_asks. Qed.

Lemma site_buffer_asks b : within (asked_site P) (mod_st (set_buffer b)).
Proof. apply within_mod. intros s. unfold asked_site. cbn. reflexivity. Qed.

Lemma site_utils_asks b : within (asked_site P) (mod_st (set_utils b)).
Proof. apply within_mod. intros s. unfold asked_site. cbn. reflexivity. Qed.

End rules.

Create HintDb www discriminated.
#[local] Hint Constants Opaque : www.

Ltac query := first [apply open_asks | apply close_asks | (apply get_asks || apply set_asks || apply get_new_asks); reflexivity].

(** One step along the text of a handler. *)
Ltac site_step :=
  lazymatch goal with
  | |- within _ (_ ≫= _) => within_bind; [|intros ?]
  | |- within _ (mret _) => within_ret
  | |- within _ (lift _) => apply within_lift; apply _
  | |- within _ site_state => apply within_get; apply _
  | |- within _ (on_web _) => apply site_web_asks
  | |- within _ (on_world _) => apply site_world_asks
  | |- within _ (on_cgi _) => apply site_cgi_asks
  | |- within _ (mod_st (set_buffer _)) => apply site_buffer_asks
  | |- within _ (mod_st (set_utils _)) => apply site_utils_asks
  | |- within _ (on_nbd _) => apply site_nbd_asks; first [query | solve [auto 2 with www]]
  | |- _ => first [solve [auto 2 with www] | case_match]
  end.
Ltac site_steps := repeat site_step.

(** *** The parts of the handlers *)
Section parts.
Context (P : list bytes → bool).

Lemma hdf_set_asks name v : within (asked_site P) (ewf_hdf_set name v).
Proof. unfold ewf_hdf_set. site_steps. Qed.

Lemma hdf_set_int_asks name z : within (asked_site P) (ewf_hdf_set_int name z).
Proof. unfold ewf_hdf_set_int. site_steps. Qed.

Lemma hdf_error_asks name e : within (asked_site P) (ewf_hdf_set_error name e).
Proof. unfold ewf_hdf_set_error. site_steps. Qed.

Lemma hdf_var_error_asks name e : within (asked_site P) (ewf_hdf_query_var_error name e).
Proof. apply hdf_error_asks. Qed.

Lemma form_error_asks e : within (asked_site P) (ewf_hdf_form_set_error e).
Proof. unfold ewf_hdf_form_set_error. site_steps. Qed.

Lemma query_error_asks e : within (asked_site P) (ewf_hdf_query_error e).
Proof. apply form_error_asks. Qed.

Lemma sget_asks name : within (asked_site P) (ewf_hdf_sget pcre_match name).
Proof. apply site_cgi_asks. Qed.

Lemma sget_int_asks name : within (asked_site P) (ewf_hdf_sget_int pcre_match name).
Proof. apply site_cgi_asks. Qed.

Lemma sget_default_asks name d : within (asked_site P) (EWF_HDF_GET_DEFAULT pcre_match name d).
Proof. unfold EWF_HDF_GET_DEFAULT. site_steps. Qed.

Lemma sget_buffer_asks name : within (asked_site P) (sget_buffer pcre_match name).
Proof. unfold sget_buffer. site_steps. Qed.

Lemma exist_asks name : within (asked_site P) (ewf_hdf_exist hdf_obj_children name).
Proof. unfold ewf_hdf_exist. site_steps. Qed.

Lemma last_child_asks name : within (asked_site P) (last_child hdf_obj_children name).
Proof. unfold last_child. site_steps. Qed.

Lemma redirect_asks uri : within (asked_site P) (ewf_utils_redirect uri).
Proof. apply site_web_asks. Qed.

#[local] Hint Resolve hdf_set_asks hdf_set_int_asks hdf_error_asks form_error_asks sget_asks : www.

Lemma set_from_buffer_asks name : within (asked_site P) (set_from_buffer name).
Proof. unfold set_from_buffer. site_steps. Qed.

Lemma print_asks t : within (asked_site P) (WwwPages.print_name t).
Proof. unfold WwwPages.print_name. site_steps. Qed.

#[local] Hint Resolve set_from_buffer_asks print_asks : www.

Lemma site_item_asks l n f v : within (asked_site P) (set_item l n f v).
Proof. unfold set_item. site_steps. Qed.

#[local] Hint Resolve site_item_asks : www.

Lemma site_parts_asks names parts : within (asked_site P) (set_parts names parts).
Proof. revert parts. induction names as [|n names IH]; intros [|p parts]; cbn [set_parts]; site_steps. Qed.

Lemma set_fields_asks l n fields text : within (asked_site P) (set_fields l n fields text).
Proof. induction fields as [|[f c] fields IH]; cbn [set_fields]; site_steps. Qed.

#[local] Hint Resolve set_fields_asks : www.

Lemma list_loop_asks l fields text (nodes : list X) n : within (asked_site P) (list_loop l fields text nodes n).
Proof. revert n. induction nodes as [|x nodes IH]; intros n; cbn [list_loop]; site_steps. Qed.

Lemma site_hosts_asks l fields (shown : X → cmd S bool) nodes n :
  (∀ x, within (asked_site P) (shown x)) → within (asked_site P) (hosts_loop l fields shown nodes n).
Proof. intros Hs. revert n. induction nodes as [|x nodes IH]; intros n; cbn [hosts_loop]; site_steps. Qed.

Lemma macs_loop_asks (nodes : list X) n : within (asked_site P) (macs_loop nodes n).
Proof. revert n. induction nodes as [|x nodes IH]; intros n; cbn [macs_loop]; site_steps. Qed.

Lemma gruiks_loop_asks (nodes : list X) n : within (asked_site P) (gruiks_loop nodes n).
Proof. revert n. induction nodes as [|x nodes IH]; intros n; cbn [gruiks_loop]; site_steps. Qed.

Lemma ports_loop_asks (nodes : list X) n : within (asked_site P) (ports_loop nodes n).
Proof. revert n. induction nodes as [|x nodes IH]; intros n; cbn [ports_loop]; site_steps. Qed.

Lemma same_text_asks a b : within (asked_site P) (same_text a b).
Proof. unfold same_text. site_steps. Qed.

Lemma get_all_asks names : within (asked_site P) (get_all names).
Proof. induction names as [|n names IH]; cbn [get_all]; site_steps. Qed.

Lemma sget_part_asks name p : within (asked_site P) (sget_part pcre_match name p).
Proof. unfold sget_part. within_step; [apply sget_buffer_asks|]. site_steps. Qed.

Lemma sget_parts_asks names ps : within (asked_site P) (sget_parts pcre_match names ps).
Proof.
  revert ps. induction names as [|n names IH]; intros [|p ps]; cbn [sget_parts]; try within_ret.
  within_step; [apply sget_part_asks|]. site_steps.
Qed.

Lemma constants_asks values : within (asked_site P) (constants values).
Proof. unfold constants. induction values as [|[k v] values IH]; cbn [foldr]; site_steps. Qed.

(** Handlers that go on with a value of the request. *)
Lemma hdf_get_asks name k :
  (∀ v, within (asked_site P) (k v)) → within (asked_site P) (EWF_HDF_GET pcre_match name k).
Proof. intros Hk. unfold EWF_HDF_GET. site_steps. Qed.

Lemma hdf_get_int_asks name k :
  (∀ v, within (asked_site P) (k v)) → within (asked_site P) (EWF_HDF_GET_INT pcre_match name k).
Proof. intros Hk. unfold EWF_HDF_GET_INT. within_step; [apply sget_int_asks|]. site_steps. Qed.

(** Queries. *)
Lemma get_buffer_asks get : (∀ b, within (asked P) (get b 256)) → within (asked_site P) (get_buffer get).
Proof. intros Hg. unfold get_buffer. within_step; [site_steps|]. within_bind; [by apply site_nbd_asks|]. intros [r b]. site_steps. Qed.

Lemma show_asks get name : (∀ b, within (asked P) (get b 256)) → within (asked_site P) (show get name).
Proof. intros Hg. unfold show. within_step; [by apply get_buffer_asks|]. site_steps. Qed.

Lemma nv_to_hdf_asks key name :
  P [str "nvram"; str "get"; str key] = true → within (asked_site P) (nv_to_hdf key name).
Proof. intros HP. unfold nv_to_hdf. within_bind; [by apply site_nbd_asks, get_asks|]. intros [r b]. site_steps. Qed.

Lemma status_to_hdf_asks key name :
  P [str "status"; str "get"; str key] = true → within (asked_site P) (status_to_hdf key name).
Proof. intros HP. unfold status_to_hdf. within_bind; [by apply site_nbd_asks, get_asks|]. intros [r b]. site_steps. Qed.

Lemma hdf_to_nv_asks name key :
  (∀ v, P [str "nvram"; str "set"; str key; v] = true) → within (asked_site P) (hdf_to_nv pcre_match name key).
Proof. intros HP. unfold hdf_to_nv. within_step; [site_steps|]. case_match; [by apply site_nbd_asks, set_asks|within_ret]. Qed.

Lemma NV_TO_HDF_asks key : P [str "nvram"; str "get"; str key] = true → within (asked_site P) (NV_TO_HDF key).
Proof. intros HP. unfold NV_TO_HDF. within_step; [by apply nv_to_hdf_asks|within_ret]. Qed.

Lemma STATUS_TO_HDF_asks key : P [str "status"; str "get"; str key] = true → within (asked_site P) (STATUS_TO_HDF key).
Proof. intros HP. unfold STATUS_TO_HDF. within_step; [by apply status_to_hdf_asks|within_ret]. Qed.

Lemma show_parts_asks key names parts :
  P [str "nvram"; str "get"; str key] = true → within (asked_site P) (show_parts key names parts).
Proof.
  intros HP. unfold show_parts. within_step; [by apply get_buffer_asks; intros b; apply get_asks|].
  case_match; [|within_ret]. within_step; [site_steps|]. within_step; [site_steps|]. case_match.
  within_step; [apply site_parts_asks|within_ret].
Qed.

Lemma site_xml_asks get (body : X → cmd S unit) :
  within (asked P) (get None 0) → (∀ root, within (asked_site P) (body root)) → within (asked_site P) (with_xml get body).
Proof.
  intros Hg Hb. unfold with_xml. within_bind; [by apply site_nbd_asks|]. intros [[r b] n].
  case_match; [|within_ret]. case_match; [done|within_ret].
Qed.

Lemma nv_get_asks key size k :
  P [str "nvram"; str "get"; str key] = true → (∀ b, within (asked_site P) (k b)) → within (asked_site P) (NV_GET key size k).
Proof. intros HP Hk. unfold NV_GET. within_bind; [by apply site_nbd_asks, get_asks|]. intros [r b]. site_steps. Qed.

Lemma status_get_asks key size k :
  P [str "status"; str "get"; str key] = true → (∀ b, within (asked_site P) (k b)) → within (asked_site P) (STATUS_GET key size k).
Proof. intros HP Hk. unfold STATUS_GET. within_bind; [by apply site_nbd_asks, get_asks|]. intros [r b]. site_steps. Qed.

Lemma matches_asks (get : bytes → bytes → Z → cmd (list nbd_event) (Z * bytes)) key t :
  within (asked P) (get key (local_buf (length (str t))) (Z.of_nat (length (str t)))) →
  within (asked P) ('(r, s) ← get key (local_buf (length (str t))) (Z.of_nat (length (str t)));
    if r <? 0 then mret false else z ← lift (memcmp s (str t) (length (str t))); mret (z =? 0)).
Proof. intros Hg. within_bind; [done|]. intros [r s]. case_match; repeat within_step. Qed.

Lemma status_matches_site_asks key t :
  P [str "status"; str "get"; key] = true → within (asked P) (ApiCtl.nbd_status_matches key t).
Proof. intros HP. by apply status_matches_asks. Qed.

Lemma nv_matches_asks key t :
  P [str "nvram"; str "get"; key] = true → within (asked P) (NbdVoip.nbd_user_config_matches key t).
Proof. intros HP. by apply (matches_asks nbd_user_config_get), get_asks. Qed.

Lemma autoconf_matches_asks key t :
  P [str "autoconf"; str "get"; key] = true → within (asked P) (nbd_autoconf_matches key t).
Proof. intros HP. by apply (matches_asks nbd_autoconf_get), get_asks. Qed.

End parts.

(** *** Transactions *)
Definition tracked (s : S) : cursors := cursors_of answer (st_nbd s).

(** No cursor is left open where none was. *)
Definition idle (s s' : S) : Prop := tracked s = Idle → tracked s' = Idle.

#[local] Instance idle_preorder : PreOrder idle.
Proof. split; unfold idle; [by intros s|]. intros s1 s2 s3 F1 F2 E. auto. Qed.

Lemma neutral_idle {A} (m : cmd S A) : within (asked_site neutral) m → within idle m.
Proof. intros Hm s a s' E Es. unfold tracked. by rewrite (neutral_cursors answer _ _ (Hm s a s' E)). Qed.

(** The cursor of the transaction, and a command that closes it. *)
Definition trx_open (t : trx) : cursors := Open (trx_id t) (negb (sum_set_stat t =? -1)).

Definition closes {A} (t : trx) (m : cmd S A) : Prop :=
  ∀ s a s', tracked s = trx_open t → m s = Ret (a, s') → tracked s' = Idle.

Lemma set_history args h : ∃ r, nbd_set args h = Ret (r, h ++ [Asked args]).
Proof.
  unfold nbd_set, mbind, cmd_bind. cbn [nbd_query_op site_ops every_daemon]. unfold ask.
  destruct (answer h args) as [st data]. unfold lift, deliver. destruct (0 <? _) eqn:Hc; [by eexists|].
  destruct (_ =? 0) eqn:Hz; [by eexists|]. exfalso. apply Z.ltb_ge in Hc. apply Z.eqb_neq in Hz. lia.
Qed.

Lemma get_history b n args h r b' h' : nbd_get b n args h = Ret ((r, b'), h') → h' = h ++ [Asked args].
Proof.
  unfold nbd_get, mbind, cmd_bind. cbn [nbd_query_op site_ops every_daemon]. unfold ask.
  destruct (answer h args) as [st data]. unfold lift. destruct (deliver _ _ _ _) as [[r1 o]| | |]; try done.
  destruct o; cbn; [|done]. by intros [= _ _ <-].
Qed.

Lemma on_nbd_Ret_inv {A} (m : cmd (list nbd_event) A) (s : S) a s' :
  on_nbd m s = Ret (a, s') → ∃ h, m (st_nbd s) = Ret (a, h) ∧ s' = set_nbd h s.
Proof. unfold on_nbd, zoom. destruct (m (st_nbd s)) as [[a1 h]| | |]; try done. intros [= <- <-]. eauto. Qed.

Lemma closes_bind {A B} t (m : cmd S A) (k : A → cmd S B) :
  within (asked_site neutral) m → (∀ a, closes t (k a)) → closes t (m ≫= k).
Proof.
  intros Hm Hk s b s' Es E. apply cmd_bind_Ret_inv in E as (a & s1 & E1 & E2).
  eapply Hk; [|exact E2]. rewrite <- Es. apply (neutral_cursors answer). by eapply Hm.
Qed.

(** The queries of a transaction. *)
Lemma tracked_query args (s : S) :
  tracked (set_nbd (st_nbd s ++ [Asked args]) s) = query_step answer (st_nbd s) args (tracked s).
Proof. unfold tracked. cbn [st_nbd set_nbd]. by rewrite cursors_of_snoc. Qed.

Lemma close_step h id c : query_step answer h (close_query id) (Open id c) = Idle.
Proof.
  unfold query_step. change (neutral (close_query id)) with false. cbv iota.
  rewrite decide_False by (unfold close_query, new_query; discriminate). by rewrite decide_True.
Qed.

Lemma commit_step h id : query_step answer h (commit_query id) (Open id true) = Open id true.
Proof.
  unfold query_step. change (neutral (commit_query id)) with false. cbv iota.
  rewrite decide_False by (unfold commit_query, new_query; discriminate).
  rewrite decide_False by (unfold commit_query, close_query; intros E; by simplify_eq). by rewrite decide_True.
Qed.

Lemma cset_step h id c key v (args := [str "nvram"; str "cset"; cursor id; key; v]) :
  query_step answer h args (Open id c) = Open id (c && accepted answer h args).
Proof.
  unfold query_step. change (neutral args) with false. cbv iota. unfold args.
  rewrite !decide_False by (unfold new_query, close_query, commit_query; discriminate). by rewrite decide_True.
Qed.

Lemma new_step h : query_step answer h new_query Idle = if 0 <? opened answer h then Open (opened answer h) true else Idle.
Proof. unfold query_step. change (neutral new_query) with false. cbv iota. by rewrite decide_True. Qed.

Lemma close_closes t : closes t (on_nbd (nbd_user_config_cursor_close (trx_id t))).
Proof.
  intros s a s' Es E. apply on_nbd_Ret_inv in E as (h & E & ->).
  destruct (set_history (close_query (trx_id t)) (st_nbd s)) as (r & E').
  change (nbd_set (close_query (trx_id t)) (st_nbd s) = Ret (a, h)) in E. rewrite E' in E. injection E as <- <-.
  rewrite tracked_query, Es. apply close_step.
Qed.

Lemma closes_then {A B} t (m : cmd S A) (k : A → cmd S B) :
  closes t m → (∀ a, within idle (k a)) → closes t (m ≫= k).
Proof.
  intros Hm Hk s b s' Es E. apply cmd_bind_Ret_inv in E as (a & s1 & E1 & E2).
  eapply Hk; [exact E2|]. by eapply Hm.
Qed.

Lemma cursor_new_history h id h' :
  nbd_user_config_cursor_new (local_buf 16) h = Ret (id, h') → h' = h ++ [Asked new_query] ∧ opened answer h = s32 id.
Proof.
  intros En. split; [|unfold opened; by rewrite (En : @nbd_user_config_cursor_new _ (site_daemon answer) _ _ = _)].
  unfold nbd_user_config_cursor_new in En.
  apply cmd_bind_Ret_inv in En as ([r1 b1] & h1 & Eg & En). apply get_history in Eg as ->.
  destruct (r1 <? 0); [by injection En|]. apply cmd_bind_Ret_inv in En as (x & h2 & Ex & En).
  unfold lift in Ex. destruct (c_str b1); try done. injection Ex as <- <-. by injection En.
Qed.

Lemma trx_init_idle k : (∀ t, closes t (k t)) → within idle (NV_TRX_INIT k).
Proof.
  intros Hk s a s' E Es. unfold NV_TRX_INIT, __nv_trx_init in E.
  apply cmd_bind_Ret_inv in E as ([r t] & s2 & E1 & E2). apply cmd_bind_Ret_inv in E1 as (id & s1 & En & E1).
  apply on_nbd_Ret_inv in En as (h & En & ->).
  apply cursor_new_history in En as [-> Hid].
  set (s1 := set_nbd (st_nbd s ++ [Asked new_query]) s) in *.
  assert (tracked s1 = if 0 <? s32 id then Open (s32 id) true else Idle) as Es1.
  { unfold s1. rewrite tracked_query, Es, new_step. by rewrite Hid. }
  cbn [trx_id] in E1. destruct (s32 id <=? 0) eqn:Hle.
  - apply cmd_bind_Ret_inv in E1 as (u & s3 & E3 & E1). injection E1 as <- <- <-. injection E2 as <- <-.
    eapply (neutral_idle _ (query_error_asks neutral _)); [exact E3|].
    rewrite Es1. apply Z.leb_le in Hle. by rewrite (proj2 (Z.ltb_ge _ _)).
  - injection E1 as <- <- <-. cbn in E2. eapply (Hk (Trx (s32 id) 0)); [|exact E2].
    rewrite Es1. apply Z.leb_gt in Hle. by rewrite (proj2 (Z.ltb_lt _ _)).
Qed.

Lemma trx_set_closes t nvname hdfname v k :
  (∀ t', closes t' (k t')) → closes t (NV_SET_WTRX_as t nvname hdfname v k).
Proof.
  intros Hk s a s' Es E. unfold NV_SET_WTRX_as, __nv_set_with_trx in E.
  apply cmd_bind_Ret_inv in E as ([r t'] & s2 & E1 & E2). apply cmd_bind_Ret_inv in E1 as (ret & s1 & En & E1).
  apply on_nbd_Ret_inv in En as (h & En & ->). set (args := [str "nvram"; str "cset"; cursor (trx_id t); str nvname; v]) in *.
  change (nbd_set args (st_nbd s) = Ret (ret, h)) in En.
  destruct (set_history args (st_nbd s)) as (r0 & E0). rewrite E0 in En. injection En as <- <-.
  set (s1 := set_nbd (st_nbd s ++ [Asked args]) s) in *.
  assert (tracked s1 = Open (trx_id t) (negb (sum_set_stat t =? -1) && ((r0 =? NV_SET_SUCCESS) || (r0 =? NV_SET_UNCHANGED)))) as Es1.
  { unfold s1. rewrite tracked_query, Es. etransitivity; [apply cset_step|]. do 2 f_equal.
    change (accepted answer (st_nbd s) args = (r0 =? NV_SET_SUCCESS) || (r0 =? NV_SET_UNCHANGED)).
    unfold accepted. by rewrite (E0 : @nbd_set _ (site_daemon answer) _ _ = _). }
  destruct (_ || _) in E1, Es1.
  - injection E1 as <- <- <-. cbn in E2. eapply Hk; [|exact E2]. rewrite Es1. unfold trx_open. by rewrite andb_true_r.
  - rewrite andb_false_r in Es1. destruct (r0 =? NV_SET_INVALID_VALUE) eqn:Hi.
    + apply cmd_bind_Ret_inv in E1 as (u & s3 & E3 & E1). injection E1 as <- <- <-.
      apply Z.eqb_eq in Hi as ->. cbn in E2. eapply (Hk (Trx (trx_id t) (-1))); [|exact E2].
      transitivity (tracked s1); [|exact Es1]. apply (neutral_cursors answer).
      eapply (site_cgi_asks neutral); exact E3.
    + apply cmd_bind_Ret_inv in E1 as (u & s3 & E3 & E1). injection E1 as <- <- <-. cbn in E2.
      apply cmd_bind_Ret_inv in E2 as (u' & s4 & E4 & E2). injection E2 as <- <-.
      eapply (close_closes (Trx (trx_id t) (-1))); [|exact E4].
      transitivity (tracked s1); [|exact Es1]. apply (neutral_cursors answer).
      eapply (query_error_asks neutral); exact E3.
Qed.

Lemma trx_set_closes' t nvname hdfname v k :
  (∀ t', closes t' (k t')) → closes t (NV_SET_WTRX t nvname hdfname v k).
Proof. apply trx_set_closes. Qed.

Lemma xcommit_closes t : closes t (NV_TRX_XCOMMIT t).
Proof.
  intros s a s' Es E. unfold NV_TRX_XCOMMIT, __nv_trx_commit, __nv_trx_close in E.
  apply cmd_bind_Ret_inv in E as (ret & s1 & E1 & E). apply cmd_bind_Ret_inv in E as (r & s2 & E2 & E).
  injection E as <- <-. eapply (close_closes t); [|exact E2].
  destruct (sum_set_stat t =? -1) eqn:Hd; [by injection E1 as <- <-|].
  apply on_nbd_Ret_inv in E1 as (h & E1 & ->).
  change (nbd_set (commit_query (trx_id t)) (st_nbd s) = Ret (ret, h)) in E1.
  destruct (set_history (commit_query (trx_id t)) (st_nbd s)) as (r0 & E0). rewrite E0 in E1. injection E1 as <- <-.
  rewrite tracked_query, Es. unfold trx_open. rewrite Hd. apply commit_step.
Qed.

#[local] Hint Resolve hdf_set_asks hdf_set_int_asks hdf_error_asks hdf_var_error_asks form_error_asks query_error_asks
  sget_asks sget_int_asks sget_default_asks sget_buffer_asks exist_asks last_child_asks redirect_asks
  set_from_buffer_asks print_asks site_item_asks site_parts_asks set_fields_asks list_loop_asks macs_loop_asks
  gruiks_loop_asks ports_loop_asks same_text_asks get_all_asks sget_part_asks sget_parts_asks constants_asks : www.

(** Along a handler. *)
Ltac page_step :=
  lazymatch goal with
  | |- within _ (EWF_HDF_GET _ _ _) => apply hdf_get_asks; intros ?
  | |- within _ (EWF_HDF_GET_INT _ _ _) => apply hdf_get_int_asks; intros ?
  | |- within _ (show _ _) => apply show_asks; intros ?; query
  | |- within _ (get_buffer _) => apply get_buffer_asks; intros ?; query
  | |- within _ (nv_to_hdf _ _) => apply nv_to_hdf_asks; reflexivity
  | |- within _ (status_to_hdf _ _) => apply status_to_hdf_asks; reflexivity
  | |- within _ (NV_TO_HDF _) => apply NV_TO_HDF_asks; reflexivity
  | |- within _ (STATUS_TO_HDF _) => apply STATUS_TO_HDF_asks; reflexivity
  | |- within _ (hdf_to_nv _ _ _) => apply hdf_to_nv_asks; intros ?; reflexivity
  | |- within _ (show_parts _ _ _) => apply show_parts_asks; reflexivity
  | |- within _ (with_xml _ _) => apply site_xml_asks; [query|intros ?]
  | |- within _ (show_hosts _ _ _) => unfold show_hosts
  | |- within _ (hosts_loop _ _ _ _ _) => apply site_hosts_asks; intros ?
  | |- within _ (NV_GET _ _ _) => apply nv_get_asks; [reflexivity|intros ?]
  | |- within _ (STATUS_GET _ _ _) => apply status_get_asks; [reflexivity|intros ?]
  | |- within _ (on_nbd (ApiCtl.nbd_status_matches _ _)) => apply site_nbd_asks, status_matches_site_asks; reflexivity
  | |- within _ (on_nbd (NbdVoip.nbd_user_config_matches _ _)) => apply site_nbd_asks, nv_matches_asks; reflexivity
  | |- within _ (on_nbd (nbd_autoconf_matches _ _)) => apply site_nbd_asks, autoconf_matches_asks; reflexivity
  | |- within _ commit => unfold commit
  | |- within _ (sys_async_run _ _) => unfold sys_async_run
  | |- within _ (sys_sync_run _ _) => unfold sys_sync_run
  | |- _ => site_step
  end.
Ltac page := repeat page_step.

(** The same with transactions. *)
Lemma hdf_get_idle name k : (∀ v, within idle (k v)) → within idle (EWF_HDF_GET pcre_match name k).
Proof. intros Hk. unfold EWF_HDF_GET. within_bind; [apply neutral_idle, sget_asks|]. intros [v|]; [done|within_ret]. Qed.

Lemma hdf_get_int_idle name k : (∀ v, within idle (k v)) → within idle (EWF_HDF_GET_INT pcre_match name k).
Proof. intros Hk. unfold EWF_HDF_GET_INT. within_bind; [apply neutral_idle, sget_int_asks|]. intros v. case_match; [within_ret|done]. Qed.

Lemma nv_get_idle key size k : (∀ b, within idle (k b)) → within idle (NV_GET key size k).
Proof.
  intros Hk. unfold NV_GET. within_bind; [by apply neutral_idle, site_nbd_asks, get_asks|]. intros [r b].
  case_match; [within_ret|done].
Qed.

Lemma status_get_idle key size k : (∀ b, within idle (k b)) → within idle (STATUS_GET key size k).
Proof.
  intros Hk. unfold STATUS_GET. within_bind; [by apply neutral_idle, site_nbd_asks, get_asks|]. intros [r b].
  case_match; [within_ret|done].
Qed.

Ltac trx_step :=
  lazymatch goal with
  | |- closes _ (NV_SET_WTRX _ _ _ _ _) => apply trx_set_closes'; intros ?
  | |- closes _ (NV_SET_WTRX_as _ _ _ _ _) => apply trx_set_closes; intros ?
  | |- closes _ (NV_TRX_XCOMMIT _ ≫= _) => apply closes_then; [apply xcommit_closes|intros ?]
  | |- closes _ (_ ≫= _) => apply closes_bind; [solve [page]|intros ?]
  | |- closes _ _ => case_match
  | |- within idle (NV_TRX_INIT _) => apply trx_init_idle; intros ?
  | |- within idle (EWF_HDF_GET _ _ _) => apply hdf_get_idle; intros ?
  | |- within idle (EWF_HDF_GET_INT _ _ _) => apply hdf_get_int_idle; intros ?
  | |- within idle (NV_GET _ _ _) => apply nv_get_idle; intros ?
  | |- within idle (STATUS_GET _ _ _) => apply status_get_idle; intros ?
  | |- within idle (mret _) => within_ret
  | |- within idle (_ ≫= _) => within_bind; [|intros ?]
  | |- within idle _ => first [solve [apply neutral_idle; page] | case_match]
  end.
Ltac trx := repeat trx_step.

(** *** The handlers *)
Section handlers.
Context (CIBOX NB5 NB6 : bool).

Lemma lan_gate_neutral ip : within (asked_site neutral) (is_gateway ip).
Proof. unfold is_gateway. page. Qed.

Lemma dhcp_restart_neutral : within (asked_site neutral) dhcp_restart.
Proof. unfold dhcp_restart. page. Qed.

#[local] Hint Resolve lan_gate_neutral dhcp_restart_neutral : www.

Lemma dhcp_store_idle a st e l : within idle (dhcp_store a st e l).
Proof. unfold dhcp_store. trx. Qed.

Lemma dhcp_form_idle : within idle (network_dhcp_form pcre_match).
Proof.
  unfold network_dhcp_form, dhcp_add, dhcp_remove, dhcp_config. trx. apply dhcp_store_idle.
Qed.

Lemma firewall_rules_neutral : within (asked_site neutral) (firewall_rules pcre_match).
Proof. unfold firewall_rules. page. Qed.

Lemma firewall_form_idle : within idle (network_firewall_form pcre_match).
Proof. unfold network_firewall_form, firewall_restart. trx. all: apply neutral_idle, firewall_rules_neutral. Qed.

Lemma route_add_neutral : within (asked_site neutral) (route_add pcre_match).
Proof. unfold route_add, route_destination, route_genmask, route_gateway. page. Qed.

Lemma route_form_neutral : within (asked_site neutral) (network_route_form pcre_match).
Proof. unfold network_route_form. page. apply route_add_neutral. Qed.

Lemma lan_form_neutral : within (asked_site neutral) (network_lan_form pcre_match).
Proof. unfold network_lan_form, sget_joined, lan_error, in_hotspot_net. page. Qed.

Lemma dns_form_neutral : within (asked_site neutral) (network_dns_form pcre_match).
Proof. unfold network_dns_form, dns_add. page. Qed.

Lemma nat_form_neutral : within (asked_site neutral) (network_nat_form pcre_match hdf_obj_children).
Proof.
  unfold network_nat_form, nat_add, nat_remove, nat_activate, nat_upnpd_submit, nat_dmz_submit, nat_sipalg_submit,
    nat_field, nat_range, nat_dstip, nat_error, sget_ip, sget_joined, sget_store, print_as_format, action_is. page.
Qed.

Lemma acm_form_neutral : within (asked_site neutral) (network_accesscontrol_form pcre_match).
Proof. unfold network_accesscontrol_form, acm_host_active, acm_except_submit, acm_except_active. page. Qed.

Lemma replay_neutral : within (asked_site neutral) (ewf_hdf_query_replay hdf_obj_children).
Proof. unfold ewf_hdf_query_replay. page. Qed.
#[local] Hint Resolve replay_neutral : www.

Lemma ddns_form_idle : within idle (network_ddns_form pcre_match hdf_obj_children).
Proof. unfold network_ddns_form. trx. Qed.

Lemma gprs_form_idle : within idle (network_gprs_form pcre_match).
Proof. unfold network_gprs_form, gprs_editcfg, gprs_unlocksim. trx. Qed.

Lemma network_form_idle : within idle (network_form pcre_match).
Proof. unfold network_form. trx. Qed.

Lemma wifi_switch_neutral a : within (asked_site neutral) (wifi_switch a).
Proof. unfold wifi_switch. page. Qed.
#[local] Hint Resolve wifi_switch_neutral : www.

Lemma set_channel_closes t c k : (∀ t', closes t' (k t')) → closes t (set_channel t c k).
Proof. intros Hk. unfold set_channel. trx. all: apply Hk. Qed.

Lemma set_ht40_closes t v k : (∀ t', closes t' (k t')) → closes t (set_ht40 NB5 NB6 t v k).
Proof. intros Hk. unfold set_ht40. trx; apply Hk. Qed.

Lemma wifi_config_form_idle : within idle (wifi_config_form pcre_match NB5 NB6).
Proof.
  unfold wifi_config_form. trx. apply set_channel_closes. intros ?. apply trx_set_closes'. intros ?.
  apply set_ht40_closes. intros ?. trx.
Qed.

Lemma wifi_security_form_idle : within idle (wifi_security_form pcre_match).
Proof. unfold wifi_security_form, security_wep, security_wpa, wifi_security_finish. trx. Qed.

Lemma macfiltering_form_neutral : within (asked_site neutral) (wifi_macfiltering_form pcre_match).
Proof. unfold wifi_macfiltering_form, macfiltering_add, raw. page. Qed.

Lemma hotspot_config_form_idle : within idle (hotspot_config_form pcre_match).
Proof. unfold hotspot_config_form, hotspot_on, hotspot_off. trx. Qed.

Lemma set_all_closes t values k : (∀ t', closes t' (k t')) → closes t (set_all t values k).
Proof. intros Hk. revert t. induction values as [|[n v] values IH]; intros t; cbn [set_all]; [apply Hk|]. by apply trx_set_closes'. Qed.

Lemma eco_config_form_idle : within idle (eco_config_form pcre_match).
Proof. unfold eco_config_form. trx. apply set_all_closes. intros ?. trx. Qed.

Lemma printer_form_idle : within idle (service_printer_form pcre_match).
Proof. unfold service_printer_form. trx. Qed.

Lemma voip_form_idle : within idle (state_voip_form pcre_match).
Proof. unfold state_voip_form. trx. Qed.

Lemma dsl_config_form_neutral : within (asked_site neutral) (maintenance_dsl_config_form pcre_match).
Proof. unfold maintenance_dsl_config_form, dsl_store, dsl_diag. page. all: apply site_nbd_asks; case_match; query. Qed.

Lemma tv_status_asks P b n :
  P [str "stb"; str "list_count"] = true → within (asked P) (nbl_tv_get_status b n).
Proof.
  intros HP. unfold nbl_tv_get_status, nbd_stb_list_count, get_count. within_step; [|repeat within_step].
  within_bind; [by apply get_asks|]. intros [r b']. case_match; repeat within_step.
Qed.

Lemma hook_asks P b n :
  (∀ k, P [str "status"; str "get"; k] = true) → within (asked P) (Www.nbl_voip_get_hook_status b n).
Proof.
  intros HP. unfold Www.nbl_voip_get_hook_status. within_bind; [by apply get_asks|]. intros [r v]. case_match; [within_ret|].
  within_step; [within_step|]. within_bind; [|intros [r' b']; within_ret]. case_match; [|repeat within_step].
  within_bind; [by apply get_asks|]. intros [r' b']. case_match; repeat within_step.
Qed.

Lemma index_display_neutral : within (asked_site neutral) index_display.
Proof.
  unfold index_display. do 4 (within_step; [page|]). within_step; [by apply show_asks; intros b; apply tv_status_asks|]. page.
Qed.

Lemma voip_ajax_neutral : within (asked_site neutral) state_voip_ajax.
Proof.
  unfold state_voip_ajax. within_step; [page|]. within_step; [by apply show_asks; intros b; apply hook_asks|]. page.
Qed.

(** The pages of the kit. *)
Lemma kit_denied_neutral e : within (asked neutral) (kit_denied e).
Proof. unfold kit_denied. case_match; [|within_ret]. within_step; [by apply status_matches_site_asks|within_ret]. Qed.

Lemma kit_get_neutral name b n : within (asked neutral) (kit_helper_get CIBOX name b n).
Proof.
  unfold kit_helper_get. within_step; [within_step|]. generalize (request_name_maps CIBOX). intros maps.
  induction maps as [|e maps IH]; cbn [kit_get_loop]; [within_ret|]. within_step; [within_step|]. case_match; [|done].
  within_step; [apply kit_denied_neutral|]. case_match; [within_ret|]. unfold kit_read.
  repeat case_match; first [query | repeat within_step].
Qed.

Lemma kit_set_neutral name v : within (asked neutral) (kit_helper_set CIBOX name v).
Proof.
  unfold kit_helper_set. within_step; [within_step|]. generalize (request_name_maps CIBOX). intros maps.
  induction maps as [|e maps IH]; cbn [kit_set_loop]; [within_ret|]. within_step; [within_step|]. case_match; [|done].
  within_step; [apply kit_denied_neutral|]. repeat case_match; first [query | within_ret].
Qed.

Lemma kit_action_neutral script action : within (asked neutral) (kit_helper_action CIBOX script action).
Proof.
  unfold kit_helper_action. within_step; [within_step|]. case_match.
  unfold script_action_maps. case_match; cbn [app]; cbn [action_loop];
    repeat first [within_ret | query | within_step; [solve [repeat (within_step || case_match) | query]|] | case_match].
Qed.

Lemma kit_get_form_neutral : within (asked_site neutral) (kit_get_form pcre_match CIBOX).
Proof.
  unfold kit_get_form. within_step; [page|]. case_match; [|page].
  within_step; [apply get_buffer_asks; intros ?; apply kit_get_neutral|]. page.
Qed.

Lemma kit_set_form_neutral : within (asked_site neutral) (kit_set_form pcre_match CIBOX).
Proof.
  unfold kit_set_form. do 2 (within_step; [page|]). do 2 (case_match; [|page]).
  within_step; [apply site_nbd_asks, kit_set_neutral|]. page.
Qed.

Lemma kit_action_form_neutral : within (asked_site neutral) (kit_action_form pcre_match CIBOX).
Proof.
  unfold kit_action_form. do 2 (within_step; [page|]). do 2 (case_match; [|page]).
  within_step; [apply site_nbd_asks, kit_action_neutral|]. page.
Qed.

(** The pages of the shares, the disks, the line and the language. *)
Lemma texts_asks P {Y} (m : cmd (heap bytes) Y) : within (asked_site P) (on_texts m).
Proof. apply site_world_asks. Qed.

Lemma text_is_asks P v t : within (asked_site P) (text_is v t).
Proof. unfold text_is. page. Qed.

Lemma stored_neutral name : (∀ v, neutral [str "nvram"; str "set"; str name; v] = true) →
  within (asked_site neutral) (stored pcre_match name).
Proof. intros HP. unfold stored. within_step; [by apply hdf_to_nv_asks|within_ret]. Qed.

Lemma set_counted_neutral key v : within (asked_site neutral) (set_counted key v).
Proof. unfold set_counted. page. Qed.

#[local] Hint Resolve texts_asks text_is_asks set_counted_neutral : www.

Lemma user_profile_neutral profiles v : within (asked_site neutral) (set_user_profile profiles v).
Proof. induction profiles as [|[n [m p]] profiles IH]; cbn [set_user_profile]; page. Qed.

Lemma show_number_neutral numbers : within (asked_site neutral) (show_number numbers).
Proof. induction numbers as [|[k n] numbers IH]; cbn [show_number]; unfold owset; page. Qed.

#[local] Hint Resolve user_profile_neutral show_number_neutral : www.

Lemma storage_idle siblings : Forall (λ p : string * kind * cmd S unit, within idle p.2) (storage_handlers pcre_match siblings).
Proof.
  unfold storage_handlers. repeat apply Forall_cons_2; try apply Forall_nil_2; cbn [snd].
  all: unfold service_samba_form, samba_addshare, delshare, samba_config, service_samba_ajax, service_upnpav_form,
    upnpav_addshare, service_upnpav_ajax, state_device_form, umount, maintenance_dsl_display, show_profile, show_margin,
    maintenance_dsl_form, old_profile, save_profile, profile_auto, profile_manual, maintenance_webui_form,
    network_accesscontrol_display, acm_list, owset.
  all: trx; first [apply neutral_idle, stored_neutral; reflexivity | unfold delshare, save_profile; trx].
Qed.

(** The page of the administrator. *)
Section admin.
Context (sha256 : bytes → bytes).

Lemma validation_method_neutral b n : within (asked_site neutral) (get_validation_method CIBOX b n).
Proof. unfold get_validation_method. page. Qed.

Lemma hash_neutral t : within (asked_site neutral) (hash sha256 t).
Proof. unfold hash. page. Qed.

Lemma wants_password_neutral a : within (asked_site neutral) (wants_password a).
Proof. unfold wants_password. page. Qed.

#[local] Hint Resolve validation_method_neutral hash_neutral wants_password_neutral : www.

Lemma admin_commit_closes c a t : closes t (admin_commit c a t).
Proof. unfold admin_commit. trx. Qed.

Lemma admin_store_idle c a cr : within idle (admin_store c a cr).
Proof. unfold admin_store. trx. all: apply admin_commit_closes. Qed.

Lemma new_password_idle k : (∀ l h, within idle (k l h)) → within idle (new_password pcre_match sha256 k).
Proof. intros Hk. unfold new_password. trx. all: apply Hk. Qed.

Lemma admin_check_idle c k : within idle k → within idle (admin_check pcre_match sha256 c k).
Proof. intros Hk. unfold admin_check, check_old_password, check_button_on. trx. all: apply Hk. Qed.

Lemma admin_form_idle : within idle (maintenance_admin_form pcre_match CIBOX sha256).
Proof.
  unfold maintenance_admin_form. trx. apply admin_check_idle. trx; [|apply admin_store_idle].
  apply new_password_idle. intros ??. apply admin_store_idle.
Qed.

End admin.

Section table.
Context (clock : nat → timeval) (random : nat → option bytes).
Context (sha256 : bytes → bytes) (hmac_sha256 : bytes → bytes → bytes).
Context (conf_get : conf_get_fn) (login_alt_method : option (loc → bytes → cmd (world H) Z)).
Context (pid : Z) (has_net_infra_bridge has_net_infra_ftth has_net_infra_adsl : bool).

Abbreviation public := (public_handlers pcre_match CIBOX clock random sha256 hmac_sha256 conf_get login_alt_method
  has_net_infra_ftth has_net_infra_adsl).
Context (ezxml_siblings : X → list X).
Abbreviation storage := (storage_handlers pcre_match ezxml_siblings).
Abbreviation private := (private_handlers pcre_match hdf_obj_children CIBOX NB5 NB6 sha256 pid has_net_infra_bridge).

Lemma public_idle : Forall (λ p : string * kind * cmd S unit, within idle p.2) public.
Proof.
  unfold public_handlers. repeat apply Forall_cons_2; try apply Forall_nil_2; cbn [snd]; apply neutral_idle;
    first [apply index_display_neutral | apply kit_get_form_neutral | apply kit_set_form_neutral
          | apply kit_action_form_neutral
          | unfold login_display, login_form, logout_display, stb_info_display, stb_ftth, stb_adsl, child_is; page].
Qed.

#[local] Hint Resolve dhcp_form_idle ddns_form_idle gprs_form_idle firewall_form_idle network_form_idle
  wifi_config_form_idle wifi_security_form_idle hotspot_config_form_idle eco_config_form_idle printer_form_idle
  voip_form_idle admin_form_idle : www.
#[local] Hint Resolve route_form_neutral lan_form_neutral dns_form_neutral nat_form_neutral acm_form_neutral
  macfiltering_form_neutral dsl_config_form_neutral voip_ajax_neutral validation_method_neutral : www.

Lemma upnp_count_neutral : within (asked neutral) nbd_nat_upnp_count.
Proof. unfold nbd_nat_upnp_count, get_int. within_step; [|intros]. { within_step; [by apply get_asks|]. intros. case_match. within_ret. } case_match. within_ret. Qed.
#[local] Hint Resolve upnp_count_neutral : www.

Lemma private_idle : Forall (λ p : string * kind * cmd S unit, within idle p.2) private.
Proof.
  unfold private_handlers. repeat apply Forall_cons_2; try apply Forall_nil_2; cbn [snd];
    first [solve [auto 2 with www] | apply neutral_idle];
    first [solve [auto 2 with www]
          | unfold network_dhcp_display, network_route_display, network_lan_display, network_dns_display,
              network_nat_display, network_nat_upnp_display, network_firewall_display, network_ddns_display,
              network_gprs_display, network_wan_display, wifi_display, wifi_key, wifi_config_display,
              wifi_security_display, wifi_macfiltering_display, hotspot_display, hotspot_ajax, hotspot_config_display,
              eco_display, eco_config_display, service_display, service_printer_display, state_device_plug_display,
              lanpopup_display, reboot_form, nbl_utils_box_reboot, rootfs_display, rootfs_form, maintenance_display,
              owset, maintenance_dsl_config_display, maintenance_admin_display, child_is; page].
Qed.

(** C12: Whatever the request and whatever the configuration daemon answers, a page of the
    web site leaves no cursor of the configuration open: it opens one at most, sets values
    in it, commits it only when all of them were accepted, and closes it on every path.
    (The form of the WAN page is the exception.) *)
Theorem pages_run_transactions name kind handler (s s' : S) :
  (name, kind, handler) ∈ public ++ private ++ storage → handler s = Ret (tt, s') →
  cursors_of answer (st_nbd s) = Idle → cursors_of answer (st_nbd s') = Idle.
Proof.
  intros Hin E. pose proof (Forall_app_2 _ _ _ public_idle (Forall_app_2 _ _ _ private_idle (storage_idle ezxml_siblings))) as F.
  exact (proj1 (Forall_forall _ _) F _ Hin s tt s' E).
Qed.

End table.

End handlers.

(** ** Who may change what *)
Section rights.

(** A field of the request. *)
Definition field (s : S) (name : string) : option bytes := hdf_get (w_hdf (EwfDispatch.wb_w (st_web s))) (query (lit name)).

(** An entry of the configuration, or of the status, that the daemon holds: it keeps
    telling it as long as it is only asked to tell something. *)
Context (h0 : list nbd_event).

Definition holds (table key : string) (t : bytes) (size : nat) : Prop :=
  (∀ h, asked reads h0 h → answer h [str table; str "get"; str key] = (0, cstr t)) ∧ text t ∧ (length t < size)%nat.

Lemma held_ok table key t size (s : S) :
  holds table key t size → asked reads h0 (st_nbd s) →
  on_nbd (nbd_get (local_buf size) (Z.of_nat size) [str table; str "get"; str key]) s
  = Ret ((0, cstr t ++ replicate (size - length (cstr t)) 0),
         set_nbd (st_nbd s ++ [Asked [str table; str "get"; str key]]) s).
Proof.
  intros (Ha & Ht & Hl) Hr. unfold on_nbd, zoom.
  assert (length (local_buf size) = size) as Hs by apply length_replicate.
  pose proof (every_get_text answer _ t (local_buf size) (st_nbd s) (Ha _ Hr) Ht ltac:(by rewrite Hs)) as E.
  rewrite Hs in E. by rewrite (E : @nbd_get _ site_ops _ _ _ _ = _).
Qed.

Lemma reads_get table key (s : S) :
  (table = "nvram" ∨ table = "status")%string →
  asked_site reads s (set_nbd (st_nbd s ++ [Asked [str table; str "get"; str key]]) s).
Proof. intros Ht. exists [Asked [str table; str "get"; str key]]. split; [done|]. constructor; [|done]. by destruct Ht as [-> | ->]. Qed.

Lemma held_text t n : text t → str_of (cstr t ++ replicate n 0) = Some t.
Proof. intros Ht. unfold cstr. rewrite <- app_assoc. by apply str_of_app. Qed.

Lemma equals_ok a t (l : string) : str_of a = Some t → text (lit l) → equals a l = Ret (bytes_eqb t (lit l)).
Proof. intros Ha Hl. unfold equals. rewrite (matches_ok a t) by done. cbn. by destruct (bytes_eqb t (lit l)). Qed.

Lemma same_text_ok a b t u (s : S) : str_of a = Some t → str_of b = Some u → same_text a b s = Ret (bytes_eqb t u, s).
Proof.
  intros Ha Hb. unfold same_text, nbu_string_compare. rewrite (compare_loop_ok a b t u) by done.
  cbn. by destruct (bytes_eqb t u).
Qed.

Lemma sget_inv name v (s s' : S) :
  text (lit name) → (length (lit name) < 100)%nat → ewf_hdf_sget pcre_match name s = Ret (Some v, s') →
  field s name = Some v ∧ s' = s.
Proof.
  intros Ht Hl E. unfold ewf_hdf_sget, on_cgi, on_web, zoom, EwfDispatch.on_cgi,
    EwfDispatch.on_web, zoom, on_hdf, zoom in E. rewrite sget_ok in E by done. unfold field.
  destruct (hdf_get _ _) as [v'|]; [|done]. destruct (valid _ _ _ _); [|done]. injection E as <- <-.
  split; [done|]. by destruct s as [[[] ? ? ? ? ?] ? ? ?].
Qed.

Lemma hdf_get_inv P name k (s s' : S) :
  text (lit name) → (length (lit name) < 100)%nat → EWF_HDF_GET pcre_match name k s = Ret (tt, s') →
  asked_site P s s' ∨ ∃ v, field s name = Some v ∧ k v s = Ret (tt, s').
Proof.
  intros Ht Hl E. unfold EWF_HDF_GET in E. apply cmd_bind_Ret_inv in E as ([v|] & s1 & E1 & E).
  - right. apply sget_inv in E1 as [Hv ->]; eauto.
  - left. pose proof (sget_asks P name s None s1 E1). by injection E as <-.
Qed.

(** The administration page, and what the daemon holds for it. *)
Section admin_rights.
Context (CIBOX : bool) (sha256 : bytes → bytes) (sha256_ok : ∀ t, digest_ok (sha256 t)).
Context (auth login digest autologin : bytes).
Context (Hauth : holds "nvram" "web_auth" auth 16) (Hlogin : holds "nvram" "web_login" login 128).
Context (Hdigest : holds "nvram" "web_password" digest 128) (Hbutton : holds "status" "web_autologin" autologin 8).

(** The request gives the login and the password. *)
Definition knows_password (s : S) : Prop :=
  ∃ p, field s "web_old_login" = Some login ∧ field s "web_old_password" = Some p ∧ digest = hex (sha256 p).

Lemma hash_ok t (s s' : S) r o :
  text t → hash sha256 t s = Ret ((r, o), s') → asked_site reads s s' ∧ (r = EWF_SUCCESS → o = Some (cstr (hex (sha256 t)))).
Proof.
  intros Ht E. split; [by eapply site_world_asks|]. unfold hash, on_world, on_web, EwfDispatch.on_web, zoom in E.
  destruct (h_avail (w_heap (EwfDispatch.wb_w (st_web s)))) as [|k] eqn:Hk.
  - unfold ewf_crypto_sha256_hash, mbind, cmd_bind, calloc_bytes in E. rewrite Hk in E. by injection E as <- <- _.
  - erewrite crypto_sha256_ok in E; [by injection E as _ <- _|by apply str_of_cstr|apply sha256_ok|exact Hk].
Qed.

Lemma check_password_inv k (s s' : S) :
  asked reads h0 (st_nbd s) → (∀ n v, field s n = Some v → text v) → check_old_password pcre_match sha256 k s = Ret (tt, s') →
  asked_site reads s s' ∨ knows_password s.
Proof.
  intros A0 Hf E. unfold check_old_password in E.
  apply (hdf_get_inv reads) in E as [|(l & Hl & E)]; [by left| |by repeat constructor|cbn; lia].
  apply (hdf_get_inv reads) in E as [|(p & Hp & E)]; [by left| |by repeat constructor|cbn; lia].
  unfold nbd_user_config_get in E.
  pose proof (reads_get "nvram" "web_login" s (or_introl eq_refl)) as A1.
  erewrite cmd_bind_Ret in E by exact (held_ok _ _ _ _ _ Hlogin A0). cbv beta iota in E.
  change (negb (0 =? NBD_SUCCESS)) with false in E. cbv iota in E. set (s1 := set_nbd _ s) in *.
  erewrite cmd_bind_Ret in E by exact (held_ok _ _ _ _ s1 Hdigest (transitivity A0 A1)). cbv beta iota in E.
  change (negb (0 =? NBD_SUCCESS)) with false in E. cbv iota in E.
  pose proof (reads_get "nvram" "web_password" s1 (or_introl eq_refl)) as A2. set (s2 := set_nbd _ s1) in *.
  destruct Hlogin as (_ & Htl & _), Hdigest as (_ & Htd & _).
  erewrite cmd_bind_Ret in E by (apply same_text_ok; [by apply held_text|by apply str_of_cstr; eapply Hf]).
  destruct (bytes_eqb login l) eqn:El; cbv beta iota in E; cbn [negb] in E.
  2: { left. etrans; [exact A1|]. etrans; [exact A2|]. by eapply hdf_error_asks. }
  apply bytes_eqb_eq in El as <-. apply cmd_bind_Ret_inv in E as ([r o] & s3 & Eh & E).
  apply hash_ok in Eh as [A3 Ho]; [|by eapply Hf].
  destruct (negb (r =? EWF_SUCCESS)) eqn:Hr.
  { left. etrans; [exact A1|]. etrans; [exact A2|]. etrans; [exact A3|]. by eapply form_error_asks. }
  apply negb_false_iff, Z.eqb_eq in Hr. rewrite (Ho Hr) in E. unfold nbu_string_compare in E.
  rewrite (compare_loop_ok _ _ digest (hex (sha256 p))) in E;
    [|by apply held_text|apply str_of_cstr, (proj2 (hex_facts _ (proj2 (sha256_ok p))))].
  destruct (bytes_eqb digest (hex (sha256 p))) eqn:Ed.
  - right. exists p. apply bytes_eqb_eq in Ed. done.
  - apply cmd_bind_Ret_inv in E as (z & s4 & Ez & E). injection Ez as <- <-.
    change (negb (NBU_STRING_DIFFERENT =? NBU_STRING_EQUAL)) with true in E. cbv iota in E. left. etrans; [exact A1|]. etrans; [exact A2|].
    etrans; [exact A3|]. by eapply hdf_error_asks.
Qed.

Lemma check_button_inv k (s s' : S) :
  asked reads h0 (st_nbd s) → check_button_on k s = Ret (tt, s') → asked_site reads s s' ∨ autologin = lit "on".
Proof.
  intros A0 E. unfold check_button_on, STATUS_GET, nbd_status_get in E.
  erewrite cmd_bind_Ret in E by exact (held_ok _ _ _ _ _ Hbutton A0). cbv beta iota in E.
  change (negb (0 =? 0)) with false in E. cbv iota in E.
  pose proof (reads_get "status" "web_autologin" s (or_intror eq_refl)) as A1. set (s1 := set_nbd _ s) in *.
  destruct Hbutton as (_ & Ht & _).
  rewrite (equals_ok _ autologin) in E; [|by apply held_text|by repeat constructor].
  apply cmd_bind_Ret_inv in E as (on & s2 & Eon & E). injection Eon as <- <-.
  destruct (bytes_eqb autologin (lit "on")) eqn:Ea; [right; by apply bytes_eqb_eq|].
  cbn [negb] in E. left. etrans; [exact A1|]. by eapply form_error_asks.
Qed.

(** How the change has to be confirmed. *)
Definition confirmation : bytes :=
  if bytes_eqb auth (lit "off") || bytes_eqb auth (lit "button") then (if CIBOX then lit "off" else lit "button")
  else lit "passwd".

Lemma validation_method_ok (s : S) :
  asked reads h0 (st_nbd s) → ∃ b s', get_validation_method CIBOX (local_buf 16) 16 s = Ret ((0, b), s') ∧ asked_site reads s s' ∧
    st_web s' = st_web s ∧ str_of b = Some confirmation.
Proof.
  intros A0. unfold get_validation_method, nbd_user_config_get.
  erewrite cmd_bind_Ret by exact (held_ok _ _ _ _ _ Hauth A0).
  cbv beta iota. change (negb (0 =? NBD_SUCCESS)) with false. cbv iota.
  pose proof (reads_get "nvram" "web_auth" s (or_introl eq_refl)) as A1. set (s1 := set_nbd _ s) in *.
  destruct Hauth as (_ & Ht & _). rewrite !(equals_ok _ auth) by (try apply held_text; by repeat constructor).
  destruct (copy_ok (local_buf 16) 16 (str (if bytes_eqb auth (lit "off") || bytes_eqb auth (lit "button")
    then if CIBOX then "off" else "button" else "passwd")) confirmation) as (b & E & Hb).
  { done. } { done. } { unfold confirmation. by destruct (_ || _), CIBOX. }
  exists b, s1. split_and!; [|exact A1|done|].
  - destruct (bytes_eqb auth (lit "off")), (bytes_eqb auth (lit "button")); cbn [orb] in E; unfold mbind, cmd_bind, lift, mret, cmd_ret;
      cbn [orb]; unfold buf_of; destruct CIBOX; by rewrite E.
  - destruct Hb as [Hb _ _]. rewrite Hb. f_equal. unfold confirmation. by destruct (_ || _), CIBOX.
Qed.

(** C9: A request changes how the administrator is authenticated, or anything else, through
    the administration page only when it was confirmed.  How depends on the stored
    [web_auth]: when it is neither "off" nor "button", by the current login and a password
    whose SHA-256 is the stored one; when it is "off" or "button", by the button of the
    box, except on a box built with CIBOX, where no confirmation at all is asked for in
    that case.  Any other request makes the page read the configuration and no more. *)
Theorem admin_form_confirmed (s s' : S) :
  asked reads h0 (st_nbd s) → (∀ n v, field s n = Some v → text v) →
  maintenance_admin_form pcre_match CIBOX sha256 s = Ret (tt, s') →
  asked_site reads s s' ∨
  (if decide (auth = lit "off" ∨ auth = lit "button") then CIBOX = true ∨ autologin = lit "on"
   else knows_password s).
Proof.
  intros A0 Hf E. unfold maintenance_admin_form in E.
  apply (hdf_get_inv reads) in E as [|(a & _ & E)]; [by left| |by repeat constructor|cbn; lia].
  destruct (validation_method_ok s A0) as (b & s1 & E1 & A1 & Hw & Hb). erewrite cmd_bind_Ret in E by exact E1.
  cbv beta iota in E. change (negb (0 =? 0)) with false in E. cbv iota in E. unfold admin_check in E.
  rewrite (equals_ok b confirmation "passwd") in E; [|exact Hb|by repeat constructor].
  apply cmd_bind_Ret_inv in E as (p & s2 & Ep & E). injection Ep as <- <-. unfold confirmation in E, Hb.
  destruct (bytes_eqb auth (lit "off") || bytes_eqb auth (lit "button")) eqn:Ha.
  - rewrite decide_True by (apply orb_true_iff in Ha as [Ha%bytes_eqb_eq|Ha%bytes_eqb_eq]; auto).
    destruct CIBOX; [by auto|]. rewrite (equals_ok b (lit "button") "button") in E; [|exact Hb|by repeat constructor].
    apply check_button_inv in E as [A2|]; [left; by etrans|by auto|exact (transitivity A0 A1)].
  - rewrite decide_False by (apply orb_false_iff in Ha as [?%bytes_eqb_neq ?%bytes_eqb_neq]; tauto).
    apply check_password_inv in E as [A2|Hk]; [left; by etrans| |exact (transitivity A0 A1)|].
    + right. unfold knows_password, field in *. by rewrite Hw in Hk.
    + intros n v. unfold field. rewrite Hw. apply Hf.
Qed.

End admin_rights.

(** The pages of the installation kit, which anybody may ask for. *)
Section kit_rights.
Context (CIBOX : bool).

(** The button of the box was not pressed. *)
Context (button_off : ∀ h, ∃ h', ApiCtl.nbd_status_matches (str "web_autologin") "on" h = Ret (false, h')).

(** The wireless settings. *)
Definition wireless : list string :=
  ["wlan_wl0_enc"; "wlan_wl0_keytype"; "wlan_wl0_primarykey"; "wlan_wl0_ssid"; "wlan_wl0_wepkeys_n0";
   "wlan_wl0_wpakey"; "wpa_key"].

Definition not_wireless (args : list bytes) : bool :=
  match args with
  | _ :: _ :: k :: _ => forallb (λ w, negb (bytes_eqb k (str w))) wireless
  | _ => true
  end.

Definition open_entry (e : request_name) : bool :=
  match rn_access e with
  | EWF_ACCESS_PRIVATE => true
  | EWF_ACCESS_PUBLIC => forallb (λ w, negb (bytes_eqb (str (rn_name e)) (str w))) wireless
  end.

Lemma entries_open : Forall (λ e, open_entry e = true) (request_name_maps CIBOX).
Proof. by destruct CIBOX; repeat constructor. Qed.

Lemma same_ok (a b : bytes) : text a → text b → same (cstr a) (cstr b) = Ret (bytes_eqb a b).
Proof.
  intros Ha Hb. unfold same, nbu_string_compare. rewrite (compare_loop_ok _ _ a b) by by apply str_of_cstr.
  cbn. by destruct (bytes_eqb a b).
Qed.

Lemma compatibility_ok n : text n → ∃ n', _kit_helper_var_compatibility (cstr n) = Ret (cstr n') ∧ text n'.
Proof.
  intros Hn. unfold _kit_helper_var_compatibility.
  assert (Forall (λ p, text (lit p.1) ∧ text (lit p.2)) old_vars_compatibility_maps) as Ht by by repeat constructor.
  induction Ht as [|[o m] maps [Ho Hm] _ IH]; cbn [compatibility_loop]; [by exists n|].
  unfold str. rewrite same_ok by done. unfold mbind, outcome_bind. destruct (bytes_eqb n (lit o)); [by eexists|done].
Qed.

Lemma denied_ok e h : rn_access e = EWF_ACCESS_PRIVATE → ∃ h', kit_denied e h = Ret (true, h').
Proof.
  intros He. unfold kit_denied. rewrite He. destruct (button_off h) as (h' & E).
  exists h'. by erewrite cmd_bind_Ret by exact E.
Qed.

Lemma names_text : Forall (λ e, text (lit (rn_name e))) (request_name_maps CIBOX).
Proof. by destruct CIBOX; repeat constructor. Qed.

Lemma denied_asks e : within (asked not_wireless) (kit_denied e).
Proof. unfold kit_denied. case_match; [|within_ret]. within_step; [by apply status_matches_site_asks|within_ret]. Qed.

(** The entry that a name finds: nothing is asked unless anybody may. *)
Lemma entry_asks {Y} n e (found : bool → cmd (list nbd_event) Y) (rest : cmd (list nbd_event) Y) :
  text n → text (lit (rn_name e)) → open_entry e = true →
  within (asked not_wireless) (found true) →
  ((∀ t v l, not_wireless (t :: v :: cstr n :: l) = true) → within (asked not_wireless) (found false)) →
  within (asked not_wireless) rest →
  within (asked not_wireless)
    (eq ← lift (same (cstr n) (str (rn_name e))); if eq : bool then (denied ← kit_denied e; found denied) else rest).
Proof.
  intros Hn He Ho Ht Hf Hr h y h' E. apply cmd_bind_Ret_inv in E as (eq & h1 & E1 & E).
  unfold str, lift in E1. rewrite same_ok in E1 by done. injection E1 as <- <-.
  destruct (bytes_eqb n (lit (rn_name e))) eqn:En; [|by eapply Hr]. apply bytes_eqb_eq in En as ->.
  apply cmd_bind_Ret_inv in E as (d & h1 & E1 & E). etrans; [by eapply denied_asks|].
  unfold open_entry in Ho. destruct (rn_access e) eqn:Ha.
  - destruct (denied_ok e h Ha) as (h2 & E2). rewrite E2 in E1. injection E1 as <- <-. by eapply Ht.
  - unfold kit_denied in E1. rewrite Ha in E1. injection E1 as <- <-. by eapply Hf.
Qed.

Lemma with_name {Y} n (m : bytes → cmd (list nbd_event) Y) :
  text n → (∀ n', text n' → within (asked not_wireless) (m (cstr n'))) →
  within (asked not_wireless) (name ← lift (_kit_helper_var_compatibility (cstr n)); m name).
Proof. intros Hn Hm. destruct (compatibility_ok n Hn) as (n' & -> & Hn'). intros h y h' E. by eapply Hm. Qed.

Lemma kit_get_public n b size : text n → within (asked not_wireless) (kit_helper_get CIBOX (cstr n) b size).
Proof.
  intros Hn. apply with_name; [done|]. clear n Hn. intros n Hn. pose proof entries_open as Ho. pose proof names_text as Ht.
  induction (request_name_maps CIBOX) as [|e maps IH]; cbn [kit_get_loop]; [within_ret|].
  apply Forall_cons in Ho as [Ho Hos]. apply Forall_cons in Ht as [Ht Hts]. apply entry_asks; [done..| | |by auto].
  - within_ret.
  - intros Hp. unfold kit_read. repeat case_match; first [by apply get_asks | repeat within_step].
Qed.

Lemma kit_set_public n v : text n → within (asked not_wireless) (kit_helper_set CIBOX (cstr n) v).
Proof.
  intros Hn. apply with_name; [done|]. clear n Hn. intros n Hn. pose proof entries_open as Ho. pose proof names_text as Ht.
  induction (request_name_maps CIBOX) as [|e maps IH]; cbn [kit_set_loop]; [within_ret|].
  apply Forall_cons in Ho as [Ho Hos]. apply Forall_cons in Ht as [Ht Hts]. apply entry_asks; [done..| | |by auto].
  - within_ret.
  - intros Hp. case_match; [by apply set_asks|within_ret].
Qed.

(** C10: The pages of the installation kit are open to everybody; while the button of the
    box has not been pressed, a request to read or to set an entry through them, whatever
    its name and value, makes the daemon neither tell nor take a wireless setting. *)
Theorem kit_needs_button page (s s' : S) :
  page ∈ [kit_get_form pcre_match CIBOX; kit_set_form pcre_match CIBOX] →
  (∀ n v, field s n = Some v → text v) → page s = Ret (tt, s') → asked_site not_wireless s s'.
Proof.
  intros Hp Hf E. apply list_elem_of_In in Hp as [<-|[<-|[]]].
  - unfold kit_get_form in E. apply cmd_bind_Ret_inv in E as ([n|] & s1 & E1 & E).
    2: { apply (sget_asks not_wireless) in E1. by injection E as <-. }
    apply sget_inv in E1 as [Hn%Hf ->]; [|by repeat constructor|cbn; lia].
    refine ((_ : within (asked_site not_wireless) _) s tt s' E).
    within_bind; [apply get_buffer_asks; intros b; by apply kit_get_public|]. intros r. page.
  - unfold kit_set_form in E. apply cmd_bind_Ret_inv in E as (n & s1 & E1 & E).
    pose proof (sget_asks not_wireless _ _ _ _ E1) as A1. etrans; [exact A1|].
    refine ((_ : within (asked_site not_wireless) _) s1 tt s' E). within_bind; [page|]. intros v.
    destruct n as [n|], v as [v|]; [|within_ret..].
    apply sget_inv in E1 as [Hn%Hf ->]; [|by repeat constructor|cbn; lia].
    within_bind; [by apply site_nbd_asks, kit_set_public|]. intros r. page.
Qed.

End kit_rights.

(** ** The range of the DHCP server *)
Section dhcp_range.
Context (a b c d m0 m1 m2 m3 k : Z).
Context (Hbytes : Forall (λ n, 0 <= n < 256) [a; b; c; d; m0; m1; m2; m3]) (Ha : a < 255).
Context (Hk : 1 <= k <= 32) (Hmask : addr m0 m1 m2 m3 = 2 ^ 32 - 2 ^ k).
Context (Hip : holds "nvram" "lan_ipaddr" (dotted a b c d) 16).
Context (Hnetmask : holds "nvram" "lan_netmask" (dotted m0 m1 m2 m3) 16).

(** The address with another last byte is one that a host may have, other than the box. *)
Definition leasable (x : Z) : Prop :=
  0 <= x < 256 ∧ x ≠ d ∧ addr a b c x mod 2 ^ k ≠ 0 ∧ addr a b c x mod 2 ^ k ≠ 2 ^ k - 1.

(** Queries that store no end of the range: to read, to add or remove a static lease, to
    restart the server. *)
Definition restart_query : list bytes := [str "nbctl"; str "async_run"; str "/etc/init.d/dhcpd"; str "restart"].

Definition no_range (args : list bytes) : bool :=
  reads args ||
  match args with
  | [p; v; _] => bytes_eqb p (str "lan") && bytes_eqb v (str "dhcpd_del_static_ip")
  | [p; v; x; y] => (bytes_eqb p (str "lan") && bytes_eqb v (str "dhcpd_add_static_ip")) ||
                    bool_decide (args = restart_query)
  | _ => false
  end.

Lemma byte_facts : (0 <= a < 256 ∧ 0 <= b < 256 ∧ 0 <= c < 256 ∧ 0 <= d < 256) ∧
  0 <= m0 < 256 ∧ 0 <= m1 < 256 ∧ 0 <= m2 < 256 ∧ 0 <= m3 < 256.
Proof. pose proof Hbytes as F. repeat (apply Forall_cons in F as [? F]). done. Qed.

Lemma lan_address_inv parts p3 mask r t ip :
  Forall2 (λ p n, str_of p = Some (fmt_u n)) parts [a; b; c; d] → text t → p3 = t →
  mask = dotted m0 m1 m2 m3 ++ 0 :: r → lan_address parts p3 mask = Ret (Some ip) →
  ∃ x, x = st_val (strtol t 10) ∧ 0 <= x < 256 ∧ str_of ip = Some (dotted a b c x) ∧
    addr a b c x mod 2 ^ k ≠ 0 ∧ addr a b c x mod 2 ^ k ≠ 2 ^ k - 1.
Proof.
  destruct byte_facts as [(Ba & Bb & Bc & Bd) (B0 & B1 & B2 & B3)]. intros Hparts Ht -> -> E.
  destruct parts as [|p0 [|p1 [|p2 [|p3 [|]]]]]; try by repeat (apply Forall2_cons in Hparts as [_ Hparts]); inversion Hparts.
  repeat (apply Forall2_cons in Hparts as [? Hparts]). unfold lan_address in E. cbn [lookup list_lookup] in E.
  destruct (nbu_net_join_ip _ _ _ _ _ _) as [[j o]| | |] eqn:Ej; try done. cbn [mbind outcome_bind] in E.
  destruct (negb (j =? NBU_SUCCESS)) eqn:Hj; [done|]. apply negb_false_iff, Z.eqb_eq in Hj.
  apply (join_ip_inv _ _ _ _ (fmt_u a) (fmt_u b) (fmt_u c) t) in Ej as [Hx (i & -> & Hi)];
    try done; [|by apply str_of_cstr].
  rewrite !(strtol_byte 10 _ _ 3) in Hi by (first [by apply fmt_u_byte | done | by left]). cbn [st_val] in Hi.
  repeat (apply Forall_cons in Hx as [? Hx]). set (x := st_val (strtol t 10)) in *.
  cbn [must mbind outcome_bind] in E. destruct (str_of_split _ _ Hi) as (r' & ->).
  rewrite (nbu_net_validate_full_ip_spec a b c x m0 m1 m2 m3 k r' r) in E; try done.
  2: { unfold addr. lia. }
  cbn [mbind outcome_bind] in E. exists x. split; [done|].
  destruct (_ mod _ =? 0) eqn:E0; [done|]. destruct (_ =? 2 ^ k - 1) eqn:E1; [done|]. zbool.
  injection E as <-. done.
Qed.

(** What exactly a command asks, from the history before. *)
Definition sends {Y} (T : list nbd_event → list (list bytes)) (m : cmd S Y) : Prop :=
  ∀ s y s', m s = Ret (y, s') → st_nbd s' = st_nbd s ++ (Asked <$> T (st_nbd s)).

Lemma quiet_web {Y} (m : cmd (EwfDispatch.web H) Y) (s s' : S) y : on_web m s = Ret (y, s') → st_nbd s' = st_nbd s.
Proof. unfold on_web, zoom. destruct (m (st_web s)) as [[y1 w]| | |]; try done. by intros [= _ <-]. Qed.

Lemma quiet_error e (s s' : S) y : ewf_hdf_query_error e s = Ret (y, s') → st_nbd s' = st_nbd s.
Proof.
  unfold ewf_hdf_query_error, ewf_hdf_form_set_error. intros E. 
  repeat first [apply cmd_bind_Ret_inv in E as (? & ? & ?%quiet_web & E)]. by injection E as _ <-; congruence.
Qed.

Lemma set_status args (s : S) :
  on_nbd (nbd_set args) s = Ret (status answer (st_nbd s) args, set_nbd (st_nbd s ++ [Asked args]) s).
Proof.
  destruct (set_history args (st_nbd s)) as (r & E). unfold on_nbd, zoom, status.
  by rewrite (E : @nbd_set _ (site_daemon answer) _ _ = _), E.
Qed.

Definition clean (t : trx) : bool := negb (sum_set_stat t =? -1).

Lemma set_sends t key name v sets (k0 : trx → cmd S unit) :
  (∀ st, let t' := Trx (trx_id t) st in
     sends (λ h, transaction answer restart_query h (trx_id t) sets (clean t')) (k0 t')) →
  sends (λ h, transaction answer restart_query h (trx_id t) ((key, v) :: sets) (clean t)) (NV_SET_WTRX t key name v k0).
Proof.
  intros Hk0 s [] s' E. unfold NV_SET_WTRX, NV_SET_WTRX_as, __nv_set_with_trx in E. destruct t as [id st]. cbn [trx_id] in *.
  apply cmd_bind_Ret_inv in E as ([r t'] & s2 & E1 & E). unfold nbd_user_config_cset in E1.
  rewrite (cmd_bind_Ret _ _ _ _ _ (set_status (cset_query id key v) s)) in E1.
  cbn [transaction]. set (q := cset_query id key v) in *. set (r0 := status answer (st_nbd s) q) in *.
  change (NV_SET_SUCCESS) with 0 in E1. change NV_SET_UNCHANGED with 1 in E1. change NV_SET_INVALID_VALUE with (-4) in E1.
  rewrite fmap_cons. destruct ((r0 =? 0) || (r0 =? 1)).
  { injection E1 as <- <- <-. apply Hk0 in E. rewrite E. cbn [st_nbd set_nbd]. by rewrite <- app_assoc. }
  destruct (r0 =? -4) eqn:Hr.
  - apply cmd_bind_Ret_inv in E1 as (u & s3 & E3 & E1). injection E1 as <- <- <-. apply quiet_web in E3.
    apply Z.eqb_eq in Hr. rewrite Hr in E. apply (Hk0 (-1)) in E. rewrite E, E3. cbn [st_nbd set_nbd]. by rewrite <- app_assoc.
  - apply cmd_bind_Ret_inv in E1 as (u & s3 & E3 & E1). injection E1 as <- <- <-. apply quiet_error in E3.
    change (NV_SET_ERROR =? NV_SET_ERROR) with true in E. cbv iota in E.
    rewrite (cmd_bind_Ret _ _ _ _ _ (set_status (close_query id) s3)) in E. injection E as <-.
    cbn [st_nbd set_nbd]. rewrite E3. cbn [st_nbd set_nbd]. by rewrite <- app_assoc.
Qed.

Lemma commit_sends t :
  sends (λ h, transaction answer restart_query h (trx_id t) [] (clean t))
    (r ← NV_TRX_XCOMMIT t; if r =? NV_COMMIT_SUCCESS then dhcp_restart else mret tt).
Proof.
  intros s [] s' E. unfold NV_TRX_XCOMMIT, __nv_trx_commit, __nv_trx_close, clean in *. cbn [transaction].
  rewrite cmd_bind_assoc in E. destruct (sum_set_stat t =? -1); cbn [negb].
  - rewrite (cmd_bind_Ret (mret _) _ s NV_COMMIT_UNCHANGED s) in E by done. rewrite cmd_bind_assoc in E.
    rewrite (cmd_bind_Ret _ _ _ _ _ (set_status (close_query (trx_id t)) s)) in E. by injection E as <-.
  - rewrite (cmd_bind_Ret _ _ _ _ _ (set_status (commit_query (trx_id t)) s)) in E. rewrite cmd_bind_assoc in E.
    rewrite (cmd_bind_Ret _ _ _ _ _ (set_status (close_query (trx_id t)) _)) in E. cbn [st_nbd set_nbd] in E.
    rewrite (cmd_bind_Ret (mret _) _ _ _ _ eq_refl) in E. change NV_COMMIT_SUCCESS with 0 in E.
    destruct (status answer (st_nbd s) (commit_query (trx_id t)) =? 0).
    + unfold dhcp_restart, sys_async_run in E. rewrite (cmd_bind_Ret _ _ _ _ _ (set_status restart_query _)) in E.
      injection E as <-. cbn [st_nbd set_nbd]. by rewrite <- !app_assoc.
    + injection E as <-. cbn [st_nbd set_nbd]. by rewrite <- app_assoc.
Qed.

Lemma init_sends sets (k0 : trx → cmd S unit) :
  (∀ t, sends (λ h, transaction answer restart_query h (trx_id t) sets (clean t)) (k0 t)) →
  sends (λ h, new_query :: (if 0 <? opened answer h
                            then transaction answer restart_query (h ++ [Asked new_query]) (opened answer h) sets true
                            else [])) (NV_TRX_INIT k0).
Proof.
  intros Hk0 s [] s' E. unfold NV_TRX_INIT, __nv_trx_init in E.
  apply cmd_bind_Ret_inv in E as ([r t] & s2 & E1 & E). apply cmd_bind_Ret_inv in E1 as (id & s1 & En & E1).
  apply on_nbd_Ret_inv in En as (h & En & ->). apply cursor_new_history in En as [-> Hid].
  rewrite Hid. cbn [trx_id] in E1. destruct (s32 id <=? 0) eqn:Hle.
  - apply cmd_bind_Ret_inv in E1 as (u & s3 & E3 & E1). injection E1 as <- <- <-. injection E as <-.
    apply quiet_error in E3. rewrite E3. zbool. by rewrite (proj2 (Z.ltb_ge _ _)).
  - injection E1 as <- <- <-. cbn in E. apply Hk0 in E. rewrite E. zbool. rewrite (proj2 (Z.ltb_lt _ _)) by done.
    cbn [st_nbd set_nbd trx_id]. by rewrite <- app_assoc.
Qed.

Definition range_sets (active lower upper lease : bytes) : list (string * bytes) :=
  [("dhcp_active", cstr active); ("dhcp_start", lower); ("dhcp_end", upper); ("dhcp_lease", cstr lease)].

(** The whole transaction that stores a range. *)
Definition range_queries (active lower upper lease : bytes) (h : list nbd_event) : list (list bytes) :=
  new_query :: (if 0 <? opened answer h
                then transaction answer restart_query (h ++ [Asked new_query]) (opened answer h)
                       (range_sets active lower upper lease) true
                else []).

Lemma dhcp_store_sends active lower upper lease :
  sends (range_queries active lower upper lease) (dhcp_store active lower upper lease).
Proof.
  apply init_sends. intros [id st]. do 4 (apply (set_sends (Trx id _)); cbv zeta; cbn [trx_id]; intros ?).
  apply (commit_sends (Trx id _)).
Qed.

Lemma default_keeps name dfl (s : S) v s' : EWF_HDF_GET_DEFAULT pcre_match name dfl s = Ret (v, s') → s' = s.
Proof.
  assert (within (λ s s' : S, s' = s) (EWF_HDF_GET_DEFAULT pcre_match name dfl)) as Hw; [|apply Hw].
  assert (PreOrder (λ s s' : S, s' = s)) as P by by split; [|intros ? ? ? -> ->].
  assert (PreOrder (λ h h' : H, h' = h)) as Q by by split; [|intros ? ? ? -> ->].
  assert (∀ n, within (λ h h' : H, h' = h) (hdf_get_value n)) as Hg by by intros n h o h' [= _ <-].
  unfold EWF_HDF_GET_DEFAULT, on_cgi, on_web, EwfDispatch.on_cgi, EwfDispatch.on_web, on_hdf. within_bind; [|intros; apply within_lift; exact P].
  apply (within_zoom _ _ _ (λ w w', w' = w)). { by intros [] ? ->. }
  apply (within_zoom _ _ _ (λ w w', w' = w)). { by intros [] ? ->. }
  apply (within_zoom _ _ _ (λ w w', w' = w)). { by intros [] ? ->. }
  unfold ewf_hdf_sget_default, ewf_hdf_get_default, ewf_hdf_validate.
  repeat first [apply within_ret; exact Q | apply within_lift; exact Q | apply Hg | (within_bind; [|intros ?]) | case_match].
Qed.

(** The address of the box, in the buffer of the pages. *)
Lemma box_in_buffer P (s : S) :
  asked reads h0 (st_nbd s) → P [str "nvram"; str "get"; str "lan_ipaddr"] = true → length (st_buffer s) = 256%nat →
  ∃ s', get_buffer (from_nv "lan_ipaddr") s = Ret (NBD_SUCCESS, s') ∧ asked_site P s s' ∧
    str_of (st_buffer s') = Some (dotted a b c d).
Proof.
  intros A0 HP Hb. destruct Hip as (Hh & Ht & Hl).
  pose proof (every_get_text answer _ _ (st_buffer s) (st_nbd s) (Hh _ A0) Ht ltac:(lia)) as E. rewrite Hb in E.
  unfold get_buffer, from_nv, nbd_user_config_get, site_state, mbind, cmd_bind, get_st, on_nbd, zoom.
  change (Z.of_nat 256) with 256 in E. rewrite (E : @nbd_get _ site_ops _ _ _ _ = _).
  eexists. split; [reflexivity|]. split; [|by apply held_text].
  exists [Asked [str "nvram"; str "get"; str "lan_ipaddr"]]. split; [done|]. by constructor.
Qed.

Lemma gateway_ok ip x (s : S) :
  str_of (st_buffer s) = Some (dotted a b c d) → str_of ip = Some (dotted a b c x) →
  is_gateway ip s = Ret (bytes_eqb (dotted a b c d) (dotted a b c x), s).
Proof. intros Hb Hx. unfold is_gateway, site_state, mbind, cmd_bind, get_st. by apply same_text_ok. Qed.

(** The range of the request is stored: after queries that read, the transaction, with the
    addresses that share the first three bytes of the box's and end as the request says. *)
Definition stores_range (s s' : S) : Prop :=
  ∃ active tx ty lease lower upper rd,
    field s "dhcp_active" = Some active ∧ field s "dhcp_lease" = Some lease ∧
    field s "dhcp_start_p3" = Some tx ∧ field s "dhcp_end_p3" = Some ty ∧
    let x := st_val (strtol tx 10) in
    let y := st_val (strtol ty 10) in
    leasable x ∧ leasable y ∧ x < y ∧
    str_of lower = Some (dotted a b c x) ∧ str_of upper = Some (dotted a b c y) ∧
    Forall (ApiCtlProofs.allowed reads) rd ∧
    st_nbd s' = st_nbd s ++ rd ++ (Asked <$> range_queries active lower upper lease (st_nbd s ++ rd)).

Lemma dhcp_config_inv rest rest' (s s' : S) :
  asked reads h0 (st_nbd s) → length (st_buffer s) = 256%nat → (∀ n v, field s n = Some v → text v) →
  dhcp_config pcre_match (dotted a b c d ++ 0 :: rest) (dotted m0 m1 m2 m3 ++ 0 :: rest') s = Ret (tt, s') →
  asked_site no_range s s' ∨ stores_range s s'.
Proof.
  intros A0 Hb Hf E. unfold dhcp_config in E. destruct byte_facts as [(Ba & Bb & Bc & Bd) _].
  apply (hdf_get_inv no_range) in E as [|(active & Fa & E)]; [by left| |by repeat constructor|cbn; lia].
  apply (hdf_get_inv no_range) in E as [|(t1 & F1 & E)]; [by left| |by repeat constructor|cbn; lia].
  apply (hdf_get_inv no_range) in E as [|(t2 & F2 & E)]; [by left| |by repeat constructor|cbn; lia].
  apply (hdf_get_inv no_range) in E as [|(lease & Fl & E)]; [by left| |by repeat constructor|cbn; lia].
  destruct (split_ip_ok a b c d rest parts0 Ba Bb Bc Bd) as (p0 & p1 & p2 & p3 & Es & Hparts).
  rewrite Es in E. apply cmd_bind_Ret_inv in E as (z & s1 & Ez & E). injection Ez as <- <-. cbv beta iota in E.
  change (negb (NBU_SUCCESS =? NBU_SUCCESS)) with false in E. cbv iota in E.
  apply cmd_bind_Ret_inv in E as (o1 & s1 & E1 & E). unfold lift in E1.
  destruct (lan_address _ t1 _) as [o| | |] eqn:L1; try done. injection E1 as <- <-.
  destruct o as [lower|]; [|left; by eapply hdf_var_error_asks].
  apply cmd_bind_Ret_inv in E as (o2 & s1 & E1 & E). unfold lift in E1.
  destruct (lan_address _ t2 _) as [o| | |] eqn:L2; try done. injection E1 as <- <-.
  destruct o as [upper|]; [|left; by eapply hdf_var_error_asks].
  apply (lan_address_inv _ t1 _ rest' t1) in L1 as (x & Ex & Hx & Hlow & Hx0 & Hx1); [|done|by eapply Hf|done..].
  apply (lan_address_inv _ t2 _ rest' t2) in L2 as (y & Ey & Hy & Hupp & Hy0 & Hy1); [|done|by eapply Hf|done..].
  destruct (box_in_buffer no_range s A0 eq_refl Hb) as (s1 & E1 & A1 & Hs1).
  destruct (box_in_buffer reads s A0 eq_refl Hb) as (s2 & E2 & (rd & Erd & Hrd) & _).
  rewrite E1 in E2. injection E2 as <-. erewrite cmd_bind_Ret in E by exact E1.
  change (NBD_SUCCESS =? NBD_SUCCESS) with true in E. cbv iota in E.
  erewrite cmd_bind_Ret in E by by apply gateway_ok.
  destruct (bytes_eqb _ (dotted a b c x)) eqn:Gx; [left; etrans; [exact A1|]; by eapply hdf_var_error_asks|].
  erewrite cmd_bind_Ret in E by by apply gateway_ok.
  destruct (bytes_eqb _ (dotted a b c y)) eqn:Gy; [left; etrans; [exact A1|]; by eapply hdf_var_error_asks|].
  unfold to_int in E. rewrite <- Ex, <- Ey, !s32_small in E by (unfold INT_MIN, INT_MAX; lia).
  destruct (y <=? x) eqn:Hxy; [left; etrans; [exact A1|]; by eapply query_error_asks|].
  right. apply bytes_eqb_neq in Gx, Gy. zbool. exists active, t1, t2, lease, lower, upper, rd. cbv zeta. rewrite <- Ex, <- Ey.
  split_and!; [done..| | |lia|done|done|done|].
  - refine (conj Hx (conj _ (conj Hx0 Hx1))). congruence.
  - refine (conj Hy (conj _ (conj Hy0 Hy1))). congruence.
  - apply dhcp_store_sends in E. rewrite E, Erd. by rewrite <- app_assoc.
Qed.

(** C11: Whatever the request and whatever else the daemon answers, the DHCP page either
    stores no end of the range of leases (it only reads, adds or removes a static lease,
    restarts the server), or it stores the range of the request: after reading, it opens
    a cursor and, when it gets one, asks exactly one transaction, which sets dhcp_active,
    dhcp_start, dhcp_end and dhcp_lease in this order, commits when and only when all
    four were accepted, closes the cursor in every case and restarts the server when the
    commit succeeded.  The ends stored are the addresses [a.b.c.x] and [a.b.c.y] of the
    network of the box, [x] and [y] the numbers of the request, with [x] before [y], none
    of them the address of the network, the broadcast address or the address of the box. *)
Theorem dhcp_range_leasable (s s' : S) :
  asked reads h0 (st_nbd s) → length (st_buffer s) = 256%nat → (∀ n v, field s n = Some v → text v) →
  network_dhcp_form pcre_match s = Ret (tt, s') →
  asked_site no_range s s' ∨ stores_range s s'.
Proof.
  intros A0 Hb Hf E. unfold network_dhcp_form, NV_GET, nbd_user_config_get in E.
  erewrite cmd_bind_Ret in E by exact (held_ok _ _ _ _ _ Hip A0). cbv beta iota in E.
  change (negb (0 =? 0)) with false in E. cbv iota in E.
  pose proof (reads_get "nvram" "lan_ipaddr" s (or_introl eq_refl)) as Ar.
  erewrite cmd_bind_Ret in E by exact (held_ok _ _ _ _ _ Hnetmask (transitivity A0 Ar)). cbv beta iota in E.
  change (negb (0 =? 0)) with false in E. cbv iota in E.
  assert (∀ P, P [str "nvram"; str "get"; str "lan_ipaddr"] = true → P [str "nvram"; str "get"; str "lan_netmask"] = true →
    asked_site P s (set_nbd ((st_nbd s ++ [Asked [str "nvram"; str "get"; str "lan_ipaddr"]]) ++
      [Asked [str "nvram"; str "get"; str "lan_netmask"]]) s)) as A.
  { intros P P1 P2. eexists. rewrite <- app_assoc. split; [reflexivity|]. by repeat constructor. }
  cbn [st_nbd set_nbd] in E. set (s1 := set_nbd _ s) in A. change (set_nbd _ (set_nbd _ s)) with s1 in E.
  apply cmd_bind_Ret_inv in E as (action & s2 & Ea & E). apply default_keeps in Ea as ->.
  apply cmd_bind_Ret_inv in E as (add & s2 & Ea & E). unfold lift in Ea.
  destruct (equals _ _); try done. injection Ea as -> <-.
  destruct add.
  { left. etrans; [by apply A|]. refine ((_ : within (asked_site no_range) _) s1 tt s' E). unfold dhcp_add, dhcp_restart. page. }
  apply cmd_bind_Ret_inv in E as (remove & s2 & Er & E).
  assert (s2 = s1) as ->.
  { unfold same_text in Er. apply cmd_bind_Ret_inv in Er as (z & s3 & Ez & Er). unfold lift in Ez.
    destruct (nbu_string_compare _ _); try done. injection Ez as _ <-. by injection Er as _ <-. }
  destruct remove.
  { left. etrans; [by apply A|]. refine ((_ : within (asked_site no_range) _) s1 tt s' E). unfold dhcp_remove, dhcp_restart. page. }
  unfold cstr in E. rewrite <- !app_assoc in E.
  apply dhcp_config_inv in E as [A1|Hst]; [| |exact (transitivity A0 (A reads eq_refl eq_refl))|done|done].
  - left. etrans; [by apply A|exact A1].
  - right. destruct Hst as (active & tx & ty & lease & lower & upper & rd & Fa & Fl & Fx & Fy & Hx & Hy & Hxy & Hl & Hu & Hrd & E1).
    exists active, tx, ty, lease, lower, upper,
      ([Asked [str "nvram"; str "get"; str "lan_ipaddr"]; Asked [str "nvram"; str "get"; str "lan_netmask"]] ++ rd).
    cbv zeta. split_and!; [done..| |]; [by repeat constructor|].
    cbn [st_nbd set_nbd s1] in E1. rewrite <- !app_assoc in E1. rewrite E1. cbn [app]. by rewrite <- ?app_assoc.
Qed.

End dhcp_range.

End rights.

End pages_proofs.

(** ** Examples *)

(** The box at 192.168.1.1: the cursors are numbered 7, every change is accepted. *)
Definition router_says (_ : list nbd_event) (args : list bytes) : Z * bytes :=
  match args with
  | [_; v; k] =>
      if bytes_eqb v (str "cursor") then (0, str "7")
      else if bytes_eqb k (str "lan_ipaddr") then (0, str "192.168.1.1")
      else if bytes_eqb k (str "lan_netmask") then (0, str "255.255.255.0")
      else (0, [])
  | _ => (0, [])
  end.

Section router.
#[local] Existing Instance no_xml.
#[local] Instance router_daemon : NbdOps (list nbd_event) := every_daemon router_says.
#[local] Instance router_link : NbdLink (list nbd_event) := every_link router_says.

Definition router_site (q : gmap bytes bytes) : site (gmap bytes bytes) (list nbd_event) :=
  Site (EwfDispatch.Web (demo_world q) [] None false EwfDispatch.CONTENT_TYPE_AUTO []) [] (replicate 256 0) (replicate 256 0).

Definition seen {Y} (f : site (gmap bytes bytes) (list nbd_event) → Y)
    (r : outcome (unit * site (gmap bytes bytes) (list nbd_event))) : option Y :=
  match r with Ret (_, a) => Some (f a) | _ => None end.

Definition dhcp_range : gmap bytes bytes :=
  <[query (lit "dhcp_active") := lit "on"]> (<[query (lit "dhcp_start_p3") := lit "20"]>
  (<[query (lit "dhcp_end_p3") := lit "100"]> {[query (lit "dhcp_lease") := lit "86400"]})).

Definition no_pattern (_ _ : bytes) : option bool := None.
Definition no_tree (_ : gmap bytes bytes) (_ : bytes) : option (list (bytes * option bytes)) := None.
Definition length_digest (t : bytes) : bytes := replicate 32 (Z.of_nat (length t) mod 256).

(** A request of the DHCP page with a good range: eleven queries, seven of which are its
    transaction, and no cursor is left. *)
Lemma pages_run_transactions_witness :
  ∃ s', network_dhcp_form no_pattern (router_site dhcp_range) = Ret (tt, s') ∧ length (st_nbd s') = 11%nat ∧
    cursors_of router_says (st_nbd s') = Idle.
Proof.
  assert (seen (λ s, length (st_nbd s)) (network_dhcp_form no_pattern (router_site dhcp_range)) = Some 11%nat) as Hf
    by (vm_compute; reflexivity).
  destruct (network_dhcp_form no_pattern (router_site dhcp_range)) as [[[] s']| | |] eqn:E; try discriminate Hf.
  cbn [seen] in Hf. exists s'. injection Hf as Hn. split_and!; [reflexivity|exact Hn|].
  exact (pages_run_transactions (X := unit) router_says no_pattern no_tree false false false EwfSmithProofs.demo_clock (λ _, None)
    (λ t, t) (λ _ t, t) None None 1 false false false (λ _, []) "/network/dhcp" Form (network_dhcp_form no_pattern)
    (router_site dhcp_range) s' ltac:(repeat first [apply list_elem_of_here | apply list_elem_of_further]) E eq_refl).
Defined.

(** The form of the WAN page without a login leaves its cursor open. *)
Lemma wan_form_leaks_cursor :
  ∃ s', network_wan_form no_pattern false (router_site ∅) = Ret (tt, s') ∧ cursors_of router_says (st_nbd s') = Open 7 true.
Proof.
  assert (seen (λ s, cursors_of router_says (st_nbd s)) (network_wan_form no_pattern false (router_site ∅)) = Some (Open 7 true)) as Hf
    by (vm_compute; reflexivity).
  destruct (network_wan_form no_pattern false (router_site ∅)) as [[[] s']| | |] eqn:E; try discriminate Hf.
  cbn [seen] in Hf. exists s'. split; [reflexivity|congruence].
Qed.

(** Requests whose fields are texts. *)
Lemma fields_text (q : gmap bytes bytes) : bool_decide (map_Forall (λ _ v, text v) q) = true →
  ∀ n v, field (router_site q) n = Some v → text v.
Proof. intros Hq n v. apply bool_decide_eq_true in Hq. apply Hq. Qed.

Lemma dhcp_range_leasable_witness :
  ∃ s', network_dhcp_form no_pattern (router_site dhcp_range) = Ret (tt, s') ∧
    drop 4 (st_nbd s') = Asked <$>
      [cset_query 7 "dhcp_active" (str "on");
       cset_query 7 "dhcp_start" (cstr (lit "192.168.1.20") ++ replicate 3 0);
       cset_query 7 "dhcp_end" (cstr (lit "192.168.1.100") ++ replicate 2 0);
       cset_query 7 "dhcp_lease" (str "86400"); commit_query 7; close_query 7; restart_query] ∧
    (asked_site no_range (router_site dhcp_range) s' ∨
     stores_range router_says 192 168 1 1 8 (router_site dhcp_range) s').
Proof.
  assert (seen (λ s, drop 4 (st_nbd s)) (network_dhcp_form no_pattern (router_site dhcp_range)) = Some (Asked <$>
      [cset_query 7 "dhcp_active" (str "on");
       cset_query 7 "dhcp_start" (cstr (lit "192.168.1.20") ++ replicate 3 0);
       cset_query 7 "dhcp_end" (cstr (lit "192.168.1.100") ++ replicate 2 0);
       cset_query 7 "dhcp_lease" (str "86400"); commit_query 7; close_query 7; restart_query])) as Hf
    by (vm_compute; reflexivity).
  destruct (network_dhcp_form no_pattern (router_site dhcp_range)) as [[[] s']| | |] eqn:E; try discriminate Hf.
  cbn [seen] in Hf. exists s'. injection Hf as Hn. split_and!; [reflexivity|exact Hn|].
  apply (dhcp_range_leasable router_says no_pattern [] 192 168 1 1 255 255 255 0 8).
  - by repeat constructor.
  - lia.
  - lia.
  - vm_compute. reflexivity.
  - split_and!; [intros h _; vm_compute; reflexivity|apply dotted_text; lia|vm_compute; lia].
  - split_and!; [intros h _; vm_compute; reflexivity|apply dotted_text; lia|vm_compute; lia].
  - exists []. split; [reflexivity|constructor].
  - reflexivity.
  - apply fields_text. vm_compute. reflexivity.
  - exact E.
Defined.
End router.

(** A box whose administrator has a password of six letters; the button is off. *)
Definition admin_says (_ : list nbd_event) (args : list bytes) : Z * bytes :=
  match args with
  | [_; _; k] =>
      if bytes_eqb k (str "web_auth") then (0, str "passwd")
      else if bytes_eqb k (str "web_login") then (0, str "admin")
      else if bytes_eqb k (str "web_password") then (0, cstr (hex (length_digest (lit "secret"))))
      else (0, str "off")
  | _ => (0, [])
  end.

Section administrator.
#[local] Instance admin_daemon : NbdOps (list nbd_event) := every_daemon admin_says.
#[local] Instance admin_link : NbdLink (list nbd_event) := every_link admin_says.

Definition forged : gmap bytes bytes :=
  <[query (lit "web_auth") := lit "off"]> (<[query (lit "web_old_login") := lit "admin"]>
  {[query (lit "web_old_password") := lit "guess"]}).

(** With a wrong password the page reads three values. *)
Lemma admin_form_confirmed_witness :
  ∃ s', maintenance_admin_form no_pattern false length_digest (router_site forged) = Ret (tt, s') ∧
    length (st_nbd s') = 3%nat ∧ asked_site reads (router_site forged) s'.
Proof.
  assert (seen (λ s, length (st_nbd s)) (maintenance_admin_form no_pattern false length_digest (router_site forged)) = Some 3%nat)
    as Hf by (vm_compute; reflexivity).
  destruct (maintenance_admin_form no_pattern false length_digest (router_site forged)) as [[[] s']| | |] eqn:E;
    try discriminate Hf.
  cbn [seen] in Hf. exists s'. injection Hf as Hn. split_and!; [reflexivity|exact Hn|].
  destruct (admin_form_confirmed admin_says no_pattern [] false length_digest
    ltac:(intros t; split; [reflexivity|apply Forall_replicate, Z.mod_pos_bound; lia])
    (lit "passwd") (lit "admin") (hex (length_digest (lit "secret"))) (lit "off")
    ltac:(split_and!; [intros h _; vm_compute; reflexivity|by repeat constructor|cbn; lia])
    ltac:(split_and!; [intros h _; vm_compute; reflexivity|by repeat constructor|cbn; lia])
    ltac:(split_and!; [intros h _; vm_compute; reflexivity|vm_compute; by repeat constructor|vm_compute; lia])
    ltac:(split_and!; [intros h _; vm_compute; reflexivity|by repeat constructor|cbn; lia])
    (router_site forged) s' ltac:(exists []; split; [reflexivity|constructor]) ltac:(apply fields_text; vm_compute; reflexivity) E) as [A|A]; [exact A|].
  rewrite decide_False in A by (intros [?|?]; discriminate). destruct A as (p & _ & Hp & Hd).
  vm_compute in Hp. injection Hp as <-. vm_compute in Hd. discriminate Hd.
Defined.

Definition ask_key : gmap bytes bytes := {[query (lit "name") := lit "wlan_wl0_wpakey"]}.

(** The kit does not tell the key of the wireless network: only the button was looked at. *)
Lemma kit_needs_button_witness :
  ∃ s', kit_get_form no_pattern false (router_site ask_key) = Ret (tt, s') ∧
    st_nbd s' = [Asked [str "status"; str "get"; str "web_autologin"]] ∧
    asked_site not_wireless (router_site ask_key) s'.
Proof.
  assert (seen st_nbd (kit_get_form no_pattern false (router_site ask_key))
    = Some [Asked [str "status"; str "get"; str "web_autologin"]]) as Hf by (vm_compute; reflexivity).
  destruct (kit_get_form no_pattern false (router_site ask_key)) as [[[] s']| | |] eqn:E; try discriminate Hf.
  cbn [seen] in Hf. exists s'. injection Hf as Hn. split_and!; [reflexivity|exact Hn|].
  exact (kit_needs_button admin_says no_pattern false
    ltac:(intros h; eexists; vm_compute; reflexivity) _ (router_site ask_key) s' ltac:(apply list_elem_of_here)
    ltac:(apply fields_text; vm_compute; reflexivity) E).
Defined.

End administrator.
